(* ===== verification/_CoqProject ===== *)
-Q . S2P
Prelude.v
Patterns.v
Utils.v
Log.v
PriorityQueue.v
QueueConsumers.v
CanFrame.v
ModuleQueue.v
Lru.v
Timer.v
TimerLoop.v
FileUtils.v
EventLoop.v
Sqlite.v
CanLog.v
SqliteDemo.v
PreparedStmt.v
Template.v
SqlStore.v
Retention.v
RelayCnt.v
Database.v
Config.v
MergeTemplate.v
ConfigTools.v
Fcgi.v
Json.v
OcppEnums.v
OcppConfig.v
OcppSettings.v
OcppDatabase.v
OcppRecords.v
OcppTime.v
OcppAuthCache.v
OcppLocalList.v
OcppStatus.v
OcppTimers.v
OcppThreadPool.v
OcppExecutor.v
OcppConnectors.v
OcppChargePoint.v
OcppClient.v
Regex.v
Url.v
OcppConnect.v
OcppWebSocket.v
OcppSession.v
OcppValidator.v
Program.v
