(* ===== verification/Prelude.v ===== *)
(** * A verification library for the charging-station control program

    The program under [src/src] controls a DC charging station: it schedules
    tasks for power modules on a CAN bus, keeps configuration and counters in
    files and in a SQLite database, answers web requests, and talks to a
    central system with OCPP.  This library translates its parts into
    definitions, function by function, and proves what makes them correct.

    ** Conventions

    A C integer is a [Z] with its wrap-around written out ([Prelude]).  An
    access outside an array, a use of freed memory or a failed assertion is a
    value: [None], or [Undefined] of the type [outcome] of [Sqlite], whose
    [Blocked] is a lock that is never free.  The allocator, the clock, the
    file system and the network give the answers of a list, a function or a
    parameter, so a theorem holds for all of them.  Third-party code (SQLite,
    the JSON libraries, FastCGI, the web socket) is a class of operations with
    laws that state its documented behaviour; every law is shown to be
    satisfiable by a small instance in a witness.  A function that takes a
    mutex on entry and gives it back on return is one step; where threads
    interleave there is a step relation, and the theorems are about every
    reachable state.

    ** Parts

    - [Prelude]: integers, arrays, clock, allocator, bytes, the closure of a
      step relation, tactics.
    - [Utils], [FileUtils], [Log]: [utils/utils.c], [utils/file_utils.c]; time
      in milliseconds, byte orders, recursive directories, file contents, the
      directory part of a path, the lines of the log and the core dump.
    - [PriorityQueue], [QueueConsumers]: [utils/priority_queue]; the array
      heap with its three comparators, bounded push, pop, clearing; the
      blocking consumers as a step relation.
    - [CanFrame], [ModuleQueue]: [can/can.c], [can/module_queue_manager.c];
      the 29-bit identifier and the payload of a frame, one task queue per
      power module, the worker pool that sends the frames, on top of
      [PriorityQueue].
    - [Lru]: [utils/cache/lru.c]; both linked stores of the cache with their
      addresses, refined to a list of entries in order of use.
    - [Timer], [TimerLoop]: [utils/timer.c]; the doubly linked list of running
      timers, the operations on it, a pass of the timer thread, and the thread.
    - [EventLoop]: [peventloop]; clock selection, allocation of a loop,
      close-on-exec.
    - [Sqlite], [SqliteDemo], [SqlStore]: the interface of SQLite, a small
      database that satisfies its laws, and what the statements mean as
      functions of stored tables.
    - [PreparedStmt], [Template], [Retention], [RelayCnt], [Database]:
      [database]; the cache of statements on top of [Lru], the templates that
      bind, step and give back, the policies that bound a table, the relay
      counters, and the layer that creates, holds and closes all of them.
    - [CanLog]: [utils/my_candump.c]; the double buffer between the thread that
      reads the bus and the one that writes the log.
    - [Config], [MergeTemplate], [ConfigTools]: [config]; the two tables of
      settings with files, locks and callbacks, the merge of a tree with a
      template, the keys of a tree and the settings the program starts with.
    - [Fcgi]: [fcgi], [relay]; requests, error codes, dispatch and the
      controller of the relay counters, on top of [RelayCnt].
    - [Json]: the values of the JSON library of the OCPP code.
    - [Regex], [Url], [OcppValidator]: [ocpp/tool/url], [ocpp/tool/jsonValidator];
      the search of [std::regex], the parser, the printer and the encoding of
      addresses, the schemas of messages.
    - [OcppEnums]: [ocpp/common/BidirectionalMap.h], [ocpp/type]; the
      enumerations and their names.
    - [OcppConfig], [OcppSettings]: [ocpp/config]; the completion of a document
      from the defaults, and the manager with its cache file, its subscribers
      and the tasks of its workers.
    - [OcppDatabase], [OcppExecutor]: [ocpp/tool/database]; the connection, its
      queries with their bindings and columns, as a class of an engine and of
      tables that the clients below use, and the thread that does the work of
      the database for its callers.
    - [OcppRecords]: [ocpp/action/transaction], [ocpp/security-extension],
      [ocpp/type/OcppStatus.h]; the records of transactions, meter values and
      certificates.
    - [OcppAuthCache], [OcppLocalList]: [ocpp/action/authorize]; the bounded
      cache of identifications, and the list the central system sends.
    - [OcppTime], [OcppTimers], [OcppThreadPool]: [ocpp/common/Time.h],
      [ocpp/tool/timer], [ocpp/tool/threadpool]; dates and their texts, timers
      with the thread that waits for the first of them, and the worker threads.
    - [OcppStatus], [OcppConnectors]: [ocpp/action/status], [ocpp/Connector];
      the notification of a status, and the connectors with their transitions,
      kept in the database.
    - [OcppConnect], [OcppWebSocket], [OcppClient]: [ocpp/client],
      [ocpp/common/Connon.cpp], [ocpp/common/Queue.h]; what the settings say of
      the connection, the callbacks of the web socket and its queue, and calls,
      responses, retries and the send threads, as step relations.
    - [OcppSession]: the client of [OcppClient] on the web socket of
      [OcppWebSocket], as one system.
    - [OcppChargePoint]: [ocpp/ChargePoint.cpp]; the start, on top of the
      settings, the database and the connectors.
    - [Program]: [main.cpp] and what it runs, [tcp], [database/sqlite_base.c],
      [database/dao/sql_trace.c].
    - [Patterns]: [mode]; the composite, the singleton under threads, the
      template method and the prototype.

    ** What the theorems show

    - Refinement of a simple specification: the LRU cache
      ([lru_implements_spec]), the relay counters ([relay_cnt_refines]), the
      cache of identifications ([auth_cache_refines]), the executor of the
      database, which is a monitor ([executor_refines_monitor]); equivalence with a
      reference: the merge of trees, the differences of documents, the hosts of
      URLs, the credentials of a security profile.
    - Invariants and safety over all interleavings: timers, module queues, the
      CAN log, blocking consumers, OCPP calls, worker threads, the messages of
      the web socket; no access outside memory in the heap, the cache, the
      timer list, the event loop and the assembly of messages, whichever
      allocation fails.
    - Function of each operation on every branch, error paths included:
      settings, web requests, queries, policies, frames, task passes,
      authorization, transitions of connectors, the start.
    - Round trips: typed values in the cache, settings and connectors through
      their files and tables and a restart, dates, names of enumerations, URLs,
      percent encoding, frames through the byte orders.
    - Termination and progress: the flag loop of the event loop, rows of a
      query, the retry thread, the wakeup of consumers, the timers that are
      due ([first_timer_called] says how late they are called), the tasks of a stopped pool, the queue of a connection.
    - Composition: [connects_as_configured] takes an identifier of the settings
      through the encoding, the parser and the web socket to the request the
      library gets; [config_model_outcome] takes the start through the settings
      to the database; [session_messages_in_order] takes the messages of a
      client through its queue and the web socket to the peer, and
      [no_call_succeeds] shows that no call of the client as it is written
      gets its response.

    ** Bounds and fuel

    Loops over data are structural.  The loops that are not take fuel, and
    their theorems give an amount that is enough: the rows of a query their
    number plus one ([Template]), the closing of a connection its statements
    plus one, the flag loop the number of interrupted calls plus two
    ([EventLoop]), the timer pass the length of its list ([Timer]).

    The search of an expression repeats at most as often as the text has
    characters ([Regex]), since a round that consumes nothing is refused; the
    writing callback has one round more than messages ([OcppWebSocket]).

    ** Not modelled

    [test] holds small clients and servers for trials by hand; [lighttpd], [lib] and the rest of
    [include] are third-party, and [main.i] is preprocessor output.  Of the
    OCPP code the interfaces ([ocpp/interface], [ocpp/action/Action.h],
    [ITXDBHandle.h]) have no implementation, and the key names and the version
    are constants.  Columns of type [double], and exceptions that a task hands
    to its caller, are left out of the database, and the text of the trace of
    SQLite is.  Of the web socket the retry times are handed to the library and
    left out, and so is the recursion depth of the language's regular
    expressions.  Data races are not modelled: where the code reads a variable
    without its lock, a read is one step. *)

From stdpp Require Export prelude list gmap strings fin_maps.
From Stdlib Require Export ZArith Lia.

#[global] Open Scope Z_scope.

(** ** Machine integers

    A C integer of width [w] is a [Z].  A conversion to a fixed width is the
    two's-complement conversion the compiler implements. *)

Definition uint (w : Z) (z : Z) : Z := z mod 2 ^ w.
Definition sint (w : Z) (z : Z) : Z := (z + 2 ^ (w - 1)) mod 2 ^ w - 2 ^ (w - 1).

Abbreviation uint8 := (uint 8).
Abbreviation uint16 := (uint 16).
Abbreviation uint32 := (uint 32).
Abbreviation uint64 := (uint 64).
Abbreviation int32 := (sint 32).
Abbreviation int64 := (sint 64).

Definition INT32_MIN : Z := - 2147483648.
Definition INT32_MAX : Z := 2147483647.
Definition in_int32 (z : Z) : Prop := INT32_MIN <= z <= INT32_MAX.
Definition in_int64 (z : Z) : Prop := - 2 ^ 63 <= z < 2 ^ 63.

(** ** Arrays of a fixed number of slots

    An access outside the allocated slots is undefined behaviour in C; here
    it is [None], so that a theorem that an operation returns [Some _] is a
    theorem that it stays inside its array. *)

Section Arrays.
Context {A : Type}.

Definition arr_get (l : list A) (i : Z) : option A :=
  if 0 <=? i then l !! Z.to_nat i else None.

Definition arr_set (l : list A) (i : Z) (x : A) : option (list A) :=
  if (0 <=? i) && (i <? Z.of_nat (length l))
  then Some (<[Z.to_nat i := x]> l) else None.

(** [tmp = l[i]; l[i] = l[j]; l[j] = tmp] *)
Definition arr_swap (l : list A) (i j : Z) : option (list A) :=
  tmp ← arr_get l i;
  y ← arr_get l j;
  l' ← arr_set l i y;
  arr_set l' j tmp.

End Arrays.

(** ** The clock

    [clock_gettime(CLOCK_MONOTONIC, ..)] returns whatever reading the kernel
    has when it is called: the model threads the sequence of readings, in
    nanoseconds, and the number of readings already taken. *)

Record clock := Clock { reading : nat -> Z; tick : nat }.

Definition clock_now (c : clock) : Z := reading c (tick c).
Definition clock_read (c : clock) : Z * clock :=
  (clock_now c, Clock (reading c) (S (tick c))).

(** The readings of a monotonic clock never decrease. *)
Definition monotonic (c : clock) : Prop :=
  forall i j, (i <= j)%nat -> reading c i <= reading c j.

(** ** The allocator

    Every [malloc] may fail; the outcomes of the calls to come are a list of
    booleans, and a call past its end succeeds. *)

Definition malloc (o : list bool) : bool * list bool :=
  match o with
  | [] => (true, [])
  | b :: o' => (b, o')
  end.

(** ** Byte sequences *)

Fixpoint le_bytes (n : nat) (z : Z) : list Z :=
  match n with
  | O => []
  | S n' => z mod 256 :: le_bytes n' (z / 256)
  end.

Fixpoint le_value (bs : list Z) : Z :=
  match bs with
  | [] => 0
  | b :: bs' => b + 256 * le_value bs'
  end.

Definition be_value (bs : list Z) : Z := le_value (rev bs).

(** A text as C has it: up to its first null. *)
Fixpoint c_string (s : string) : string :=
  match s with
  | EmptyString => EmptyString
  | String c rest => if Ascii.eqb c Ascii.zero then EmptyString else String c (c_string rest)
  end.

Definition bytes_of_string (s : string) : list Z := (fun c => Z.of_N (Ascii.N_of_ascii c)) <$> String.list_ascii_of_string s.
Definition string_of_bytes (l : list Z) : string := String.string_of_list_ascii ((fun z => Ascii.ascii_of_N (Z.to_N z)) <$> l).

(** ** Transition closures *)

Inductive reachable {S : Type} (step : S -> S -> Prop) (init : S -> Prop) : S -> Prop :=
  | reach_init s : init s -> reachable step init s
  | reach_step s s' : reachable step init s -> step s s' -> reachable step init s'.

(** ** Automation *)

Create HintDb csem.

Ltac opt_inv :=
  repeat match goal with
  | H : Some _ = Some _ |- _ => injection H as H; subst
  | H : None = Some _ |- _ => discriminate H
  | H : Some _ = None |- _ => discriminate H
  | H : mbind _ _ = Some _ |- _ => apply bind_Some in H as (? & ? & H)
  end.

Ltac bool_cases :=
  repeat match goal with
  | |- context [Z.leb ?a ?b] => destruct (Z.leb_spec a b)
  | |- context [Z.ltb ?a ?b] => destruct (Z.ltb_spec a b)
  | |- context [Z.eqb ?a ?b] => destruct (Z.eqb_spec a b)
  | |- context [Z.geb ?a ?b] => rewrite (Z.geb_leb a b)
  | |- context [Z.gtb ?a ?b] => rewrite (Z.gtb_ltb a b)
  | H : context [Z.leb ?a ?b] |- _ => destruct (Z.leb_spec a b)
  | H : context [Z.ltb ?a ?b] |- _ => destruct (Z.ltb_spec a b)
  | H : context [Z.eqb ?a ?b] |- _ => destruct (Z.eqb_spec a b)
  | H : context [Z.geb ?a ?b] |- _ => rewrite (Z.geb_leb a b) in H
  | H : context [Z.gtb ?a ?b] |- _ => rewrite (Z.gtb_ltb a b) in H
  end.

(** ** Lemmas on integers *)

Lemma sint32_id z : in_int32 z -> int32 z = z.
Proof. unfold in_int32, INT32_MIN, INT32_MAX, sint. intros. rewrite Z.mod_small; lia. Qed.

Lemma sint32_range z : in_int32 (int32 z).
Proof.
  unfold in_int32, INT32_MIN, INT32_MAX, sint.
  pose proof (Z.mod_pos_bound (z + 2 ^ (32 - 1)) (2 ^ 32)). lia.
Qed.

Lemma sint64_id z : in_int64 z -> int64 z = z.
Proof. unfold in_int64, sint. intros. rewrite Z.mod_small; lia. Qed.

Lemma uint_range w z : 0 <= w -> 0 <= uint w z < 2 ^ w.
Proof. intros. apply Z.mod_pos_bound. lia. Qed.

Lemma uint_id w z : 0 <= z < 2 ^ w -> uint w z = z.
Proof. intros. by apply Z.mod_small. Qed.

(** ** Lemmas on arrays *)

Section ArrayLemmas.
Context {A : Type}.
Implicit Types l : list A.

Lemma arr_get_some l i :
  0 <= i < Z.of_nat (length l) -> exists x, arr_get l i = Some x.
Proof.
  intros Hi. unfold arr_get. destruct (Z.leb_spec 0 i); [|lia].
  apply lookup_lt_is_Some_2. lia.
Qed.

Lemma arr_get_lookup l (i : nat) : arr_get l (Z.of_nat i) = l !! i.
Proof. unfold arr_get. destruct (Z.leb_spec 0 (Z.of_nat i)); [|lia]. by rewrite Nat2Z.id. Qed.

Lemma arr_get_nat l i : 0 <= i -> arr_get l i = l !! Z.to_nat i.
Proof. intros. unfold arr_get. by destruct (Z.leb_spec 0 i); [|lia]. Qed.

Lemma arr_get_Some_range l i x :
  arr_get l i = Some x -> 0 <= i < Z.of_nat (length l).
Proof.
  unfold arr_get. destruct (Z.leb_spec 0 i); [|done].
  intros H1%lookup_lt_Some. lia.
Qed.

Lemma arr_set_some l i x :
  0 <= i < Z.of_nat (length l) -> arr_set l i x = Some (<[Z.to_nat i := x]> l).
Proof.
  intros Hi. unfold arr_set.
  destruct (Z.leb_spec 0 i), (Z.ltb_spec i (Z.of_nat (length l))); simpl; lia || done.
Qed.

Lemma arr_swap_some l i j x y :
  arr_get l i = Some x -> arr_get l j = Some y ->
  arr_swap l i j = Some (<[Z.to_nat j := x]> (<[Z.to_nat i := y]> l)).
Proof.
  intros Hx Hy. pose proof (arr_get_Some_range _ _ _ Hx).
  pose proof (arr_get_Some_range _ _ _ Hy).
  unfold arr_swap. rewrite Hx, Hy; simpl. rewrite arr_set_some by lia; simpl.
  rewrite arr_set_some; [done|]. rewrite length_insert. lia.
Qed.

End ArrayLemmas.

Lemma sum_insert {A} (f : A -> nat) l i x y : l !! i = Some x -> (sum_list_with f (<[i := y]> l) + f x = sum_list_with f l + f y)%nat.
Proof.
  revert i. induction l as [|z l IH]; intros [|i] Hi; [done|done|injection Hi as ->; change (<[0%nat := y]> (x :: l)) with (y :: l); cbn; lia|].
  change (<[S i := y]> (z :: l)) with (z :: <[i := y]> l). specialize (IH i Hi). cbn. lia.
Qed.

(** ** Lemmas on texts and bytes *)

Lemma length_string_app (a b : string) : String.length (a ++ b)%string = (String.length a + String.length b)%nat.
Proof. induction a as [|c a IH]; [done|]. change (S (String.length (a ++ b)%string) = S (String.length a + String.length b))%nat. by rewrite IH. Qed.

Lemma string_app_assoc (a b c : string) : ((a ++ b) ++ c)%string = (a ++ (b ++ c))%string.
Proof. induction a as [|x a IH]; [done|]. change (String x ((a ++ b) ++ c) = String x (a ++ (b ++ c)))%string. by rewrite IH. Qed.
