(* ===== verification/Patterns.v ===== *)
(** * The pattern demonstrations ([src/src/mode])

    [composite.cpp]: components by address, a composite with the addresses of
    its children, which parents may share; [singleton.cpp]: threads that ask for
    the one object with a double check around a lock, as a step relation, where
    reads and writes of the pointer are atomic and in order; [template.cpp] and
    [prototype_pattern.cpp]: what the calls print, and the objects on the heap. *)

From S2P Require Import Prelude.

#[local] Open Scope string_scope.
#[local] Open Scope Z_scope.

(** ** Composite *)

Module Composite.

Inductive component := Leaf (name : string) | Composite (name : string) (children : list nat).
Definition store : Type := gmap nat component.

(** [None] is the exception of [Component::add] and [Component::remove]. *)
Definition add (parent child : nat) (s : store) : option store :=
  match s !! parent with
  | Some (Composite name children) => Some (<[parent := Composite name (children ++ [child])]> s)
  | _ => None
  end.

Definition remove (parent child : nat) (s : store) : option store :=
  match s !! parent with
  | Some (Composite name children) => Some (<[parent := Composite name (filter (fun c => c <> child) children)]> s)
  | _ => None
  end.

(** The lines with their depth; [None]: it does not return, or follows a
    pointer to nothing. *)
Fixpoint display (fuel : nat) (s : store) (n : nat) (depth : nat) : option (list (nat * string)) :=
  match fuel with
  | O => None
  | S fuel' =>
    match s !! n with
    | None => None
    | Some (Leaf name) => Some [(depth, name)]
    | Some (Composite name children) =>
      lines ← mapM (fun c => display fuel' s c (S depth)) children;
      Some ((depth, name) :: concat lines)
    end
  end.

(** The program of [composite_test]. *)
Definition composite_test : option (list (nat * string)) :=
  let s : store := {[0%nat := Composite "root" []; 1%nat := Composite "Branch A" []; 2%nat := Composite "Branch B" [];
    3%nat := Leaf "Leaf A"; 4%nat := Leaf "Leaf B"; 5%nat := Leaf "Leaf C"]} in
  s ← add 1 3 s; s ← add 2 4 s; s ← add 2 5 s; s ← add 0 1 s; s ← add 0 2 s;
  display 3 s 0 0.

(** *** The trees they stand for *)

#[local] Unset Elimination Schemes.
Inductive tree := Node (name : string) (subtrees : list tree).
#[local] Set Elimination Schemes.

Lemma tree_ind (P : tree -> Prop) : (forall name l, Forall P l -> P (Node name l)) -> forall t, P t.
Proof. intros H. fix IH 1. intros [name l]. apply H. induction l; constructor; [apply IH|done]. Qed.

Fixpoint preorder (depth : nat) (t : tree) : list (nat * string) :=
  match t with Node name l => (depth, name) :: concat (preorder (S depth) <$> l) end.

Fixpoint height (t : tree) : nat := match t with Node _ l => S (list_max (height <$> l)) end.

(** The component at an address stands for a tree. *)
#[local] Unset Elimination Schemes.
Inductive stands_for (s : store) : nat -> tree -> Prop :=
  | stands_leaf n name : s !! n = Some (Leaf name) -> stands_for s n (Node name [])
  | stands_composite n name children l : s !! n = Some (Composite name children) -> Forall2 (stands_for s) children l ->
      stands_for s n (Node name l).
#[local] Set Elimination Schemes.

Lemma stands_inv s n name l : stands_for s n (Node name l) ->
  (s !! n = Some (Leaf name) /\ l = []) \/ exists children, s !! n = Some (Composite name children) /\ Forall2 (stands_for s) children l.
Proof. inversion 1; subst; [by left|right; eauto]. Qed.

Lemma display_tree s t : forall fuel n depth, stands_for s n t -> (height t <= fuel)%nat -> display fuel s n depth = Some (preorder depth t).
Proof.
  induction t as [name l IH] using tree_ind. intros [|fuel] n depth Hst Hf; cbn [height] in Hf; [lia|].
  apply stands_inv in Hst as [[Hn ->]|(children & Hn & Hl)]; cbn [display]; rewrite Hn; [done|].
  assert (Hm : mapM (fun c => display fuel s c (S depth)) children = Some (preorder (S depth) <$> l)); [|by rewrite Hm].
  apply mapM_Some_2. clear Hn. assert (Hh : Forall (fun t => (height t <= fuel)%nat) l).
  { change (Forall ((fun h => (h <= fuel)%nat) ∘ height) l). apply Forall_fmap, list_max_le. lia. }
  clear Hf. induction Hl as [|c t children l Hc _ IHl]; [constructor|]. apply Forall_cons in IH as [IHt IH]. apply Forall_cons in Hh as [Hh1 Hh].
  rewrite fmap_cons. constructor; [by apply IHt|by apply IHl].
Qed.

(** A child below its parent. *)
Definition child_of (s : store) (p c : nat) : Prop := exists name children, s !! p = Some (Composite name children) /\ c ∈ children.

Lemma display_child s p c fuel depth lines : child_of s p c -> display (S fuel) s p depth = Some lines -> is_Some (display fuel s c (S depth)).
Proof.
  intros (name & children & Hp & Hc). cbn [display]. rewrite Hp. intros (l & Hl & _)%bind_Some. apply mapM_Some_1 in Hl.
  apply list_elem_of_lookup in Hc as [i Hi]. destruct (Forall2_lookup_l _ _ _ _ _ Hl Hi) as (y & _ & Hy). by exists y.
Qed.

Lemma display_below s p c : tc (child_of s) p c -> forall fuel depth, is_Some (display fuel s p depth) ->
  exists fuel' depth', (fuel' < fuel)%nat /\ is_Some (display fuel' s c depth').
Proof.
  induction 1 as [p c Hc|p q c Hq _ IH]; intros [|fuel] depth [lines Hd]; try done.
  - exists fuel, (S depth). split; [lia|by eapply display_child].
  - destruct (IH fuel (S depth)) as (f & d & Hf & Hs); [by eapply display_child|]. exists f, d. split; [lia|done].
Qed.

Lemma cycle_never_returns s n : tc (child_of s) n n -> forall fuel depth, display fuel s n depth = None.
Proof.
  intros Hc fuel. induction fuel as [fuel IH] using lt_wf_ind. intros depth. destruct (display fuel s n depth) as [l|] eqn:Hd; [|done].
  destruct (display_below s n n Hc fuel depth) as (f & d & Hf & [l' Hl']); [by exists l|]. by rewrite IH in Hl'.
Qed.

(** *** Properties *)

(** A component that stands for a tree is displayed in its preorder, with as
    many levels as the tree; [add] and [remove] change the list of children of
    their composite alone, and throw on a leaf; a composite that is added below
    itself is never displayed to the end. *)
Theorem composite_operations s p c name children : s !! p = Some (Composite name children) ->
  (forall t depth, stands_for s p t -> display (height t) s p depth = Some (preorder depth t)) /\
  add p c s = Some (<[p := Composite name (children ++ [c])]> s) /\
  (exists l, remove p c s = Some (<[p := Composite name l]> s) /\ ((c ∉ l)) /\ sublist l children /\ (forall x, x ∈ children -> x <> c -> x ∈ l)) /\
  (forall leaf, s !! leaf = Some (Leaf name) -> add leaf c s = None /\ remove leaf c s = None) /\
  (forall s' fuel depth, add p p s = Some s' -> display fuel s' p depth = None).
Proof.
  intros Hp. split_and!.
  - intros t depth Ht. by apply display_tree.
  - unfold add. by rewrite Hp.
  - unfold remove. rewrite Hp. eexists. split; [done|]. split_and!; [|apply sublist_filter|].
    + intros Hin. by apply list_elem_of_filter in Hin as [? _].
    + intros x Hx Hne. by apply list_elem_of_filter.
  - intros leaf Hl. unfold add, remove. by rewrite Hl.
  - intros s' fuel depth. unfold add. rewrite Hp. intros [= <-]. apply cycle_never_returns, tc_once. exists name, (children ++ [p])%list.
    split; [apply lookup_insert_eq|]. apply elem_of_app. right. by apply list_elem_of_singleton.
Qed.

Definition demo_root : store := {[0%nat := Composite "root" []]}.

Lemma composite_operations_witness : exists s', add 0 0 demo_root = Some s' /\ display 2 s' 0 0 = None.
Proof.
  destruct (composite_operations demo_root 0 0 "root" [] (lookup_singleton_eq _ _)) as (_ & Ha & _ & _ & H).
  eexists. split; [exact Ha|]. exact (H _ 2%nat 0%nat Ha).
Defined.

Lemma composite_test_output : composite_test =
  Some [(0%nat, "root"); (1%nat, "Branch A"); (2%nat, "Leaf A"); (1%nat, "Branch B"); (2%nat, "Leaf B"); (2%nat, "Leaf C")].
Proof. by vm_compute. Qed.

End Composite.

(** ** Singleton *)

Module Singleton.

(** Where a thread is in [getInstance]. *)
Inductive point := FirstCheck | WaitLock | SecondCheck | Construct | Unlock | Got (instance : option nat).

(** [created]: how many objects were made; the next has this number. *)
Record singleton_state := State { instance : option nat; holder : option nat; created : nat; threads : list point }.

Definition at_point (i : nat) (x : point) (s : singleton_state) : singleton_state := State (instance s) (holder s) (created s) (<[i := x]> (threads s)).

(** The next step of thread [i]; [None] while it waits or when it has
    returned. *)
Definition getInstance_step (i : nat) (s : singleton_state) : option singleton_state :=
  match threads s !! i with
  | Some FirstCheck => Some (at_point i (match instance s with None => WaitLock | Some _ => Got (instance s) end) s)
  | Some WaitLock =>
    match holder s with None => Some (State (instance s) (Some i) (created s) (<[i := SecondCheck]> (threads s))) | Some _ => None end
  | Some SecondCheck => Some (at_point i (match instance s with None => Construct | Some _ => Unlock end) s)
  | Some Construct => Some (State (Some (created s)) (holder s) (S (created s)) (<[i := Unlock]> (threads s)))
  | Some Unlock => Some (State (instance s) None (created s) (<[i := Got (instance s)]> (threads s)))
  | _ => None
  end.

Definition singleton_step (s s' : singleton_state) : Prop := exists i, getInstance_step i s = Some s'.
Definition reachable_singleton (n : nat) : singleton_state -> Prop := reachable singleton_step (fun s => s = State None None 0 (replicate n FirstCheck)).

(** What is true of a thread at a point. *)
Definition point_ok (s : singleton_state) (i : nat) (x : point) : Prop :=
  match x with
  | FirstCheck | WaitLock => holder s <> Some i
  | SecondCheck => holder s = Some i
  | Construct => holder s = Some i /\ instance s = None
  | Unlock => holder s = Some i /\ instance s = Some 0%nat
  | Got r => holder s <> Some i /\ r = Some 0%nat /\ instance s = Some 0%nat
  end.

Record singleton_ok (s : singleton_state) : Prop := {
  ok_created : (instance s = None /\ created s = 0%nat) \/ (instance s = Some 0%nat /\ created s = 1%nat);
  ok_points i x : threads s !! i = Some x -> point_ok s i x;
  ok_holder i : holder s = Some i -> is_Some (threads s !! i)
}.

(** A step of another thread. *)
Lemma other_ok s s' i j x : j <> i -> point_ok s j x -> (holder s' = Some j <-> holder s = Some j) ->
  instance s' = instance s \/ (instance s = None /\ holder s = Some i) -> point_ok s' j x.
Proof.
  intros Hne Hx Hh [Hin|[Hin Hi]]; destruct x; cbn in *; rewrite ?Hin in *; try tauto; try (destruct Hx; split; tauto); intuition congruence.
Qed.

Lemma threads_ok s s' i y : singleton_ok s -> is_Some (threads s !! i) -> threads s' = <[i := y]> (threads s) -> point_ok s' i y ->
  (forall j, j <> i -> holder s' = Some j <-> holder s = Some j) -> instance s' = instance s \/ (instance s = None /\ holder s = Some i) ->
  (instance s' = None /\ created s' = 0%nat) \/ (instance s' = Some 0%nat /\ created s' = 1%nat) -> singleton_ok s'.
Proof.
  intros [_ Hp Hh] Hi Ht Hy Hhold Hin Hc. split; [done| |].
  - intros j x. rewrite Ht. intros [(-> & -> & _)|[Hne Hj]]%list_lookup_insert_Some; [done|]. eapply other_ok; [by apply not_eq_sym|by apply Hp|by apply Hhold|done].
  - intros j Hj. rewrite Ht, lookup_lt_is_Some, length_insert, <- lookup_lt_is_Some. destruct (decide (j = i)) as [->|Hne]; [done|]. by apply Hh, Hhold.
Qed.

Lemma singleton_step_ok s s' : singleton_ok s -> singleton_step s s' -> singleton_ok s'.
Proof.
  intros Hok [i Hs]. revert Hs. unfold getInstance_step. destruct (threads s !! i) as [x|] eqn:Hi; [|done].
  pose proof (ok_points s Hok i x Hi) as Hx. pose proof (ok_created s Hok) as Hc. assert (His : is_Some (threads s !! i)) by (by exists x).
  destruct x; cbn [point_ok] in Hx; try done.
  - intros [= <-]. eapply (threads_ok s _ i); [done|done|reflexivity| |done|by left|done]. cbn.
    destruct Hc as [[Hin _]|[Hin _]]; by rewrite Hin.
  - destruct (holder s) eqn:Hh; [done|]. intros [= <-]. eapply (threads_ok s _ i); [done|done|reflexivity|done| |by left|done].
    intros j Hne. cbn. rewrite Hh. split; [intros [= ->]; done|done].
  - intros [= <-]. eapply (threads_ok s _ i); [done|done|reflexivity| |done|by left|done]. cbn.
    destruct Hc as [[Hin _]|[Hin _]]; by rewrite Hin.
  - intros [= <-]. destruct Hx as [Hh Hin]. destruct Hc as [[_ Hc]|[? _]]; [|congruence].
    eapply (threads_ok s _ i); [done|done|reflexivity|cbn; by rewrite Hc|done|by right|right; cbn; by rewrite Hc].
  - intros [= <-]. destruct Hx as [Hh Hin]. eapply (threads_ok s _ i); [done|done|reflexivity|done| |by left|done].
    intros j Hne. cbn. rewrite Hh. split; [done|intros [= ->]; done].
Qed.

Lemma reachable_singleton_ok n s : reachable_singleton n s -> singleton_ok s.
Proof.
  induction 1 as [s ->|s s' _ IH Hst]; [|by eapply singleton_step_ok].
  split; cbn; [by left| |done]. intros i x Hx. by apply lookup_replicate in Hx as [-> _].
Qed.

Definition has_returned (x : point) : bool := match x with Got _ => true | _ => false end.

Lemma some_left (l : list point) : (forall i x, l !! i = Some x -> has_returned x = true) \/ exists i x, l !! i = Some x /\ has_returned x = false.
Proof.
  induction l as [|y l [IH|(i & x & Hi & Hx)]]; [by left| |right; by exists (S i), x]. destruct (has_returned y) eqn:Hy; [left|right; by exists 0%nat, y].
  intros [|i] x; cbn; [by intros [= <-]|apply IH].
Qed.

Lemma thread_goes_on s i x : threads s !! i = Some x -> has_returned x = false -> x <> WaitLock \/ holder s = None -> exists s', singleton_step s s'.
Proof.
  intros Hi Hx Hw. assert (Hs : is_Some (getInstance_step i s)); [|destruct Hs as [s' Hs]; exists s'; by exists i].
  unfold getInstance_step. rewrite Hi. destruct x; try done; [|by eexists..]. destruct Hw as [?| ->]; [done|by eexists].
Qed.

(** However the threads interleave, one object is made at most, all threads
    get it, and some thread can go on until all have returned. *)
Theorem one_instance n s : reachable_singleton n s ->
  (created s <= 1)%nat /\ (forall i r, threads s !! i = Some (Got r) -> r = Some 0%nat) /\
  ((exists s', singleton_step s s') \/ forall i x, threads s !! i = Some x -> has_returned x = true).
Proof.
  intros Hr. destruct (reachable_singleton_ok n s Hr) as [Hc Hp Hh]. split; [destruct Hc as [[_ ->]|[_ ->]]; lia|].
  split; [intros i r Hi; by destruct (Hp i _ Hi) as (_ & ? & _)|].
  destruct (some_left (threads s)) as [Hall|(i & x & Hi & Hx)]; [by right|left].
  destruct (holder s) as [j|] eqn:Hhold; [|by eapply thread_goes_on; [| |right]]. destruct (Hh j eq_refl) as [y Hy].
  pose proof (Hp j y Hy) as Hpy. apply (thread_goes_on s j y Hy); [by destruct y; try done; destruct Hpy|left; intros ->; by destruct Hpy].
Qed.

(** Two threads pass the first check before either has the lock. *)
Definition demo_threads : singleton_state := State None None 0 [WaitLock; WaitLock].

Lemma one_instance_witness : (exists s', singleton_step demo_threads s') \/ forall i x, threads demo_threads !! i = Some x -> has_returned x = true.
Proof.
  assert (Hr : reachable_singleton 2 demo_threads).
  { apply (reach_step _ _ (State None None 0 [WaitLock; FirstCheck])); [|by exists 1%nat].
    apply (reach_step _ _ (State None None 0 [FirstCheck; FirstCheck])); [by constructor|by exists 0%nat]. }
  exact (proj2 (proj2 (one_instance 2 demo_threads Hr))).
Defined.

End Singleton.

(** ** Template method and prototype *)

(** [AbstractClass] with the two steps of [ConcreteClass]; what is printed. *)
Class AbstractClass := { method1 : list string; method2 : list string }.
Definition templateMethod `{AbstractClass} : list string := ["模板方法开始"] ++ method1 ++ method2 ++ ["模板方法结束"].
Definition ConcreteClass : AbstractClass := {|
  method1 := ["ConcreteClass: 执行 method1()"];
  method2 := ["ConcreteClass: 执行 method1()"] |}.
Definition template_test : list string := templateMethod (H := ConcreteClass).

(** The dogs on the heap, with their names; [None]: an address that is not in
    use. *)
Abbreviation dog_heap := (gmap nat string).
Definition new_dog (name : string) (h : dog_heap) : nat * dog_heap := let p := fresh (dom h) in (p, <[p := name]> h).
Definition clone (p : nat) (h : dog_heap) : option (nat * dog_heap) := name ← h !! p; Some (new_dog name h).
Definition play (p : nat) (h : dog_heap) : option string := name ← h !! p; Some ("i'm a " ++ name).
Definition delete_dog (p : nat) (h : dog_heap) : option dog_heap := _ ← h !! p; Some (delete p h).

Definition prototype_pattern_test (h : dog_heap) : option (list string * dog_heap) :=
  let '(dog, h) := new_dog "二哈" h in
  '(eha1, h) ← clone dog h; '(eha2, h) ← clone dog h;
  line1 ← play eha1 h; line2 ← play eha2 h;
  h ← delete_dog dog h; h ← delete_dog eha1 h; h ← delete_dog eha2 h;
  Some ([line1; line2], h).

Lemma new_dog_spec name h : let '(p, h') := new_dog name h in h !! p = None /\ h' = <[p := name]> h.
Proof. unfold new_dog. split; [|done]. apply not_elem_of_dom, is_fresh. Qed.

Lemma clone_spec p name h : h !! p = Some name -> clone p h = Some (new_dog name h).
Proof. intros Hp. unfold clone. by rewrite Hp. Qed.

(** A clone is a dog of its own with the name of the first, and the test gives
    back all memory it took, on any heap. *)
Theorem prototype_test_outcome h : prototype_pattern_test h = Some (["i'm a 二哈"; "i'm a 二哈"], h).
Proof.
  unfold prototype_pattern_test. pose proof (new_dog_spec "二哈" h) as H1. destruct (new_dog "二哈" h) as [d h1]. destruct H1 as [Hd ->].
  rewrite (clone_spec d "二哈") by apply lookup_insert_eq. cbn [mbind option_bind].
  pose proof (new_dog_spec "二哈" (<[d := "二哈"]> h)) as H2. destruct (new_dog "二哈" _) as [e1 h2]. destruct H2 as [He1 ->].
  assert (Hne1 : d <> e1) by (intros E; rewrite E in He1; by rewrite lookup_insert_eq in He1).
  rewrite (clone_spec d "二哈") by (by rewrite lookup_insert_ne, lookup_insert_eq). cbn [mbind option_bind].
  pose proof (new_dog_spec "二哈" (<[e1 := "二哈"]> (<[d := "二哈"]> h))) as H3. destruct (new_dog "二哈" _) as [e2 h3]. destruct H3 as [He2 ->].
  apply lookup_insert_None in He1 as [He1 _], He2 as [[He2 Hne3]%lookup_insert_None Hne2].
  set (m := <[e2 := "二哈"]> (<[e1 := "二哈"]> (<[d := "二哈"]> h))).
  assert (M1 : m !! d = Some "二哈") by (unfold m; by rewrite !lookup_insert_ne, lookup_insert_eq by done).
  assert (M2 : m !! e1 = Some "二哈") by (unfold m; by rewrite lookup_insert_ne, lookup_insert_eq by done).
  assert (M3 : m !! e2 = Some "二哈") by (unfold m; by rewrite lookup_insert_eq).
  unfold play, delete_dog. rewrite M2, M3. cbn [mbind option_bind]. rewrite M1. cbn [mbind option_bind].
  rewrite lookup_delete_ne, M2 by done. cbn [mbind option_bind]. rewrite !lookup_delete_ne, M3 by done. cbn [mbind option_bind].
  do 2 f_equal. unfold m. by rewrite (delete_insert_ne _ d e2), (delete_insert_ne _ d e1), (delete_insert_id _ d), (delete_insert_ne _ e1 e2),
    (delete_insert_id _ e1), (delete_insert_id _ e2) by done.
Qed.
