(* ===== verification/Utils.v ===== *)
(** * Utilities ([src/utils/utils.c]) *)

From Stdlib Require Import Ascii.
From S2P Require Import Prelude.

(** [tv_sec * 1000 + tv_nsec / (1000 * 1000)] in [uint64_t]. *)
Definition msec_of (ns : Z) : Z :=
  let tv_sec := ns / 1000000000 in
  let tv_nsec := ns mod 1000000000 in
  uint64 (uint64 (tv_sec * 1000) + tv_nsec / (1000 * 1000)).

Definition gettime_msec (c : clock) : Z * clock :=
  let '(ns, c') := clock_read c in (msec_of ns, c').

(** ** Host byte order

    [host] is [true] on a little-endian machine. *)

(** The bytes of an [n]-byte unsigned object, lowest address first. *)
Definition mem_bytes (host : bool) (n : nat) (v : Z) : list Z :=
  if host then le_bytes n v else rev (le_bytes n v).

Definition mem_value (host : bool) (bs : list Z) : Z :=
  if host then le_value bs else be_value bs.

(** The union of a [uint16_t] holding 1 and the [uint8_t] at its address. *)
Definition is_little_endian (host : bool) : bool :=
  match mem_bytes host 2 1 with
  | c :: _ => c =? 1
  | [] => false
  end.

(** The loop [for (i = 0; i < size / 2; i++)]; [left] counts the iterations
    still to do. *)
Fixpoint swap_ends (left : nat) (tmp : list Z) (size i : Z) : option (list Z) :=
  match left with
  | O => Some tmp
  | S left' => tmp' ← arr_swap tmp i (size - 1 - i); swap_ends left' tmp' size (i + 1)
  end.

(** [src] is the object at the pointer, [None] the null pointer. *)
Definition convert_byte_order (host : bool) (src : option (list Z)) (size : Z)
    (big_endian : bool) : option (option (list Z)) :=
  match src with
  | None => Some None
  | Some tmp =>
    if size =? 0 then Some src else
    if negb (is_little_endian host) && big_endian then Some src else
    tmp' ← swap_ends (Z.to_nat (size / 2)) tmp size 0;
    Some (Some tmp')
  end.

(** [make_dir_recursive]: [mkdir] answers [true] when it succeeds or fails
    with [EEXIST]; [FS] is the file system it acts on.  [hv_strncpy n src] is
    the string libhv leaves in a zeroed buffer. *)
Definition FILE_PATH_MAX_LEN : nat := 128.

Section MakeDir.
Context {FS : Type} (mkdir : FS -> list Ascii.ascii -> bool * FS).
Context (hv_strncpy : nat -> list Ascii.ascii -> list Ascii.ascii).

(** [done] is the part of the path before the cursor, reversed; the loop
    stops at the end of the string. *)
Fixpoint make_dirs (done rest : list Ascii.ascii) (fs : FS) : bool * FS :=
  match rest with
  | [] => mkdir fs (rev done)
  | ch :: rest' =>
    if Ascii.eqb ch "/"%char then
      let '(ok, fs') := mkdir fs (rev done) in
      if ok then make_dirs (ch :: done) rest' fs' else (false, fs')
    else make_dirs (ch :: done) rest' fs
  end.

Definition make_dir_recursive (path : option (list Ascii.ascii)) (fs : FS) : Z * FS :=
  match path with
  | None => (-2, fs)
  | Some path =>
    match hv_strncpy FILE_PATH_MAX_LEN path with
    | [] => let '(ok, fs') := mkdir fs [] in (if ok then -2 else -1, fs')
    | first :: rest =>
      let '(ok, fs') := make_dirs [first] rest fs in
      (if ok then -2 else -1, fs')
    end
  end.

End MakeDir.

(** ** Lemmas on bytes *)

Lemma length_le_bytes n : forall z, length (le_bytes n z) = n.
Proof. induction n; simpl; auto. Qed.

Lemma le_value_bytes n : forall z, le_value (le_bytes n z) = z mod 256 ^ Z.of_nat n.
Proof.
  induction n as [|n IH]; intros z; simpl le_value; simpl le_bytes.
  { by rewrite Z.mod_1_r. }
  simpl le_value. rewrite IH, Nat2Z.inj_succ, Z.pow_succ_r by lia.
  rewrite Z.rem_mul_r by lia. lia.
Qed.

Lemma be_value_rev bs : be_value (rev bs) = le_value bs.
Proof. unfold be_value. by rewrite rev_involutive. Qed.

Lemma length_mem_bytes host n v : length (mem_bytes host n v) = n.
Proof. unfold mem_bytes. destruct host; rewrite ?length_rev; apply length_le_bytes. Qed.

Lemma mem_value_bytes host n v : mem_value host (mem_bytes host n v) = v mod 256 ^ Z.of_nat n.
Proof. destruct host; simpl; rewrite ?be_value_rev; apply le_value_bytes. Qed.

Lemma le_bytes_value bs : Forall (fun b => 0 <= b < 256) bs -> le_bytes (length bs) (le_value bs) = bs.
Proof.
  induction 1 as [|b bs Hb _ IH]; [done|]. simpl. f_equal.
  - rewrite Z.mul_comm, Z.mod_add by lia. apply Z.mod_small. lia.
  - rewrite Z.mul_comm, Z.div_add by lia. rewrite Z.div_small by lia. by rewrite Z.add_0_l.
Qed.

Lemma le_bytes_range n : forall z, Forall (fun b => 0 <= b < 256) (le_bytes n z).
Proof. induction n; intros z; simpl; constructor; auto. apply Z.mod_pos_bound. lia. Qed.

Lemma is_little_endian_host host : is_little_endian host = host.
Proof. by destruct host. Qed.

(** ** [convert_byte_order] reverses the bytes *)

Lemma swap_ends_spec left : forall tmp size i,
  0 <= i -> 2 * (i + Z.of_nat left) <= size -> size <= Z.of_nat (length tmp) ->
  exists tmp', swap_ends left tmp size i = Some tmp' /\ length tmp' = length tmp /\
    forall k, 0 <= k -> tmp' !! Z.to_nat k =
      tmp !! Z.to_nat (if decide (i <= k < i + Z.of_nat left \/
                                 size - 1 - (i + Z.of_nat left) < k <= size - 1 - i)
                       then size - 1 - k else k).
Proof.
  induction left as [|left IH]; intros tmp size i Hi Hsz Hlen; simpl.
  { exists tmp. repeat split. intros k Hk. rewrite decide_False by lia. done. }
  destruct (arr_get_some tmp i) as [x Hx]; [lia|].
  destruct (arr_get_some tmp (size - 1 - i)) as [y Hy]; [lia|].
  rewrite (arr_swap_some _ _ _ _ _ Hx Hy); simpl.
  rewrite arr_get_nat in Hx, Hy by lia.
  destruct (IH (<[Z.to_nat (size - 1 - i):=x]> (<[Z.to_nat i:=y]> tmp)) size (i + 1))
    as (tmp' & -> & Hl & Hk); [lia|lia|rewrite !length_insert; lia|].
  exists tmp'. rewrite Hl, !length_insert. repeat split. intros k Hk0. rewrite Hk by done.
  destruct (decide (k = i)) as [->|Hki].
  { rewrite decide_False by lia. rewrite (decide_True _ _) by lia.
    rewrite list_lookup_insert_ne by lia. rewrite list_lookup_insert_eq by lia. done. }
  destruct (decide (k = size - 1 - i)) as [->|Hke].
  { rewrite decide_False by lia. rewrite (decide_True _ _) by lia.
    rewrite list_lookup_insert_eq by (rewrite length_insert; lia).
    by replace (size - 1 - (size - 1 - i)) with i by lia. }
  destruct (decide (i + 1 <= k < i + 1 + Z.of_nat left \/
    size - 1 - (i + 1 + Z.of_nat left) < k <= size - 1 - (i + 1))).
  - rewrite (decide_True (P := (i <= k < i + Z.of_nat (S left) \/ _))) by lia.
    rewrite !list_lookup_insert_ne by lia. done.
  - rewrite (decide_False (P := (i <= k < i + Z.of_nat (S left) \/ _))) by lia.
    rewrite !list_lookup_insert_ne by lia. done.
Qed.

Lemma swap_ends_rev (tmp : list Z) size : 0 <= size <= Z.of_nat (length tmp) ->
  swap_ends (Z.to_nat (size / 2)) tmp size 0 =
    Some (rev (take (Z.to_nat size) tmp) ++ drop (Z.to_nat size) tmp).
Proof.
  intros Hs. pose proof (Z.div_mod size 2). pose proof (Z.mod_pos_bound size 2).
  destruct (swap_ends_spec (Z.to_nat (size / 2)) tmp size 0) as (tmp' & -> & Hl & Hk); [lia..|].
  f_equal. apply list_eq. intros n. specialize (Hk (Z.of_nat n) ltac:(lia)).
  rewrite Nat2Z.id in Hk. rewrite Hk. clear Hk.
  assert (Hlt : length (rev (take (Z.to_nat size) tmp)) = Z.to_nat size).
  { rewrite length_rev, length_take. lia. }
  destruct (decide (Z.of_nat n < size)).
  - rewrite lookup_app_l by lia. rewrite rev_alt.
    change (rev_append (take (Z.to_nat size) tmp) []) with (reverse (take (Z.to_nat size) tmp)).
    rewrite reverse_lookup by (rewrite length_take; lia). rewrite length_take.
    rewrite lookup_take_lt by lia. case_decide; f_equal; lia.
  - rewrite lookup_app_r by lia. rewrite Hlt, lookup_drop.
    rewrite decide_False by lia. f_equal. lia.
Qed.

Lemma convert_byte_order_spec host tmp size big : 0 <= size <= Z.of_nat (length tmp) ->
  convert_byte_order host (Some tmp) size big =
    Some (Some (if negb host && big then tmp
                else rev (take (Z.to_nat size) tmp) ++ drop (Z.to_nat size) tmp)).
Proof.
  intros Hs. unfold convert_byte_order. rewrite is_little_endian_host.
  destruct (Z.eqb_spec size 0) as [->|].
  { simpl. by destruct (negb host && big). }
  destruct (negb host && big); [done|]. by rewrite swap_ends_rev.
Qed.

(** ** Directories of a path *)

(** The directories [make_dir_recursive] asks for, in order: the path up to
    each of its slashes, except one in first position, and the path. *)
Fixpoint dir_prefixes (done rest : list ascii) : list (list ascii) :=
  match rest with
  | [] => [rev done]
  | ch :: rest' =>
    (if Ascii.eqb ch "/"%char then [rev done] else []) ++ dir_prefixes (ch :: done) rest'
  end.

Definition path_dirs (p : list ascii) : list (list ascii) :=
  match p with [] => [[]] | first :: rest => dir_prefixes [first] rest end.

(** [mkdir] on each of [ds] up to the first that fails. *)
Fixpoint mkdirs {FS : Type} (mkdir : FS -> list ascii -> bool * FS) (ds : list (list ascii)) (fs : FS)
    : bool * FS :=
  match ds with
  | [] => (true, fs)
  | d :: ds' => let '(ok, fs') := mkdir fs d in if ok then mkdirs mkdir ds' fs' else (false, fs')
  end.

Lemma make_dirs_prefixes {FS} (mkdir : FS -> list ascii -> bool * FS) rest : forall done fs,
  make_dirs mkdir done rest fs = mkdirs mkdir (dir_prefixes done rest) fs.
Proof.
  induction rest as [|ch rest IH]; intros done fs; simpl.
  - by destruct (mkdir fs (rev done)) as [[] fs'].
  - destruct (Ascii.eqb ch "/"%char); simpl; [|apply IH].
    destruct (mkdir fs (rev done)) as [[] fs']; [apply IH|done].
Qed.

Lemma dir_prefixes_spec d rest : forall done,
  d ∈ dir_prefixes done rest <->
  d = rev done ++ rest \/ exists l s, rest = l ++ "/"%char :: s /\ d = rev done ++ l.
Proof.
  induction rest as [|ch rest IH]; intros done; simpl.
  - rewrite list_elem_of_singleton, app_nil_r. split; [by left|].
    intros [->|(l & s & Hl & _)]; [done|by destruct l].
  - rewrite elem_of_app, IH. simpl. rewrite <- !app_assoc. simpl. split.
    + intros [Hd|[->|(l & s & -> & ->)]]; [|by left|].
      * destruct (Ascii.eqb_spec ch "/"%char) as [->|]; [|by apply elem_of_nil in Hd].
        apply list_elem_of_singleton in Hd as ->. right. exists [], rest. by rewrite app_nil_r.
      * right. exists (ch :: l), s. by rewrite <- app_assoc.
    + intros [->|([|c l] & s & Heq & ->)]; [by right; left| |].
      * injection Heq as -> ->. left. rewrite app_nil_r. simpl. by apply list_elem_of_singleton.
      * injection Heq as <- ->. right. right. exists l, s. by rewrite <- app_assoc.
Qed.

(** ** Properties *)

(** [make_dir_recursive] creates every directory of the path, parents first,
    stopping at the first [mkdir] that fails: the directories it asks for are
    the path and its prefixes that end at a slash.  It returns [-1] on a
    failure and [-2], its code for a null path, when all of them exist. *)
Theorem make_dir_recursive_parents {FS} (mkdir : FS -> list ascii -> bool * FS) hv_strncpy path fs :
  let p := hv_strncpy FILE_PATH_MAX_LEN path in
  make_dir_recursive mkdir hv_strncpy (Some path) fs =
    (if (mkdirs mkdir (path_dirs p) fs).1 then -2 else -1, (mkdirs mkdir (path_dirs p) fs).2) /\
  (forall d, p <> [] -> d ∈ path_dirs p <->
     d = p \/ exists s, p = d ++ "/"%char :: s /\ d <> []).
Proof.
  intros p. unfold make_dir_recursive. fold p. destruct p as [|first rest].
  { simpl. split; [by destruct (mkdir fs []) as [[] ?]|done]. }
  rewrite make_dirs_prefixes. cbn [path_dirs].
  split; [by destruct (mkdirs mkdir (dir_prefixes [first] rest) fs) as [[] ?]|].
  intros d _. rewrite dir_prefixes_spec. simpl. split.
  - intros [->|(l & s & -> & ->)]; [by left|]. right. by exists s.
  - intros [->|(s & Hs & Hd)]; [by left|]. right. destruct d as [|c d]; [done|].
    injection Hs as <- ->. by exists d, s.
Qed.

(** [convert_byte_order] always reverses the bytes of a value on a
    little-endian machine, also when little-endian was asked for: asking for
    big-endian gives the big-endian bytes of the value on both kinds of
    machine, asking for little-endian the little-endian bytes only on a
    big-endian one. *)
Theorem convert_byte_order_bytes host big n v :
  convert_byte_order host (Some (mem_bytes host n v)) (Z.of_nat n) big =
  Some (Some (if host || big then rev (le_bytes n v) else le_bytes n v)).
Proof.
  rewrite convert_byte_order_spec by (rewrite length_mem_bytes; lia).
  pose proof (length_mem_bytes host n v) as Hl. rewrite Nat2Z.id, take_ge, drop_ge by lia.
  rewrite app_nil_r. unfold mem_bytes. destruct host, big; simpl; by rewrite ?rev_involutive.
Qed.
