(* ===== verification/Log.v ===== *)
(** * The log ([src/src/utils/utils.c])

    A message is formatted in a buffer of 2048 bytes, filtered by its level and
    appended to the log, a file or the standard output, under a mutex.  The text
    the language's [vsnprintf] makes of a format and its arguments is an
    argument here. *)

From Stdlib Require Import Ascii.
From stdpp Require Import pretty.
From S2P Require Import Prelude.

#[local] Open Scope string_scope.
#[local] Open Scope Z_scope.

(** ** Formatting *)

Fixpoint spaces (n : nat) : string := match n with O => "" | S n' => String " " (spaces n') end.
(** [%-5s]. *)
Definition pad_right (width : nat) (s : string) : string := s ++ spaces (width - String.length s).

Fixpoint zeros (n : nat) : string := match n with O => "" | S n' => String "0" (zeros n') end.
(** [%04d] and the like, of a number that is not negative. *)
Definition pad_zero (width : nat) (z : Z) : string := let s := pretty z in zeros (width - String.length s) ++ s.

Definition hex_digit (d : Z) : ascii := ascii_of_N (Z.to_N (if d <? 10 then 48 + d else 87 + d)).

(** [%lx]: at most 16 digits. *)
Fixpoint hex_digits (fuel : nat) (z : Z) (s : string) : string :=
  match fuel with
  | O => s
  | S fuel' => let s' := String (hex_digit (z mod 16)) s in if z / 16 =? 0 then s' else hex_digits fuel' (z / 16) s'
  end.
Definition hex (z : Z) : string := hex_digits 16 z "".

(** [snprintf(buffer + strlen(buffer), size - strlen(buffer), text)]. *)
Definition append_text (size : nat) (buffer text : string) : string :=
  buffer ++ String.substring 0 (size - String.length buffer - 1) text.

(** ** Time *)

Record local_time := LocalTime { lt_year : Z; lt_mon : Z; lt_mday : Z; lt_hour : Z; lt_min : Z; lt_sec : Z }.

(** [%Y-%m-%d %H:%M:%S]; the years count from 1900 and the months from 0. *)
Definition strftime (t : local_time) : string :=
  pad_zero 4 (lt_year t + 1900) ++ "-" ++ pad_zero 2 (lt_mon t + 1) ++ "-" ++ pad_zero 2 (lt_mday t) ++ " " ++
  pad_zero 2 (lt_hour t) ++ ":" ++ pad_zero 2 (lt_min t) ++ ":" ++ pad_zero 2 (lt_sec t).

Definition get_time_with_ms (t : local_time) (tv_usec : Z) (len : nat) : string :=
  append_text len (strftime t) ("." ++ pad_zero 3 (Z.quot tv_usec 1000)).

(** ** Levels *)

Inductive log_level_e := DEBUG_LEVEL | INFO_LEVEL | WARN_LEVEL | ERROR_LEVEL | DEFAULT_LEVEL.

Definition level_code (l : log_level_e) : Z :=
  match l with DEBUG_LEVEL => 0 | INFO_LEVEL => 1 | WARN_LEVEL => 2 | ERROR_LEVEL => 3 | DEFAULT_LEVEL => 4 end.

Definition ESC : string := String "027" "".

(** The color prefix and the level of a type. *)
Definition level_of_type (type : string) : string * log_level_e :=
  if String.eqb type "DEBUG" then (ESC ++ "[34m", DEBUG_LEVEL)
  else if String.eqb type "INFO" then (ESC ++ "[32m", INFO_LEVEL)
  else if String.eqb type "WARN" then (ESC ++ "[35m", WARN_LEVEL)
  else if String.eqb type "ERROR" then (ESC ++ "[31m", ERROR_LEVEL)
  else ("", DEBUG_LEVEL).

(** The part after the last slash. *)
Fixpoint strrchr_slash (file : string) : option string :=
  match file with
  | EmptyString => None
  | String c rest =>
    match strrchr_slash rest with
    | Some s => Some s
    | None => if Ascii.eqb c "/" then Some rest else None
    end
  end.
Definition filename (file : string) : string := default file (strrchr_slash file).

(** ** Writing *)

(** [to_stdout] is the macro [LOG_STDOUT], [log_level] the macro [LOG_LEVEL];
    [opens]: whether the file can be opened. *)
Record log_config := LogConfig { to_stdout : bool; log_level : Z; opens : bool }.

(** What the log holds afterwards; [None]: a null stream is used. *)
Definition write_frm_td (c : log_config) (str : string) (level : log_level_e) (log : string) : option string :=
  if log_level c <? level_code level then Some log
  else if to_stdout c then Some (log ++ str)
  else if opens c then Some (log ++ str) else None.

Definition LOG_BUFFER : nat := 2048.

Definition log_header (c : log_config) (type time_str : string) (pid : Z) (file : string) (line : Z) : string :=
  let head := "[" ++ pad_right 5 type ++ "]" in
  (if to_stdout c then (level_of_type type).1 ++ head ++ (ESC ++ "[0m") else head) ++
  " [" ++ time_str ++ " " ++ hex pid ++ " " ++ filename file ++ ":" ++ pretty line ++ "]: ".

(** [None] is undefined: [strcat] writes after the buffer, or [write_frm_td]
    has no stream. *)
Definition errif_debug (c : log_config) (type : string) (line : Z) (file : string) (pid : Z) (t : local_time) (tv_usec : Z) (message log : string) : option string :=
  let time_str := get_time_with_ms t tv_usec 25 in
  let log_buffer := append_text LOG_BUFFER "" (log_header c type time_str pid file line) in
  let log_buffer := append_text LOG_BUFFER log_buffer message in
  if (String.length log_buffer + 1 <? LOG_BUFFER)%nat
  then write_frm_td c (log_buffer ++ String "010" "") (level_of_type type).2 log
  else None.

Definition log_init (c : log_config) : option unit := if opens c then Some tt else None.

(** ** Core dumps *)

Definition SYS_CMD_MAX_LEN : nat := 128.
Definition CORE_DUMP_FILE_PATH : string := "/home/zlgmcu/project/learnC++/bin/debug/".

(** The result and the command given to the shell, which answers [system_ret];
    [limit]: whether [setrlimit] succeeds. *)
Definition core_dump_file (ndebug enable : bool) (system_ret : Z) (limit : bool) : Z * option string :=
  if enable && ndebug then (0, None)
  else
    let cmd := append_text SYS_CMD_MAX_LEN ""
      (if enable then "echo " ++ CORE_DUMP_FILE_PATH ++ "/core-%e-%p-%t > /proc/sys/kernel/core_pattern"
       else "echo > /proc/sys/kernel/core_pattern") in
    if negb (system_ret =? 0) then (-1, Some cmd)
    else if negb limit then (-1, Some cmd)
    else (0, Some cmd).

(** ** Lemmas *)

Lemma substring_whole n s : (String.length s <= n)%nat -> String.substring 0 n s = s.
Proof. revert n. induction s as [|c s IH]; intros [|n] Hn; cbn in *; try done; [lia|]. rewrite IH; [done|lia]. Qed.

Lemma length_substring n s : String.length (String.substring 0 n s) = Nat.min n (String.length s).
Proof. revert n. induction s as [|c s IH]; intros [|n]; cbn; [done..|]. by rewrite IH. Qed.

(** A buffer holds the text when it fits, and is full when it does not. *)
Lemma append_fits size b t : (String.length b + String.length t < size)%nat -> append_text size b t = b ++ t.
Proof. intros Hl. unfold append_text. rewrite substring_whole; [done|lia]. Qed.

Lemma append_text_length size b t : (String.length b < size)%nat ->
  String.length (append_text size b t) = Nat.min (size - 1) (String.length b + String.length t).
Proof. intros Hb. unfold append_text. rewrite length_string_app, length_substring. lia. Qed.

Lemma zero_pad_length w z : (String.length (pretty z) <= w)%nat -> String.length (pad_zero w z) = w.
Proof.
  intros Hl. unfold pad_zero. rewrite length_string_app. assert (E : forall n, String.length (zeros n) = n) by (induction n as [|n IH]; cbn; [done|by rewrite IH]).
  rewrite E. lia.
Qed.

(** ** Properties *)

(** a message whose header and text have together less than 2047
    characters is appended as one line when its level is at most the
    configured one, and dropped otherwise; a longer one is cut to fill the
    buffer, and the line end is written behind it. *)
Theorem log_line_outcome c type line file pid t tv_usec message log : to_stdout c = true \/ opens c = true ->
  let header := log_header c type (get_time_with_ms t tv_usec 25) pid file line in
  errif_debug c type line file pid t tv_usec message log =
    if bool_decide (String.length header + String.length message < 2047)%nat then
      Some (if bool_decide (level_code (level_of_type type).2 <= log_level c) then log ++ header ++ message ++ String "010" "" else log)
    else None.
Proof.
  intros Hw header. unfold errif_debug. fold header. remember (String.length header) as h eqn:Hh.
  assert (H1 : String.length (append_text LOG_BUFFER "" header) = Nat.min 2047 h) by (rewrite append_text_length, Hh; [done|unfold LOG_BUFFER; change (String.length "") with 0%nat; lia]).
  assert (H2 : String.length (append_text LOG_BUFFER (append_text LOG_BUFFER "" header) message) = Nat.min 2047 (h + String.length message)%nat).
  { rewrite append_text_length by (rewrite H1; unfold LOG_BUFFER; lia). rewrite H1. unfold LOG_BUFFER. lia. }
  rewrite H2. destruct (bool_decide_reflect (h + String.length message < 2047)%nat) as [Hs|Hs].
  - rewrite (proj2 (Nat.ltb_lt _ _)) by (unfold LOG_BUFFER; lia).
    rewrite (append_fits LOG_BUFFER "" header) by (unfold LOG_BUFFER; change (String.length "") with 0%nat; lia). change ("" ++ header) with header.
    rewrite append_fits by (unfold LOG_BUFFER; lia). unfold write_frm_td. destruct (Z.ltb_spec (log_level c) (level_code (level_of_type type).2)) as [Hl|Hl].
    + by rewrite bool_decide_eq_false_2 by lia.
    + rewrite bool_decide_eq_true_2 by lia. rewrite string_app_assoc. destruct (to_stdout c); [done|]. destruct Hw as [?|Ho]; [done|by rewrite Ho].
  - by rewrite (proj2 (Nat.ltb_ge _ _)) by (unfold LOG_BUFFER; lia).
Qed.

Definition demo_log : log_config := LogConfig false 1 true.
Definition demo_tm : local_time := LocalTime 125 2 9 8 5 0.

Lemma log_line_outcome_witness :
  errif_debug demo_log "INFO" 12 "src/main.c" 255 demo_tm 4000 "started" "" =
  Some ("[INFO ] [2025-03-09 08:05:00.004 ff main.c:12]: started" ++ String "010" "").
Proof. rewrite (log_line_outcome demo_log "INFO" 12 "src/main.c" 255 demo_tm 4000 "started" "" (or_intror eq_refl)). vm_compute. reflexivity. Defined.

(** a lower threshold keeps the lower levels: with [LOG_LEVEL] 1 an
    error is dropped that the default threshold keeps. *)
Theorem errors_dropped c line file pid t tv_usec message log : log_level c < 3 ->
  (String.length (log_header c "ERROR" (get_time_with_ms t tv_usec 25) pid file line) + String.length message < 2047)%nat ->
  errif_debug c "ERROR" line file pid t tv_usec message log = Some log.
Proof.
  intros Hc Hl. unfold errif_debug. rewrite (append_fits LOG_BUFFER "") by (unfold LOG_BUFFER; cbn [String.length]; lia).
  change ("" ++ ?s) with s. rewrite append_fits by (unfold LOG_BUFFER; lia). rewrite length_string_app, (proj2 (Nat.ltb_lt _ _)) by (unfold LOG_BUFFER; lia).
  unfold write_frm_td. cbn [level_of_type String.eqb snd level_code]. change (level_code (level_of_type "ERROR").2) with 3. by rewrite (proj2 (Z.ltb_lt _ _)).
Qed.

Lemma errors_dropped_witness : errif_debug demo_log "ERROR" 12 "src/main.c" 255 demo_tm 4000 "no file" "" = Some "".
Proof. apply (errors_dropped demo_log 12 "src/main.c" 255 demo_tm 4000 "no file" ""); [done|]. vm_compute. lia. Defined.

(** the time of a message has its 23 characters, in the buffer of 25,
    for the years from 1000 to 9999 and values in their ranges. *)
Theorem time_text_fits t tv_usec :
  String.length (pretty (lt_year t + 1900)) = 4%nat ->
  (forall z, z ∈ [lt_mon t + 1; lt_mday t; lt_hour t; lt_min t; lt_sec t] -> (String.length (pretty z) <= 2)%nat) ->
  (String.length (pretty (Z.quot tv_usec 1000)) <= 3)%nat ->
  get_time_with_ms t tv_usec 25 = strftime t ++ "." ++ pad_zero 3 (Z.quot tv_usec 1000) /\ String.length (get_time_with_ms t tv_usec 25) = 23%nat.
Proof.
  intros Hy H2 H3. assert (Hp : forall z, z ∈ [lt_mon t + 1; lt_mday t; lt_hour t; lt_min t; lt_sec t] -> String.length (pad_zero 2 z) = 2%nat)
    by (intros z Hz; by apply zero_pad_length, H2).
  assert (Hs : String.length (strftime t) = 19%nat).
  { unfold strftime. rewrite !length_string_app, zero_pad_length, !Hp by (lia || set_solver). done. }
  assert (Hm : String.length ("." ++ pad_zero 3 (Z.quot tv_usec 1000)) = 4%nat) by (rewrite length_string_app, zero_pad_length by done; done).
  unfold get_time_with_ms. rewrite append_fits by lia. split; [done|]. by rewrite length_string_app, Hs, Hm.
Qed.

Lemma time_text_fits_witness : String.length (get_time_with_ms demo_tm 4000 25) = 23%nat.
Proof.
  apply (time_text_fits demo_tm 4000); [done| |by vm_compute; lia]. intros z Hz. cbn in Hz.
  repeat (apply elem_of_cons in Hz as [->|Hz]; [vm_compute; lia|]). by apply elem_of_nil in Hz.
Defined.

(** the core dump setting fails exactly when the shell or the limit
    does, is left alone in a release build, and its commands fit the buffer. *)
Theorem core_dump_outcome ndebug enable system_ret limit :
  core_dump_file ndebug enable system_ret limit =
    if enable && ndebug then (0, None)
    else (if bool_decide (system_ret = 0) && limit then 0 else -1,
      Some (if enable then "echo /home/zlgmcu/project/learnC++/bin/debug//core-%e-%p-%t > /proc/sys/kernel/core_pattern"
            else "echo > /proc/sys/kernel/core_pattern")).
Proof.
  unfold core_dump_file. destruct (enable && ndebug) eqn:He; [done|]. destruct (Z.eqb_spec system_ret 0) as [Hr|Hr].
  - rewrite bool_decide_eq_true_2 by done. by destruct enable, limit.
  - rewrite bool_decide_eq_false_2 by done. by destruct enable.
Qed.
