(* ===== verification/PriorityQueue.v ===== *)
(** * The bounded priority queue ([src/utils/priority_queue])

    The array-backed binary heap with its three comparators, the operations
    on it, and the blocking consumers that sleep on its condition variable.

    Every operation takes the queue's mutex on entry and releases it on every
    return path, so an operation is one atomic step; [cond_wait] is the only
    point at which the mutex is given up, and it is the [Wait] result of
    [priority_queue_pop], which the step relation of section [Consumers]
    interprets. *)

From Stdlib Require Import Sorted.
From S2P Require Import Prelude Utils.

(** ** Data *)

Record pv_t {V : Type} := PV {
  _priority : Z;          (* int32_t *)
  _value : option V;      (* void *, NULL is None *)
  timestamp : Z           (* uint64_t *)
}.
Arguments pv_t : clear implicits.
Arguments PV {V}.

(** A comparator may read the clock, so it threads an environment [C]. *)
Record pq_t {V C : Type} := PQ {
  elements : option (list (pv_t V));
  capacity : Z;
  size : Z;
  compare : C -> pv_t V -> pv_t V -> Z * C
}.
Arguments pq_t : clear implicits.
Arguments PQ {V C}.

#[export] Instance pv_inhabited V : Inhabited (pv_t V) := populate (PV 0 None 0).

(** ** Comparators *)

Definition AGING_TIME : Z := 1000.

Definition max_heap_compare {V C} (c : C) (a b : pv_t V) : Z * C :=
  (int32 (_priority a - _priority b), c).

Definition min_heap_compare {V C} (c : C) (a b : pv_t V) : Z * C :=
  (int32 (_priority b - _priority a), c).

(** The arithmetic of [aging_compare] once [now] has been read. *)
Definition aging_at {V} (now : Z) (a b : pv_t V) : Z :=
  let age_a := int32 (uint64 (now - timestamp a) / AGING_TIME) in
  let age_b := int32 (uint64 (now - timestamp b) / AGING_TIME) in
  let eff_a := int32 (_priority a + age_a) in
  let eff_b := int32 (_priority b + age_b) in
  int32 (eff_b - eff_a).

Definition aging_compare {V} (c : clock) (a b : pv_t V) : Z * clock :=
  let '(now, c') := gettime_msec c in
  (aging_at now a b, c').

(** ** Operations *)

Section Operations.
Context {V C : Type}.
Implicit Types q : pq_t V C.

(** [malloc(sizeof(pq_t))], then [malloc] of the slots; the contents of the
    slots are whatever the memory held, [junk]. *)
Definition pq_init (o : list bool) (junk : pv_t V) (cap : Z)
    (cmp : option (C -> pv_t V -> pv_t V -> Z * C)) : option (pq_t V C) * list bool :=
  match cmp with
  | None => (None, o)
  | Some cmp =>
    let '(ok, o1) := malloc o in
    if negb ok then (None, o1) else
    let '(ok_elements, o2) := malloc o1 in
    if negb ok_elements then (None, o2) else
    (Some (PQ (Some (replicate (Z.to_nat cap) junk)) cap 0 cmp), o2)
  end.

Definition pq_full (pq : option (pq_t V C)) : bool :=
  match pq with
  | None => true
  | Some q => capacity q <=? size q
  end.

Definition pq_empty (pq : option (pq_t V C)) : bool :=
  match pq with
  | None => true
  | Some q => size q =? 0
  end.

Definition pq_top (pq : option (pq_t V C)) : option (pv_t V) :=
  match pq with
  | None => Some (PV 0 None 0)
  | Some q =>
    if size q =? 0 then Some (PV 0 None 0) else
    els ← elements q;
    arr_get els 0
  end.

Definition swap_elements (els : list (pv_t V)) (father chil : Z) : option (list (pv_t V)) :=
  arr_swap els father chil.

(** The [while (index > 0)] loop of [priority_queue_push]. *)
Fixpoint sift_up (cmp : C -> pv_t V -> pv_t V -> Z * C) (fuel : nat)
    (els : list (pv_t V)) (index : Z) (c : C) : option (list (pv_t V) * C) :=
  match fuel with
  | O => None
  | S fuel' =>
    if 0 <? index then
      let parent_index := Z.quot (index - 1) 2 in
      parent ← arr_get els parent_index;
      current ← arr_get els index;
      let '(r, c') := cmp c parent current in
      if 0 <=? r then Some (els, c') else
      els' ← swap_elements els parent_index index;
      sift_up cmp fuel' els' parent_index c'
    else Some (els, c)
  end.

Definition priority_queue_push (pq : option (pq_t V C)) (item : pv_t V) (c : C)
    : option (bool * option (pq_t V C) * C) :=
  match pq with
  | None => Some (false, None, c)
  | Some q =>
    match elements q with
    | None => Some (false, pq, c)
    | Some els =>
      if pq_full pq then Some (false, pq, c) else
      let index := size q in
      els1 ← arr_set els index item;
      '(els2, c') ← sift_up (compare q) (S (Z.to_nat index)) els1 index c;
      Some (true, Some (PQ (Some els2) (capacity q) (size q + 1) (compare q)), c')
    end
  end.

(** One of the two guarded comparisons that choose [largest_index]. *)
Definition larger_child (cmp : C -> pv_t V -> pv_t V -> Z * C) (els : list (pv_t V))
    (n child largest_index : Z) (c : C) : option (Z * C) :=
  if child <? n then
    x ← arr_get els child;
    y ← arr_get els largest_index;
    let '(r, c') := cmp c x y in
    Some (if 0 <? r then child else largest_index, c')
  else Some (largest_index, c).

(** The [while (true)] loop of [priority_queue_try_pop] and
    [priority_queue_pop]; [n] is [pq->size] after the decrement. *)
Fixpoint sift_down (cmp : C -> pv_t V -> pv_t V -> Z * C) (fuel : nat)
    (els : list (pv_t V)) (n father : Z) (c : C) : option (list (pv_t V) * C) :=
  match fuel with
  | O => None
  | S fuel' =>
    let left_child := int32 (2 * father + 1) in
    let right_child := int32 (2 * father + 2) in
    '(l1, c1) ← larger_child cmp els n left_child father c;
    '(largest_index, c2) ← larger_child cmp els n right_child l1 c1;
    if largest_index =? father then Some (els, c2) else
    els' ← swap_elements els father largest_index;
    sift_down cmp fuel' els' n largest_index c2
  end.

(** The part both pops share: take the root, move the last element to the
    root, restore the order. *)
Definition pop_root (q : pq_t V C) (c : C) : option (pv_t V * pq_t V C * C) :=
  els ← elements q;
  item ← arr_get els 0;
  let n := size q - 1 in
  last ← arr_get els n;
  els1 ← arr_set els 0 last;
  '(els2, c') ← sift_down (compare q) (S (Z.to_nat n)) els1 n 0 c;
  Some (item, PQ (Some els2) (capacity q) n (compare q), c').

(** [out] tells whether the caller's [item] pointer is not NULL. *)
Definition priority_queue_try_pop (pq : option (pq_t V C)) (out : bool) (c : C)
    : option (option (pv_t V) * option (pq_t V C) * C) :=
  match pq with
  | None => Some (None, None, c)
  | Some q =>
    if negb out then Some (None, pq, c) else
    if pq_empty pq then Some (None, pq, c) else
    '(item, q', c') ← pop_root q c;
    Some (Some item, Some q', c')
  end.

Inductive pop_result : Type :=
  | Misuse                                       (* returns false *)
  | Wait                                         (* blocks in pthread_cond_wait *)
  | Popped (item : pv_t V) (q : pq_t V C) (c : C). (* returns true *)

Definition priority_queue_pop (pq : option (pq_t V C)) (out : bool) (c : C)
    : option pop_result :=
  match pq with
  | None => Some Misuse
  | Some q =>
    if negb out then Some Misuse else
    if pq_empty pq then Some Wait else
    '(item, q', c') ← pop_root q c;
    Some (Popped item q' c')
  end.

(** The loop over [i < pq->size] that hands every stored pointer to
    [free_callback]; the pointers freed, in order, and the slots left. *)
Fixpoint clear_values (els : list (pv_t V)) (n : nat) : option (list V * list (pv_t V)) :=
  match n, els with
  | O, _ => Some ([], els)
  | S _, [] => None
  | S n', e :: els' =>
    '(freed, rest) ← clear_values els' n';
    match _value e with
    | Some v => Some (v :: freed, PV (_priority e) None (timestamp e) :: rest)
    | None => Some (freed, e :: rest)
    end
  end.

Definition priority_queue_clear (pq : option (pq_t V C)) (has_callback : bool)
    : option (bool * option (pq_t V C) * list V) :=
  match pq with
  | None => Some (false, None, [])
  | Some q =>
    if has_callback then
      els ← elements q;
      '(freed, els') ← clear_values els (Z.to_nat (size q));
      Some (true, Some (PQ (Some els') (capacity q) 0 (compare q)), freed)
    else Some (true, Some (PQ (elements q) (capacity q) 0 (compare q)), [])
  end.

(** The items the queue holds, in array order. *)
Definition contents q : list (pv_t V) :=
  match elements q with
  | Some els => take (Z.to_nat (size q)) els
  | None => []
  end.

(** The representation invariant: the slots are there, as many as [capacity]
    says, and [size] is within them.  The bound [2^30] keeps the child
    indices of [sift_down] inside [int32_t]. *)
Definition pq_wf q : Prop :=
  exists els, elements q = Some els /\
    length els = Z.to_nat (capacity q) /\
    0 <= size q <= capacity q /\ capacity q <= 2 ^ 30.

End Operations.
Arguments pop_result : clear implicits.

(** ** What a comparator promises to the queue

    [cmp0] is the order the comparator computes on the items of the domain
    [D], in every environment satisfying [I]; [0 <= cmp0 a b] says that [a]
    may stand above [b]. *)

Class HeapOrder {V C : Type} (cmp : C -> pv_t V -> pv_t V -> Z * C)
    (I : C -> Prop) (D : pv_t V -> Prop) (cmp0 : pv_t V -> pv_t V -> Z) : Prop := {
  ho_value c a b : I c -> D a -> D b -> (cmp c a b).1 = cmp0 a b;
  ho_env c a b : I c -> D a -> D b -> I (cmp c a b).2;
  ho_flip a b : D a -> D b -> cmp0 a b <= 0 -> 0 <= cmp0 b a;
  ho_trans a b d : D a -> D b -> D d -> 0 <= cmp0 a b -> 0 <= cmp0 b d -> 0 <= cmp0 a d
}.

(** Every item below the root stands under its parent. *)
Definition heap_ordered {V} (cmp0 : pv_t V -> pv_t V -> Z) (els : list (pv_t V)) (n : Z) : Prop :=
  forall i, 0 < i < n ->
    0 <= cmp0 (els !!! Z.to_nat (Z.quot (i - 1) 2)) (els !!! Z.to_nat i).

Definition pq_heap {V C} (I : C -> Prop) (D : pv_t V -> Prop)
    (cmp0 : pv_t V -> pv_t V -> Z) (q : pq_t V C) (c : C) : Prop :=
  pq_wf q /\ I c /\ Forall D (contents q) /\
  exists els, elements q = Some els /\ heap_ordered cmp0 els (size q).

(** ** Indices *)

Lemma parent_cases i : 0 < i ->
  0 <= Z.quot (i - 1) 2 < i /\
  (i = 2 * Z.quot (i - 1) 2 + 1 \/ i = 2 * Z.quot (i - 1) 2 + 2).
Proof. intros. rewrite Z.quot_div_nonneg by lia. pose proof (Z.div_mod (i - 1) 2). pose proof (Z.mod_pos_bound (i - 1) 2). lia. Qed.

Lemma parent_left i : 0 <= i -> Z.quot (2 * i + 1 - 1) 2 = i.
Proof. intros. pose proof (parent_cases (2 * i + 1)). lia. Qed.

Lemma parent_right i : 0 <= i -> Z.quot (2 * i + 2 - 1) 2 = i.
Proof. intros. pose proof (parent_cases (2 * i + 2)). lia. Qed.

(** ** Slots and swaps *)

Section Slots.
Context {V : Type}.
Implicit Types els : list (pv_t V).

(** [els] with the slots [i] and [j] exchanged. *)
Definition swapped els (i j : Z) : list (pv_t V) :=
  <[Z.to_nat j := els !!! Z.to_nat i]> (<[Z.to_nat i := els !!! Z.to_nat j]> els).

Lemma length_swapped els i j : length (swapped els i j) = length els.
Proof. unfold swapped. by rewrite !length_insert. Qed.

Lemma arr_get_total els i :
  0 <= i < Z.of_nat (length els) -> arr_get els i = Some (els !!! Z.to_nat i).
Proof.
  intros Hi. rewrite arr_get_nat by lia. apply list_lookup_lookup_total_lt. lia.
Qed.

Lemma swap_total els i j :
  0 <= i < Z.of_nat (length els) -> 0 <= j < Z.of_nat (length els) ->
  swap_elements els i j =
    Some (swapped els i j).
Proof. intros. apply arr_swap_some; by apply arr_get_total. Qed.

Lemma swap_lookup els i j k :
  0 <= i < Z.of_nat (length els) -> 0 <= j < Z.of_nat (length els) -> 0 <= k ->
  (swapped els i j) !!! Z.to_nat k =
  if k =? j then els !!! Z.to_nat i else if k =? i then els !!! Z.to_nat j
  else els !!! Z.to_nat k.
Proof.
  intros Hi Hj Hk. unfold swapped. destruct (Z.eqb_spec k j) as [->|]; [|destruct (Z.eqb_spec k i) as [->|]].
  - apply list_lookup_total_insert_eq. rewrite length_insert. lia.
  - rewrite list_lookup_total_insert_ne by lia. apply list_lookup_total_insert_eq. lia.
  - rewrite !list_lookup_total_insert_ne by lia. done.
Qed.

Lemma swap_Permutation els (i j : nat) x y :
  els !! i = Some x -> els !! j = Some y ->
  <[j := x]> (<[i := y]> els) ≡ₚ els.
Proof.
  intros Hi Hj. destruct (decide (i = j)) as [->|Hij].
  { simplify_eq. rewrite list_insert_id; [by rewrite list_insert_id|].
    rewrite list_lookup_insert_eq; [done|by eapply lookup_lt_Some]. }
  assert (Hins : forall (l : list (pv_t V)) k a b, l !! k = Some a -> a :: <[k := b]> l ≡ₚ b :: l).
  { clear. induction l as [|e l IH]; intros [|k] a b Hk; simplify_eq/=; [by constructor|].
    rewrite Permutation_swap, (IH _ _ b Hk). apply Permutation_swap. }
  apply (Permutation_cons_inv (a := y)).
  rewrite (Hins (<[i:=y]> els) j y x) by (rewrite list_lookup_insert_ne; done).
  by rewrite (Hins els i x y).
Qed.

Lemma swap_take els (n : nat) (i j : nat) (x y : pv_t V) :
  (i < n)%nat -> (j < n)%nat ->
  take n (<[j := x]> (<[i := y]> els)) = <[j := x]> (<[i := y]> (take n els)).
Proof. intros. by rewrite !take_insert_lt. Qed.

Lemma swap_contents els (n i j : Z) :
  0 <= i < n -> 0 <= j < n -> n <= Z.of_nat (length els) ->
  take (Z.to_nat n) (swapped els i j)
  ≡ₚ take (Z.to_nat n) els.
Proof.
  intros. unfold swapped. rewrite swap_take by lia. apply swap_Permutation.
  - rewrite lookup_take_lt by lia. apply list_lookup_lookup_total_lt. lia.
  - rewrite lookup_take_lt by lia. apply list_lookup_lookup_total_lt. lia.
Qed.

End Slots.

(** ** The two loops: safety for every comparator *)

Section Loops.
Context {V C : Type} (cmp : C -> pv_t V -> pv_t V -> Z * C).
Implicit Types els : list (pv_t V).

Lemma sift_up_safe fuel : forall els index c n,
  0 <= index < Z.of_nat fuel -> index < n -> n <= Z.of_nat (length els) ->
  exists els' c', sift_up cmp fuel els index c = Some (els', c') /\
    length els' = length els /\ take (Z.to_nat n) els' ≡ₚ take (Z.to_nat n) els.
Proof.
  induction fuel as [|fuel IH]; intros els index c n Hi Hn Hlen; [lia|]. simpl.
  destruct (Z.ltb_spec 0 index); [|eauto].
  destruct (parent_cases index) as [Hp _]; [lia|].
  rewrite !arr_get_total by lia; simpl.
  destruct (cmp c _ _) as [r c']. destruct (Z.leb_spec 0 r); [eauto|].
  rewrite swap_total by lia; simpl.
  edestruct (IH (swapped els (Z.quot (index - 1) 2) index) (Z.quot (index - 1) 2) c' n) as (els' & c'' & -> & Hl & HP).
  - lia.
  - lia.
  - rewrite length_swapped. lia.
  - exists els', c''. rewrite Hl, length_swapped. repeat split; try done.
    rewrite HP. apply swap_contents; lia.
Qed.

Lemma larger_child_safe els n child largest c :
  0 <= child -> 0 <= largest < n -> n <= Z.of_nat (length els) ->
  exists l c', larger_child cmp els n child largest c = Some (l, c') /\
    (l = largest \/ l = child /\ child < n).
Proof.
  intros. unfold larger_child. destruct (Z.ltb_spec child n); [|eauto 6].
  rewrite !arr_get_total by lia; simpl. destruct (cmp c _ _) as [r c'].
  eexists _, _. split; [done|]. destruct (0 <? r); auto.
Qed.

Lemma child_index father k :
  0 <= father < 2 ^ 30 -> k = 1 \/ k = 2 -> int32 (2 * father + k) = 2 * father + k \/
    2 ^ 31 <= 2 * father + k.
Proof. intros. destruct (Z.le_gt_cases (2 ^ 31) (2 * father + k)); [by right|left].
  apply sint32_id. unfold in_int32, INT32_MIN, INT32_MAX. lia. Qed.

Lemma left_index father : 0 <= father < 2 ^ 30 -> int32 (2 * father + 1) = 2 * father + 1.
Proof. intros. apply sint32_id. unfold in_int32, INT32_MIN, INT32_MAX. lia. Qed.

Lemma right_index father : 0 <= father < 2 ^ 30 - 1 -> int32 (2 * father + 2) = 2 * father + 2.
Proof. intros. apply sint32_id. unfold in_int32, INT32_MIN, INT32_MAX. lia. Qed.

Lemma sift_down_safe fuel : forall els n father c,
  0 <= father -> n - father < Z.of_nat fuel -> 0 <= n < 2 ^ 30 -> father = 0 \/ father < n ->
  n <= Z.of_nat (length els) ->
  exists els' c', sift_down cmp fuel els n father c = Some (els', c') /\
    length els' = length els /\ take (Z.to_nat n) els' ≡ₚ take (Z.to_nat n) els.
Proof.
  induction fuel as [|fuel IH]; intros els n father c H0 Hfuel Hn Hf Hlen; [lia|]. simpl.
  rewrite left_index, right_index by lia.
  destruct (Z.le_gt_cases n 0) as [Hempty|Hpos].
  { unfold larger_child. destruct (Z.ltb_spec (2 * father + 1) n); [lia|]. simpl.
    destruct (Z.ltb_spec (2 * father + 2) n); [lia|]. simpl. rewrite Z.eqb_refl. eauto. }
  destruct (larger_child_safe els n (2 * father + 1) father c) as (l1 & c1 & -> & Hl1); [lia..|].
  simpl.
  destruct (larger_child_safe els n (2 * father + 2) l1 c1) as (l2 & c2 & -> & Hl2); [lia..|].
  simpl. destruct (Z.eqb_spec l2 father) as [->|Hne]; [eauto|].
  rewrite swap_total by lia; simpl.
  edestruct (IH (swapped els father l2) n l2 c2)
    as (els' & c'' & -> & Hl & HP); [lia..|by rewrite length_swapped|].
  exists els', c''. rewrite Hl, length_swapped. repeat split; try done.
  rewrite HP. apply swap_contents; lia.
Qed.

End Loops.

(** ** The two loops: they restore the order *)

Section Order.
Context {V C : Type} {cmp : C -> pv_t V -> pv_t V -> Z * C}
  {I : C -> Prop} {D : pv_t V -> Prop} {cmp0 : pv_t V -> pv_t V -> Z}.
Context {HO : HeapOrder cmp I D cmp0}.
Implicit Types els : list (pv_t V).

Definition in_domain els (n : Z) : Prop := forall i, 0 <= i < n -> D (els !!! Z.to_nat i).

Lemma in_domain_contents els n :
  n <= Z.of_nat (length els) -> in_domain els n <-> Forall D (take (Z.to_nat n) els).
Proof.
  intros Hn. rewrite Forall_lookup. split.
  - intros Hd i x Hx. apply lookup_take_Some in Hx as [Hx Hi].
    specialize (Hd (Z.of_nat i)). rewrite Nat2Z.id in Hd.
    rewrite (list_lookup_total_correct _ _ _ Hx) in Hd. apply Hd. lia.
  - intros Hf i Hi. apply (Hf (Z.to_nat i)). rewrite lookup_take_lt by lia.
    apply list_lookup_lookup_total_lt. lia.
Qed.

Lemma in_domain_swap els n i j :
  0 <= i < n -> 0 <= j < n -> n <= Z.of_nat (length els) -> in_domain els n ->
  in_domain (swapped els i j) n.
Proof.
  intros Hi Hj Hn Hd k Hk. rewrite swap_lookup by lia.
  destruct (Z.eqb_spec k j); [auto|]. destruct (Z.eqb_spec k i); auto.
Qed.

(** The order holds except between [index] and its parent, and [index]'s
    children stand under its parent. *)
Definition heap_above els (n index : Z) : Prop :=
  (forall i, 0 < i < n -> i <> index ->
     0 <= cmp0 (els !!! Z.to_nat (Z.quot (i - 1) 2)) (els !!! Z.to_nat i)) /\
  (forall i, 0 < i < n -> Z.quot (i - 1) 2 = index -> 0 < index ->
     0 <= cmp0 (els !!! Z.to_nat (Z.quot (index - 1) 2)) (els !!! Z.to_nat i)).

(** The order holds except between [father] and its children, and these
    stand under [father]'s parent. *)
Definition heap_below els (n father : Z) : Prop :=
  (forall i, 0 < i < n -> Z.quot (i - 1) 2 <> father ->
     0 <= cmp0 (els !!! Z.to_nat (Z.quot (i - 1) 2)) (els !!! Z.to_nat i)) /\
  (forall i, 0 < i < n -> Z.quot (i - 1) 2 = father -> 0 < father ->
     0 <= cmp0 (els !!! Z.to_nat (Z.quot (father - 1) 2)) (els !!! Z.to_nat i)).

Lemma heap_above_swap els n index :
  0 < index < n -> n <= Z.of_nat (length els) -> in_domain els n ->
  heap_above els n index ->
  cmp0 (els !!! Z.to_nat (Z.quot (index - 1) 2)) (els !!! Z.to_nat index) < 0 ->
  let p := Z.quot (index - 1) 2 in
  heap_above (swapped els p index) n p.
Proof.
  intros Hi Hn Hd [H1 H2] Hlt p. destruct (parent_cases index) as [Hp _]; [lia|].
  fold p in Hp, Hlt, H2.
  assert (Hup : 0 <= cmp0 (els !!! Z.to_nat index) (els !!! Z.to_nat p)).
  { apply ho_flip; [apply Hd; lia..|lia]. }
  split.
  - intros i Hin Hne. destruct (parent_cases i) as [Hpi _]; [lia|].
    rewrite !swap_lookup by lia.
    destruct (Z.eqb_spec i index) as [->|Hni].
    + fold p. destruct (Z.eqb_spec p index); [lia|]. by rewrite Z.eqb_refl.
    + destruct (Z.eqb_spec i p); [done|].
      destruct (Z.eqb_spec (Z.quot (i - 1) 2) index); [by apply H2; lia|].
      destruct (Z.eqb_spec (Z.quot (i - 1) 2) p) as [Hq|]; [|by apply H1].
      eapply ho_trans; [..|exact Hup|]; [apply Hd; lia..|]. rewrite <- Hq. by apply H1.
  - intros i Hin Hpi Hp0. destruct (parent_cases i) as [Hpr _]; [lia|].
    destruct (parent_cases p) as [Hpp _]; [lia|].
    rewrite !swap_lookup by lia.
    destruct (Z.eqb_spec (Z.quot (p - 1) 2) index); [lia|].
    destruct (Z.eqb_spec (Z.quot (p - 1) 2) p); [lia|].
    destruct (Z.eqb_spec i index) as [->|].
    + apply H1; lia.
    + destruct (Z.eqb_spec i p); [lia|].
      eapply ho_trans; [..|apply (H1 p); lia|]; [apply Hd; lia..|].
      rewrite <- Hpi. apply H1; lia.
Qed.

Lemma heap_above_done els n index :
  heap_above els n index ->
  index <= 0 \/ 0 <= cmp0 (els !!! Z.to_nat (Z.quot (index - 1) 2)) (els !!! Z.to_nat index) ->
  heap_ordered cmp0 els n.
Proof. intros [H1 _] Hc i Hi. destruct (decide (i = index)) as [->|]; [destruct Hc; [lia|done]|auto]. Qed.

Lemma sift_up_heap fuel : forall els index c n els' c',
  0 <= index < n -> n <= Z.of_nat (length els) -> I c -> in_domain els n ->
  heap_above els n index -> sift_up cmp fuel els index c = Some (els', c') ->
  heap_ordered cmp0 els' n /\ I c'.
Proof.
  induction fuel as [|fuel IH]; intros els index c n els' c' Hi Hn Hc Hd Ha Hs; [done|].
  simpl in Hs. destruct (Z.ltb_spec 0 index).
  2:{ opt_inv. split; [|done]. eapply heap_above_done; [done|]. by left. }
  destruct (parent_cases index) as [Hp _]; [lia|].
  rewrite !arr_get_total in Hs by lia; simpl in Hs.
  pose proof (ho_value c (els !!! Z.to_nat (Z.quot (index - 1) 2)) (els !!! Z.to_nat index) Hc
    ltac:(apply Hd; lia) ltac:(apply Hd; lia)) as Hval.
  pose proof (ho_env c (els !!! Z.to_nat (Z.quot (index - 1) 2)) (els !!! Z.to_nat index) Hc
    ltac:(apply Hd; lia) ltac:(apply Hd; lia)) as Henv.
  destruct (cmp c _ _) as [r c1]; simpl in *; subst r.
  destruct (Z.leb_spec 0 (cmp0 (els !!! Z.to_nat (Z.quot (index - 1) 2)) (els !!! Z.to_nat index))).
  { opt_inv. split; [|done]. eapply heap_above_done; [done|]. by right. }
  rewrite swap_total in Hs by lia; simpl in Hs.
  eapply IH in Hs; [exact Hs|lia|by rewrite length_swapped|done| |].
  - apply in_domain_swap; auto; lia.
  - apply heap_above_swap; auto; lia.
Qed.

Lemma larger_child_value els n child largest c l c' :
  0 <= child -> 0 <= largest < n -> n <= Z.of_nat (length els) -> I c -> in_domain els n ->
  larger_child cmp els n child largest c = Some (l, c') ->
  I c' /\ (l = largest \/ l = child /\ child < n) /\
  0 <= cmp0 (els !!! Z.to_nat l) (els !!! Z.to_nat largest) /\
  (child < n -> 0 <= cmp0 (els !!! Z.to_nat l) (els !!! Z.to_nat child)).
Proof.
  assert (Hrefl : forall x, D x -> 0 <= cmp0 x x).
  { intros x Hx. destruct (Z.le_gt_cases (cmp0 x x) 0) as [Hle|]; [by apply ho_flip in Hle|lia]. }
  intros Hch Hl Hn Hc Hd. unfold larger_child. destruct (Z.ltb_spec child n) as [Hcn|].
  2:{ intros; opt_inv. repeat split; auto. lia. }
  rewrite !arr_get_total by lia; simpl.
  pose proof (ho_value c (els !!! Z.to_nat child) (els !!! Z.to_nat largest) Hc
    ltac:(apply Hd; lia) ltac:(apply Hd; lia)) as Hval.
  pose proof (ho_env c (els !!! Z.to_nat child) (els !!! Z.to_nat largest) Hc
    ltac:(apply Hd; lia) ltac:(apply Hd; lia)) as Henv.
  destruct (cmp c _ _) as [r c1]; simpl in *; subst r. intros; opt_inv.
  split; [done|].
  destruct (Z.ltb_spec 0 (cmp0 (els !!! Z.to_nat child) (els !!! Z.to_nat largest))).
  - split_and!; [auto|lia|]. intros _. apply Hrefl, Hd. lia.
  - split_and!; [auto|apply Hrefl, Hd; lia|]. intros _. apply ho_flip; auto.
Qed.

Lemma heap_below_swap els n father l :
  0 <= father < n -> n <= Z.of_nat (length els) -> in_domain els n ->
  0 < l < n -> Z.quot (l - 1) 2 = father ->
  heap_below els n father ->
  (forall i, 0 < i < n -> Z.quot (i - 1) 2 = father ->
     0 <= cmp0 (els !!! Z.to_nat l) (els !!! Z.to_nat i)) ->
  0 <= cmp0 (els !!! Z.to_nat l) (els !!! Z.to_nat father) ->
  heap_below (swapped els father l) n l.
Proof.
  intros Hf Hn Hd Hl Hpl [H1 H2] Hmax Hlf. destruct (parent_cases l) as [Hpl' _]; [lia|].
  split.
  - intros i Hi Hpi. destruct (parent_cases i) as [Hq _]; [lia|].
    rewrite !swap_lookup by lia.
    destruct (Z.eqb_spec (Z.quot (i - 1) 2) l); [lia|].
    destruct (Z.eqb_spec (Z.quot (i - 1) 2) father) as [He|Hne].
    + destruct (Z.eqb_spec i l) as [->|]; [done|].
      destruct (Z.eqb_spec i father); [lia|]. by apply Hmax.
    + destruct (Z.eqb_spec i l) as [->|]; [lia|].
      destruct (Z.eqb_spec i father) as [->|]; [|by apply H1].
      apply H2; auto; lia.
  - intros i Hi Hpi Hl0. destruct (parent_cases i) as [Hq _]; [lia|].
    rewrite !swap_lookup by lia. rewrite Hpl.
    destruct (Z.eqb_spec father l); [lia|]. rewrite Z.eqb_refl.
    destruct (Z.eqb_spec i l); [lia|]. destruct (Z.eqb_spec i father); [lia|].
    rewrite <- Hpi. apply H1; lia.
Qed.

Lemma sift_down_heap fuel : forall els n father c els' c',
  0 <= father < n -> n < 2 ^ 30 -> n <= Z.of_nat (length els) -> I c -> in_domain els n ->
  heap_below els n father -> sift_down cmp fuel els n father c = Some (els', c') ->
  heap_ordered cmp0 els' n /\ I c'.
Proof.
  induction fuel as [|fuel IH]; intros els n father c els' c' Hf Hn Hlen Hc Hd Hb Hs; [done|].
  cbn [sift_down] in Hs. rewrite left_index, right_index in Hs by lia.
  apply bind_Some in Hs as ([l1 c1] & Hl1 & Hs). apply bind_Some in Hs as ([l2 c2] & Hl2 & Hs).
  apply larger_child_value in Hl1 as (Hc1 & Hor1 & Hge1 & Hch1); [|lia..|done|done].
  apply larger_child_value in Hl2 as (Hc2 & Hor2 & Hge2 & Hch2); [|lia..|done|done].
  assert (Hmax : forall i, 0 < i < n -> Z.quot (i - 1) 2 = father ->
     0 <= cmp0 (els !!! Z.to_nat l2) (els !!! Z.to_nat i)).
  { intros i Hi Hpi. destruct (parent_cases i) as [_ Hcase]; [lia|]. rewrite Hpi in Hcase.
    clear Hpi. destruct Hcase as [->| ->].
    - assert (D (els !!! Z.to_nat l1)) by (apply Hd; lia).
      eapply ho_trans; [..|exact Hge2|]; [apply Hd; lia..|]. apply Hch1. lia.
    - apply Hch2. lia. }
  assert (Hlf : 0 <= cmp0 (els !!! Z.to_nat l2) (els !!! Z.to_nat father)).
  { eapply ho_trans; [..|exact Hge2|exact Hge1]; apply Hd; lia. }
  destruct (Z.eqb_spec l2 father) as [->|Hne].
  - opt_inv. split; [|done]. intros i Hi.
    destruct (decide (Z.quot (i - 1) 2 = father)) as [He|]; [|by apply Hb].
    rewrite He. auto.
  - rewrite swap_total in Hs by lia; simpl in Hs.
    assert (Hpl : 0 < l2 < n /\ Z.quot (l2 - 1) 2 = father).
    { pose proof (parent_left father). pose proof (parent_right father).
      destruct Hor2 as [->|[-> ?]]; [destruct Hor1 as [->|[-> ?]]|]; try lia;
      (split; [lia|]); first [by apply parent_left; lia|by apply parent_right; lia]. }
    destruct Hpl. eapply IH in Hs; [exact Hs|lia..|by rewrite length_swapped|done| |].
    + apply in_domain_swap; auto; lia.
    + apply heap_below_swap; auto; lia.
Qed.

(** The root of an ordered heap stands above every item. *)
Lemma heap_root_greatest els n : in_domain els n -> heap_ordered cmp0 els n ->
  forall i, 0 <= i < n -> 0 <= cmp0 (els !!! 0%nat) (els !!! Z.to_nat i).
Proof.
  intros Hd Ho i. induction i as [i IH] using (well_founded_induction (Z.lt_wf 0)).
  intros Hi. pose proof (Hd 0 ltac:(lia)) as H0. change (Z.to_nat 0) with 0%nat in H0.
  destruct (Z.eq_dec i 0) as [->|].
  - change (Z.to_nat 0) with 0%nat.
    destruct (Z.le_gt_cases (cmp0 (els !!! 0%nat) (els !!! 0%nat)) 0) as [Hle|]; [|lia].
    by apply ho_flip in Hle.
  - destruct (parent_cases i) as [Hp _]; [lia|].
    eapply (ho_trans _ (els !!! Z.to_nat (Z.quot (i - 1) 2))); [done|apply Hd; lia..| |].
    + apply IH; lia.
    + apply Ho. lia.
Qed.

End Order.

#[global] Arguments sift_up : simpl never.
#[global] Arguments sift_down : simpl never.

(** ** The operations: safety for every comparator *)

Section Safety.
Context {V C : Type}.
Implicit Types q : pq_t V C.

Lemma contents_length q : pq_wf q -> length (contents q) = Z.to_nat (size q).
Proof.
  intros (els & He & Hl & Hs & _). unfold contents. rewrite He, length_take. lia.
Qed.

Lemma pq_push_safe q item c : pq_wf q ->
  exists q' c', priority_queue_push (Some q) item c = Some (negb (pq_full (Some q)), Some q', c') /\
    pq_wf q' /\ capacity q' = capacity q /\ compare q' = compare q /\
    if pq_full (Some q) then q' = q
    else size q' = size q + 1 /\ contents q' ≡ₚ item :: contents q.
Proof.
  intros (els & He & Hl & Hs & Hc). unfold priority_queue_push. rewrite He. simpl.
  destruct (Z.leb_spec (capacity q) (size q)); simpl.
  { eexists _, _. split; [done|]. split; [|done]. exists els. auto. }
  rewrite arr_set_some by lia; simpl.
  destruct (sift_up_safe (compare q) (S (Z.to_nat (size q)))
    (<[Z.to_nat (size q):=item]> els) (size q) c (size q + 1)) as (els' & c' & Hsift & Hlen & HP);
    [lia|lia|rewrite length_insert; lia|].
  simpl in Hsift. rewrite Hsift; simpl. eexists _, _. split; [done|].
  rewrite length_insert in Hlen. split.
  { exists els'. simpl. repeat split; lia. }
  simpl. repeat split. unfold contents; simpl. rewrite He, HP.
  replace (Z.to_nat (size q + 1)) with (S (Z.to_nat (size q))) by lia.
  rewrite (take_S_r _ _ item) by (apply list_lookup_insert_eq; lia).
  rewrite take_insert_ge by lia. by rewrite Permutation_app_comm.
Qed.

Lemma take_last_root {A} (els : list A) (n : nat) (x y : A) :
  els !! 0%nat = Some x -> els !! n = Some y ->
  take (S n) els ≡ₚ x :: take n (<[0%nat := y]> els).
Proof.
  intros Hx Hy. destruct els as [|e els]; [done|]. simplify_eq/=.
  constructor. destruct n as [|n]; [done|]. simpl in Hy |- *.
  rewrite (take_S_r _ _ y) by done. by rewrite Permutation_app_comm.
Qed.

Lemma pop_root_safe q c : pq_wf q -> 0 < size q ->
  exists item q' c', pop_root q c = Some (item, q', c') /\ pq_wf q' /\
    capacity q' = capacity q /\ compare q' = compare q /\ size q' = size q - 1 /\
    contents q ≡ₚ item :: contents q'.
Proof.
  intros (els & He & Hl & Hs & Hc) Hpos. unfold pop_root. rewrite He; simpl.
  rewrite (arr_get_total els 0), (arr_get_total els (size q - 1)) by lia; simpl.
  rewrite arr_set_some by lia; simpl.
  destruct (sift_down_safe (compare q) (S (Z.to_nat (size q - 1)))
    (<[Z.to_nat 0:=els !!! Z.to_nat (size q - 1)]> els) (size q - 1) 0 c)
    as (els' & c' & Hsift & Hlen & HP); [lia..|rewrite length_insert; lia|].
  rewrite Hsift; simpl. eexists _, _, _. split; [done|].
  rewrite length_insert in Hlen. split.
  { exists els'. simpl. repeat split; lia. }
  simpl. repeat split. unfold contents; simpl. rewrite He, HP.
  replace (Z.to_nat (size q)) with (S (Z.to_nat (size q - 1))) by lia.
  change (Z.to_nat 0) with 0%nat.
  apply take_last_root; apply list_lookup_lookup_total_lt; lia.
Qed.

Lemma clear_values_spec (els : list (pv_t V)) n : (n <= length els)%nat ->
  exists els', clear_values els n = Some (omap _value (take n els), els') /\ length els' = length els.
Proof.
  revert n. induction els as [|e els IH]; intros [|n] Hn; simpl in *; [eauto|lia|eauto|].
  destruct (IH n) as (els' & -> & Hl); [lia|]. simpl.
  destruct (_value e); eexists; (split; [done|]); simpl; by rewrite Hl.
Qed.

End Safety.

(** ** The operations: order *)

Section Heap.
Context {V C : Type} {I : C -> Prop} {D : pv_t V -> Prop} {cmp0 : pv_t V -> pv_t V -> Z}.
Implicit Types q : pq_t V C.

Lemma pq_heap_domain q c els : pq_heap I D cmp0 q c -> elements q = Some els ->
  in_domain (D := D) els (size q).
Proof.
  intros ((els' & He & Hl & Hs & _) & _ & HD & _) He'. simplify_eq.
  apply in_domain_contents; [lia|]. unfold contents in HD. by rewrite He in HD.
Qed.

Lemma pq_push_heap q item c q' c' b : HeapOrder (compare q) I D cmp0 ->
  pq_heap I D cmp0 q c -> D item ->
  priority_queue_push (Some q) item c = Some (b, Some q', c') ->
  pq_heap I D cmp0 q' c'.
Proof.
  intros HO Hh Hitem Hpush. pose proof Hh as (Hwf & HI & HD & els & He & Ho).
  destruct (pq_push_safe q item c Hwf) as (q2 & c2 & Heq & Hwf2 & _ & _ & Hcase).
  rewrite Hpush in Heq. injection Heq as _ <- <-.
  unfold priority_queue_push in Hpush. rewrite He in Hpush. simpl in Hpush, Hcase.
  destruct (Z.leb_spec (capacity q) (size q)); simpl in Hpush.
  { injection Hpush as <- <- <-. done. }
  destruct Hcase as [Hsz HP]. pose proof Hwf as (els0 & He0 & Hl & Hs & Hc). simplify_eq.
  split; [done|]. destruct Hwf2 as (els2 & He2 & Hl2 & Hs2 & _).
  rewrite arr_set_some in Hpush by (simpl in *; lia). simpl in Hpush.
  apply bind_Some in Hpush as ([els3 c3] & Hsift & Hq). injection Hq as <- <- <-.
  simpl in He2. injection He2 as ->. simpl in *.
  pose proof (pq_heap_domain _ _ _ Hh He) as Hd.
  assert (Hslot : forall i, 0 <= i <= size q ->
    <[Z.to_nat (size q):=item]> els !!! Z.to_nat i = if i =? size q then item else els !!! Z.to_nat i).
  { intros i Hi. destruct (Z.eqb_spec i (size q)) as [->|].
    - apply list_lookup_total_insert_eq. lia.
    - apply list_lookup_total_insert_ne. lia. }
  eapply (sift_up_heap (D := D) (cmp0 := cmp0) (S (Z.to_nat (size q))) _ _ _ (size q + 1))
    in Hsift as [Ho2 HI2]; [|lia|rewrite length_insert; lia|done| |].
  - split; [done|]. split; [|by exists els2]. by rewrite HP, Forall_cons.
  - intros i Hi. rewrite Hslot by lia. destruct (Z.eqb_spec i (size q)); [done|]. apply Hd. lia.
  - split.
    + intros i Hi Hne. destruct (parent_cases i) as [Hp _]; [lia|].
      rewrite !Hslot by lia. destruct (Z.eqb_spec (Z.quot (i - 1) 2) (size q)); [lia|].
      destruct (Z.eqb_spec i (size q)); [lia|]. apply Ho. lia.
    + intros i Hi Hpi. destruct (parent_cases i) as [Hp _]; lia.
Qed.

Lemma pop_root_heap q c item q' c' : HeapOrder (compare q) I D cmp0 ->
  pq_heap I D cmp0 q c -> 0 < size q -> pop_root q c = Some (item, q', c') ->
  pq_heap I D cmp0 q' c' /\ D item /\ Forall (fun y => 0 <= cmp0 item y) (contents q').
Proof.
  intros HO Hh Hpos Hpop. pose proof Hh as (Hwf & HI & HD & els & He & Ho).
  destruct (pop_root_safe q c Hwf Hpos) as (i2 & q2 & c2 & Heq & Hwf2 & _ & _ & Hsz & HP).
  rewrite Hpop in Heq. injection Heq as <- <- <-.
  pose proof Hwf as (els0 & He0 & Hl & Hs & Hc). simplify_eq.
  pose proof (pq_heap_domain _ _ _ Hh He) as Hd.
  unfold pop_root in Hpop. rewrite He in Hpop; simpl in Hpop.
  rewrite (arr_get_total els 0), (arr_get_total els (size q - 1)) in Hpop by lia; simpl in Hpop.
  rewrite arr_set_some in Hpop by lia; simpl in Hpop.
  apply bind_Some in Hpop as ([els3 c3] & Hsift & Hq). injection Hq as <- <- <-.
  rewrite HP in HD. apply Forall_cons in HD as [HDi HDc].
  pose proof (heap_root_greatest (cmp0 := cmp0) els (size q) Hd Ho) as Hmax.
  simpl in *. change (Z.to_nat 0) with 0%nat. split; [|split; [done|]].
  - split; [done|]. destruct (Z.eq_dec (size q) 1) as [H1|].
    { rewrite H1 in Hsift. vm_compute in Hsift. injection Hsift as <- <-.
      split; [done|]. split; [done|]. eexists. split; [done|]. simpl. intros i ?. lia. }
    assert (Hslot : forall i, 0 < i -> <[Z.to_nat 0:=els !!! Z.to_nat (size q - 1)]> els !!! Z.to_nat i
      = els !!! Z.to_nat i) by (intros; apply list_lookup_total_insert_ne; lia).
    assert (Hslot0 : <[Z.to_nat 0:=els !!! Z.to_nat (size q - 1)]> els !!! Z.to_nat 0
      = els !!! Z.to_nat (size q - 1)) by (apply list_lookup_total_insert_eq; lia).
    eapply (sift_down_heap (D := D) (cmp0 := cmp0) (S (Z.to_nat (size q - 1))) _ (size q - 1) 0)
      in Hsift as [Ho2 HI2]; [|lia|lia|rewrite length_insert; lia|done| |].
    + split; [done|]. split; [done|]. by exists els3.
    + intros i Hi. destruct (Z.eq_dec i 0) as [->|]; [rewrite Hslot0|rewrite Hslot by lia]; apply Hd; lia.
    + split; [|lia]. intros i Hi Hp. destruct (parent_cases i) as [Hpi _]; [lia|].
      rewrite !Hslot by lia. apply Ho. lia.
  - apply Forall_forall. intros y Hy.
    assert (Hy' : y ∈ contents q) by (rewrite HP; by right).
    unfold contents in Hy'. rewrite He in Hy'.
    apply list_elem_of_lookup in Hy' as [k Hk]. apply lookup_take_Some in Hk as [Hk Hkn].
    specialize (Hmax (Z.of_nat k) ltac:(lia)). rewrite Nat2Z.id in Hmax.
    by rewrite (list_lookup_total_correct _ _ _ Hk) in Hmax.
Qed.

End Heap.

(** ** The comparators of the program *)

(** Priorities whose differences fit in [int32_t]. *)
Definition prio_bounded {V} (x : pv_t V) : Prop := - 2 ^ 30 <= _priority x < 2 ^ 30.

#[export] Instance max_heap_order {V C} :
  HeapOrder (@max_heap_compare V C) (fun _ => True) prio_bounded
    (fun a b => _priority a - _priority b).
Proof.
  split; unfold prio_bounded; simpl; intros; try lia.
  apply sint32_id. unfold in_int32, INT32_MIN, INT32_MAX. lia.
Qed.

#[export] Instance min_heap_order {V C} :
  HeapOrder (@min_heap_compare V C) (fun _ => True) prio_bounded
    (fun a b => _priority b - _priority a).
Proof.
  split; unfold prio_bounded; simpl; intros; try lia.
  apply sint32_id. unfold in_int32, INT32_MIN, INT32_MAX. lia.
Qed.

(** The effective priority at time [now]: one level per second of waiting. *)
Definition effective {V} (now : Z) (x : pv_t V) : Z :=
  _priority x + (now - timestamp x) / AGING_TIME.

(** Items enqueued before [now], with priorities and ages far from the ends
    of [int32_t]. *)
Definition aged {V} (now : Z) (x : pv_t V) : Prop :=
  - 2 ^ 29 <= _priority x < 2 ^ 29 /\
  0 <= timestamp x <= now /\ now - timestamp x < 2 ^ 29 * AGING_TIME.

(** A clock that shows [now] milliseconds at every reading. *)
Definition clock_shows (now : Z) (c : clock) : Prop := forall i, msec_of (reading c i) = now.

#[export] Instance aging_order {V} now :
  HeapOrder (@aging_compare V) (clock_shows now) (aged now)
    (fun a b => effective now b - effective now a).
Proof.
  assert (Hage : forall x : pv_t V, aged now x ->
    int32 (uint64 (now - timestamp x) / AGING_TIME) = (now - timestamp x) / AGING_TIME /\
    0 <= (now - timestamp x) / AGING_TIME < 2 ^ 29).
  { intros x (_ & Ht & Hd). unfold AGING_TIME in *.
    assert (0 <= (now - timestamp x) / 1000 < 2 ^ 29).
    { split; [apply Z.div_pos; lia|apply Z.div_lt_upper_bound; lia]. }
    rewrite uint_id by lia. rewrite sint32_id; [done|].
    unfold in_int32, INT32_MIN, INT32_MAX. lia. }
  split; simpl; intros; try lia.
  - unfold aging_compare, gettime_msec, clock_read, clock_now. simpl. rewrite H.
    destruct (Hage a) as [Ha ?], (Hage b) as [Hb ?]; [done..|].
    destruct H0 as [? _], H1 as [? _]. unfold aging_at, effective.
    rewrite Ha, Hb. rewrite !sint32_id; unfold in_int32, INT32_MIN, INT32_MAX; rewrite ?sint32_id;
      unfold in_int32, INT32_MIN, INT32_MAX; lia.
  - unfold aging_compare, gettime_msec, clock_read. intros i. apply H.
Qed.

(** ** Sequences of operations *)

Section Sequences.
Context {V C : Type}.

(** Repeated [priority_queue_try_pop] until the queue is empty. *)
Fixpoint drain (fuel : nat) (q : pq_t V C) (c : C) : option (list (pv_t V)) :=
  match fuel with
  | O => Some []
  | S fuel' =>
    r ← priority_queue_try_pop (Some q) true c;
    match r with
    | (Some item, Some q', c') => rest ← drain fuel' q' c'; Some (item :: rest)
    | _ => Some []
    end
  end.

Inductive pq_op : Type :=
  | OpPush (item : pv_t V)
  | OpTryPop
  | OpClear (free_values : bool).

(** The ledger of a run: what was accepted, what was handed out, what was
    dropped by [priority_queue_clear]. *)
Record ledger := Ledger { accepted : list (pv_t V); delivered : list (pv_t V); dropped : list (pv_t V) }.

Definition pq_exec (op : pq_op) (q : pq_t V C) (c : C) (l : ledger)
    : option (pq_t V C * C * ledger) :=
  match op with
  | OpPush item =>
    r ← priority_queue_push (Some q) item c;
    match r with
    | (b, Some q', c') =>
      Some (q', c', if (b : bool) then Ledger (item :: accepted l) (delivered l) (dropped l) else l)
    | (_, None, _) => None
    end
  | OpTryPop =>
    r ← priority_queue_try_pop (Some q) true c;
    match r with
    | (Some item, Some q', c') => Some (q', c', Ledger (accepted l) (item :: delivered l) (dropped l))
    | (None, Some q', c') => Some (q', c', l)
    | (_, None, _) => None
    end
  | OpClear b =>
    r ← priority_queue_clear (Some q) b;
    match r with
    | (_, Some q', _) => Some (q', c, Ledger (accepted l) (delivered l) (contents q ++ dropped l))
    | (_, None, _) => None
    end
  end.

Fixpoint pq_run (ops : list pq_op) (q : pq_t V C) (c : C) (l : ledger)
    : option (pq_t V C * C * ledger) :=
  match ops with
  | [] => Some (q, c, l)
  | op :: ops' => '(q', c', l') ← pq_exec op q c l; pq_run ops' q' c' l'
  end.

Definition balanced (q : pq_t V C) (l : ledger) : Prop :=
  accepted l ≡ₚ contents q ++ delivered l ++ dropped l.

Lemma try_pop_safe (q : pq_t V C) c : pq_wf q ->
  (size q = 0 /\ priority_queue_try_pop (Some q) true c = Some (None, Some q, c)) \/
  (0 < size q /\ exists item q' c', pop_root q c = Some (item, q', c') /\
     priority_queue_try_pop (Some q) true c = Some (Some item, Some q', c') /\ pq_wf q' /\
     capacity q' = capacity q /\ compare q' = compare q /\ size q' = size q - 1 /\
     contents q ≡ₚ item :: contents q').
Proof.
  intros Hwf. pose proof Hwf as (els & He & Hl & Hs & Hc). simpl.
  destruct (Z.eqb_spec (size q) 0); [by left|right]. split; [lia|].
  destruct (pop_root_safe q c Hwf) as (item & q' & c' & Heq & ?); [lia|].
  exists item, q', c'. rewrite Heq. done.
Qed.

Lemma clear_safe (q : pq_t V C) b : pq_wf q ->
  exists q', priority_queue_clear (Some q) b =
      Some (true, Some q', if b then omap _value (contents q) else []) /\
    pq_wf q' /\ capacity q' = capacity q /\ compare q' = compare q /\ size q' = 0 /\ contents q' = [].
Proof.
  intros (els & He & Hl & Hs & Hc). unfold priority_queue_clear, contents. rewrite He.
  destruct b; simpl.
  - destruct (clear_values_spec els (Z.to_nat (size q))) as (els' & -> & Hl'); [lia|]. simpl.
    eexists. split; [done|]. split; [exists els'; simpl; repeat split; lia|done].
  - eexists. split; [done|]. split; [exists els; simpl; repeat split; lia|done].
Qed.

Lemma pq_exec_safe op (q : pq_t V C) c l : pq_wf q -> balanced q l ->
  exists q' c' l', pq_exec op q c l = Some (q', c', l') /\ pq_wf q' /\
    capacity q' = capacity q /\ balanced q' l'.
Proof.
  unfold balanced. intros Hwf Hb. destruct op as [item| |b]; unfold pq_exec.
  - destruct (pq_push_safe q item c Hwf) as (q' & c' & -> & Hwf' & Hcap & _ & Hcase). simpl.
    eexists _, _, _. split; [done|]. simpl in Hcase. destruct (capacity q <=? size q); simpl.
    + by subst.
    + destruct Hcase as [_ HP]. repeat split; [done..|]. by rewrite HP, Hb.
  - destruct (try_pop_safe q c Hwf) as [[_ ->]|(_ & item & q' & c' & _ & -> & Hwf' & Hcap & _ & _ & HP)].
    { simpl. eexists _, _, _. repeat split; done. }
    simpl. eexists _, _, _. split; [done|]. repeat split; [done..|]. simpl.
    rewrite Hb, HP. simpl. by rewrite <- Permutation_middle.
  - destruct (clear_safe q b Hwf) as (q' & -> & Hwf' & Hcap & _ & _ & Hnil). simpl.
    eexists _, _, _. split; [done|]. repeat split; [done..|]. simpl.
    rewrite Hb, Hnil. simpl. rewrite (app_assoc (contents q)), (Permutation_app_comm (contents q)).
    by rewrite <- app_assoc.
Qed.

Lemma pq_run_safe ops : forall (q : pq_t V C) c l, pq_wf q -> balanced q l ->
  exists q' c' l', pq_run ops q c l = Some (q', c', l') /\ pq_wf q' /\
    capacity q' = capacity q /\ balanced q' l'.
Proof.
  induction ops as [|op ops IH]; intros q c l Hwf Hb; simpl; [eauto 10|].
  destruct (pq_exec_safe op q c l Hwf Hb) as (q1 & c1 & l1 & -> & Hwf1 & Hcap1 & Hb1). simpl.
  destruct (IH q1 c1 l1 Hwf1 Hb1) as (q2 & c2 & l2 & -> & ? & Hcap2 & ?).
  eexists _, _, _. repeat split; [done..|lia|done].
Qed.

Lemma pq_init_wf o junk cap cmp q o' : 0 <= cap <= 2 ^ 30 ->
  @pq_init V C o junk cap cmp = (Some q, o') ->
  pq_wf q /\ contents q = [] /\ capacity q = cap /\ cmp = Some (compare q).
Proof.
  intros Hcap. unfold pq_init. destruct cmp as [cmp|]; [|done].
  destruct (malloc o) as [[] o1]; simpl; [|done]. destruct (malloc o1) as [[] o2]; simpl; [|done].
  intros [= <- <-]. split; [|done]. exists (replicate (Z.to_nat cap) junk). simpl.
  rewrite length_replicate. repeat split; lia.
Qed.

Lemma drain_heap {I D cmp0} fuel : forall (q : pq_t V C) c, HeapOrder (compare q) I D cmp0 ->
  pq_heap I D cmp0 q c -> fuel = Z.to_nat (size q) ->
  exists l, drain fuel q c = Some l /\ l ≡ₚ contents q /\
    StronglySorted (fun a b => 0 <= cmp0 a b) l.
Proof.
  induction fuel as [|fuel IH]; intros q c HO Hh Hf.
  { exists []. repeat split; [|constructor]. pose proof (contents_length q (proj1 Hh)).
    destruct (contents q); [done|simpl in *; lia]. }
  pose proof Hh as (Hwf & _). cbn [drain].
  destruct (try_pop_safe q c Hwf) as [[? _]|(Hpos & item & q' & c' & Hpop & -> & _ & _ & Hcmp & Hsz & HP)];
    [lia|]. simpl.
  destruct (pop_root_heap q c item q' c' HO Hh Hpos Hpop) as (Hh' & _ & Hmax).
  destruct (IH q' c') as (l & -> & HPl & Hsort); [by rewrite Hcmp|done|lia|]. simpl.
  exists (item :: l). split; [done|]. split; [by rewrite HP, HPl|].
  constructor; [done|]. rewrite Forall_forall in Hmax |- *. intros y Hy. apply Hmax.
  by rewrite <- HPl.
Qed.

End Sequences.
Arguments pq_op : clear implicits.
Arguments ledger : clear implicits.

#[global] Arguments priority_queue_push : simpl never.
#[global] Arguments priority_queue_try_pop : simpl never.

(** Push the items one after the other. *)
Fixpoint push_all {V C} (items : list (pv_t V)) (q : pq_t V C) (c : C) : option (pq_t V C * C) :=
  match items with
  | [] => Some (q, c)
  | x :: items' =>
    r ← priority_queue_push (Some q) x c;
    match r with
    | (_, Some q', c') => push_all items' q' c'
    | (_, None, _) => None
    end
  end.

Lemma push_all_heap {V C I D cmp0} items : forall (q : pq_t V C) c,
  HeapOrder (compare q) I D cmp0 -> pq_heap I D cmp0 q c -> Forall D items ->
  size q + Z.of_nat (length items) <= capacity q ->
  exists q' c', push_all items q c = Some (q', c') /\ pq_heap I D cmp0 q' c' /\
    compare q' = compare q /\ contents q' ≡ₚ items ++ contents q /\
    size q' = size q + Z.of_nat (length items).
Proof.
  induction items as [|x items IH]; intros q c HO Hh HD Hcap; simpl.
  { eexists _, _. split; [done|]. split; [done|]. split_and!; [done..|lia]. }
  apply Forall_cons in HD as [Hx HD]. simpl in Hcap.
  destruct (pq_push_safe q x c (proj1 Hh)) as (q1 & c1 & Hpush & Hwf1 & Hcap1 & Hcmp1 & Hcase).
  simpl pq_full in *. destruct (Z.leb_spec (capacity q) (size q)); [lia|].
  destruct Hcase as [Hsz1 HP1]. rewrite Hpush; simpl.
  pose proof (pq_push_heap q x c q1 c1 _ HO Hh Hx Hpush) as Hh1.
  destruct (IH q1 c1) as (q2 & c2 & -> & Hh2 & Hcmp2 & HP2 & Hsz2); [by rewrite Hcmp1|done..|lia|].
  eexists _, _. split; [done|]. split; [done|]. split; [congruence|]. split; [|lia].
  rewrite HP2, HP1. simpl. by rewrite Permutation_middle.
Qed.

(** ** Properties *)

Section Properties.
Context {V C : Type}.

(** whatever the comparator answers (the aging comparator reads the clock
    at every call, so two calls may disagree), every sequence of pushes,
    non-blocking pops and clears on a queue made by [pq_init] stays inside
    its array and terminates, keeps [0 <= size <= capacity], and accounts for
    every accepted item exactly once: it is still queued, was delivered by a
    pop, or was dropped by a clear. *)
Theorem pq_run_conserves : forall o junk cap cmp (q : pq_t V C) o' c ops,
  0 <= cap <= 2 ^ 30 -> pq_init o junk cap cmp = (Some q, o') ->
  exists q' c' l', pq_run ops q c (Ledger [] [] []) = Some (q', c', l') /\
    0 <= size q' <= cap /\
    accepted l' ≡ₚ contents q' ++ delivered l' ++ dropped l'.
Proof.
  intros * Hcap Hinit. destruct (pq_init_wf _ _ _ _ _ _ Hcap Hinit) as (Hwf & Hnil & Hc & _).
  destruct (pq_run_safe ops q c (Ledger [] [] []) Hwf) as (q' & c' & l' & -> & Hwf' & Hc' & Hb).
  { unfold balanced. by rewrite Hnil. }
  exists q', c', l'. repeat split; try done; destruct Hwf' as (? & _ & _ & ? & _); lia.
Qed.

(** [priority_queue_push] on a queue ordered by its comparator: on a full
    queue it answers [false] and leaves the queue as it was; otherwise it
    answers [true], the queue holds exactly one more item, the pushed one,
    and is ordered again. *)
Theorem push_spec : forall I D cmp0 (q : pq_t V C) item c,
  HeapOrder (compare q) I D cmp0 -> pq_heap I D cmp0 q c -> D item ->
  exists q' c', priority_queue_push (Some q) item c = Some (negb (pq_full (Some q)), Some q', c') /\
    pq_heap I D cmp0 q' c' /\
    if pq_full (Some q) then q' = q
    else size q' = size q + 1 /\ contents q' ≡ₚ item :: contents q.
Proof.
  intros * HO Hh HD. destruct (pq_push_safe q item c (proj1 Hh)) as (q' & c' & Hp & _ & _ & _ & Hcase).
  exists q', c'. split; [done|]. split; [by eapply pq_push_heap|done].
Qed.

(** [priority_queue_try_pop] on an ordered queue: an empty queue is left
    alone and nothing is written to [item]; otherwise the item delivered
    ranks at or above every item that stays, the queue loses exactly that
    item, and is ordered again. *)
Theorem try_pop_spec : forall I D cmp0 (q : pq_t V C) c,
  HeapOrder (compare q) I D cmp0 -> pq_heap I D cmp0 q c ->
  (size q = 0 /\ priority_queue_try_pop (Some q) true c = Some (None, Some q, c)) \/
  exists item q' c', priority_queue_try_pop (Some q) true c = Some (Some item, Some q', c') /\
    pq_heap I D cmp0 q' c' /\ contents q ≡ₚ item :: contents q' /\
    Forall (fun y => 0 <= cmp0 item y) (contents q').
Proof.
  intros * HO Hh. destruct (try_pop_safe q c (proj1 Hh))
    as [?|(Hpos & item & q' & c' & Hpop & Htry & _ & _ & _ & _ & HP)]; [by left|right].
  destruct (pop_root_heap q c item q' c' HO Hh Hpos Hpop) as (Hh' & _ & Hmax).
  exists item, q', c'. auto.
Qed.

(** popping an ordered queue until it is empty delivers every item once,
    in the comparator's order: the queue implements a priority queue (heap
    sort), and the loop ends after [size] pops. *)
Theorem drain_sorted : forall I D cmp0 (q : pq_t V C) c,
  HeapOrder (compare q) I D cmp0 -> pq_heap I D cmp0 q c ->
  exists l, drain (Z.to_nat (size q)) q c = Some l /\ l ≡ₚ contents q /\
    StronglySorted (fun a b => 0 <= cmp0 a b) l.
Proof. intros * HO Hh. by eapply drain_heap. Qed.

End Properties.

(** the aging comparator puts the queue the wrong way round: pushed at
    one reading of the clock into a fresh queue, items come out of
    [priority_queue_try_pop] with the LEAST effective priority (priority plus
    seconds waited) first, where the comment of [aging_compare] promises the
    highest. *)
Theorem aging_pops_least_urgent : forall (V : Type) now o junk cap (q : pq_t V clock) o' c items,
  0 <= cap <= 2 ^ 30 -> pq_init o junk cap (Some aging_compare) = (Some q, o') ->
  clock_shows now c -> Forall (aged now) items -> Z.of_nat (length items) <= cap -> items <> [] ->
  exists q1 c1 item q2 c2, push_all items q c = Some (q1, c1) /\
    priority_queue_try_pop (Some q1) true c1 = Some (Some item, Some q2, c2) /\
    item ∈ items /\ Forall (fun y => effective now item <= effective now y) items.
Proof.
  intros * Hcap Hinit Hc Haged Hlen Hne.
  destruct (pq_init_wf _ _ _ _ _ _ Hcap Hinit) as (Hwf & Hnil & Hcapq & [= Hcmp]).
  assert (Hsz : size q = 0).
  { pose proof (contents_length q Hwf) as Hl. rewrite Hnil in Hl. simpl in Hl.
    destruct Hwf as (_ & _ & _ & ? & _). lia. }
  assert (HO : HeapOrder (compare q) (clock_shows now) (aged now)
    (fun a b => effective now b - effective now a)) by (rewrite <- Hcmp; apply aging_order).
  assert (Hh : pq_heap (clock_shows now) (aged now) (fun a b => effective now b - effective now a) q c).
  { split; [done|]. split; [done|]. rewrite Hnil. split; [done|].
    destruct Hwf as (els & He & _). exists els. split; [done|]. intros i Hi. lia. }
  destruct (push_all_heap items q c HO Hh Haged) as (q1 & c1 & -> & Hh1 & Hcmp1 & HP1 & Hsz1); [lia|].
  rewrite Hnil, app_nil_r in HP1.
  destruct (try_pop_safe q1 c1 (proj1 Hh1)) as [[H0 _]|(Hpos & item & q2 & c2 & Hpop & Htry & _ & _ & _ & _ & HP2)].
  { destruct items; [done|simpl in *; lia]. }
  rewrite <- Hcmp1 in HO.
  destruct (pop_root_heap q1 c1 item q2 c2 HO Hh1 Hpos Hpop) as (_ & _ & Hmax).
  exists q1, c1, item, q2, c2. rewrite <- HP1, HP2. split_and!; [done|done|left|].
  constructor; [done|]. eapply Forall_impl; [exact Hmax|]. simpl. intros; lia.
Qed.

(** ** Witnesses *)

Definition demo_item (p v : Z) : pv_t Z := PV p (Some v) 0.

Definition demo_queue : pq_t Z unit :=
  PQ (Some [demo_item 9 1; demo_item 4 2; demo_item 7 3; demo_item 0 0]) 4 3 max_heap_compare.

Lemma demo_queue_heap :
  pq_heap (fun _ => True) prio_bounded (fun a b => _priority a - _priority b) demo_queue tt.
Proof.
  split; [|split; [done|split]].
  - eexists. split; [reflexivity|]. vm_compute. repeat split; congruence.
  - repeat constructor; vm_compute; congruence.
  - eexists. split; [reflexivity|]. intros i Hi. simpl in Hi.
    assert (i = 1 \/ i = 2) as [->| ->] by lia; vm_compute; congruence.
Qed.

Lemma pq_run_conserves_witness :
  exists q' c' l', pq_run [OpPush (demo_item 3 1); OpPush (demo_item 8 2); OpTryPop; OpClear true]
      (PQ (Some [demo_item 0 0; demo_item 0 0]) 2 0 max_heap_compare) tt (Ledger [] [] [])
      = Some (q', c', l') /\
    0 <= size q' <= 2 /\ accepted l' ≡ₚ contents q' ++ delivered l' ++ dropped l'.
Proof.
  apply (pq_run_conserves [true; true] (demo_item 0 0) 2 (Some max_heap_compare) _ []); [lia|reflexivity].
Defined.

Lemma push_spec_witness : exists q' c',
  priority_queue_push (Some demo_queue) (demo_item 5 4) tt
    = Some (negb (pq_full (Some demo_queue)), Some q', c') /\
  pq_heap (fun _ => True) prio_bounded (fun a b => _priority a - _priority b) q' c' /\
  if pq_full (Some demo_queue) then q' = demo_queue
  else size q' = size demo_queue + 1 /\ contents q' ≡ₚ demo_item 5 4 :: contents demo_queue.
Proof.
  apply (push_spec (fun _ => True) prio_bounded (fun a b => _priority a - _priority b)
    demo_queue (demo_item 5 4) tt max_heap_order demo_queue_heap).
  unfold prio_bounded; simpl; lia.
Defined.

Lemma try_pop_spec_witness :
  (size demo_queue = 0 /\ priority_queue_try_pop (Some demo_queue) true tt = Some (None, Some demo_queue, tt)) \/
  exists item q' c', priority_queue_try_pop (Some demo_queue) true tt = Some (Some item, Some q', c') /\
    pq_heap (fun _ => True) prio_bounded (fun a b => _priority a - _priority b) q' c' /\
    contents demo_queue ≡ₚ item :: contents q' /\
    Forall (fun y => 0 <= _priority item - _priority y) (contents q').
Proof.
  apply (try_pop_spec (fun _ => True) prio_bounded (fun a b => _priority a - _priority b)
    demo_queue tt max_heap_order demo_queue_heap).
Defined.

Lemma drain_sorted_witness :
  exists l, drain 3 demo_queue tt = Some l /\ l ≡ₚ contents demo_queue /\
    StronglySorted (fun a b => 0 <= _priority a - _priority b) l.
Proof.
  apply (drain_sorted (fun _ => True) prio_bounded (fun a b => _priority a - _priority b)
    demo_queue tt max_heap_order demo_queue_heap).
Defined.

Definition stopped_clock (ns : Z) : clock := Clock (fun _ => ns) 0.

Lemma aging_pops_least_urgent_witness :
  exists q1 c1 item q2 c2,
    push_all [demo_item 3 30; demo_item 1 10] (PQ (Some [demo_item 0 0; demo_item 0 0]) 2 0 aging_compare)
      (stopped_clock 5000000000) = Some (q1, c1) /\
    priority_queue_try_pop (Some q1) true c1 = Some (Some item, Some q2, c2) /\
    item ∈ [demo_item 3 30; demo_item 1 10] /\
    Forall (fun y => effective 5000 item <= effective 5000 y) [demo_item 3 30; demo_item 1 10].
Proof.
  apply (aging_pops_least_urgent Z 5000 [true; true] (demo_item 0 0) 2 _ []);
    [lia|reflexivity|intros i; vm_compute; reflexivity| |simpl; lia|done].
  repeat constructor; unfold aged, AGING_TIME; simpl; lia.
Defined.

Example aging_pops_priority_1_before_3 :
  drain 2 (default (PQ None 0 0 aging_compare)
    (fst <$> push_all [demo_item 3 30; demo_item 1 10]
      (PQ (Some [demo_item 0 0; demo_item 0 0]) 2 0 aging_compare) (stopped_clock 5000000000)))
    (stopped_clock 5000000000) = Some [demo_item 1 10; demo_item 3 30].
Proof. vm_compute. reflexivity. Qed.
