(* ===== verification/QueueConsumers.v ===== *)
(** * Blocking consumers of a priority queue

    Producers and consumers that share one [pq_t]: [priority_queue_push]
    signals the condition variable, [priority_queue_pop] waits on it in a
    loop.  Between the states of this system every operation holds the mutex,
    so a step is one critical section.  A consumer that calls
    [pthread_cond_wait] sleeps until a signal or a spurious wakeup makes it
    runnable, and then re-tests [pq_empty]. *)

From S2P Require Import Prelude PriorityQueue.

Section Consumers.
Context {V C : Type}.

Record system := System {
  queue : pq_t V C;
  env : C;
  asleep : nat;   (* consumers inside pthread_cond_wait *)
  woken : nat     (* consumers signalled that have not yet reacquired the mutex *)
}.

(** [pthread_cond_signal]: one sleeping consumer, if there is one. *)
Definition cond_signal (asleep woken : nat) : nat * nat :=
  match asleep with
  | O => (O, woken)
  | S n => (n, S woken)
  end.

Inductive step : system -> system -> Prop :=
  | step_push q c a w item q' c' a' w' :
      priority_queue_push (Some q) item c = Some (true, Some q', c') ->
      cond_signal a w = (a', w') ->
      step (System q c a w) (System q' c' a' w')
  | step_push_full q c a w item q' c' :
      priority_queue_push (Some q) item c = Some (false, Some q', c') ->
      step (System q c a w) (System q' c' a w)
  | step_pop q c a w item q' c' :
      priority_queue_pop (Some q) true c = Some (Popped item q' c') ->
      step (System q c a w) (System q' c' a w)
  | step_pop_wait q c a w :
      priority_queue_pop (Some q) true c = Some Wait ->
      step (System q c a w) (System q c (S a) w)
  | step_wake q c a w item q' c' :
      priority_queue_pop (Some q) true c = Some (Popped item q' c') ->
      step (System q c a (S w)) (System q' c' a w)
  | step_wake_wait q c a w :
      priority_queue_pop (Some q) true c = Some Wait ->
      step (System q c a (S w)) (System q c (S a) w)
  | step_spurious q c a w :
      step (System q c (S a) w) (System q c a (S w))
  | step_try_pop q c a w item q' c' :
      priority_queue_try_pop (Some q) true c = Some (item, Some q', c') ->
      step (System q c a w) (System q' c' a w)
  | step_clear q c a w b q' freed :
      priority_queue_clear (Some q) b = Some (true, Some q', freed) ->
      step (System q c a w) (System q' c a w).

(** A fresh queue that no consumer waits on. *)
Definition started (s : system) : Prop :=
  exists o junk cap cmp o', 0 <= cap <= 2 ^ 30 /\
    pq_init o junk cap cmp = (Some (queue s), o') /\ asleep s = O /\ woken s = O.

Definition consumers_ok (s : system) : Prop :=
  pq_wf (queue s) /\ ((0 < asleep s)%nat -> size (queue s) <= Z.of_nat (woken s)).

Lemma pop_cases (q : pq_t V C) c : pq_wf q ->
  (size q = 0 /\ priority_queue_pop (Some q) true c = Some Wait) \/
  exists item q' c', priority_queue_pop (Some q) true c = Some (Popped item q' c') /\
    pq_wf q' /\ size q' = size q - 1.
Proof.
  intros Hwf. destruct (try_pop_safe q c Hwf)
    as [[H0 _]|(Hpos & item & q' & c' & Hpop & _ & Hwf' & _ & _ & Hsz & _)]; simpl.
  - left. split; [done|]. by rewrite H0.
  - right. exists item, q', c'. destruct (Z.eqb_spec (size q) 0); [lia|]. by rewrite Hpop.
Qed.

Lemma step_consumers_ok s s' : consumers_ok s -> step s s' -> consumers_ok s'.
Proof.
  intros [Hwf Hw] Hs. unfold consumers_ok.
  assert (Hpop : forall (q : pq_t V C) c item q' c', pq_wf q ->
    priority_queue_pop (Some q) true c = Some (Popped item q' c') -> pq_wf q' /\ size q' = size q - 1).
  { intros q c item q' c' Hq Hp.
    destruct (pop_cases q c Hq) as [[_ He]|(? & ? & ? & He & ? & ?)]; rewrite Hp in He; [done|].
    by injection He as <- <- <-. }
  assert (Hwait : forall (q : pq_t V C) c, pq_wf q ->
    priority_queue_pop (Some q) true c = Some Wait -> size q = 0).
  { intros q c Hq Hp. destruct (pop_cases q c Hq) as [[? _]|(? & ? & ? & He & _)]; [done|congruence]. }
  destruct Hs as [q c a w item q' c' a' w' Hp Hsig|q c a w item q' c' Hp|q c a w item q' c' Hp
    |q c a w Hp|q c a w item q' c' Hp|q c a w Hp|q c a w|q c a w item q' c' Hp|q c a w b q' f Hp];
    cbn [queue env asleep woken] in *.
  - destruct (pq_push_safe q item c Hwf) as (q2 & c2 & He & Hwf2 & _ & _ & Hcase).
    rewrite Hp in He. injection He as Hb <- <-. simpl in Hcase.
    destruct (capacity q <=? size q); [done|]. destruct Hcase as [-> _].
    split; [done|]. destruct a; injection Hsig as <- <-; lia.
  - destruct (pq_push_safe q item c Hwf) as (q2 & c2 & He & Hwf2 & _ & _ & Hcase).
    rewrite Hp in He. injection He as Hb <- <-. simpl in Hcase.
    destruct (capacity q <=? size q); [by subst|done].
  - destruct (Hpop q c item q' c' Hwf Hp) as [? ->]. split; [done|]. lia.
  - rewrite (Hwait q c Hwf Hp). split; [done|]. lia.
  - destruct (Hpop q c item q' c' Hwf Hp) as [? ->]. split; [done|]. lia.
  - rewrite (Hwait q c Hwf Hp). split; [done|]. lia.
  - split; [done|]. destruct Hwf as (? & _ & _ & ? & _). lia.
  - destruct (try_pop_safe q c Hwf)
      as [[H0 He]|(Hpos & i & q2 & c2 & _ & He & Hwf' & _ & _ & Hsz & _)];
      rewrite Hp in He; injection He as ? <- <-; [done|]. split; [done|]. lia.
  - destruct (clear_safe q b Hwf) as (q2 & He & Hwf' & _ & _ & Hsz & _).
    rewrite Hp in He. injection He as <- ->. split; [done|]. lia.
Qed.

(** no wakeup is lost: in every state the producers and consumers of a
    queue can reach, whatever the interleaving and with spurious wakeups, a
    consumer asleep while the queue holds items is covered: at least as many
    consumers are already on their way to the items as there are items, and
    one of them can take its step. *)
Theorem no_lost_wakeup : forall s, reachable step started s ->
  (0 < asleep s)%nat -> 0 < size (queue s) ->
  size (queue s) <= Z.of_nat (woken s) /\
  exists item q' c', priority_queue_pop (Some (queue s)) true (env s) = Some (Popped item q' c') /\
    step s (System q' c' (asleep s) (pred (woken s))).
Proof.
  intros s Hr Ha Hpos. assert (Hok : consumers_ok s).
  { clear Ha Hpos. induction Hr as [s (o & junk & cap & cmp & o' & Hcap & Hinit & Ha & _)|];
      [|by eapply step_consumers_ok].
    split; [by eapply pq_init_wf|lia]. }
  destruct Hok as [Hwf Hw]. specialize (Hw Ha). split; [done|].
  destruct (pop_cases (queue s) (env s) Hwf) as [[? _]|(item & q' & c' & Hp & _)]; [lia|].
  exists item, q', c'. split; [done|]. destruct s as [q c a w]; simpl in *.
  destruct w; [lia|]. simpl. by eapply step_wake.
Qed.

End Consumers.
Arguments system : clear implicits.

(** ** Witness: one consumer sleeps, then a producer pushes. *)

Definition idle_queue : pq_t Z unit :=
  PQ (Some [PV 0 None 0; PV 0 None 0]) 2 0 max_heap_compare.

Definition full_slot : pq_t Z unit :=
  PQ (Some [PV 5 (Some 1) 0; PV 0 None 0]) 2 1 max_heap_compare.

Lemma demo_reachable : reachable step started (System full_slot tt 1 1).
Proof.
  eapply reach_step; [|eapply (step_push idle_queue tt 2 0 (PV 5 (Some 1) 0)); reflexivity].
  eapply reach_step; [|eapply (step_pop_wait idle_queue tt 1 0); reflexivity].
  eapply reach_step; [|eapply (step_pop_wait idle_queue tt 0 0); reflexivity].
  apply reach_init. exists [true; true], (PV 0 None 0), 2, (Some max_heap_compare), [].
  repeat split; lia || reflexivity.
Qed.

Lemma no_lost_wakeup_witness :
  size full_slot <= 1 /\
  exists item q' c', priority_queue_pop (Some full_slot) true tt = Some (Popped item q' c') /\
    step (System full_slot tt 1 1) (System q' c' 1 0).
Proof. apply (no_lost_wakeup (System full_slot tt 1 1) demo_reachable); simpl; lia. Defined.
