(* ===== verification/CanFrame.v ===== *)
(** * CAN frames of the DC/DC modules ([src/can/can.h], [src/can/can.c])

    The data of the CAN component and the construction of a frame: the
    29-bit identifier with its bit fields, the register number and the
    big-endian value. *)

From coqutil Require Import Z.bitblast.
From S2P Require Import Prelude Utils.

(** ** Data *)

Inductive task_priority_e := NONE | NORMAL | URGENT | IMMEDIATE.

Inductive dcdc_func_no_type :=
  | GET_MODE_OUTPUT_VOL | GET_MODE_OUTPUT_CUR | GET_MODE_LIMIT_POIINT
  | GET_MODE_DC_BORAD_TEMP | GET_MODE_DC_INPUT_VOL | GET_MODE_PFC0_VOL
  | GET_MODE_PFC1_VOL | GET_MODE_ENV_TEMP | GET_MODE_PFC_temp
  | GET_MODE_RATED_OUTPUT_PWR | GET_MODE_RATED_OUTPUT_CUR | SET_MODE_WORK_ALTITUDE
  | SET_MODE_OUTPUT_CUR | SET_MODE_GROUP_NUM | SET_MODE_ADDR_ALLOC_METH
  | SET_MODE_OUTPUT_PWR | SET_MODE_OUTPUT_VOL | SET_MODE_LIMIT_POINT
  | SET_MODE_OUTPUT_VOL_MAX | SET_MODE_SWITCH | SET_MODE_OVER_VOL_RESET
  | SET_MODE_OUT_OVER_VOL_PROTECTION_RELATED | GET_MODE_ALARM_BIT | GET_MODE_DIP_ADDR
  | SET_MODE_SC_RESET | SET_MODE_INPUT_MODEL | GET_MODE_INPUT_PWR
  | GET_MODE_WORK_ALTITUDE | GET_MODE_INPUT_MODEL | GET_MODE_DCDC_SOFTWARE_VER
  | GET_MODE_PFC_SOFTWARE_VER | SET_MODE_FAN.

Definition func_no (f : dcdc_func_no_type) : Z :=
  match f with
  | GET_MODE_OUTPUT_VOL => 1 | GET_MODE_OUTPUT_CUR => 2 | GET_MODE_LIMIT_POIINT => 3
  | GET_MODE_DC_BORAD_TEMP => 4 | GET_MODE_DC_INPUT_VOL => 5 | GET_MODE_PFC0_VOL => 8
  | GET_MODE_PFC1_VOL => 10 | GET_MODE_ENV_TEMP => 11 | GET_MODE_PFC_temp => 16
  | GET_MODE_RATED_OUTPUT_PWR => 17 | GET_MODE_RATED_OUTPUT_CUR => 18 | SET_MODE_WORK_ALTITUDE => 23
  | SET_MODE_OUTPUT_CUR => 27 | SET_MODE_GROUP_NUM => 30 | SET_MODE_ADDR_ALLOC_METH => 31
  | SET_MODE_OUTPUT_PWR => 32 | SET_MODE_OUTPUT_VOL => 33 | SET_MODE_LIMIT_POINT => 34
  | SET_MODE_OUTPUT_VOL_MAX => 35 | SET_MODE_SWITCH => 48 | SET_MODE_OVER_VOL_RESET => 49
  | SET_MODE_OUT_OVER_VOL_PROTECTION_RELATED => 62 | GET_MODE_ALARM_BIT => 64 | GET_MODE_DIP_ADDR => 67
  | SET_MODE_SC_RESET => 68 | SET_MODE_INPUT_MODEL => 70 | GET_MODE_INPUT_PWR => 72
  | GET_MODE_WORK_ALTITUDE => 74 | GET_MODE_INPUT_MODEL => 75 | GET_MODE_DCDC_SOFTWARE_VER => 86
  | GET_MODE_PFC_SOFTWARE_VER => 87 | SET_MODE_FAN => 51
  end.

Definition priority_to_int (p : task_priority_e) : Z :=
  match p with NONE => 0 | NORMAL => 1 | URGENT => 2 | IMMEDIATE => 3 end.

(** A frame handler: the program's [dcdc_send_encapsulation] or another
    function, known by its address. *)
Inductive frame_handler := Dcdc_send_encapsulation | Other_handler (address : Z).

Record can_frame := CanFrame { can_id : Z; can_dlc : Z; frame_data : list Z }.
Record can_msg_t := CanMsg { frame : can_frame; callback : option frame_handler }.
Record dcdc_task_t := Task {
  priority : task_priority_e;
  data : option can_msg_t;
  task_id : Z;
  module_id : Z
}.

Record dc_model_param_t := ModelParam { ptp : Z; dst : Z; group : Z }.

(** The bit-field view of [dcdc_can_id_u], packed from the least significant
    bit in declaration order. *)
Record can_id_info_t := CanIdInfo {
  id_group : Z;      (* 3 bits *)
  id_src_addr : Z;   (* 8 bits *)
  id_dst_addr : Z;   (* 8 bits *)
  id_ptp : Z;        (* 1 bit *)
  id_protno : Z;     (* 9 bits *)
  id_reserved : Z    (* 3 bits *)
}.

Definition BROADCAST : Z := 0x0607FF80.
Definition ERROR_ID : Z := 0.
Definition PROTNO : Z := 0x060.
Definition SRC_ADDR : Z := 0xF0.
Definition DST_BROADCAST : Z := 0xFE.
Definition DST_EXT_BROADCAST : Z := 0xFF.
Definition MODULE_COUNT : Z := 12.
Definition DCDC_QUEUE_LEN : Z := 20.
Definition DCDC_DATA_LEN : nat := 4.
Definition DCDC_CUR_GAIN : Z := 1024.
Definition DCDC_CAN_FUNC_CODE_SET : Z := 3.
(** from [linux/can.h] *)
Definition CAN_EFF_FLAG : Z := 0x80000000.
Definition CAN_MAX_DLC : Z := 8.

(** The 32 bits of the union: writing the fields, and reading them back. *)
Definition can_id_pack (i : can_id_info_t) : Z :=
  Z.lor (Z.land (id_group i) (Z.ones 3))
  (Z.lor (Z.shiftl (Z.land (id_src_addr i) (Z.ones 8)) 3)
  (Z.lor (Z.shiftl (Z.land (id_dst_addr i) (Z.ones 8)) 11)
  (Z.lor (Z.shiftl (Z.land (id_ptp i) (Z.ones 1)) 19)
  (Z.lor (Z.shiftl (Z.land (id_protno i) (Z.ones 9)) 20)
         (Z.shiftl (Z.land (id_reserved i) (Z.ones 3)) 29))))).

Definition can_id_unpack (id : Z) : can_id_info_t :=
  CanIdInfo (Z.land id (Z.ones 3)) (Z.land (Z.shiftr id 3) (Z.ones 8))
    (Z.land (Z.shiftr id 11) (Z.ones 8)) (Z.land (Z.shiftr id 19) (Z.ones 1))
    (Z.land (Z.shiftr id 20) (Z.ones 9)) (Z.land (Z.shiftr id 29) (Z.ones 3)).

Definition can_id_fill_dst (can_id_param : dc_model_param_t) : Z :=
  let d := dst can_id_param in
  let finish info := can_id_pack (CanIdInfo (id_group info) SRC_ADDR (id_dst_addr info)
                                   (id_ptp info) PROTNO (id_reserved info)) in
  if ptp can_id_param =? 1 then finish (CanIdInfo 0 0 d (ptp can_id_param) 0 0)
  else if ptp can_id_param =? 0 then
    if d =? DST_EXT_BROADCAST then finish (CanIdInfo 0 0 d (ptp can_id_param) 0 0)
    else if d =? DST_BROADCAST
    then finish (CanIdInfo (group can_id_param) 0 d (ptp can_id_param) 0 0)
    else finish (CanIdInfo 0 0 (uint8 (0xFD - d)) (ptp can_id_param) 0 0)
  else ERROR_ID.

(** ** Frame contents *)

(** [htonl]: the number whose bytes in memory are those of [v], highest first. *)
Definition htonl (host : bool) (v : Z) : Z := mem_value host (rev (le_bytes 4 v)).

Definition int32_2_can_need_format (host : bool) (value : Z) : list Z :=
  mem_bytes host 4 (htonl host value).

(** [value] is the 32-bit pattern of the [float]. *)
Definition float32_2_can_need_format (host : bool) (value : Z) : option (list Z) :=
  buf ← convert_byte_order host (Some (mem_bytes host 4 value)) 4 true;
  take DCDC_DATA_LEN <$> buf.

(** [data] has [DCDC_DATA_LEN] bytes; the others come from the [memset]. *)
Definition set_frame_fill (register_num : Z) (data : list Z) (p : dc_model_param_t) : can_frame :=
  CanFrame (Z.lor (can_id_fill_dst p) CAN_EFF_FLAG) CAN_MAX_DLC
    ([DCDC_CAN_FUNC_CODE_SET; 0; uint8 (Z.shiftr register_num 8); uint8 register_num] ++ data).

(** ** Lemmas on frames *)

Lemma can_id_unpack_pack i :
  can_id_unpack (can_id_pack i) =
  CanIdInfo (Z.land (id_group i) (Z.ones 3)) (Z.land (id_src_addr i) (Z.ones 8))
    (Z.land (id_dst_addr i) (Z.ones 8)) (Z.land (id_ptp i) (Z.ones 1))
    (Z.land (id_protno i) (Z.ones 9)) (Z.land (id_reserved i) (Z.ones 3)).
Proof. unfold can_id_unpack, can_id_pack. f_equal. all: Z.bitblast. Qed.

Lemma can_id_pack_range i : id_reserved i = 0 -> 0 <= can_id_pack i < 2 ^ 29.
Proof.
  intros Hr. assert (Heq : can_id_pack i = Z.land (can_id_pack i) (Z.ones 29)).
  { unfold can_id_pack. rewrite Hr. change (Z.shiftl (Z.land 0 (Z.ones 3)) 29) with 0. Z.bitblast. }
  rewrite Heq, Z.land_ones by lia. apply Z.mod_pos_bound. lia.
Qed.

Lemma land_ones_id x w : 0 <= w -> 0 <= x < 2 ^ w -> Z.land x (Z.ones w) = x.
Proof. intros. rewrite Z.land_ones by lia. by apply Z.mod_small. Qed.

Lemma format_bytes host value : 0 <= value < 2 ^ 32 ->
  int32_2_can_need_format host value = rev (le_bytes 4 value).
Proof.
  intros Hv. unfold int32_2_can_need_format, htonl, mem_bytes, mem_value. destruct host.
  - rewrite <- (length_le_bytes 4 value), <- length_rev.
    apply le_bytes_value. rewrite length_rev. apply Forall_rev, le_bytes_range.
  - rewrite be_value_rev. by rewrite <- (length_le_bytes 4 value) at 1; rewrite le_bytes_value by apply le_bytes_range.
Qed.

Lemma float_format_bytes host value :
  float32_2_can_need_format host value = Some (rev (le_bytes 4 value)).
Proof.
  unfold float32_2_can_need_format.
  rewrite convert_byte_order_spec by (rewrite length_mem_bytes; lia).
  destruct host; simpl andb; cbn [negb]; unfold mem_bytes.
  - change (Z.to_nat 4) with 4%nat. rewrite take_ge by (rewrite length_le_bytes; lia).
    rewrite drop_ge by (rewrite length_le_bytes; lia). rewrite app_nil_r.
    cbn [mbind option_bind fmap option_fmap option_map].
    by rewrite take_ge by (rewrite length_rev, length_le_bytes; unfold DCDC_DATA_LEN; lia).
  - cbn [mbind option_bind fmap option_fmap option_map].
    by rewrite take_ge by (rewrite length_rev, length_le_bytes; unfold DCDC_DATA_LEN; lia).
Qed.

(** ** Properties *)

(** the identifier built by [can_id_fill_dst], on every branch: read back
    through the bit fields it carries the source address, the protocol
    number, the point-to-point flag and the destination the caller asked for
    (an extended-group broadcast turns the group number [dst] into
    [0xFD - dst]), the group only for an in-group broadcast, and it fits the
    29 bits of an extended CAN identifier; a flag other than 0 and 1 gives
    [ERROR_ID], and the global broadcast gives the constant [BROADCAST]. *)
Theorem can_id_fill_dst_fields : forall p,
  0 <= dst p < 256 -> 0 <= group p < 256 ->
  (ptp p = 0 \/ ptp p = 1 ->
     0 <= can_id_fill_dst p < 2 ^ 29 /\
     can_id_unpack (can_id_fill_dst p) = {|
       id_group := if (ptp p =? 0) && (dst p =? DST_BROADCAST) then group p mod 8 else 0;
       id_src_addr := SRC_ADDR;
       id_dst_addr := if (ptp p =? 1) || (dst p =? DST_EXT_BROADCAST) || (dst p =? DST_BROADCAST)
                      then dst p else 0xFD - dst p;
       id_ptp := ptp p; id_protno := PROTNO; id_reserved := 0 |}) /\
  (ptp p <> 0 -> ptp p <> 1 -> can_id_fill_dst p = ERROR_ID) /\
  (ptp p = 0 -> dst p = DST_EXT_BROADCAST -> can_id_fill_dst p = BROADCAST).
Proof.
  intros p Hd Hg. split; [|split].
  - intros Hp. unfold can_id_fill_dst, DST_EXT_BROADCAST, DST_BROADCAST.
    destruct (Z.eqb_spec (ptp p) 1) as [H1|], (Z.eqb_spec (ptp p) 0) as [H0|]; try lia.
    all: destruct (Z.eqb_spec (dst p) 0xFF); [|destruct (Z.eqb_spec (dst p) 0xFE)].
    all: (split; [apply can_id_pack_range; done|]).
    all: rewrite can_id_unpack_pack; cbn [id_group id_src_addr id_dst_addr id_ptp id_protno id_reserved].
    all: try match goal with |- context [uint 8 ?x] => rewrite (uint_id 8 x) by lia end.
    all: try match goal with |- context [Z.land (group ?q) (Z.ones 3)] =>
           rewrite (Z.land_ones (group q) 3) by lia; change (2 ^ 3) with 8 end.
    all: rewrite !land_ones_id by (unfold SRC_ADDR, PROTNO; lia).
    all: repeat match goal with |- context [dst ?q =? ?k] => destruct (Z.eqb_spec (dst q) k) end;
      done || lia.
  - intros H0 H1. unfold can_id_fill_dst.
    destruct (Z.eqb_spec (ptp p) 1); [done|]. by destruct (Z.eqb_spec (ptp p) 0).
  - intros H0 H1. unfold can_id_fill_dst. rewrite H0, H1. vm_compute. done.
Qed.

(** what a receiver reads back from a frame built for register
    [register_num] and the 32-bit [value], in both formats and on both host
    byte orders: eight bytes, the set command, the register in bytes 2 and 3
    and the value in bytes 4 to 7, most significant byte first, and the
    identifier under the extended-frame flag. *)
Theorem set_frame_round_trip : forall (host is_float : bool) register_num value p,
  0 <= register_num < 2 ^ 16 -> 0 <= value < 2 ^ 32 -> 0 <= dst p < 256 -> 0 <= group p < 256 ->
  exists data, (if is_float then float32_2_can_need_format host value
                else Some (int32_2_can_need_format host value)) = Some data /\
    let f := set_frame_fill register_num data p in
    length (frame_data f) = 8%nat /\ can_dlc f = 8 /\
    frame_data f !! 0%nat = Some DCDC_CAN_FUNC_CODE_SET /\ frame_data f !! 1%nat = Some 0 /\
    be_value (take 2 (drop 2 (frame_data f))) = register_num /\
    be_value (drop 4 (frame_data f)) = value /\
    Z.land (can_id f) (Z.ones 29) = can_id_fill_dst p /\ Z.testbit (can_id f) 31 = true.
Proof.
  intros host is_float reg value p Hr Hv Hd Hg. exists (rev (le_bytes 4 value)). split.
  { destruct is_float; [apply float_format_bytes|by rewrite format_bytes]. }
  assert (Hid : 0 <= can_id_fill_dst p < 2 ^ 29).
  { unfold can_id_fill_dst, ERROR_ID.
    repeat case_match; first [lia|by apply can_id_pack_range]. }
  cbn -[le_bytes be_value Z.lor Z.land Z.testbit can_id_fill_dst Z.shiftr].
  rewrite length_rev, length_le_bytes. split_and!; try done.
  - unfold be_value. simpl. unfold uint8, uint.
    rewrite Z.shiftr_div_pow2 by lia. pose proof (Z.div_mod reg 256).
    rewrite (Z.mod_small (reg / 2 ^ 8)); [change (2 ^ 8) with 256; lia|].
    split; [apply Z.div_pos; lia|apply Z.div_lt_upper_bound; lia].
  - change (be_value (rev (le_bytes 4 value)) = value).
    rewrite be_value_rev, le_value_bytes. by apply Z.mod_small.
  - rewrite Z.land_lor_distr_l. change (Z.land CAN_EFF_FLAG (Z.ones 29)) with 0.
    rewrite Z.lor_0_r. apply land_ones_id; lia.
  - rewrite Z.lor_spec. change (Z.testbit CAN_EFF_FLAG 31) with true. apply orb_true_r.
Qed.

(** ** Witnesses *)

Definition demo_param : dc_model_param_t := ModelParam 1 5 0.

Lemma can_id_fill_dst_fields_witness :
  (0 = 0 \/ 0 = 1 ->
     0 <= can_id_fill_dst (ModelParam 0 0xFE 3) < 2 ^ 29 /\
     can_id_unpack (can_id_fill_dst (ModelParam 0 0xFE 3)) = CanIdInfo 3 0xF0 0xFE 0 0x060 0) /\
  (0 <> 0 -> 0 <> 1 -> can_id_fill_dst (ModelParam 0 0xFE 3) = ERROR_ID) /\
  (0 = 0 -> 0xFE = DST_EXT_BROADCAST -> can_id_fill_dst (ModelParam 0 0xFE 3) = BROADCAST).
Proof. apply (can_id_fill_dst_fields (ModelParam 0 0xFE 3)); simpl; lia. Defined.

Lemma set_frame_round_trip_witness :
  exists data, Some (int32_2_can_need_format true 102400) = Some data /\
    let f := set_frame_fill 27 data demo_param in
    length (frame_data f) = 8%nat /\ can_dlc f = 8 /\
    frame_data f !! 0%nat = Some DCDC_CAN_FUNC_CODE_SET /\ frame_data f !! 1%nat = Some 0 /\
    be_value (take 2 (drop 2 (frame_data f))) = 27 /\ be_value (drop 4 (frame_data f)) = 102400 /\
    Z.land (can_id f) (Z.ones 29) = can_id_fill_dst demo_param /\ Z.testbit (can_id f) 31 = true.
Proof. apply (set_frame_round_trip true false 27 102400 demo_param); simpl; lia. Defined.
