(* ===== verification/ModuleQueue.v ===== *)
(** * Module queues and worker pool ([src/can])

    [module_queue_manager.c] keeps one aging priority queue of tasks per
    power module; [can.c] fills them and runs the worker pool that sends the
    frames.  Tasks and messages are copied when they are queued, so a queue
    holds the records themselves. *)

From S2P Require Import Prelude Utils PriorityQueue CanFrame.

(** ** The per-module queues *)

Abbreviation task_queue := (pq_t dcdc_task_t clock).
Abbreviation pool_queue := (pq_t can_msg_t clock).

(** [queues[i]], [None] when the pointer is null. *)
Abbreviation module_queue_mgr_t := (list (option task_queue)).

(** The loop of [module_queue_mgr_init]; [None] when a [pq_init] failed and
    the queues made so far were deleted. *)
Fixpoint init_queues (n : nat) (o : list bool) (junk : pv_t dcdc_task_t)
    : option module_queue_mgr_t * list bool :=
  match n with
  | O => (Some [], o)
  | S n' =>
    let '(q, o1) := pq_init o junk DCDC_QUEUE_LEN (Some aging_compare) in
    match q with
    | None => (None, o1)
    | Some q => let '(rest, o2) := init_queues n' o1 junk in ((fun r => Some q :: r) <$> rest, o2)
    end
  end.

Definition module_queue_mgr_init (o : list bool) (junk : pv_t dcdc_task_t)
    : option module_queue_mgr_t * list bool :=
  let '(ok, o1) := malloc o in
  if negb ok then (None, o1) else init_queues (Z.to_nat MODULE_COUNT) o1 junk.

(** The scan for a pending task with the same [task_id] and [module_id]. *)
Fixpoint find_duplicate (els : list (pv_t dcdc_task_t)) (n : nat) (task : dcdc_task_t) : option bool :=
  match n, els with
  | O, _ => Some false
  | S _, [] => None
  | S n', e :: els' =>
    match _value e with
    | Some existing =>
      if (task_id existing =? task_id task) && (module_id existing =? module_id task)
      then Some true else find_duplicate els' n' task
    | None => find_duplicate els' n' task
    end
  end.

(** Result: the return value, the queues, the allocator and the clock.
    [None] is undefined behaviour: the copy of the task is not checked. *)
Definition module_push_task (mgr : option module_queue_mgr_t) (module_id_arg : Z)
    (task : dcdc_task_t) (o : list bool) (c : clock)
    : option (bool * option module_queue_mgr_t * list bool * clock) :=
  match mgr with
  | None => Some (false, mgr, o, c)
  | Some queues =>
    if (module_id_arg <=? 0) || (MODULE_COUNT <? module_id_arg) then Some (false, mgr, o, c) else
    pq ← arr_get queues (module_id_arg - 1);
    match pq with
    | None => Some (false, mgr, o, c)
    | Some q =>
      duplicate ← find_duplicate (default [] (elements q)) (Z.to_nat (size q)) task;
      if (duplicate : bool) then Some (true, mgr, o, c) else
      q1 ← (if task_id task =? func_no SET_MODE_SWITCH
            then r ← priority_queue_clear (Some q) true; r.1.2
            else Some q);
      let '(ok, o1) := malloc o in
      if negb ok then None else
      let '(ok_msg, o2) := malloc o1 in
      if negb ok_msg then queues' ← arr_set queues (module_id_arg - 1) (Some q1);
                          Some (false, Some queues', o2, c) else
      msg ← data task;
      let task_cp := Task (priority task) (Some msg) (task_id task) (module_id task) in
      let '(now, c1) := gettime_msec c in
      let item := PV (priority_to_int (priority task_cp)) (Some task_cp) now in
      '(b, q2, c2) ← priority_queue_push (Some q1) item c1;
      queues' ← arr_set queues (module_id_arg - 1) q2;
      Some (b, Some queues', o2, c2)
    end
  end.

Definition module_try_pop_task (mgr : option module_queue_mgr_t) (module_id_arg : Z) (c : clock)
    : option (option dcdc_task_t * option module_queue_mgr_t * clock) :=
  match mgr with
  | None => Some (None, mgr, c)
  | Some queues =>
    if (module_id_arg <=? 0) || (MODULE_COUNT <? module_id_arg) then Some (None, mgr, c) else
    let module_index := module_id_arg - 1 in
    pq ← arr_get queues module_index;
    '(item, pq', c') ← priority_queue_try_pop pq true c;
    queues' ← arr_set queues module_index pq';
    Some (item ≫= _value, Some queues', c')
  end.

(** The blocking variant: [inl] when the caller blocks on the empty queue. *)
Definition module_pop_task (mgr : option module_queue_mgr_t) (module_id_arg : Z) (c : clock)
    : option (unit + option dcdc_task_t * option module_queue_mgr_t * clock) :=
  match mgr with
  | None => Some (inr (None, mgr, c))
  | Some queues =>
    if (module_id_arg <=? 0) || (MODULE_COUNT <? module_id_arg) then Some (inr (None, mgr, c)) else
    let module_index := module_id_arg - 1 in
    pq ← arr_get queues module_index;
    r ← priority_queue_pop pq true c;
    match r with
    | Misuse => Some (inr (None, mgr, c))
    | Wait => Some (inl ())
    | Popped item q' c' =>
      queues' ← arr_set queues module_index (Some q');
      Some (inr (_value item, Some queues', c'))
    end
  end.

(** ** The worker pool *)

Definition DCDC_SET_QUEUE_SIZE : Z := 20.
Definition DCDC_SET_THREAD_NUM : Z := 1.

Record can_task_pool_t := Pool {
  pool_tasks : option pool_queue;
  thread_count : Z;
  fr_interval_time : Z
}.

(** [submit_task]; [None] is the unchecked [malloc] of the task failing. *)
Definition submit_task (queue : option pool_queue) (f : can_frame) (cb : option frame_handler)
    (prio : Z) (o : list bool) (c : clock)
    : option (bool * option pool_queue * list bool * clock) :=
  match queue with
  | None => Some (false, None, o, c)
  | Some q =>
    let '(ok, o1) := malloc o in
    if negb ok then None else
    let '(now, c1) := gettime_msec c in
    let item := PV prio (Some (CanMsg f cb)) now in
    '(b, q', c2) ← priority_queue_push (Some q) item c1;
    Some (b, q', o1, c2)
  end.

(** The pass of [task_work]'s loop that follows a successful pop. *)
Inductive worker_pass :=
  | WorkerBlocked                                     (* the pool queue is empty *)
  | WorkerExit (q : pool_queue) (c : clock)           (* task without a callback *)
  | WorkerRan (h : frame_handler) (f : can_frame) (pause : Z) (q : pool_queue) (c : clock).

Definition task_work (pool : can_task_pool_t) (c : clock) : option worker_pass :=
  r ← priority_queue_pop (pool_tasks pool) true c;
  match r with
  | Misuse => None
  | Wait => Some WorkerBlocked
  | Popped item q' c' =>
    task ← _value item;
    match callback task with
    | None => Some (WorkerExit q' c')
    | Some h => Some (WorkerRan h (frame task) (fr_interval_time pool) q' c')
    end
  end.

(** [taskpool_init], for [thread_num] within the [uint8_t] loop counter;
    [threads] holds the outcomes of [pthread_create].  Every failure path calls [pq_delete],
    which frees the queue, and then [free] on the same pointer. *)
Inductive pool_init_result :=
  | PoolReturns (rc : Z) (pool : can_task_pool_t) (o : list bool)
  | PoolDoubleFree.

Definition taskpool_init (pool : option can_task_pool_t) (junk : pv_t can_msg_t)
    (queue_size thread_num fr_interval : Z) (threads : list bool) (o : list bool)
    : pool_init_result :=
  match pool with
  | None => PoolReturns (-1) (Pool None 0 0) o
  | Some pool =>
    let '(q, o1) := pq_init o junk queue_size (Some max_heap_compare) in
    match q with
    | None => PoolReturns (-1) (Pool None (thread_count pool) (fr_interval_time pool)) o1
    | Some q =>
      let '(ok, o2) := malloc o1 in
      if negb ok then PoolDoubleFree else
      if forallb id (take (Z.to_nat thread_num) threads)
      then PoolReturns 0 (Pool (Some q) thread_num (fr_interval_time pool)) o2
      else PoolDoubleFree
    end
  end.

(** ** Setting the output current *)

(** A finite [float]: [mantissa * 2 ^ exponent]. *)
Record float32 := Float32 { mantissa : Z; exponent : Z }.

(** [(uint32_t)(f * 2^k)]: scaling by a power of two is exact, and the
    conversion truncates; a value outside [uint32_t] is undefined. *)
Definition float_scaled_to_uint32 (f : float32) (k : Z) : option Z :=
  let e := exponent f + k in
  let v := if 0 <=? e then mantissa f * 2 ^ e else Z.quot (mantissa f) (2 ^ (- e)) in
  if (0 <=? v) && (v <? 2 ^ 32) then Some v else None.

(** [generic_set_mode_function]: the queued task carries fixed [priority],
    [task_id] and [module_id]; the function ends without a [return]
    statement, so only its effect is modelled.  [handler] is the
    uninitialised [callback] of the allocated message. *)
Definition generic_set_mode_function (host : bool) (handler : option frame_handler)
    (mgr : option module_queue_mgr_t) (p : dc_model_param_t) (value cmd_type : Z)
    (is_float : bool) (o : list bool) (c : clock)
    : option (option module_queue_mgr_t * list bool * clock) :=
  data ← (if is_float then float32_2_can_need_format host value
          else Some (int32_2_can_need_format host value));
  let '(ok, o1) := malloc o in
  if negb ok then None else
  let taskdata := CanMsg (set_frame_fill (uint16 cmd_type) data p) handler in
  let task := Task NORMAL (Some taskdata) (func_no GET_MODE_OUTPUT_VOL) 5 in
  '(_, mgr', o2, c') ← module_push_task mgr (module_id task) task o1 c;
  Some (mgr', o2, c').

Definition set_mode_out_cur (host : bool) (handler : option frame_handler)
    (mgr : option module_queue_mgr_t) (p : dc_model_param_t) (out_cur : float32)
    (o : list bool) (c : clock) : option (option module_queue_mgr_t * list bool * clock) :=
  int_val ← float_scaled_to_uint32 out_cur 10;
  generic_set_mode_function host handler mgr p int_val (func_no SET_MODE_OUTPUT_CUR) false o c.

(** The [for (i = 0; i < 12; i++)] loop of [module_queue_task_thread]: [n]
    modules are left, the next one is [i + 1]. *)
Fixpoint forward_tasks (n : nat) (i : Z) (mgr : option module_queue_mgr_t)
    (queue : option pool_queue) (o : list bool) (c : clock)
    : option (option module_queue_mgr_t * option pool_queue * list bool * clock) :=
  match n with
  | O => Some (mgr, queue, o, c)
  | S n' =>
    '(received, mgr', c1) ← module_try_pop_task mgr (i + 1) c;
    match received with
    | None => forward_tasks n' (i + 1) mgr' queue o c1
    | Some received =>
      taskptr ← data received;
      '(_, queue', o', c2) ← submit_task queue (frame taskptr) (Some Dcdc_send_encapsulation)
                               (priority_to_int (priority received)) o c1;
      forward_tasks n' (i + 1) mgr' queue' o' c2
    end
  end.

(** One pass of the outer loop: 100 A to module address 5, point to point. *)
Definition module_queue_task_thread (host : bool) (handler : option frame_handler)
    (mgr : option module_queue_mgr_t) (queue : option pool_queue) (o : list bool) (c : clock)
    : option (option module_queue_mgr_t * option pool_queue * list bool * clock) :=
  let can_id_param := ModelParam 1 5 0 in
  '(mgr1, o1, c1) ← set_mode_out_cur host handler mgr can_id_param (Float32 25 2) o c;
  forward_tasks (Z.to_nat MODULE_COUNT) 0 mgr1 queue o1 c1.

(** ** Invariants *)

Definition same_task (a b : dcdc_task_t) : Prop :=
  task_id a = task_id b /\ module_id a = module_id b.

Definition task_key (t : dcdc_task_t) : Z * Z := (task_id t, module_id t).

Definition pending (q : task_queue) : list dcdc_task_t := omap _value (contents q).

(** No queue holds two tasks with the same id for the same module, and every
    queued slot holds a task with its message. *)
Definition queue_ok (q : task_queue) : Prop :=
  pq_wf q /\ NoDup (task_key <$> pending q) /\
  Forall (fun x => exists t, _value x = Some t /\ is_Some (data t)) (contents q).

Definition mgr_ok (queues : module_queue_mgr_t) : Prop :=
  length queues = Z.to_nat MODULE_COUNT /\ Forall (fun q => forall q', q = Some q' -> queue_ok q') queues.


(** ** Lemmas on the module queues *)

#[global] Arguments func_no : simpl never.
#[local] Arguments priority_queue_clear : simpl never.

Lemma find_duplicate_spec els : forall n task, (n <= length els)%nat ->
  find_duplicate els n task = Some (bool_decide (task_key task ∈ task_key <$> omap _value (take n els))).
Proof.
  induction els as [|e els IH]; intros [|n] task Hn; simpl in *; try done; [lia|].
  rewrite IH by lia. destruct (_value e) as [t|]; simpl; [|done].
  assert (Hkey : (task_id t =? task_id task) && (module_id t =? module_id task) =
    bool_decide (task_key task = task_key t)).
  { unfold task_key. apply eq_true_iff_eq. rewrite andb_true_iff, !Z.eqb_eq, bool_decide_eq_true.
    split; [intros [-> ->]; done|by intros [= -> ->]]. }
  rewrite Hkey. case_bool_decide as Heq.
  - rewrite bool_decide_eq_true_2; [done|]. rewrite Heq. apply list_elem_of_here.
  - f_equal. apply bool_decide_ext. rewrite elem_of_cons. tauto.
Qed.

Lemma queue_ok_clear q q' : pq_wf q' -> contents q' = [] -> queue_ok q -> queue_ok q'.
Proof. intros Hwf Hc _. unfold queue_ok, pending. rewrite Hc. repeat split; auto; constructor. Qed.

Lemma queue_ok_push q q' task now p : queue_ok q -> pq_wf q' -> is_Some (data task) ->
  contents q' ≡ₚ PV p (Some task) now :: contents q ->
  task_key task ∉ task_key <$> pending q ->
  queue_ok q' /\ pending q' ≡ₚ task :: pending q.
Proof.
  intros (_ & Hnd & Hall) Hwf Hdata HP Hnew.
  assert (Hpend : pending q' ≡ₚ task :: pending q) by (unfold pending; by rewrite HP).
  split; [|done]. split; [done|]. split.
  - rewrite Hpend. simpl. by constructor.
  - rewrite HP. constructor; [|done]. simpl. eauto.
Qed.

(** The state of the queue when the new task is pushed: emptied first when
    the task switches the module on or off. *)
Definition push_base (q : task_queue) (task : dcdc_task_t) : list dcdc_task_t :=
  if task_id task =? func_no SET_MODE_SWITCH then [] else pending q.

Definition push_room (q : task_queue) (task : dcdc_task_t) : bool :=
  (if task_id task =? func_no SET_MODE_SWITCH then 0 else size q) <? capacity q.

Lemma push_prepare q task : queue_ok q ->
  exists q1, (if task_id task =? func_no SET_MODE_SWITCH
      then r ← priority_queue_clear (Some q) true; r.1.2 else Some q) = Some q1 /\
    queue_ok q1 /\ capacity q1 = capacity q /\ pending q1 = push_base q task /\
    (size q1 <? capacity q1) = push_room q task.
Proof.
  intros Hok. unfold push_base, push_room. destruct (task_id task =? func_no SET_MODE_SWITCH).
  - destruct (clear_safe q true (proj1 Hok)) as (q1 & -> & Hwf1 & Hcap & _ & Hsz & Hnil). simpl.
    exists q1. unfold pending. rewrite Hnil, Hcap, Hsz.
    split_and!; try done. by eapply queue_ok_clear.
  - exists q. done.
Qed.

Lemma module_push_cases queues m q task o o1 o2 c :
  malloc o = (true, o1) -> malloc o1 = (true, o2) ->
  1 <= m <= MODULE_COUNT -> length queues = Z.to_nat MODULE_COUNT ->
  queues !! Z.to_nat (m - 1) = Some (Some q) -> queue_ok q -> is_Some (data task) ->
  if bool_decide (task_key task ∈ task_key <$> pending q)
  then module_push_task (Some queues) m task o c = Some (true, Some queues, o, c)
  else exists q' c', module_push_task (Some queues) m task o c =
      Some (push_room q task, Some (<[Z.to_nat (m - 1) := Some q']> queues), o2, c') /\
    queue_ok q' /\ capacity q' = capacity q /\
    (if push_room q task then pending q' ≡ₚ task :: push_base q task
     else pending q' = push_base q task).
Proof.
  intros Ho1 Ho2 Hm Hlen Hq Hok [msg Hmsg]. unfold module_push_task.
  destruct (Z.leb_spec m 0), (Z.ltb_spec MODULE_COUNT m); simpl; try lia.
  rewrite arr_get_nat by lia. rewrite Hq. simpl.
  pose proof Hok as ((els & He & Hl & Hs & _) & _ & _). rewrite He. simpl.
  rewrite find_duplicate_spec by lia. simpl.
  replace (omap _value (take (Z.to_nat (size q)) els)) with (pending q)
    by (unfold pending, contents; by rewrite He).
  case_bool_decide as Hdup; [done|].
  destruct (push_prepare q task Hok) as (q1 & -> & Hok1 & Hcap1 & Hpend1 & Hroom).
  simpl. rewrite Ho1; simpl. rewrite Ho2; simpl. rewrite Hmsg. simpl.
  destruct (pq_push_safe q1 (PV (priority_to_int (priority task))
      (Some (Task (priority task) (Some msg) (task_id task) (module_id task)))
      (msec_of (clock_now c))) (Clock (reading c) (S (tick c))) (proj1 Hok1))
    as (q2 & c2 & -> & Hwf2 & Hcap2 & _ & Hcase).
  simpl. rewrite arr_set_some by lia. simpl. exists q2, c2.
  replace (negb (capacity q1 <=? size q1)) with (push_room q task)
    by (rewrite <- Hroom; bool_cases; simpl; lia || done).
  split; [done|]. rewrite Hcap2, Hcap1. simpl in Hcase.
  replace (capacity q1 <=? size q1) with (negb (push_room q task)) in Hcase
    by (rewrite <- Hroom; bool_cases; simpl; lia || done).
  destruct (push_room q task); simpl in Hcase.
  - destruct Hcase as [_ HP]. destruct task as [pr d ti mi]; simpl in *; subst d.
    destruct (queue_ok_push q1 q2 (Task pr (Some msg) ti mi) (msec_of (clock_now c)) (priority_to_int pr))
      as [Hok2 HP2]; try done.
    { rewrite Hpend1. unfold push_base; simpl. case_match; [set_solver|done]. }
    split; [done|]. split; [done|]. by rewrite HP2, Hpend1.
  - subst q2. done.
Qed.

Lemma mgr_ok_insert queues i q : mgr_ok queues -> queue_ok q -> mgr_ok (<[i := Some q]> queues).
Proof.
  intros [Hl Hall] Hq. split; [by rewrite length_insert|].
  apply Forall_insert; [done|]. by intros q' [= <-].
Qed.

Lemma mgr_ok_lookup queues i q : mgr_ok queues -> queues !! i = Some (Some q) -> queue_ok q.
Proof. intros [_ Hall] Hi. by eapply Forall_lookup_1 in Hall; [apply Hall|]. Qed.

Lemma pending_length q : queue_ok q -> Z.of_nat (length (pending q)) = size q.
Proof.
  intros (Hwf & _ & Hall). pose proof (contents_length q Hwf) as Hl.
  assert (length (pending q) = length (contents q)) as ->; [|destruct Hwf as (? & _ & _ & ? & _); lia].
  unfold pending. clear -Hall. induction Hall as [|x l (t & Hx & _) _ IH]; csimpl; [done|].
  rewrite Hx. simpl. f_equal. exact IH.
Qed.

Lemma length_12 (queues : module_queue_mgr_t) m :
  length queues = Z.to_nat MODULE_COUNT -> 1 <= m <= MODULE_COUNT ->
  exists q, queues !! Z.to_nat (m - 1) = Some q.
Proof. unfold MODULE_COUNT. intros Hl Hm. apply lookup_lt_is_Some_2. lia. Qed.

(** Every outcome of [module_push_task] keeps the invariant. *)
Lemma module_push_ok queues m task o c b mgr' o' c' : mgr_ok queues ->
  module_push_task (Some queues) m task o c = Some (b, mgr', o', c') ->
  exists queues', mgr' = Some queues' /\ mgr_ok queues'.
Proof.
  intros Hok Hpush. pose proof Hok as [Hlen _].
  destruct (decide (1 <= m <= MODULE_COUNT)) as [Hm|Hm].
  2:{ unfold module_push_task in Hpush.
      destruct (Z.leb_spec m 0), (Z.ltb_spec MODULE_COUNT m); simpl in Hpush; try lia;
      injection Hpush as <- <- <- <-; eauto. }
  destruct (length_12 queues m Hlen Hm) as [[q|] Hq].
  2:{ unfold module_push_task in Hpush.
      destruct (Z.leb_spec m 0), (Z.ltb_spec MODULE_COUNT m); simpl in Hpush; try lia.
      rewrite arr_get_nat, Hq in Hpush by lia. simpl in Hpush.
      injection Hpush as <- <- <- <-. eauto. }
  pose proof (mgr_ok_lookup _ _ _ Hok Hq) as Hqok.
  destruct (malloc o) as [ok1 o1] eqn:Ho1, (malloc o1) as [ok2 o2] eqn:Ho2.
  destruct ok1, ok2, (data task) as [msg|] eqn:Hmsg.
  1:{ pose proof (module_push_cases queues m q task o o1 o2 c Ho1 Ho2 Hm Hlen Hq Hqok ltac:(eauto)) as Hc.
      case_bool_decide; [rewrite Hpush in Hc; injection Hc as -> -> -> ->; eauto|].
      destruct Hc as (q' & c2 & Hc & Hq' & _). rewrite Hpush in Hc. injection Hc as -> -> -> ->.
      eexists. split; [done|]. by apply mgr_ok_insert. }
  all: unfold module_push_task in Hpush;
    destruct (Z.leb_spec m 0), (Z.ltb_spec MODULE_COUNT m); simpl in Hpush; try lia;
    rewrite arr_get_nat, Hq in Hpush by lia; simpl in Hpush;
    pose proof Hqok as ((els & He & Hl & Hs & _) & _ & _); rewrite He in Hpush; simpl in Hpush;
    rewrite find_duplicate_spec in Hpush by lia; simpl in Hpush;
    case_bool_decide; [injection Hpush as <- <- <- <-; eauto|];
    destruct (push_prepare q task Hqok) as (q1 & Hprep & Hok1 & _); rewrite Hprep in Hpush;
    simpl in Hpush; rewrite Ho1 in Hpush; simpl in Hpush; try rewrite Ho2 in Hpush;
    simpl in Hpush; try rewrite Hmsg in Hpush; simpl in Hpush; try done.
  all: rewrite arr_set_some in Hpush by (unfold MODULE_COUNT in *; lia); simpl in Hpush;
    injection Hpush as <- <- <- <-; eexists; split; [done|]; by apply mgr_ok_insert.
Qed.

Lemma module_try_pop_ok queues m c t mgr' c' : mgr_ok queues ->
  module_try_pop_task (Some queues) m c = Some (t, mgr', c') ->
  exists queues', mgr' = Some queues' /\ mgr_ok queues'.
Proof.
  intros Hok Hpop. pose proof Hok as [Hlen _]. unfold module_try_pop_task in Hpop.
  destruct (Z.leb_spec m 0), (Z.ltb_spec MODULE_COUNT m); simpl in Hpop;
    try (injection Hpop as <- <- <-; by eauto).
  destruct (length_12 queues m Hlen ltac:(lia)) as [[q|] Hq];
    rewrite arr_get_nat, Hq in Hpop by lia; simpl in Hpop.
  - pose proof (mgr_ok_lookup _ _ _ Hok Hq) as Hqok.
    destruct (try_pop_safe q c (proj1 Hqok))
      as [[_ He]|(_ & item & q' & c2 & _ & He & Hwf' & _ & _ & _ & HP)];
      rewrite He in Hpop; simpl in Hpop;
      rewrite arr_set_some in Hpop by (unfold MODULE_COUNT in *; lia); simpl in Hpop;
      injection Hpop as <- <- <-; eexists; (split; [done|]); apply mgr_ok_insert; auto.
    destruct Hqok as (_ & Hnd & Hall). unfold pending in Hnd. rewrite HP in Hnd, Hall.
    apply Forall_cons in Hall as [(t & Ht & _) Hall]. simpl in Hnd. rewrite Ht in Hnd.
    apply NoDup_cons in Hnd as [_ Hnd]. done.
  - rewrite arr_set_some in Hpop by (unfold MODULE_COUNT in *; lia); simpl in Hpop.
    injection Hpop as <- <- <-. eexists. split; [done|]. rewrite list_insert_id; done.
Qed.

(** The states the module queues go through: made by
    [module_queue_mgr_init], then any pushes and pops in any order, with any
    arguments and any allocation outcomes. *)
Inductive queues_step : option module_queue_mgr_t -> option module_queue_mgr_t -> Prop :=
  | step_module_push mgr m task o c b mgr' o' c' :
      module_push_task mgr m task o c = Some (b, mgr', o', c') -> queues_step mgr mgr'
  | step_module_try_pop mgr m c t mgr' c' :
      module_try_pop_task mgr m c = Some (t, mgr', c') -> queues_step mgr mgr'.

Definition queues_made (mgr : option module_queue_mgr_t) : Prop :=
  exists o junk o' queues, module_queue_mgr_init o junk = (mgr, o') /\ mgr = Some queues.

Lemma init_queues_ok n : forall o junk queues o', init_queues n o junk = (Some queues, o') ->
  length queues = n /\ Forall (fun q => exists q', q = Some q' /\ queue_ok q' /\
    capacity q' = DCDC_QUEUE_LEN /\ contents q' = []) queues.
Proof.
  induction n as [|n IH]; intros o junk queues o' Hi; cbn [init_queues] in Hi.
  { injection Hi as <- _. split; [done|constructor]. }
  destruct (pq_init o junk DCDC_QUEUE_LEN (Some aging_compare)) as [[q|] o1] eqn:Hq; [|done].
  destruct (init_queues n o1 junk) as [[rest|] o2] eqn:Hr; simpl in Hi; [|done].
  injection Hi as <- <-. destruct (IH _ _ _ _ Hr) as [Hl Hall]. simpl. split; [lia|].
  constructor; [|done]. apply pq_init_wf in Hq as (Hwf & Hnil & Hcap & _); [|vm_compute; split; congruence].
  exists q. split_and!; try done. unfold queue_ok, pending. rewrite Hnil.
  repeat split; [done|constructor|constructor].
Qed.

Lemma queues_made_ok mgr : queues_made mgr -> exists queues, mgr = Some queues /\ mgr_ok queues.
Proof.
  intros (o & junk & o' & queues & Hi & ->). exists queues. split; [done|].
  unfold module_queue_mgr_init in Hi. destruct (malloc o) as [[] o1]; cbn [negb] in Hi; [|done].
  apply init_queues_ok in Hi as [Hl Hall]. split; [done|].
  eapply Forall_impl; [exact Hall|]. simpl. intros q (q' & -> & Hok & _) q2 [= <-]. done.
Qed.

Lemma reachable_mgr_ok mgr : reachable queues_step queues_made mgr ->
  exists queues, mgr = Some queues /\ mgr_ok queues.
Proof.
  induction 1 as [mgr Hm|mgr mgr' _ (queues & -> & Hok) Hs]; [by apply queues_made_ok|].
  inversion Hs; subst; [by eapply module_push_ok|by eapply module_try_pop_ok].
Qed.

(** ** One pass of the forwarding thread *)

#[local] Arguments module_try_pop_task : simpl never.
#[local] Arguments module_push_task : simpl never.
#[local] Arguments submit_task : simpl never.

Lemma try_pop_idle queues i q c :
  0 <= i < MODULE_COUNT -> length queues = Z.to_nat MODULE_COUNT ->
  queues !! Z.to_nat i = Some (Some q) -> pq_wf q -> size q = 0 ->
  module_try_pop_task (Some queues) (i + 1) c = Some (None, Some queues, c).
Proof.
  intros Hi Hlen Hq Hwf Hsz. unfold module_try_pop_task.
  destruct (Z.leb_spec (i + 1) 0), (Z.ltb_spec MODULE_COUNT (i + 1)); simpl; try lia.
  replace (i + 1 - 1) with i by lia. rewrite arr_get_nat, Hq by lia. simpl.
  destruct (try_pop_safe q c Hwf) as [[_ ->]|(? & _)]; [|lia]. simpl.
  rewrite arr_set_some by lia. simpl. by rewrite list_insert_id.
Qed.

(** The queues of the modules from [i] on hold nothing. *)
Definition idle_from (queues : module_queue_mgr_t) (i n : Z) : Prop :=
  forall k, i <= k < n -> exists q, queues !! Z.to_nat k = Some (Some q) /\ pq_wf q /\ size q = 0 /\
    0 < capacity q.

Lemma forward_idle n : forall i queues pool o c,
  0 <= i -> i + Z.of_nat n <= MODULE_COUNT -> length queues = Z.to_nat MODULE_COUNT ->
  idle_from queues i (i + Z.of_nat n) ->
  forward_tasks n i (Some queues) pool o c = Some (Some queues, pool, o, c).
Proof.
  induction n as [|n IH]; intros i queues pool o c Hi Hn Hlen Hidle; [done|]. simpl.
  destruct (Hidle i) as (q & Hq & Hwf & Hsz & _); [lia|].
  rewrite (try_pop_idle queues i q c) by (done || lia). simpl. apply IH; try done; try lia.
  intros k Hk. apply Hidle. lia.
Qed.

Lemma forward_app a : forall b i mgr pool o c mgr1 pool1 o1 c1,
  forward_tasks a i mgr pool o c = Some (mgr1, pool1, o1, c1) ->
  forward_tasks (a + b) i mgr pool o c = forward_tasks b (i + Z.of_nat a) mgr1 pool1 o1 c1.
Proof.
  induction a as [|a IH]; intros b i mgr pool o c mgr1 pool1 o1 c1 Hf.
  { injection Hf as <- <- <- <-. simpl. f_equal. lia. }
  replace (i + Z.of_nat (S a)) with (i + 1 + Z.of_nat a) by lia.
  simpl in Hf |- *. destruct (module_try_pop_task mgr (i + 1) c) as [[[r mgr2] c2]|]; simpl in *; [|done].
  destruct r as [r|]; [|by apply IH].
  destruct (data r); simpl in *; [|done].
  destruct (submit_task _ _ _ _ _ _) as [[[[? ?] ?] ?]|]; simpl in *; [|done]. by apply IH.
Qed.

Lemma idle_queue_ok (q : task_queue) : pq_wf q -> size q = 0 -> queue_ok q /\ pending q = [].
Proof.
  intros Hwf Hsz. assert (Hnil : contents q = []).
  { apply length_zero_iff_nil. rewrite contents_length by done. by rewrite Hsz. }
  unfold queue_ok, pending. rewrite Hnil. repeat split; [done|constructor|constructor].
Qed.

(** A queue whose only pending task is [t] hands it over and is then empty. *)
Lemma pop_single (q : task_queue) t c : queue_ok q -> pending q ≡ₚ [t] ->
  exists item q' c', priority_queue_try_pop (Some q) true c = Some (Some item, Some q', c') /\
    _value item = Some t /\ pq_wf q' /\ size q' = 0 /\ capacity q' = capacity q.
Proof.
  intros Hok HP. pose proof Hok as (Hwf & _ & Hall).
  destruct (try_pop_safe q c Hwf) as [[Hsz _]|(_ & item & q' & c' & _ & Htry & Hwf' & Hcap & _ & _ & HPc)].
  { destruct (idle_queue_ok q Hwf Hsz) as [_ Hnil]. rewrite Hnil in HP. by apply Permutation_nil_cons in HP. }
  exists item, q', c'. unfold pending in HP. rewrite HPc in HP, Hall.
  apply Forall_cons in Hall as [(t' & Ht & _) Hall]. csimpl in HP. rewrite Ht in HP |- *. csimpl in HP.
  assert (Hlen : length (omap _value (contents q')) = length (contents q')).
  { clear -Hall. induction Hall as [|x l (t & Hx & _) _ IH]; csimpl; [done|]. rewrite Hx. simpl. f_equal. exact IH. }
  pose proof (Permutation_length HP) as Hl. csimpl in Hl. cbn [length] in Hl. rewrite Hlen, contents_length in Hl by done.
  assert (Hq' : contents q' = []) by (apply length_zero_iff_nil; rewrite contents_length by done; lia).
  rewrite Hq' in HP. csimpl in HP. apply Permutation_singleton_inj in HP as ->.
  split_and!; try done. pose proof Hwf' as (? & _ & _ & ? & _). lia.
Qed.

Lemma submit_room (pool : pool_queue) f cb prio c : pq_wf pool -> size pool < capacity pool ->
  exists pool' c', submit_task (Some pool) f cb prio [] c = Some (true, Some pool', [], c') /\
    pq_wf pool' /\ contents pool' ≡ₚ PV prio (Some (CanMsg f cb)) (msec_of (clock_now c)) :: contents pool.
Proof.
  intros Hwf Hroom. unfold submit_task. simpl.
  destruct (pq_push_safe pool (PV prio (Some (CanMsg f cb)) (msec_of (clock_now c)))
    (Clock (reading c) (S (tick c))) Hwf) as (pool' & c' & -> & Hwf' & _ & _ & Hcase).
  simpl in *. destruct (Z.leb_spec (capacity pool) (size pool)); [lia|]. simpl.
  destruct Hcase as [_ HP]. eauto.
Qed.

Lemma idle_insert queues i q a b : idle_from queues a b -> (i < length queues)%nat ->
  pq_wf q -> size q = 0 -> 0 < capacity q -> idle_from (<[i := Some q]> queues) a b.
Proof.
  intros Hidle Hi Hwf Hsz Hcap k Hk. destruct (decide (Z.to_nat k = i)) as [<-|Hne].
  - exists q. rewrite list_lookup_insert_eq by lia. done.
  - destruct (Hidle k Hk) as (q' & Hq & ?). exists q'. rewrite list_lookup_insert_ne by done. done.
Qed.

Lemma idle_insert_other queues i q a b : idle_from queues a b -> (Z.of_nat i < a \/ b <= Z.of_nat i) ->
  0 <= a -> idle_from (<[i := q]> queues) a b.
Proof.
  intros Hidle Hi Ha k Hk. destruct (Hidle k Hk) as (q' & Hq & ?). exists q'.
  rewrite list_lookup_insert_ne by lia. done.
Qed.

(** The task the forwarding thread queues for module 5: write register 27
    (output current) with 100 A in units of 1/1024 A. *)
Definition current_frame : can_frame := CanFrame 0x86082F80 8 [3; 0; 0; 27; 0; 1; 144; 0].

Definition current_task (handler : option frame_handler) : dcdc_task_t :=
  Task NORMAL (Some (CanMsg current_frame handler)) (func_no GET_MODE_OUTPUT_VOL) 5.

Lemma set_mode_out_cur_task host handler mgr c :
  set_mode_out_cur host handler mgr (ModelParam 1 5 0) (Float32 25 2) [] c =
  ('(_, mgr', o2, c') ← module_push_task mgr 5 (current_task handler) [] c; Some (mgr', o2, c')).
Proof. by destruct host. Qed.

(** ** Properties *)


Definition made_queues : module_queue_mgr_t := default [] (module_queue_mgr_init [] (PV 0 None 0)).1.

Lemma init_queues_all n : exists queues, init_queues n [] (PV 0 None 0) = (Some queues, []).
Proof.
  induction n as [|n [queues IH]]; cbn [init_queues]; [by eexists|].
  cbn -[init_queues]. rewrite IH. by eexists.
Qed.

Lemma made_queues_eq : module_queue_mgr_init [] (PV 0 None 0) = (Some made_queues, []).
Proof.
  unfold made_queues, module_queue_mgr_init. cbn [malloc negb].
  by destruct (init_queues_all (Z.to_nat MODULE_COUNT)) as [queues ->].
Qed.

Lemma made_queues_made : queues_made (Some made_queues).
Proof. exists [], (PV 0 None 0), [], made_queues. by rewrite made_queues_eq. Qed.

Lemma made_queues_ok : mgr_ok made_queues.
Proof. by destruct (queues_made_ok _ made_queues_made) as (? & [= <-] & ?). Qed.

Lemma made_queues_empty i : (i < 12)%nat -> exists q, made_queues !! i = Some (Some q) /\
  queue_ok q /\ size q = 0 /\ pending q = [] /\ capacity q = DCDC_QUEUE_LEN.
Proof.
  intros Hi. pose proof made_queues_eq as Heq. unfold module_queue_mgr_init in Heq.
  cbn [malloc negb] in Heq. apply init_queues_ok in Heq as [Hl Hall].
  destruct (lookup_lt_is_Some_2 made_queues i) as [q Hlook]; [unfold MODULE_COUNT in Hl; lia|].
  pose proof (Forall_lookup_1 _ _ _ _ Hall Hlook) as (q' & -> & Hok & Hcap & Hnil).
  exists q'. split_and!; try done.
  - rewrite <- pending_length by done. unfold pending. by rewrite Hnil.
  - unfold pending. by rewrite Hnil.
Qed.


(** [module_push_task] on a well-formed queue, when memory is available: a
    task already pending for its module is accepted without any change; any
    other task is queued if there is room and refused otherwise, and a task
    that switches the module on or off first drops everything pending for
    it.  No other module's queue changes. *)
Theorem module_push_task_spec queues m q task c :
  1 <= m <= MODULE_COUNT -> length queues = Z.to_nat MODULE_COUNT ->
  queues !! Z.to_nat (m - 1) = Some (Some q) -> queue_ok q -> is_Some (data task) ->
  exists b q' queues' c', module_push_task (Some queues) m task [] c = Some (b, Some queues', [], c') /\
    queues' !! Z.to_nat (m - 1) = Some (Some q') /\ queue_ok q' /\
    (forall j, j <> Z.to_nat (m - 1) -> queues' !! j = queues !! j) /\
    let kept := if task_id task =? func_no SET_MODE_SWITCH then [] else pending q in
    if bool_decide (task_key task ∈ task_key <$> pending q) then b = true /\ q' = q
    else b = (Z.of_nat (length kept) <? capacity q) /\
      (if b then pending q' ≡ₚ task :: kept else pending q' = kept).
Proof.
  intros Hm Hlen Hq Hok Hdata.
  pose proof (module_push_cases queues m q task [] [] [] c eq_refl eq_refl Hm Hlen Hq Hok Hdata) as Hc.
  case_bool_decide.
  - exists true, q, queues, c. by rewrite Hc.
  - destruct Hc as (q' & c' & Hpush & Hok' & _ & HP).
    assert (Hroom : push_room q task = (Z.of_nat (length (push_base q task)) <? capacity q)).
    { unfold push_room, push_base. destruct (_ =? _); [done|]. f_equal.
      rewrite <- (pending_length q) by done. done. }
    eexists _, q', _, c'. split; [exact Hpush|]. split; [by rewrite list_lookup_insert_eq by (unfold MODULE_COUNT in *; lia)|].
    split; [done|]. split; [intros; by rewrite list_lookup_insert_ne|].
    simpl. rewrite Hroom in *. by split.
Qed.

Lemma module_push_task_spec_witness :
  exists b q' queues' c', module_push_task (Some made_queues) 5 (current_task None) []
      (Clock (fun _ => 0) 0) = Some (b, Some queues', [], c') /\
    queues' !! 4%nat = Some (Some q') /\ b = true /\ pending q' ≡ₚ [current_task None].
Proof.
  destruct (made_queues_empty 4) as (q & Hq & Hok & Hsz & Hnil & Hcap); [lia|].
  destruct (module_push_task_spec made_queues 5 q (current_task None) (Clock (fun _ => 0) 0))
    as (b & q' & queues' & c' & Hp & Hq' & _ & _ & Hspec);
    [done|exact (proj1 made_queues_ok)|exact Hq|done|by eexists|].
  exists b, q', queues', c'. split; [exact Hp|]. split; [exact Hq'|].
  rewrite Hnil, Hcap in Hspec. destruct Hspec as [-> HP]. by split.
Defined.

Lemma current_not_switch handler : (task_id (current_task handler) =? func_no SET_MODE_SWITCH) = false.
Proof. reflexivity. Qed.

(** Setting the current on idle queues leaves one task, in the queue of module 5. *)
Lemma set_current_idle host handler queues c :
  idle_from queues 0 MODULE_COUNT -> length queues = Z.to_nat MODULE_COUNT ->
  exists q c', set_mode_out_cur host handler (Some queues) (ModelParam 1 5 0) (Float32 25 2) [] c =
      Some (Some (<[4%nat := Some q]> queues), [], c') /\
    queue_ok q /\ 0 < capacity q /\ pending q ≡ₚ [current_task handler].
Proof.
  intros Hidle Hlen. destruct (Hidle 4) as (q & Hq & Hwf & Hsz & Hcap); [done|].
  destruct (idle_queue_ok q Hwf Hsz) as [Hok Hnil].
  pose proof (module_push_cases queues 5 q (current_task handler) [] [] [] c eq_refl eq_refl
    ltac:(done) Hlen Hq Hok ltac:(by eexists)) as Hc.
  rewrite Hnil in Hc. simpl in Hc. destruct Hc as (q' & c' & Hpush & Hok' & Hcap' & HP).
  unfold push_room, push_base in HP. rewrite current_not_switch, Hsz, Hnil in HP.
  destruct (Z.ltb_spec 0 (capacity q)); [|lia].
  exists q', c'. rewrite set_mode_out_cur_task, Hpush. simpl.
  split; [done|]. split; [done|]. split; [lia|done].
Qed.

(** The forwarding step for a module whose only pending task is [t]. *)
Lemma forward_single queues i q t msg pool c :
  0 <= i < MODULE_COUNT -> length queues = Z.to_nat MODULE_COUNT ->
  queues !! Z.to_nat i = Some (Some q) -> queue_ok q -> 0 < capacity q ->
  pending q ≡ₚ [t] -> data t = Some msg ->
  pq_wf pool -> size pool < capacity pool ->
  exists q' pool' now c',
    forward_tasks 1 i (Some queues) (Some pool) [] c =
      Some (Some (<[Z.to_nat i := Some q']> queues), Some pool', [], c') /\
    pq_wf q' /\ size q' = 0 /\ 0 < capacity q' /\ pq_wf pool' /\
    contents pool' ≡ₚ PV (priority_to_int (priority t))
      (Some (CanMsg (frame msg) (Some Dcdc_send_encapsulation))) now :: contents pool.
Proof.
  intros Hi Hlen Hq Hok Hcap HP Hmsg Hpool Hroom.
  destruct (pop_single q t c Hok HP) as (item & q' & c1 & Htry & Hv & Hwf' & Hsz' & Hcap').
  destruct (submit_room pool (frame msg) (Some Dcdc_send_encapsulation)
    (priority_to_int (priority t)) c1 Hpool Hroom) as (pool' & c2 & Hsub & Hwfp & HPp).
  exists q', pool', (msec_of (clock_now c1)), c2. split; [|split_and!; done || lia].
  cbn [forward_tasks]. unfold module_try_pop_task.
  destruct (Z.leb_spec (i + 1) 0), (Z.ltb_spec MODULE_COUNT (i + 1)); simpl; try lia.
  replace (i + 1 - 1) with i by lia. rewrite arr_get_nat, Hq by lia. simpl.
  rewrite Htry. simpl. rewrite arr_set_some by lia. simpl. rewrite Hv. simpl. rewrite Hmsg. simpl.
  by rewrite Hsub.
Qed.

(** C28: One pass of [module_queue_task_thread] over idle module queues and a
    worker pool with room: the command that sets 100 A on module 5 goes
    through the module's queue and reaches the pool, as the frame with the
    identifier of a point-to-point write to address 5, register 27 and the
    value 102400, the sending callback and its priority; the module queues
    are idle again. *)
Theorem module_queue_task_thread_pass host handler queues pool c :
  idle_from queues 0 MODULE_COUNT -> length queues = Z.to_nat MODULE_COUNT ->
  pq_wf pool -> size pool < capacity pool ->
  exists queues' pool' now c',
    module_queue_task_thread host handler (Some queues) (Some pool) [] c =
      Some (Some queues', Some pool', [], c') /\
    idle_from queues' 0 MODULE_COUNT /\ length queues' = Z.to_nat MODULE_COUNT /\ pq_wf pool' /\
    contents pool' ≡ₚ
      PV (priority_to_int NORMAL) (Some (CanMsg current_frame (Some Dcdc_send_encapsulation))) now
        :: contents pool.
Proof.
  intros Hidle Hlen Hpool Hroom. unfold module_queue_task_thread.
  destruct (set_current_idle host handler queues c Hidle Hlen) as (q & c1 & -> & Hok & Hcap & HP).
  cbn [mbind option_bind]. set (queues1 := <[4%nat := Some q]> queues).
  assert (Hlen1 : length queues1 = Z.to_nat MODULE_COUNT) by (by unfold queues1; rewrite length_insert).
  assert (Hl1 : queues1 !! Z.to_nat 4 = Some (Some q))
    by (apply list_lookup_insert_eq; unfold MODULE_COUNT in Hlen; lia).
  assert (Hidle1 : idle_from queues1 0 4 /\ idle_from queues1 5 MODULE_COUNT).
  { split; apply idle_insert_other; try lia; intros k Hk; apply Hidle; unfold MODULE_COUNT in *; lia. }
  destruct Hidle1 as [Hlow Hhigh].
  destruct (forward_single queues1 4 q (current_task handler) _ pool c1 ltac:(done) Hlen1 Hl1 Hok Hcap
    HP eq_refl Hpool Hroom) as (q' & pool' & now & c2 & Hone & Hwf' & Hsz' & Hcap' & Hwfp & HPp).
  exists (<[4%nat := Some q']> queues1), pool', now, c2.
  assert (Hhigh2 : idle_from (<[4%nat := Some q']> queues1) 5 MODULE_COUNT)
    by (apply idle_insert_other; done || lia).
  split.
  - change (Z.to_nat MODULE_COUNT) with (4 + (1 + 7))%nat.
    rewrite (forward_app 4 (1 + 7) 0 _ _ _ _ (Some queues1) (Some pool) [] c1)
      by (apply forward_idle; [lia|done|done|exact Hlow]).
    change (0 + Z.of_nat 4) with 4.
    rewrite (forward_app 1 7 _ _ _ _ _ _ _ _ _ Hone). apply forward_idle; [done|done| |exact Hhigh2].
    by rewrite length_insert.
  - split; [|split; [by rewrite length_insert|done]].
    intros k Hk. unfold queues1. rewrite list_insert_insert_eq.
    apply (idle_insert queues 4 q' 0 MODULE_COUNT); try done. rewrite Hlen. unfold MODULE_COUNT. lia.
Qed.

Lemma idle_made : idle_from made_queues 0 MODULE_COUNT.
Proof.
  intros k Hk. destruct (made_queues_empty (Z.to_nat k)) as (q & Hq & Hok & Hsz & _ & Hcap);
    [unfold MODULE_COUNT in Hk; lia|].
  exists q. split_and!; [done|apply Hok|done|by rewrite Hcap].
Qed.

Definition empty_pool : pool_queue := PQ (Some (replicate 20 (PV 0 None 0))) 20 0 max_heap_compare.

Lemma empty_pool_wf : pq_wf empty_pool.
Proof. eexists. split; [reflexivity|]. vm_compute. repeat split; congruence. Qed.

Lemma module_queue_task_thread_pass_witness :
  exists queues' pool' now c',
    module_queue_task_thread true None (Some made_queues) (Some empty_pool) [] (Clock (fun _ => 7000000) 0)
      = Some (Some queues', Some pool', [], c') /\
    contents pool' ≡ₚ
      [PV 1 (Some (CanMsg (CanFrame 0x86082F80 8 [3; 0; 0; 27; 0; 1; 144; 0])
         (Some Dcdc_send_encapsulation))) now].
Proof.
  destruct (module_queue_task_thread_pass true None made_queues empty_pool
    (Clock (fun _ => 7000000) 0) idle_made (proj1 made_queues_ok) empty_pool_wf eq_refl)
    as (queues' & pool' & now & c' & Hrun & _ & _ & _ & HP).
  exists queues', pool', now, c'. split; [exact Hrun|exact HP].
Defined.

(** The worker's pass over a pool that [submit_task] filled: it blocks on an
    empty queue; otherwise it takes out a message no other pending message
    has a higher priority than, calls that message's handler on its frame,
    and pauses for the pool's interval; a message without a handler ends the
    thread. *)
Theorem worker_runs_most_urgent pool q c :
  pool_tasks pool = Some q -> compare q = max_heap_compare ->
  pq_heap (fun _ => True) prio_bounded (fun a b => _priority a - _priority b) q c ->
  Forall (fun x => is_Some (_value x)) (contents q) ->
  if size q =? 0 then task_work pool c = Some WorkerBlocked
  else exists item msg q' c', _value item = Some msg /\ contents q ≡ₚ item :: contents q' /\
    Forall (fun y => _priority y <= _priority item) (contents q') /\
    task_work pool c = Some (match callback msg with
      | Some h => WorkerRan h (frame msg) (fr_interval_time pool) q' c'
      | None => WorkerExit q' c'
      end).
Proof.
  intros Hq Hcmp Hheap Hval. pose proof Hheap as (Hwf & _). unfold task_work. rewrite Hq.
  unfold priority_queue_pop. simpl. unfold pq_empty.
  destruct (Z.eqb_spec (size q) 0); [done|].
  assert (Hpos : 0 < size q) by (destruct Hwf as (? & _ & _ & ? & _); lia).
  destruct (pop_root_safe q c Hwf Hpos) as (item & q' & c' & Hpop & _ & _ & _ & _ & HP).
  assert (HO : HeapOrder (compare q) (fun _ => True) prio_bounded
    (fun a b => _priority a - _priority b)) by (rewrite Hcmp; apply _).
  pose proof Hpop as Hmax. eapply pop_root_heap in Hmax as (_ & _ & Hmax); [|exact HO|exact Hheap|exact Hpos].
  rewrite HP in Hval. apply Forall_cons in Hval as [[msg Hmsg] _].
  exists item, msg, q', c'. rewrite Hpop. simpl. rewrite Hmsg. simpl.
  split_and!; [done|done|eapply Forall_impl; [exact Hmax|simpl; lia]|by destruct (callback msg)].
Qed.

Lemma worker_runs_most_urgent_witness :
  let m k := CanMsg (CanFrame k 0 []) (Some Dcdc_send_encapsulation) in
  let q : pool_queue :=
    PQ (Some [PV 3 (Some (m 1)) 0; PV 1 (Some (m 2)) 0]) 2 2 max_heap_compare in
  exists item msg q' c', _value item = Some msg /\ contents q ≡ₚ item :: contents q' /\
    Forall (fun y => _priority y <= _priority item) (contents q') /\
    task_work (Pool (Some q) 1 0) (Clock (fun _ => 0) 0) = Some (match callback msg with
      | Some h => WorkerRan h (frame msg) 0 q' c'
      | None => WorkerExit q' c'
      end).
Proof.
  intros m q. apply (worker_runs_most_urgent (Pool (Some q) 1 0) q (Clock (fun _ => 0) 0));
    [done|done| |repeat constructor; by eexists].
  split; [eexists; split; [reflexivity|]; vm_compute; repeat split; congruence|].
  split; [done|]. split; [unfold contents; simpl; repeat constructor; vm_compute; congruence|].
  eexists. split; [reflexivity|]. intros i Hi. simpl in Hi. replace i with 1 by lia. vm_compute. congruence.
Defined.

(** [taskpool_init] succeeds exactly when its three allocations and every
    [pthread_create] succeed, and then keeps whatever interval the pool had
    before: its [fr_interval_time] argument is not stored.  Once the queue
    exists, a failed allocation or thread frees the queue twice. *)
Theorem taskpool_init_outcomes pool junk queue_size thread_num fr_interval threads ok1 ok2 ok3 o :
  let threads_ok := forallb id (take (Z.to_nat thread_num) threads) in
  taskpool_init (Some pool) junk queue_size thread_num fr_interval threads (ok1 :: ok2 :: ok3 :: o) =
  if negb ok1 then PoolReturns (-1) (Pool None (thread_count pool) (fr_interval_time pool)) (ok2 :: ok3 :: o)
  else if negb ok2 then PoolReturns (-1) (Pool None (thread_count pool) (fr_interval_time pool)) (ok3 :: o)
  else if ok3 && threads_ok then
    PoolReturns 0 (Pool (Some (PQ (Some (replicate (Z.to_nat queue_size) junk)) queue_size 0
      max_heap_compare)) thread_num (fr_interval_time pool)) o
  else PoolDoubleFree.
Proof.
  intros threads_ok. unfold taskpool_init, pq_init, threads_ok.
  destruct ok1, ok2, ok3; simpl; try done.
Qed.
