(* ===== verification/Lru.v ===== *)
(** * LRU cache ([src/utils/cache/lru.c])

    The cache keeps each entry in two nodes that point at each other: a hash
    node, found by key, and a list node, in order of use.  The model keeps
    both stores and their addresses: a lookup of an address that is not in
    its store is a use after free, and is [None].  [uthash] is a finite map
    from keys to hash nodes and [utlist] the sequence of list nodes, head
    first.  The constructor, copy and destructor of a [UT_icd] are code of
    the caller, known by their addresses; what the first two leave in the
    data block is a parameter. *)

From S2P Require Import Prelude Utils.

(** ** Data *)

Record UT_icd := Icd {
  sz : Z;
  init : option Z;
  copy : option Z;
  dtor : option Z
}.

Record cache_item_t := Item { icd : UT_icd; item_data : list Z }.

(** The value passed as [data]: the address and the bytes that may be read
    there.  A copy function may use either, [memcpy] uses the bytes. *)
Record source := Source { address : Z; bytes : list Z }.

Record lru_list_t := ListNode { hash_node : Z; item : cache_item_t }.
Record lru_hash_t := HashNode { key : string; key_len : Z; list_node : Z }.

(** [released] is the history of the data blocks given back, each with the
    destructor that received it, or [None] for [free]. *)
Record lru_cache_t := Cache {
  c_hash : gmap string Z;
  c_list : list Z;
  max_key_num : Z;
  max_mem : Z;
  used_mem : Z;
  list_nodes : gmap Z lru_list_t;
  hash_nodes : gmap Z lru_hash_t;
  released : list (option Z * list Z)
}.

#[global] Instance UT_icd_eq_dec : EqDecision UT_icd.
Proof. solve_decision. Defined.
#[global] Instance cache_item_t_eq_dec : EqDecision cache_item_t.
Proof. solve_decision. Defined.

Definition sizeof_lru_list_t : Z := 32.
Definition sizeof_lru_hash_t : Z := 80.
Definition sizeof_cache_item_t : Z := 40.

Definition strlen (s : string) : Z := Z.of_nat (String.length s).

Definition set_list (c : lru_cache_t) (l : list Z) : lru_cache_t :=
  Cache (c_hash c) l (max_key_num c) (max_mem c) (used_mem c) (list_nodes c) (hash_nodes c) (released c).
Definition set_nodes (c : lru_cache_t) (n : gmap Z lru_list_t) : lru_cache_t :=
  Cache (c_hash c) (c_list c) (max_key_num c) (max_mem c) (used_mem c) n (hash_nodes c) (released c).
Definition set_used (c : lru_cache_t) (u : Z) : lru_cache_t :=
  Cache (c_hash c) (c_list c) (max_key_num c) (max_mem c) u (list_nodes c) (hash_nodes c) (released c).
Definition release (c : lru_cache_t) (i : cache_item_t) : lru_cache_t :=
  Cache (c_hash c) (c_list c) (max_key_num c) (max_mem c) (used_mem c) (list_nodes c) (hash_nodes c)
    ((dtor (icd i), item_data i) :: released c).

(** What an entry counts for in [used_mem]: the size is computed as a
    [size_t] and added to an [int64_t]. *)
Definition entry_size (klen size : Z) : Z :=
  sizeof_lru_list_t + sizeof_lru_hash_t + (klen + 1) + sizeof_cache_item_t + size.

(** ** Operations *)

Section Lru.

(** The [size] bytes an [icd->init] leaves in a fresh block, and the block an
    [icd->copy] makes of its destination and source. *)
Variable run_init : Z -> Z -> list Z.
Variable run_copy : Z -> list Z -> source -> list Z.

Definition init_bytes (i : UT_icd) : list Z :=
  match init i with
  | Some f => run_init f (sz i)
  | None => replicate (Z.to_nat (sz i)) 0
  end.

(** [src] holds the bytes that may be read from the source pointer; [memcpy]
    past them is undefined. *)
Definition copy_bytes (i : UT_icd) (dst : list Z) (src : source) : option (list Z) :=
  match copy i with
  | Some f => Some (run_copy f dst src)
  | None => if Z.of_nat (length (bytes src)) <? sz i then None else Some (take (Z.to_nat (sz i)) (bytes src))
  end.

Definition new_lru_cache_item (i : UT_icd) (o : list bool) : option cache_item_t * list bool :=
  let '(ok, o1) := malloc o in
  if negb ok then (None, o1) else
  let '(ok_data, o2) := malloc o1 in
  if negb ok_data then (None, o2) else
  (Some (Item i (init_bytes i)), o2).

Definition copy_lru_cache_item (i : cache_item_t) (src : source) : option cache_item_t :=
  d ← copy_bytes (icd i) (item_data i) src;
  Some (Item (icd i) d).

(** The item that replaces [i], or [None] when the allocation failed; the old
    data block is released by the caller. *)
Definition replace_lru_cache_item (i : UT_icd) (src : source) (o : list bool)
    : option (option cache_item_t * list bool) :=
  let '(ok, o1) := malloc o in
  if negb ok then Some (None, o1) else
  d ← copy_bytes i (init_bytes i) src;
  Some (Some (Item i d), o1).

(** The keys [print_cache] formats: it follows every list node to its hash
    node. *)
Definition print_cache (c : lru_cache_t) : option (list string) :=
  mapM (fun a => n ← list_nodes c !! a; h ← hash_nodes c !! hash_node n; Some (key h)) (c_list c).

Definition move_to_head (l : list Z) (elt : Z) : list Z := elt :: filter (.≠ elt) l.

Definition lru_cache_get (cache : option lru_cache_t) (k : option string)
    : option (option cache_item_t * option lru_cache_t) :=
  match cache, k with
  | Some c, Some k =>
    match c_hash c !! k with
    | None => Some (None, Some c)
    | Some elt =>
      h ← hash_nodes c !! elt;
      let c1 := set_list c (move_to_head (c_list c) (list_node h)) in
      _ ← print_cache c1;
      n ← list_nodes c1 !! list_node h;
      Some (Some (item n), Some c1)
    end
  | _, _ => Some (None, cache)
  end.

Definition is_full (c : lru_cache_t) : bool :=
  (max_mem c <=? used_mem c) || (max_key_num c <=? Z.of_nat (length (c_list c))).

Definition delete_lru_cache_item (c : lru_cache_t) (i : cache_item_t) : lru_cache_t := release c i.

Definition delete_data (c : lru_cache_t) (dst : Z) : option lru_cache_t :=
  n ← list_nodes c !! dst;
  h ← hash_nodes c !! hash_node n;
  let c1 := Cache (delete (key h) (c_hash c)) (filter (.≠ dst) (c_list c)) (max_key_num c) (max_mem c)
    (int64 (used_mem c - entry_size (key_len h) (sz (icd (item n)))))
    (delete dst (list_nodes c)) (delete (hash_node n) (hash_nodes c)) (released c) in
  Some (delete_lru_cache_item c1 (item n)).

(** The five allocations come in the order of the code; each failure frees
    what was allocated before it. *)
Definition create_data (c : lru_cache_t) (k : string) (i : UT_icd) (src : source) (o : list bool)
    : option (bool * lru_cache_t * list bool) :=
  let '(ok, o1) := malloc o in
  if negb ok then Some (false, c, o1) else
  let list_elt := fresh (dom (list_nodes c)) in
  let '(ok, o2) := malloc o1 in
  if negb ok then Some (false, c, o2) else
  let hash_elt := fresh (dom (hash_nodes c)) in
  let len := int32 (strlen k) in
  let '(ok, o3) := malloc o2 in
  if negb ok then Some (false, c, o3) else
  let '(it, o4) := new_lru_cache_item i o3 in
  match it with
  | None => Some (false, c, o4)
  | Some it =>
    it ← copy_lru_cache_item it src;
    Some (true, Cache (<[k := hash_elt]> (c_hash c)) (list_elt :: c_list c) (max_key_num c) (max_mem c)
      (int64 (used_mem c + entry_size len (sz i)))
      (<[list_elt := ListNode hash_elt it]> (list_nodes c))
      (<[hash_elt := HashNode k len list_elt]> (hash_nodes c)) (released c), o4)
  end.

(** [a] is the list node whose item is updated. *)
Definition update_data (c : lru_cache_t) (a : Z) (i : UT_icd) (src : source) (o : list bool)
    : option (bool * lru_cache_t * list bool) :=
  n ← list_nodes c !! a;
  same ← (if decide (icd (item n) = i)
          then if (Z.of_nat (length (bytes src)) <? sz i) || (Z.of_nat (length (item_data (item n))) <? sz i)
               then None
               else Some (bool_decide (take (Z.to_nat (sz i)) (item_data (item n)) = take (Z.to_nat (sz i)) (bytes src)))
          else Some false);
  if (same : bool) then Some (true, c, o) else
  let charge := int32 (sz i - sz (icd (item n))) in
  '(it, o1) ← replace_lru_cache_item i src o;
  match it with
  | None => Some (false, c, o1)
  | Some it =>
    let c1 := release c (item n) in
    let c2 := set_nodes c1 (<[a := ListNode (hash_node n) it]> (list_nodes c1)) in
    Some (true, set_used c2 (int64 (used_mem c2 + charge)), o1)
  end.

(** [cache->list->prev] is the tail; an empty list is a null dereference. *)
Definition delete_tail_data (c : lru_cache_t) : option lru_cache_t :=
  tail ← last (c_list c);
  delete_data c tail.

Definition lru_cache_put (cache : option lru_cache_t) (k : option string) (i : option UT_icd)
    (data : option source) (o : list bool) : option (bool * option lru_cache_t * list bool) :=
  match cache, k, i, data with
  | Some c, Some k, Some i, Some src =>
    if sz i <=? 0 then Some (false, Some c, o) else
    match c_hash c !! k with
    | Some elt =>
      h ← hash_nodes c !! elt;
      '(ok, c1, o1) ← update_data c (list_node h) i src o;
      if negb ok then Some (false, Some c1, o1) else
      Some (true, Some (set_list c1 (move_to_head (c_list c1) (list_node h))), o1)
    | None =>
      c1 ← (if is_full c then delete_tail_data c else Some c);
      '(ret, c2, o2) ← create_data c1 k i src o;
      _ ← print_cache c2;
      Some (ret, Some c2, o2)
    end
  | _, _, _, _ => Some (false, cache, o)
  end.

(** [at_] is the address of the caller's variable. *)
Definition lru_cache_put_int64 (host : bool) (at_ : Z) (cache : option lru_cache_t) (k : option string)
    (i64 : Z) (o : list bool) : option (bool * option lru_cache_t * list bool) :=
  lru_cache_put cache k (Some (Icd 8 None None None)) (Some (Source at_ (mem_bytes host 8 (uint64 i64)))) o.

Definition string_bytes (s : string) : list Z :=
  ((fun a => Z.of_nat (Ascii.nat_of_ascii a)) <$> String.list_ascii_of_string s) ++ [0].

Definition lru_cache_put_str (at_ : Z) (cache : option lru_cache_t) (k : option string) (str : string)
    (o : list bool) : option (bool * option lru_cache_t * list bool) :=
  let len := int32 (strlen str) in
  lru_cache_put cache k (Some (Icd (uint64 (len + 1)) None None None)) (Some (Source at_ (string_bytes str))) o.

Definition lru_cache_put_struct (cache : option lru_cache_t) (k : option string) (size : Z)
    (data : option source) (o : list bool) : option (bool * option lru_cache_t * list bool) :=
  lru_cache_put cache k (Some (Icd (uint64 size) None None None)) data o.

Definition lru_cache_remove (cache : option lru_cache_t) (k : option string)
    : option (option lru_cache_t) :=
  match cache, k with
  | Some c, Some k =>
    match c_hash c !! k with
    | None => Some (Some c)
    | Some elt =>
      h ← hash_nodes c !! elt;
      c1 ← delete_data c (list_node h);
      _ ← print_cache c1;
      Some (Some c1)
    end
  | _, _ => Some cache
  end.

(** The first loop of [delete_lru_cache]: list nodes and items. *)
Fixpoint delete_list (c : lru_cache_t) (l : list Z) : option lru_cache_t :=
  match l with
  | [] => Some c
  | elt :: l' =>
    n ← list_nodes c !! elt;
    let c1 := delete_lru_cache_item (set_list c l') (item n) in
    delete_list (set_nodes c1 (delete elt (list_nodes c1))) l'
  end.

(** The second loop: hash nodes and keys. *)
Fixpoint delete_hash (nodes : gmap Z lru_hash_t) (l : list Z) : option (gmap Z lru_hash_t) :=
  match l with
  | [] => Some nodes
  | elt :: l' => _ ← nodes !! elt; delete_hash (delete elt nodes) l'
  end.

(** [used_mem] keeps its value. *)
Definition delete_lru_cache (cache : option lru_cache_t) : option (option lru_cache_t) :=
  match cache with
  | None => Some None
  | Some c =>
    c1 ← delete_list c (c_list c);
    hs ← delete_hash (hash_nodes c1) (map_to_list (c_hash c1)).*2;
    Some (Some (Cache ∅ [] (max_key_num c1) (max_mem c1) (used_mem c1) (list_nodes c1) hs (released c1)))
  end.

End Lru.

(** The structure [new_lru_cache] fills may hold anything; it owns no nodes. *)
Definition new_lru_cache (cache : option lru_cache_t) (max_keys mem : Z) : bool * option lru_cache_t :=
  match cache with
  | None => (false, None)
  | Some c =>
    if (max_keys <=? 0) || (mem <=? 0) then (false, cache)
    else (true, Some (Cache ∅ [] max_keys mem 0 (list_nodes c) (hash_nodes c) (released c)))
  end.

(** ** Abstract cache: the entries, most recently used first *)

Record row := Row { la : Z; ha : Z; rkey : string; ritem : cache_item_t }.

Definition row_size (r : row) : Z := entry_size (strlen (rkey r)) (sz (icd (ritem r))).
Definition rows_size (rows : list row) : Z := foldr (fun r s => row_size r + s) 0 rows.

Definition row_ok (r : row) : Prop :=
  0 < sz (icd (ritem r)) < 2 ^ 31 /\ strlen (rkey r) < 2 ^ 30 /\
  length (item_data (ritem r)) = Z.to_nat (sz (icd (ritem r))).

Definition node_of (r : row) : lru_list_t := ListNode (ha r) (ritem r).
Definition hnode_of (r : row) : lru_hash_t := HashNode (rkey r) (strlen (rkey r)) (la r).

Definition nodes_of (rows : list row) : gmap Z lru_list_t :=
  list_to_map ((fun r => (la r, node_of r)) <$> rows).
Definition hnodes_of (rows : list row) : gmap Z lru_hash_t :=
  list_to_map ((fun r => (ha r, hnode_of r)) <$> rows).
Definition hash_of (rows : list row) : gmap string Z :=
  list_to_map ((fun r => (rkey r, ha r)) <$> rows).

(** The two stores and the hash hold exactly the nodes of the entries in the
    list, which point at each other, and [used_mem] is their total size. *)
Record lru_repr (c : lru_cache_t) (rows : list row) : Prop := {
  repr_la : NoDup (la <$> rows);
  repr_ha : NoDup (ha <$> rows);
  repr_key : NoDup (rkey <$> rows);
  repr_rows : Forall row_ok rows;
  repr_list : c_list c = la <$> rows;
  repr_nodes : list_nodes c = nodes_of rows;
  repr_hnodes : hash_nodes c = hnodes_of rows;
  repr_hash : c_hash c = hash_of rows;
  repr_used : used_mem c = rows_size rows;
  repr_limits : 0 < max_key_num c < 2 ^ 31 /\ 0 < max_mem c;
  repr_count : Z.of_nat (length rows) <= max_key_num c
}.

(** What a client sees: the pairs of key and item in order of use. *)
Definition entries (rows : list row) : list (string * cache_item_t) :=
  (fun r => (rkey r, ritem r)) <$> rows.

(** *** Lemmas on the stores *)

Section StoreOf.
Context {K V : Type} `{Countable K} (kf : row -> K) (vf : row -> V).

Definition store_of (rows : list row) : gmap K V := list_to_map ((fun r => (kf r, vf r)) <$> rows).

Lemma store_perm rows rows' : NoDup (kf <$> rows) -> rows ≡ₚ rows' -> store_of rows = store_of rows'.
Proof.
  intros Hnd HP. unfold store_of. apply list_to_map_proper; [|by rewrite HP].
  by rewrite <- list_fmap_compose.
Qed.

Lemma store_lookup rows r : NoDup (kf <$> rows) -> r ∈ rows -> store_of rows !! kf r = Some (vf r).
Proof.
  intros Hnd Hin. apply elem_of_list_to_map_1; [by rewrite <- list_fmap_compose|].
  apply list_elem_of_fmap. by exists r.
Qed.

Lemma store_lookup_inv rows k v : store_of rows !! k = Some v ->
  exists r, r ∈ rows /\ kf r = k /\ vf r = v.
Proof. intros (r & [= -> ->] & ?)%elem_of_list_to_map_2%list_elem_of_fmap. by exists r. Qed.

Lemma store_none rows k : k ∉ kf <$> rows -> store_of rows !! k = None.
Proof. intros Hk. apply not_elem_of_list_to_map_1. by rewrite <- list_fmap_compose. Qed.

Lemma store_cons r rows : store_of (r :: rows) = <[kf r := vf r]> (store_of rows).
Proof. done. Qed.

Lemma store_delete rows r rest : NoDup (kf <$> rows) -> rows ≡ₚ r :: rest ->
  delete (kf r) (store_of rows) = store_of rest.
Proof.
  intros Hnd HP. rewrite (store_perm _ _ Hnd HP), store_cons, delete_insert_id; [done|].
  apply store_none. rewrite HP in Hnd. simpl in Hnd. by apply NoDup_cons in Hnd as [? _].
Qed.

Lemma store_update rows r rest v : NoDup (kf <$> rows) -> rows ≡ₚ r :: rest ->
  <[kf r := v]> (store_of rows) = <[kf r := v]> (store_of rest).
Proof. intros Hnd HP. by rewrite (store_perm _ _ Hnd HP), store_cons, insert_insert_eq. Qed.

Lemma store_fresh rows k : k ∉ dom (store_of rows) -> k ∉ kf <$> rows.
Proof.
  intros Hk Hin. apply Hk. apply list_elem_of_fmap in Hin as (r & -> & Hr).
  unfold store_of. rewrite dom_list_to_map, <- list_fmap_compose.
  apply elem_of_list_to_set, list_elem_of_fmap. by exists r.
Qed.
End StoreOf.

(** *** Sizes *)

Lemma rows_size_perm rows rows' : rows ≡ₚ rows' -> rows_size rows = rows_size rows'.
Proof. induction 1; simpl; lia. Qed.

Lemma row_size_bounds r : row_ok r -> 0 < row_size r < 2 ^ 32.
Proof.
  intros (? & ? & _). unfold row_size, entry_size, sizeof_lru_list_t, sizeof_lru_hash_t, sizeof_cache_item_t.
  unfold strlen in *. lia.
Qed.

Lemma rows_size_bounds rows : Forall row_ok rows ->
  0 <= rows_size rows <= Z.of_nat (length rows) * 2 ^ 32.
Proof. induction 1 as [|r rows Hr _ IH]; simpl; [lia|]. pose proof (row_size_bounds r Hr). lia. Qed.

Lemma rows_size_int64 rows : Forall row_ok rows -> Z.of_nat (length rows) < 2 ^ 31 ->
  int64 (rows_size rows) = rows_size rows.
Proof.
  intros Hall Hlen. apply sint64_id. pose proof (rows_size_bounds rows Hall). unfold in_int64. lia.
Qed.

Lemma key_len_id r : row_ok r -> int32 (strlen (rkey r)) = strlen (rkey r).
Proof.
  intros (_ & Hk & _). apply sint32_id. unfold in_int32, INT32_MIN, INT32_MAX, strlen in *. lia.
Qed.

(** *** Rows and entries *)

Lemma filter_all_ne {A} `{EqDecision A} (x : A) (l : list A) : x ∉ l -> filter (.≠ x) l = l.
Proof.
  induction l as [|y l IH]; [done|]. intros Hx. rewrite filter_cons_True by set_solver.
  by rewrite IH by set_solver.
Qed.

Lemma filter_ne_split {A} `{EqDecision A} (f : row -> A) pre r post :
  NoDup (f <$> pre ++ r :: post) -> filter (.≠ f r) (f <$> pre ++ r :: post) = f <$> pre ++ post.
Proof.
  rewrite !fmap_app. csimpl. intros (Hpre & Hx & Hpost)%NoDup_app.
  apply NoDup_cons in Hpost as [Hr _].
  rewrite filter_app, filter_cons_False by (intros Hn; by apply Hn).
  rewrite !filter_all_ne; [done|done|]. intros Hin. apply (Hx _ Hin). left.
Qed.

Fixpoint lookup_entry (k : string) (es : list (string * cache_item_t)) : option cache_item_t :=
  match es with
  | [] => None
  | e :: es' => if decide (e.1 = k) then Some e.2 else lookup_entry k es'
  end.

Definition without (k : string) (es : list (string * cache_item_t)) : list (string * cache_item_t) :=
  filter (fun e => e.1 ≠ k) es.

Lemma lookup_entry_split pre r post : NoDup (rkey <$> pre ++ r :: post) ->
  lookup_entry (rkey r) (entries (pre ++ r :: post)) = Some (ritem r) /\
  without (rkey r) (entries (pre ++ r :: post)) = entries (pre ++ post).
Proof.
  intros Hnd. unfold entries, without. rewrite !fmap_app in *. csimpl in *.
  apply NoDup_app in Hnd as (_ & Hx & Hpost). apply NoDup_cons in Hpost as [Hr _].
  assert (Hne : forall l : list row, rkey r ∉ rkey <$> l ->
    filter (fun e : string * cache_item_t => e.1 ≠ rkey r) ((fun r => (rkey r, ritem r)) <$> l)
      = (fun r => (rkey r, ritem r)) <$> l).
  { induction l as [|y l IH]; [done|]. csimpl. intros Hy. rewrite filter_cons_True by set_solver.
    by rewrite IH by set_solver. }
  split.
  - clear Hne. induction pre as [|y pre IH]; csimpl; [by rewrite decide_True|].
    csimpl in Hx. rewrite decide_False; [apply IH; set_solver|].
    intros Heq. apply (Hx (rkey y)); [left|rewrite Heq; left].
  - rewrite filter_app, filter_cons_False by (simpl; intros Hn; by apply Hn).
    rewrite !Hne; [done|done|]. intros Hin. apply (Hx _ Hin). left.
Qed.

Lemma lookup_entry_none k rows : k ∉ rkey <$> rows -> lookup_entry k (entries rows) = None.
Proof.
  induction rows as [|r rows IH]; [done|]. csimpl. intros Hk. rewrite decide_False by set_solver.
  apply IH. set_solver.
Qed.

(** *** Consequences of the invariant *)

Section Repr.
Context {c : lru_cache_t} {rows : list row} (Hc : lru_repr c rows).

Lemma repr_find k :
  (c_hash c !! k = None /\ k ∉ rkey <$> rows) \/
  exists pre r post, rows = pre ++ r :: post /\ rkey r = k /\ c_hash c !! k = Some (ha r).
Proof.
  destruct (c_hash c !! k) as [h|] eqn:Hk.
  - right. rewrite (repr_hash _ _ Hc) in Hk. apply store_lookup_inv in Hk as (r & Hr & <- & <-).
    apply list_elem_of_split in Hr as (pre & post & ->). by exists pre, r, post.
  - left. split; [done|]. intros (r & -> & Hr)%list_elem_of_fmap.
    rewrite (repr_hash _ _ Hc) in Hk. unfold hash_of in Hk.
    pose proof (store_lookup rkey ha rows r (repr_key _ _ Hc) Hr) as Hs. unfold store_of in Hs. congruence.
Qed.

Lemma repr_node r : r ∈ rows -> list_nodes c !! la r = Some (node_of r).
Proof. intros Hr. rewrite (repr_nodes _ _ Hc). apply (store_lookup la node_of); [apply Hc|done]. Qed.

Lemma repr_hnode r : r ∈ rows ->
  hash_nodes c !! ha r = Some (hnode_of r).
Proof. intros Hr. rewrite (repr_hnodes _ _ Hc). apply (store_lookup ha hnode_of); [apply Hc|done]. Qed.

(** [print_cache] never follows a dangling pointer, whatever the order. *)
Lemma print_rows rows' c' : list_nodes c' = list_nodes c -> hash_nodes c' = hash_nodes c ->
  c_list c' = la <$> rows' -> rows' ⊆ rows -> print_cache c' = Some (rkey <$> rows').
Proof.
  intros Hn Hh Hl Hsub. unfold print_cache. rewrite Hn, Hh, Hl. clear Hl.
  induction rows' as [|r rows' IH]; [done|].
  rewrite !fmap_cons. cbn [mapM]. rewrite repr_node by set_solver. cbn [mbind option_bind hash_node node_of].
  rewrite repr_hnode by set_solver. cbn [mbind option_bind key hnode_of].
  by rewrite IH by set_solver.
Qed.

Lemma repr_print : print_cache c = Some (rkey <$> rows).
Proof. apply print_rows; try done. apply Hc. Qed.

Lemma repr_length : length (c_list c) = length rows.
Proof. rewrite (repr_list _ _ Hc). apply length_fmap. Qed.

End Repr.

(** Any other order of the list is as good. *)
Lemma repr_reorder c rows rows' : lru_repr c rows -> rows ≡ₚ rows' ->
  lru_repr (set_list c (la <$> rows')) rows'.
Proof.
  intros Hc HP. split; simpl; try (rewrite <- HP; apply Hc).
  - done.
  - rewrite (repr_nodes _ _ Hc). apply (store_perm la node_of); [apply Hc|done].
  - rewrite (repr_hnodes _ _ Hc). apply (store_perm ha hnode_of); [apply Hc|done].
  - rewrite (repr_hash _ _ Hc). apply (store_perm rkey ha); [apply Hc|done].
  - rewrite (repr_used _ _ Hc). by apply rows_size_perm.
  - apply Hc.
Qed.

(** [move_to_head] on the node of a key. *)
Lemma move_to_head_rows c pre r post : lru_repr c (pre ++ r :: post) ->
  lru_repr (set_list c (move_to_head (c_list c) (la r))) (r :: pre ++ post).
Proof.
  intros Hc. unfold move_to_head. rewrite (repr_list _ _ Hc), filter_ne_split by apply Hc.
  apply (repr_reorder _ _ (r :: pre ++ post) Hc). by rewrite Permutation_middle.
Qed.

Lemma delete_data_rows c pre r post : lru_repr c (pre ++ r :: post) ->
  exists c', delete_data c (la r) = Some c' /\ lru_repr c' (pre ++ post) /\
    released c' = (dtor (icd (ritem r)), item_data (ritem r)) :: released c /\
    max_key_num c' = max_key_num c /\ max_mem c' = max_mem c.
Proof.
  intros Hc. set (rows := pre ++ r :: post) in *.
  assert (HP : rows ≡ₚ r :: pre ++ post) by (unfold rows; by rewrite Permutation_middle).
  assert (Hr : r ∈ rows) by (rewrite HP; left).
  unfold delete_data. rewrite (repr_node Hc r Hr). simpl. rewrite (repr_hnode Hc r Hr). simpl.
  eexists. split; [reflexivity|]. split; [|done].
  pose proof (repr_la _ _ Hc) as Hla. pose proof (repr_ha _ _ Hc) as Hha.
  pose proof (repr_key _ _ Hc) as Hkey. pose proof (repr_rows _ _ Hc) as Hall.
  pose proof (repr_count _ _ Hc) as Hcount. pose proof (repr_limits _ _ Hc) as Hlim.
  assert (Hlen : length rows = S (length (pre ++ post))) by (by rewrite HP).
  split; simpl; try done; try (rewrite HP in Hla, Hha, Hkey, Hall; csimpl in *;
    first [by apply NoDup_cons in Hla as [_ ?]|by apply NoDup_cons in Hha as [_ ?]
      |by apply NoDup_cons in Hkey as [_ ?]|by apply Forall_cons in Hall as [_ ?]]).
  - rewrite (repr_list _ _ Hc). by apply filter_ne_split.
  - rewrite (repr_nodes _ _ Hc). by apply (store_delete la node_of).
  - rewrite (repr_hnodes _ _ Hc). by apply (store_delete ha hnode_of).
  - rewrite (repr_hash _ _ Hc). by apply (store_delete rkey ha).
  - rewrite (repr_used _ _ Hc), (rows_size_perm _ _ HP). simpl. fold (row_size r).
    rewrite HP in Hall. apply Forall_cons in Hall as [_ Hall].
    replace (row_size r + rows_size (pre ++ post) - row_size r) with (rows_size (pre ++ post)) by lia.
    apply rows_size_int64; [done|lia].
  - lia.
Qed.

(** [n] allocations in a row, up to the first that fails. *)
Fixpoint mallocs (n : nat) (o : list bool) : bool * list bool :=
  match n with
  | O => (true, o)
  | S n' => let '(ok, o1) := malloc o in if ok then mallocs n' o1 else (false, o1)
  end.

Section LruProofs.
Variable run_init : Z -> Z -> list Z.
Variable run_copy : Z -> list Z -> source -> list Z.
Hypothesis run_init_length : forall f n, length (run_init f n) = Z.to_nat n.
Hypothesis run_copy_length : forall f dst src, length (run_copy f dst src) = length dst.

#[local] Abbreviation put := (lru_cache_put run_init run_copy).

(** A copy of a readable source. *)
Definition copied (i : UT_icd) (src : source) : list Z :=
  match copy i with
  | Some f => run_copy f (init_bytes run_init i) src
  | None => take (Z.to_nat (sz i)) (bytes src)
  end.

Definition readable (i : UT_icd) (src : source) : Prop := sz i <= Z.of_nat (length (bytes src)).

Lemma copy_bytes_ok i src : readable i src ->
  copy_bytes run_copy i (init_bytes run_init i) src = Some (copied i src).
Proof.
  unfold copy_bytes, copied, readable. intros Hs. destruct (copy i); [done|].
  by destruct (Z.ltb_spec (Z.of_nat (length (bytes src))) (sz i)); [lia|].
Qed.

Lemma copied_length i src : readable i src -> length (copied i src) = Z.to_nat (sz i).
Proof.
  unfold copied, readable, init_bytes. intros Hs. destruct (copy i).
  - rewrite run_copy_length. destruct (init i); [apply run_init_length|apply length_replicate].
  - rewrite length_take. lia.
Qed.

Lemma create_data_cases c k i src o : readable i src ->
  create_data run_init run_copy c k i src o =
  let '(ok, o') := mallocs 5 o in
  Some (if ok then
    (true, Cache (<[k := fresh (dom (hash_nodes c))]> (c_hash c)) (fresh (dom (list_nodes c)) :: c_list c)
      (max_key_num c) (max_mem c) (int64 (used_mem c + entry_size (int32 (strlen k)) (sz i)))
      (<[fresh (dom (list_nodes c)) := ListNode (fresh (dom (hash_nodes c))) (Item i (copied i src))]> (list_nodes c))
      (<[fresh (dom (hash_nodes c)) := HashNode k (int32 (strlen k)) (fresh (dom (list_nodes c)))]> (hash_nodes c))
      (released c), o')
    else (false, c, o')).
Proof.
  intros Hs. unfold create_data, new_lru_cache_item, copy_lru_cache_item. cbn [mallocs].
  destruct (malloc o) as [[] o1]; [|done]. destruct (malloc o1) as [[] o2]; [|done].
  destruct (malloc o2) as [[] o3]; [|done]. destruct (malloc o3) as [[] o4]; [|done].
  destruct (malloc o4) as [[] o5]; [|done]. cbn [negb icd item_data]. by rewrite copy_bytes_ok.
Qed.

Lemma create_data_rows c rows k i src o : lru_repr c rows ->
  k ∉ rkey <$> rows -> Z.of_nat (length rows) < max_key_num c ->
  0 < sz i < 2 ^ 31 -> strlen k < 2 ^ 30 -> readable i src ->
  exists c' r, create_data run_init run_copy c k i src o =
      Some ((mallocs 5 o).1, c', (mallocs 5 o).2) /\
    rkey r = k /\ ritem r = Item i (copied i src) /\
    (if (mallocs 5 o).1 then lru_repr c' (r :: rows) else c' = c) /\
    released c' = released c /\ max_key_num c' = max_key_num c /\ max_mem c' = max_mem c.
Proof.
  intros Hc Hk Hroom Hsz Hlen Hsrc. rewrite create_data_cases by done.
  set (r := Row (fresh (dom (list_nodes c))) (fresh (dom (hash_nodes c))) k (Item i (copied i src))).
  destruct (mallocs 5 o) as [[] o']; simpl; [|by exists c, r].
  eexists _, r. split; [reflexivity|]. do 2 (split; [done|]). split; [|done].
  assert (Hr : row_ok r) by (split; [done|]; split; [done|]; simpl; by apply copied_length).
  pose proof (key_len_id r Hr) as Hkl. simpl in Hkl. rewrite Hkl.
  split; simpl; try apply Hc.
  - constructor; [|apply Hc]. apply (store_fresh la node_of).
    change (fresh (dom (list_nodes c)) ∉ dom (nodes_of rows)). rewrite <- (repr_nodes _ _ Hc). apply is_fresh.
  - constructor; [|apply Hc]. apply (store_fresh ha hnode_of).
    change (fresh (dom (hash_nodes c)) ∉ dom (hnodes_of rows)). rewrite <- (repr_hnodes _ _ Hc). apply is_fresh.
  - constructor; [done|apply Hc].
  - constructor; [done|apply Hc].
  - by rewrite (repr_list _ _ Hc).
  - rewrite (repr_nodes _ _ Hc) at 2. done.
  - rewrite (repr_hnodes _ _ Hc) at 2. done.
  - rewrite (repr_hash _ _ Hc). done.
  - rewrite (repr_used _ _ Hc).
    replace (rows_size rows + _) with (rows_size (r :: rows)) by (simpl; unfold row_size; simpl; lia).
    rewrite rows_size_int64; [done|constructor; [done|apply Hc]|].
    pose proof (repr_limits _ _ Hc). simpl. lia.
  - lia.
Qed.

(** The item already holds these bytes under this [icd]. *)
Definition unchanged (it : cache_item_t) (i : UT_icd) (src : source) : bool :=
  bool_decide (icd it = i) && bool_decide (item_data it = take (Z.to_nat (sz i)) (bytes src)).

Lemma update_data_rows c pre r post i src o : lru_repr c (pre ++ r :: post) ->
  0 < sz i < 2 ^ 31 -> readable i src ->
  let r' := Row (la r) (ha r) (rkey r) (Item i (copied i src)) in
  if unchanged (ritem r) i src then update_data run_init run_copy c (la r) i src o = Some (true, c, o)
  else exists c', update_data run_init run_copy c (la r) i src o =
      Some ((malloc o).1, c', (malloc o).2) /\
    max_key_num c' = max_key_num c /\ max_mem c' = max_mem c /\
    if (malloc o).1
    then lru_repr c' (pre ++ r' :: post) /\
         released c' = (dtor (icd (ritem r)), item_data (ritem r)) :: released c
    else c' = c.
Proof.
  intros Hc Hsz Hsrc r'. set (rows := pre ++ r :: post) in *.
  assert (HP : rows ≡ₚ r :: pre ++ post) by (unfold rows; by rewrite Permutation_middle).
  assert (HP' : pre ++ r' :: post ≡ₚ r' :: pre ++ post) by (by rewrite Permutation_middle).
  pose proof (repr_rows _ _ Hc) as Hall. rewrite HP in Hall. apply Forall_cons in Hall as [Hr Hall].
  pose proof Hr as (Hrsz & Hrk & Hrlen).
  unfold update_data. rewrite (repr_node Hc r) by (rewrite HP; left). cbn [mbind option_bind node_of item].
  assert (Hsame : (if decide (icd (ritem r) = i)
      then if (Z.of_nat (length (bytes src)) <? sz i) || (Z.of_nat (length (item_data (ritem r))) <? sz i)
           then None
           else Some (bool_decide (take (Z.to_nat (sz i)) (item_data (ritem r)) = take (Z.to_nat (sz i)) (bytes src)))
      else Some false) = Some (unchanged (ritem r) i src)).
  { unfold unchanged. destruct (decide (icd (ritem r) = i)) as [Hi|Hi];
      [|by rewrite (bool_decide_eq_false_2 (icd (ritem r) = i))].
    rewrite (bool_decide_eq_true_2 (icd (ritem r) = i)) by done. unfold readable in Hsrc. rewrite Hi in *.
    destruct (Z.ltb_spec (Z.of_nat (length (bytes src))) (sz i)),
      (Z.ltb_spec (Z.of_nat (length (item_data (ritem r)))) (sz i)); try lia. simpl.
    by rewrite (take_ge (item_data (ritem r))) by lia. }
  rewrite Hsame. cbn [mbind option_bind]. clear Hsame.
  destruct (unchanged (ritem r) i src); [done|].
  unfold replace_lru_cache_item. destruct (malloc o) as [[] o1]; simpl; [|by exists c].
  rewrite copy_bytes_ok by done. simpl. eexists. split; [reflexivity|].
  split; [done|]. split; [done|]. split; [|done].
  assert (Hr' : row_ok r') by (split; [done|]; split; [done|]; by apply copied_length).
  assert (Hlen : length rows = S (length (pre ++ post))) by (by rewrite HP).
  pose proof (repr_count _ _ Hc) as Hcount. pose proof (repr_limits _ _ Hc) as Hlim.
  assert (Hproj : forall A (f : row -> A), f r' = f r -> f <$> pre ++ r' :: post = f <$> rows)
    by (intros A f Hf; unfold rows; rewrite !fmap_app; csimpl; by rewrite Hf).
  split; simpl; try (rewrite Hproj by done; apply Hc); try apply Hc.
  - rewrite HP'. by constructor.
  - rewrite (repr_nodes _ _ Hc).
    etrans; [apply (store_update la node_of rows r (pre ++ post) (node_of r')); done || apply Hc|].
    refine (eq_sym (store_perm la node_of _ (r' :: pre ++ post) _ HP')).
    rewrite Hproj by done. apply Hc.
  - rewrite (repr_hnodes _ _ Hc). unfold hnodes_of.
    by rewrite (Hproj _ (fun r => (ha r, hnode_of r))).
  - rewrite (repr_hash _ _ Hc). unfold hash_of. by rewrite (Hproj _ (fun r => (rkey r, ha r))).
  - rewrite (repr_used _ _ Hc), (rows_size_perm _ _ HP), (rows_size_perm _ _ HP'). simpl.
    rewrite sint32_id by (unfold in_int32, INT32_MIN, INT32_MAX; lia).
    replace (row_size r + _ + _) with (rows_size (r' :: pre ++ post))
      by (simpl; unfold row_size, entry_size; simpl; lia).
    rewrite rows_size_int64; [done|by constructor|simpl; lia].
  - rewrite HP'. simpl. lia.
Qed.

(** ** The abstract cache *)

Record lru_spec := Spec {
  s_entries : list (string * cache_item_t);
  s_released : list (option Z * list Z)
}.

Definition spec_size (es : list (string * cache_item_t)) : Z :=
  foldr (fun e s => entry_size (strlen e.1) (sz (icd e.2)) + s) 0 es.

Definition dropped (it : cache_item_t) : option Z * list Z := (dtor (icd it), item_data it).

Inductive lru_op :=
  | OpGet (k : string)
  | OpPut (k : string) (i : UT_icd) (src : source)
  | OpRemove (k : string).

Inductive lru_ret := RetItem (it : option cache_item_t) | RetBool (b : bool) | RetUnit.

(** When the cache is full the least recently used entry leaves. *)
Definition spec_evict (max_keys mem : Z) (s : lru_spec) : lru_spec :=
  if (mem <=? spec_size (s_entries s)) || (max_keys <=? Z.of_nat (length (s_entries s))) then
    match last (s_entries s) with
    | Some e => Spec (removelast (s_entries s)) (dropped e.2 :: s_released s)
    | None => s
    end
  else s.

Definition spec_exec (max_keys mem : Z) (op : lru_op) (s : lru_spec) (o : list bool)
    : lru_ret * lru_spec * list bool :=
  let es := s_entries s in
  match op with
  | OpGet k =>
    match lookup_entry k es with
    | Some it => (RetItem (Some it), Spec ((k, it) :: without k es) (s_released s), o)
    | None => (RetItem None, s, o)
    end
  | OpPut k i src =>
    match lookup_entry k es with
    | Some it =>
      if unchanged it i src then (RetBool true, Spec ((k, it) :: without k es) (s_released s), o) else
      let '(ok, o1) := malloc o in
      if ok then (RetBool true, Spec ((k, Item i (copied i src)) :: without k es)
                                  (dropped it :: s_released s), o1)
      else (RetBool false, s, o1)
    | None =>
      let s1 := spec_evict max_keys mem s in
      let '(ok, o1) := mallocs 5 o in
      (RetBool ok, if ok then Spec ((k, Item i (copied i src)) :: s_entries s1) (s_released s1) else s1, o1)
    end
  | OpRemove k =>
    match lookup_entry k es with
    | Some it => (RetUnit, Spec (without k es) (dropped it :: s_released s), o)
    | None => (RetUnit, s, o)
    end
  end.

(** The same operation on the cache of the code. *)
Definition lru_exec (op : lru_op) (c : lru_cache_t) (o : list bool)
    : option (lru_ret * option lru_cache_t * list bool) :=
  match op with
  | OpGet k => '(r, c') ← lru_cache_get (Some c) (Some k); Some (RetItem r, c', o)
  | OpPut k i src => '(b, c', o') ← put (Some c) (Some k) (Some i) (Some src) o; Some (RetBool b, c', o')
  | OpRemove k => c' ← lru_cache_remove (Some c) (Some k); Some (RetUnit, c', o)
  end.

(** Calls the caller may make: a source of at least [sz] bytes, a size that
    fits the [int32_t] difference of [update_data], a key below 1 GiB. *)
Definition op_ok (op : lru_op) : Prop :=
  match op with
  | OpPut k i src => 0 < sz i < 2 ^ 31 /\ strlen k < 2 ^ 30 /\ readable i src
  | _ => True
  end.

Definition refines (c : lru_cache_t) (s : lru_spec) : Prop :=
  exists rows, lru_repr c rows /\ s = Spec (entries rows) (released c).

Lemma entries_size rows : spec_size (entries rows) = rows_size rows.
Proof. induction rows as [|r rows IH]; csimpl; [done|]. rewrite IH. done. Qed.

Lemma entries_length rows : length (entries rows) = length rows.
Proof. apply length_fmap. Qed.

Lemma full_entries c rows : lru_repr c rows ->
  is_full c = (max_mem c <=? spec_size (entries rows)) || (max_key_num c <=? Z.of_nat (length (entries rows))).
Proof.
  intros Hc. unfold is_full. by rewrite (repr_used _ _ Hc), (repr_length Hc), entries_size, entries_length.
Qed.

(** Eviction keeps the invariant and always leaves room for one more key. *)
Lemma evict_refines c s k : refines c s -> lookup_entry k (s_entries s) = None ->
  exists c' rows', (if is_full c then delete_tail_data c else Some c) = Some c' /\
    lru_repr c' rows' /\ spec_evict (max_key_num c) (max_mem c) s = Spec (entries rows') (released c') /\
    max_key_num c' = max_key_num c /\ max_mem c' = max_mem c /\
    Z.of_nat (length rows') < max_key_num c /\ lookup_entry k (entries rows') = None.
Proof.
  intros (rows & Hc & ->) Hk. unfold spec_evict. simpl in *. rewrite (full_entries _ _ Hc).
  pose proof (repr_limits _ _ Hc) as [Hmax Hmem]. pose proof (repr_count _ _ Hc) as Hcount.
  destruct ((_ <=? _) || _) eqn:Hfull.
  - destruct rows as [|r0 rest] using rev_ind.
    { exfalso. simpl in Hfull. apply orb_true_iff in Hfull as [H%Z.leb_le|H%Z.leb_le]; lia. }
    clear IHrest. unfold delete_tail_data. rewrite (repr_list _ _ Hc), fmap_app. simpl.
    rewrite last_snoc. simpl.
    destruct (delete_data_rows c rest r0 [] Hc) as (c' & Hdel & Hc' & Hrel & Hm & Hmm).
    rewrite app_nil_r in Hc'. exists c', rest. rewrite Hdel. split; [done|]. split; [done|].
    unfold entries. rewrite fmap_app. csimpl. rewrite last_snoc, removelast_last. simpl.
    rewrite Hrel. split; [done|]. split; [done|]. split; [done|].
    rewrite length_app in Hcount. simpl in Hcount. split; [lia|].
    clear -Hk. unfold entries in Hk. rewrite fmap_app in Hk. simpl in Hk.
    induction rest as [|r rest IH]; csimpl in *; [done|]. destruct (decide (rkey r = k)); [done|]. by apply IH.
  - exists c, rows. apply orb_false_iff in Hfull as [_ H%Z.leb_gt]. rewrite entries_length in H. done.
Qed.

Lemma lookup_none_key rows k : lookup_entry k (entries rows) = None -> k ∉ rkey <$> rows.
Proof.
  induction rows as [|r rows IH]; csimpl; [set_solver|]. destruct (decide (rkey r = k)); [done|].
  intros H%IH. set_solver.
Qed.

Lemma find_refines c rows k : lru_repr c rows ->
  (c_hash c !! k = None /\ lookup_entry k (entries rows) = None) \/
  exists pre r post, rows = pre ++ r :: post /\ k = rkey r /\ c_hash c !! k = Some (ha r) /\
    hash_nodes c !! ha r = Some (hnode_of r) /\
    lookup_entry k (entries rows) = Some (ritem r) /\ without k (entries rows) = entries (pre ++ post).
Proof.
  intros Hc. destruct (repr_find Hc k) as [[Hn Hk]|(pre & r & post & -> & <- & Hh)].
  - left. split; [done|]. by apply lookup_entry_none.
  - right. exists pre, r, post. do 3 (split; [done|]).
    split; [apply (repr_hnode Hc); set_solver|]. apply lookup_entry_split, Hc.
Qed.

Lemma exec_get c s k o : refines c s ->
  exists ret c' s', lru_exec (OpGet k) c o = Some (ret, Some c', o) /\
    spec_exec (max_key_num c) (max_mem c) (OpGet k) s o = (ret, s', o) /\ refines c' s' /\
    max_key_num c' = max_key_num c /\ max_mem c' = max_mem c.
Proof.
  intros (rows & Hc & ->). unfold lru_exec, lru_cache_get, spec_exec. simpl.
  destruct (find_refines c rows k Hc) as [[-> ->]|(pre & r & post & -> & -> & -> & -> & -> & ->)].
  - simpl. eexists _, c, _. do 2 (split; [reflexivity|]). split; [by exists rows|done].
  - simpl. pose proof (move_to_head_rows c pre r post Hc) as Hmv.
    rewrite (repr_print Hmv). simpl.
    pose proof (repr_node Hmv r ltac:(left)) as Hn. simpl in Hn. rewrite Hn. simpl.
    eexists _, _, _. do 2 (split; [reflexivity|]). split; [|done]. eexists. split; [exact Hmv|done].
Qed.

Lemma exec_put c s k i src o : refines c s -> op_ok (OpPut k i src) ->
  exists ret c' s' o', lru_exec (OpPut k i src) c o = Some (ret, Some c', o') /\
    spec_exec (max_key_num c) (max_mem c) (OpPut k i src) s o = (ret, s', o') /\ refines c' s' /\
    max_key_num c' = max_key_num c /\ max_mem c' = max_mem c.
Proof.
  intros Hs (Hsz & Hlen & Hsrc). pose proof Hs as (rows & Hc & ->).
  unfold lru_exec, lru_cache_put, spec_exec.
  destruct (Z.leb_spec (sz i) 0); [lia|]. cbn [s_entries s_released].
  destruct (find_refines c rows k Hc) as [[Hh Hnone]|(pre & r & post & -> & -> & Hh & Hhn & Hlk & Hwo)];
    rewrite Hh.
  - rewrite Hnone. destruct (evict_refines c _ k Hs Hnone) as (c1 & rows1 & -> & Hc1 & -> & Hm & Hmm & Hroom & Hk1).
    cbn [mbind option_bind s_entries s_released].
    destruct (create_data_rows c1 rows1 k i src o Hc1) as (c2 & r & Hcr & <- & Hit & Hcase & Hrel & Hm2 & Hmm2);
      try done; [by apply lookup_none_key|by rewrite Hm|].
    rewrite Hcr. cbn [mbind option_bind].
    destruct (mallocs 5 o) as [ok o']; cbn [fst snd] in *.
    assert (exists rows2, lru_repr c2 rows2 /\
      (if ok then Spec ((rkey r, Item i (copied i src)) :: entries rows1) (released c1)
       else Spec (entries rows1) (released c1)) = Spec (entries rows2) (released c2)) as (rows2 & Hc2 & Heq).
    { destruct ok; [|subst c2; by exists rows1]. exists (r :: rows1). split; [done|].
      unfold entries. csimpl. by rewrite Hrel, Hit. }
    rewrite (repr_print Hc2). simpl.
    eexists _, c2, _, o'. do 2 (split; [reflexivity|]). split; [by exists rows2|].
    by rewrite Hm2, Hmm2.
  - rewrite Hhn, Hlk. cbn [mbind option_bind list_node hnode_of].
    pose proof (update_data_rows c pre r post i src o Hc Hsz Hsrc) as Hup.
    destruct (unchanged (ritem r) i src).
    + rewrite Hup. simpl. eexists _, _, _, o. do 2 (split; [reflexivity|]). split; [|done].
      rewrite Hwo. eexists. split; [apply (move_to_head_rows c pre r post Hc)|done].
    + destruct Hup as (c1 & -> & Hm & Hmm & Hcase). simpl. destruct (malloc o) as [[] o1]; simpl in *.
      * destruct Hcase as [Hc1 Hrel]. eexists _, _, _, o1. do 2 (split; [reflexivity|]). split; [|done].
        rewrite Hwo. eexists. split; [apply (move_to_head_rows c1 pre _ post Hc1)|]. simpl. by rewrite Hrel.
      * subst c1. eexists _, _, _, o1. do 2 (split; [reflexivity|]). done.
Qed.

Lemma exec_remove c s k o : refines c s ->
  exists ret c' s', lru_exec (OpRemove k) c o = Some (ret, Some c', o) /\
    spec_exec (max_key_num c) (max_mem c) (OpRemove k) s o = (ret, s', o) /\ refines c' s' /\
    max_key_num c' = max_key_num c /\ max_mem c' = max_mem c.
Proof.
  intros (rows & Hc & ->). unfold lru_exec, lru_cache_remove, spec_exec. simpl.
  destruct (find_refines c rows k Hc) as [[-> ->]|(pre & r & post & -> & -> & -> & -> & -> & ->)].
  - simpl. eexists _, c, _. do 2 (split; [reflexivity|]). split; [by exists rows|done].
  - simpl. destruct (delete_data_rows c pre r post Hc) as (c' & -> & Hc' & Hrel & Hm & Hmm). simpl.
    rewrite (repr_print Hc'). simpl.
    eexists _, c', _. do 2 (split; [reflexivity|]). split; [|done].
    exists (pre ++ post). split; [done|]. by rewrite Hrel.
Qed.

Fixpoint lru_run (ops : list lru_op) (c : lru_cache_t) (o : list bool)
    : option (list lru_ret * lru_cache_t * list bool) :=
  match ops with
  | [] => Some ([], c, o)
  | op :: ops' =>
    '(r, c1, o1) ← lru_exec op c o;
    c1 ← c1;
    '(rs, c2, o2) ← lru_run ops' c1 o1;
    Some (r :: rs, c2, o2)
  end.

Fixpoint spec_run (max_keys mem : Z) (ops : list lru_op) (s : lru_spec) (o : list bool)
    : list lru_ret * lru_spec * list bool :=
  match ops with
  | [] => ([], s, o)
  | op :: ops' =>
    let '(r, s1, o1) := spec_exec max_keys mem op s o in
    let '(rs, s2, o2) := spec_run max_keys mem ops' s1 o1 in
    (r :: rs, s2, o2)
  end.

Lemma exec_refines op c s o : refines c s -> op_ok op ->
  exists ret c' s' o', lru_exec op c o = Some (ret, Some c', o') /\
    spec_exec (max_key_num c) (max_mem c) op s o = (ret, s', o') /\ refines c' s' /\
    max_key_num c' = max_key_num c /\ max_mem c' = max_mem c.
Proof.
  intros Hs Hop. destruct op as [k|k i src|k].
  - destruct (exec_get c s k o Hs) as (ret & c' & s' & ? & ? & ?). by exists ret, c', s', o.
  - by apply exec_put.
  - destruct (exec_remove c s k o Hs) as (ret & c' & s' & ? & ? & ?). by exists ret, c', s', o.
Qed.

Lemma run_refines ops : forall c s o, refines c s -> Forall op_ok ops ->
  exists rets c' s' o', lru_run ops c o = Some (rets, c', o') /\
    spec_run (max_key_num c) (max_mem c) ops s o = (rets, s', o') /\ refines c' s' /\
    max_key_num c' = max_key_num c /\ max_mem c' = max_mem c.
Proof.
  induction ops as [|op ops IH]; intros c s o Hs Hops.
  - by exists [], c, s, o.
  - apply Forall_cons in Hops as [Hop Hops]. cbn [lru_run spec_run].
    destruct (exec_refines op c s o Hs Hop) as (ret & c1 & s1 & o1 & -> & -> & Hs1 & Hm1 & Hmm1).
    destruct (IH c1 s1 o1 Hs1 Hops) as (rets & c2 & s2 & o2 & Hr & Hsp & Hs2 & Hm2 & Hmm2).
    rewrite Hm1, Hmm1 in *. simpl. rewrite Hr, Hsp. simpl. eexists _, _, _, _. done.
Qed.

(** *** Each operation on what a client sees *)

Definition limits_kept (c c' : lru_cache_t) : Prop :=
  max_key_num c' = max_key_num c /\ max_mem c' = max_mem c.

Lemma get_view c rows k : lru_repr c rows ->
  exists c' rows', lru_cache_get (Some c) (Some k) = Some (lookup_entry k (entries rows), Some c') /\
    lru_repr c' rows' /\ limits_kept c c' /\ released c' = released c /\
    entries rows' = match lookup_entry k (entries rows) with
                    | Some it => (k, it) :: without k (entries rows)
                    | None => entries rows
                    end.
Proof.
  intros Hc. destruct (exec_get c _ k [] (ex_intro _ rows (conj Hc eq_refl)))
    as (ret & c' & s' & Hex & Hsp & (rows' & Hc' & ->) & Hlim).
  unfold lru_exec in Hex. destruct (lru_cache_get (Some c) (Some k)) as [[r c1]|]; [|done].
  simpl in Hex. injection Hex as Hr ->. exists c', rows'.
  unfold spec_exec in Hsp. cbn [s_entries s_released] in Hsp.
  destruct (lookup_entry k (entries rows)); injection Hsp as <- He Hrel; injection Hr as ->; done.
Qed.

Lemma put_new_view c rows k i src o : lru_repr c rows -> op_ok (OpPut k i src) ->
  lookup_entry k (entries rows) = None ->
  let ev := spec_evict (max_key_num c) (max_mem c) (Spec (entries rows) (released c)) in
  exists c' rows', put (Some c) (Some k) (Some i) (Some src) o =
      Some ((mallocs 5 o).1, Some c', (mallocs 5 o).2) /\
    lru_repr c' rows' /\ limits_kept c c' /\ released c' = s_released ev /\
    entries rows' = (if (mallocs 5 o).1 then [(k, Item i (copied i src))] else []) ++ s_entries ev.
Proof.
  intros Hc Hop Hnone ev. destruct (exec_put c _ k i src o (ex_intro _ rows (conj Hc eq_refl)) Hop)
    as (ret & c' & s' & o' & Hex & Hsp & (rows' & Hc' & ->) & Hlim).
  unfold lru_exec in Hex.
  destruct (put (Some c) (Some k) (Some i) (Some src) o) as [[[b c1] o1]|]; [|done].
  simpl in Hex. injection Hex as Hr -> ->. exists c', rows'.
  unfold spec_exec in Hsp. cbn [s_entries s_released] in Hsp. rewrite Hnone in Hsp. fold ev in Hsp.
  destruct (mallocs 5 o) as [[] o2]; cbn [fst snd].
  - injection Hsp as <- He Hrel ->. by injection Hr as ->.
  - injection Hsp as <- Hs ->. injection Hr as ->. by rewrite Hs.
Qed.

Lemma remove_view c rows k : lru_repr c rows ->
  exists c' rows', lru_cache_remove (Some c) (Some k) = Some (Some c') /\
    lru_repr c' rows' /\ limits_kept c c' /\
    match lookup_entry k (entries rows) with
    | Some it => released c' = dropped it :: released c /\ entries rows' = without k (entries rows)
    | None => released c' = released c /\ entries rows' = entries rows
    end.
Proof.
  intros Hc. destruct (exec_remove c _ k [] (ex_intro _ rows (conj Hc eq_refl)))
    as (ret & c' & s' & Hex & Hsp & (rows' & Hc' & ->) & Hlim).
  unfold lru_exec in Hex. destruct (lru_cache_remove (Some c) (Some k)) as [c1|]; [|done].
  simpl in Hex. injection Hex as Hr ->. exists c', rows'.
  unfold spec_exec in Hsp. cbn [s_entries s_released] in Hsp.
  destruct (lookup_entry k (entries rows)); injection Hsp as <- He Hrel; done.
Qed.

End LruProofs.

Lemma without_perm k it es : NoDup es.*1 -> lookup_entry k es = Some it -> es ≡ₚ (k, it) :: without k es.
Proof.
  intros Hnd. induction es as [|e es IH]; csimpl; [done|].
  csimpl in Hnd. apply NoDup_cons in Hnd as [He Hnd]. destruct (decide (e.1 = k)) as [Hk|Hk].
  - intros [= <-]. unfold without. rewrite filter_cons_False by (intros Hn; by apply Hn).
    destruct e as [k' it]; simpl in *; subst k'. constructor.
    assert (filter (fun e : string * cache_item_t => e.1 ≠ k) es = es) as ->; [|done].
    clear -He. induction es as [|e es IH]; [done|]. csimpl in He.
    rewrite filter_cons_True by (intros Heq; apply He; rewrite Heq; left).
    rewrite IH; [done|]. intros Hin. apply He. by right.
  - intros Hl. unfold without. rewrite filter_cons_True by done.
    rewrite (IH Hnd Hl) at 1. unfold without. apply Permutation_swap.
Qed.

Lemma entries_keys rows : (entries rows).*1 = rkey <$> rows.
Proof. unfold entries. by rewrite <- list_fmap_compose. Qed.

Lemma lookup_entry_elem k it es : lookup_entry k es = Some it -> (k, it) ∈ es.
Proof.
  induction es as [|[k' it'] es IH]; simpl; [done|]. destruct (decide (k' = k)) as [->|].
  - intros [= ->]. left.
  - intros Hl. right. by apply IH.
Qed.

Lemma delete_list_rows (rows : list row) : forall c, NoDup (la <$> rows) -> list_nodes c = nodes_of rows ->
  delete_list c (la <$> rows) = Some (Cache (c_hash c) (match rows with [] => c_list c | _ => [] end) (max_key_num c)
    (max_mem c) (used_mem c) ∅ (hash_nodes c)
    (rev ((fun r => dropped (ritem r)) <$> rows) ++ released c)).
Proof.
  induction rows as [|r rows IH]; intros c Hnd Hn; csimpl.
  { destruct c; simpl in *. by rewrite Hn. }
  assert (Hn' : list_nodes c = <[la r := node_of r]> (nodes_of rows)) by (by rewrite Hn).
  rewrite Hn', lookup_insert_eq. cbn [mbind option_bind node_of item].
  csimpl in Hnd. apply NoDup_cons in Hnd as [Hr Hnd].
  rewrite IH; [|done|].
  - simpl. rewrite <- app_assoc. simpl. unfold dropped. by destruct rows.
  - cbn -[delete]. etrans; [f_equal; exact Hn'|]. apply delete_insert_id. by apply (store_none la node_of).
Qed.

Lemma delete_hash_all l : forall nodes, NoDup l -> (forall a, is_Some (nodes !! a) <-> a ∈ l) ->
  delete_hash nodes l = Some ∅.
Proof.
  induction l as [|a l IH]; intros nodes Hnd Hdom; simpl.
  - f_equal. apply map_empty. intros a. destruct (nodes !! a) eqn:Ha; [|done].
    assert (a ∈ []) by (apply Hdom; by eexists). set_solver.
  - apply NoDup_cons in Hnd as [Ha Hnd]. destruct (proj2 (Hdom a)) as [n ->]; [left|]. simpl.
    apply IH; [done|]. intros b. rewrite lookup_delete_is_Some, Hdom, elem_of_cons. set_solver.
Qed.

(** A value that [lru_cache_put] reported as stored is what the next
    [lru_cache_get] of its key returns, byte for byte. *)
Lemma get_after_put run_init run_copy c rows k i src o c' o' :
  (forall f n, length (run_init f n) = Z.to_nat n) ->
  (forall f dst src, length (run_copy f dst src) = length dst) ->
  lru_repr c rows -> op_ok (OpPut k i src) -> copy i = None ->
  lru_cache_put run_init run_copy (Some c) (Some k) (Some i) (Some src) o = Some (true, Some c', o') ->
  exists c'', lru_cache_get (Some c') (Some k) =
    Some (Some (Item i (take (Z.to_nat (sz i)) (bytes src))), Some c'').
Proof.
  intros Hi Hcp Hc Hop Hcopy Hput.
  destruct (exec_put run_init run_copy Hi Hcp c _ k i src o (ex_intro _ rows (conj Hc eq_refl)) Hop)
    as (ret & c1 & s1 & o1 & Hex & Hsp & Hs1 & _).
  unfold lru_exec in Hex. rewrite Hput in Hex. simpl in Hex. injection Hex as <- <- <-.
  destruct (exec_get run_init run_copy Hi Hcp c' s1 k [] Hs1) as (ret & c2 & s2 & Hget & Hsg & _).
  assert (Hhead : exists es, s_entries s1 = (k, Item i (take (Z.to_nat (sz i)) (bytes src))) :: es).
  { unfold spec_exec in Hsp. cbn [s_entries] in Hsp. unfold copied in Hsp. rewrite Hcopy in Hsp.
    destruct (lookup_entry k (entries rows)) as [it|].
    - destruct (unchanged it i src) eqn:Hun.
      + injection Hsp as <- _. unfold unchanged in Hun.
        apply andb_true_iff in Hun as [H1 H2]. apply bool_decide_eq_true in H1, H2.
        destruct it as [ii dd]; simpl in *; subst. by eexists.
      + destruct (malloc o) as [[] ?]; [|done]. injection Hsp as <- _. by eexists.
    - destruct (mallocs 5 o) as [[] ?]; [|done]. injection Hsp as <- _. by eexists. }
  destruct Hhead as [es Hes]. unfold spec_exec in Hsg. rewrite Hes in Hsg. simpl in Hsg.
  rewrite decide_True in Hsg by done. injection Hsg as <- _.
  unfold lru_exec in Hget. destruct (lru_cache_get (Some c') (Some k)) as [[r c3]|] eqn:Hg; [|done].
  simpl in Hget. injection Hget as -> ->. by eexists.
Qed.

Lemma delete_view c rows : lru_repr c rows ->
  exists c', delete_lru_cache (Some c) = Some (Some c') /\
    list_nodes c' = ∅ /\ hash_nodes c' = ∅ /\ c_list c' = [] /\ c_hash c' = ∅ /\
    released c' = rev ((fun e => dropped e.2) <$> entries rows) ++ released c /\
    used_mem c' = used_mem c /\ max_mem c' = max_mem c.
Proof.
  intros Hc. unfold delete_lru_cache. rewrite (repr_list _ _ Hc).
  rewrite delete_list_rows by apply Hc. cbn [mbind option_bind hash_nodes c_hash].
  assert (HP : (map_to_list (c_hash c)).*2 ≡ₚ ha <$> rows).
  { rewrite (repr_hash _ _ Hc). unfold hash_of. rewrite map_to_list_to_map
      by (rewrite <- list_fmap_compose; apply Hc). by rewrite <- list_fmap_compose. }
  rewrite delete_hash_all.
  2:{ rewrite HP. apply Hc. }
  2:{ intros a. rewrite HP, (repr_hnodes _ _ Hc). split.
      - intros [n (r & Hr & <- & _)%(store_lookup_inv ha hnode_of)]. apply list_elem_of_fmap. by exists r.
      - intros (r & -> & Hr)%list_elem_of_fmap. eexists. apply (store_lookup ha hnode_of); [apply Hc|done]. }
  simpl. eexists. split; [reflexivity|]. simpl. unfold entries. by rewrite <- list_fmap_compose.
Qed.

Lemma empty_cache_repr max_keys mem : 0 < max_keys < 2 ^ 31 -> 0 < mem ->
  lru_repr (Cache ∅ [] max_keys mem 0 ∅ ∅ []) [].
Proof. intros. split; simpl; try constructor; done || lia. Qed.

(** ** Properties *)

(** C1: From a new cache, any sequence of gets, puts and removals, under any
    allocation failures, runs without touching a freed node or the tail of
    an empty list, returns exactly what the abstract cache returns, evicts
    exactly the least recently used entry when the cache is full, and
    releases the same data blocks, each by its own destructor. *)
Theorem lru_implements_spec run_init run_copy raw max_keys mem c ops o :
  (forall f n, length (run_init f n) = Z.to_nat n) ->
  (forall f dst src, length (run_copy f dst src) = length dst) ->
  list_nodes raw = ∅ -> hash_nodes raw = ∅ -> max_keys < 2 ^ 31 ->
  new_lru_cache (Some raw) max_keys mem = (true, Some c) -> Forall op_ok ops ->
  exists rets c' rows o',
    lru_run run_init run_copy ops c o = Some (rets, c', o') /\
    spec_run run_init run_copy max_keys mem ops (Spec [] (released raw)) o =
      (rets, Spec (entries rows) (released c'), o') /\
    lru_repr c' rows.
Proof.
  intros Hi Hcp Hn Hh Hmax Hnew Hops. unfold new_lru_cache in Hnew.
  destruct ((max_keys <=? 0) || (mem <=? 0)) eqn:Hbad; [done|]. injection Hnew as <-.
  apply orb_false_iff in Hbad as [H1%Z.leb_gt H2%Z.leb_gt].
  assert (Hc : lru_repr (Cache ∅ [] max_keys mem 0 (list_nodes raw) (hash_nodes raw) (released raw)) []).
  { split; simpl; try constructor; done || lia. }
  destruct (run_refines run_init run_copy Hi Hcp ops _ (Spec [] (released raw)) o
    (ex_intro _ [] (conj Hc eq_refl)) Hops) as (rets & c' & s' & o' & Hrun & Hspec & (rows & Hc' & ->) & _).
  by exists rets, c', rows, o'.
Qed.

Definition zero_init (_ n : Z) : list Z := replicate (Z.to_nat n) 0.
Definition keep_copy (_ : Z) (dst : list Z) (_ : source) : list Z := dst.

Lemma lru_implements_spec_witness :
  let raw := Cache ∅ [] 0 0 0 ∅ ∅ [] in
  let i := Icd 1 None None (Some 7) in
  let ops := [OpPut "a" i (Source 0 [1]); OpPut "b" i (Source 0 [2]); OpGet "a";
    OpPut "c" i (Source 0 [3]); OpGet "b"] in
  exists rets c' rows o',
    lru_run zero_init keep_copy ops (Cache ∅ [] 2 1000 0 ∅ ∅ []) [] = Some (rets, c', o') /\
    rets = [RetBool true; RetBool true; RetItem (Some (Item i [1])); RetBool true; RetItem None] /\
    entries rows = [("c", Item i [3]); ("a", Item i [1])] /\ released c' = [(Some 7, [2])] /\
    lru_repr c' rows.
Proof.
  intros raw i ops.
  destruct (lru_implements_spec zero_init keep_copy raw 2 1000 (Cache ∅ [] 2 1000 0 ∅ ∅ []) ops [])
    as (rets & c' & rows & o' & Hrun & Hspec & Hr);
    [intros; apply length_replicate|done|done|done|done|done| |].
  { repeat constructor; vm_compute; congruence. }
  exists rets, c', rows, o'. vm_compute in Hspec. injection Hspec as <- He Hrel _.
  split; [exact Hrun|]. split; [done|].
  split; [exact (eq_sym He)|]. split; [exact (eq_sym Hrel)|exact Hr].
Defined.


Lemma string_bytes_length s : Z.of_nat (length (string_bytes s)) = strlen s + 1.
Proof.
  unfold string_bytes, strlen. rewrite length_app, length_fmap. simpl.
  assert (length (String.list_ascii_of_string s) = String.length s) as ->; [|lia].
  induction s; simpl; [done|]. by f_equal.
Qed.

(** The typed entry points round-trip: once [lru_cache_put_int64],
    [lru_cache_put_str] or [lru_cache_put_struct] has reported success, the
    next [lru_cache_get] of the key returns an item whose bytes read back as
    the integer on the same host, or are the string with its terminator, or
    are the structure. *)
Theorem lru_typed_round_trip run_init run_copy c rows k o :
  (forall f n, length (run_init f n) = Z.to_nat n) ->
  (forall f dst src, length (run_copy f dst src) = length dst) ->
  lru_repr c rows -> strlen k < 2 ^ 30 ->
  (forall host at_ v c' o', in_int64 v ->
     lru_cache_put_int64 run_init run_copy host at_ (Some c) (Some k) v o = Some (true, Some c', o') ->
     exists it c'', lru_cache_get (Some c') (Some k) = Some (Some it, Some c'') /\
       int64 (mem_value host (item_data it)) = v) /\
  (forall at_ str c' o', strlen str < INT32_MAX ->
     lru_cache_put_str run_init run_copy at_ (Some c) (Some k) str o = Some (true, Some c', o') ->
     exists it c'', lru_cache_get (Some c') (Some k) = Some (Some it, Some c'') /\
       item_data it = string_bytes str) /\
  (forall size data c' o', 0 < size <= INT32_MAX -> size <= Z.of_nat (length (bytes data)) ->
     lru_cache_put_struct run_init run_copy (Some c) (Some k) size (Some data) o = Some (true, Some c', o') ->
     exists it c'', lru_cache_get (Some c') (Some k) = Some (Some it, Some c'') /\
       item_data it = take (Z.to_nat size) (bytes data)).
Proof.
  intros Hi Hcp Hc Hk. unfold INT32_MAX. split_and!.
  - intros host at_ v c' o' Hv Hput. eapply (get_after_put _ _ _ _ _ _ _ _ _ _ Hi Hcp Hc) in Hput as [c'' Hg];
      [|split; [simpl; lia|split; [done|unfold readable; cbn [bytes]; by rewrite length_mem_bytes]]|done].
    eexists _, c''. split; [exact Hg|]. simpl. change (Pos.to_nat 8) with 8%nat.
    rewrite take_ge by (by rewrite length_mem_bytes). rewrite mem_value_bytes.
    unfold in_int64, uint, sint in *. change (256 ^ Z.of_nat 8) with (2 ^ 64).
    rewrite Z.mod_mod by lia. rewrite Zplus_mod_idemp_l, Z.mod_small; lia.
  - intros at_ str c' o' Hs Hput. unfold lru_cache_put_str in Hput.
    pose proof (string_bytes_length str) as Hl. assert (0 <= strlen str) by (unfold strlen; lia).
    rewrite sint32_id, uint_id in Hput by (unfold in_int32, INT32_MIN, INT32_MAX; lia).
    eapply (get_after_put _ _ _ _ _ _ _ _ _ _ Hi Hcp Hc) in Hput as [c'' Hg];
      [|split; [simpl; lia|split; [done|unfold readable; simpl; lia]]|done].
    eexists _, c''. split; [exact Hg|]. simpl. apply take_ge. lia.
  - intros size data c' o' Hs Hd Hput. unfold lru_cache_put_struct in Hput.
    rewrite uint_id in Hput by lia.
    eapply (get_after_put _ _ _ _ _ _ _ _ _ _ Hi Hcp Hc) in Hput as [c'' Hg];
      [|split; [simpl; lia|split; [done|done]]|done].
    eexists _, c''. by split; [exact Hg|].
Qed.

Lemma lru_typed_round_trip_witness :
  let c := Cache ∅ [] 4 4096 0 ∅ ∅ [] in
  exists c1 o1 it c2, lru_cache_put_int64 zero_init keep_copy true 0 (Some c) (Some "n") (-5) [] =
      Some (true, Some c1, o1) /\
    lru_cache_get (Some c1) (Some "n") = Some (Some it, Some c2) /\
    int64 (mem_value true (item_data it)) = -5.
Proof.
  intros c. destruct (lru_typed_round_trip zero_init keep_copy c [] "n" [])
    as [Hint _]; [intros; apply length_replicate|done|by apply empty_cache_repr|done|].
  destruct (lru_cache_put_int64 zero_init keep_copy true 0 (Some c) (Some "n") (-5) [])
    as [[[b [c1|]] o1]|] eqn:Hput; vm_compute in Hput; try discriminate Hput.
  injection Hput as <- <- <-.
  destruct (Hint true 0 (-5) _ [] ltac:(unfold in_int64; lia) ltac:(vm_compute; reflexivity))
    as (it & c2 & Hg & Hv).
  eexists _, _, it, c2. split; [reflexivity|]. by split.
Defined.

(** [delete_lru_cache] frees every node of both stores and releases every
    item once; the limits and [used_mem] stay as they were, so a put into the
    deleted cache that finds [used_mem] at the limit takes the tail of the
    empty list. *)
Theorem delete_lru_cache_spec run_init run_copy c rows : lru_repr c rows ->
  exists c', delete_lru_cache (Some c) = Some (Some c') /\
    list_nodes c' = ∅ /\ hash_nodes c' = ∅ /\ c_list c' = [] /\ c_hash c' = ∅ /\
    released c' = rev ((fun e => dropped e.2) <$> entries rows) ++ released c /\
    used_mem c' = rows_size rows /\
    (max_mem c <= rows_size rows -> forall k i src o, 0 < sz i ->
       lru_cache_put run_init run_copy (Some c') (Some k) (Some i) (Some src) o = None).
Proof.
  intros Hc. destruct (delete_view c rows Hc) as (c' & Hd & ? & ? & Hl & Hh & ? & Hu & Hm).
  rewrite <- (repr_used _ _ Hc). exists c'. do 6 (split; [done|]). split; [done|].
  intros Hfull k i src o Hsz. unfold lru_cache_put.
  destruct (Z.leb_spec (sz i) 0); [lia|]. rewrite Hh, lookup_empty. unfold is_full.
  rewrite Hm, Hu. destruct (Z.leb_spec (max_mem c) (used_mem c)); [|lia]. simpl.
  unfold delete_tail_data. by rewrite Hl.
Qed.

Lemma delete_lru_cache_spec_witness :
  exists c c', lru_cache_put zero_init keep_copy (Some (Cache ∅ [] 4 100 0 ∅ ∅ [])) (Some "k")
      (Some (Icd 1 None None None)) (Some (Source 0 [9])) [] = Some (true, Some c, []) /\
    delete_lru_cache (Some c) = Some (Some c') /\ used_mem c' = 155 /\ released c' = [(None, [9])] /\
    lru_cache_put zero_init keep_copy (Some c') (Some "k") (Some (Icd 1 None None None)) (Some (Source 0 [9])) [] = None.
Proof.
  pose (r := Row 0 0 "k" (Item (Icd 1 None None None) [9])).
  pose (c := Cache {["k" := 0]} [0] 4 100 155 {[0 := node_of r]} {[0 := hnode_of r]} []).
  assert (Hc : lru_repr c [r]).
  { split; try apply NoDup_singleton; try reflexivity; simpl; try lia.
    constructor; [|constructor]. split; [simpl; lia|]. split; [vm_compute; reflexivity|done]. }
  destruct (delete_lru_cache_spec zero_init keep_copy c [r] Hc)
    as (c' & Hd & _ & _ & _ & _ & Hrel & Hu & Hbad).
  exists c, c'. split; [vm_compute; reflexivity|]. split; [exact Hd|]. split; [exact Hu|].
  split; [exact Hrel|]. apply Hbad; vm_compute; congruence.
Defined.

(** [max_mem] does not bound [used_mem]: a put evicts one entry at most, and
    only when the limit is already reached, so a single put can leave the
    cache above it; replacing a value never evicts. *)
Theorem lru_used_mem_exceeds_max_mem run_init run_copy :
  exists c1 c2, lru_cache_put_struct run_init run_copy (Some (Cache ∅ [] 8 200 0 ∅ ∅ [])) (Some "k") 4
      (Some (Source 0 (replicate 4 1))) [] = Some (true, Some c1, []) /\ used_mem c1 < max_mem c1 /\
    lru_cache_put_struct run_init run_copy (Some c1) (Some "k") 300 (Some (Source 0 (replicate 300 1))) []
      = Some (true, Some c2, []) /\ max_mem c2 < used_mem c2.
Proof.
  eexists _, _. split; [vm_compute; reflexivity|]. split; [vm_compute; reflexivity|].
  split; [vm_compute; reflexivity|]. vm_compute. reflexivity.
Qed.
