(* ===== verification/Timer.v ===== *)
(** * Software timers ([src/utils/timer.c])

    Running timers sit in one doubly linked list, sorted by absolute expiry;
    one thread fires the due ones.  The model keeps the handles in a store
    of [struct timer_handle_struct] with their [prev] and [next] pointers and
    translates the pointer operations; following a pointer that is not in the
    store is [None].  The mutex makes each operation a step of its own. *)

From Stdlib Require Import Sorted.
From S2P Require Import Prelude.

(** ** Data *)

Inductive timer_status_e := TIMER_IDLE | TIMER_RUNNING | TIMER_STOP.

Record timespec := Timespec { tv_sec : Z; tv_nsec : Z }.

Record timer_handle_struct := Timer {
  prev : option Z;
  next : option Z;
  abs_timeout : timespec;
  cb : option Z;
  timeout_ms : Z;
  userdata : option Z;
  t_repeat : Z;
  timeout_count : Z;
  status : timer_status_e
}.

Abbreviation timer_heap := (gmap Z timer_handle_struct).

(** [fired] records the callbacks called, with their argument, latest first;
    [signals] the writes to the event descriptor; [freed] the user data given
    to [free], latest first. *)
Record timer_state := State {
  heap : timer_heap;
  g_timer_list_head : option Z;
  g_ctrl_fd : Z;
  fired : list (Z * option Z);
  signals : nat;
  freed : list Z
}.

(** ** Field updates *)

Definition with_links (t : timer_handle_struct) (p n : option Z) : timer_handle_struct :=
  Timer p n (abs_timeout t) (cb t) (timeout_ms t) (userdata t) (t_repeat t) (timeout_count t) (status t).
Definition with_timeout (t : timer_handle_struct) (ts : timespec) : timer_handle_struct :=
  Timer (prev t) (next t) ts (cb t) (timeout_ms t) (userdata t) (t_repeat t) (timeout_count t) (status t).
Definition with_count (t : timer_handle_struct) (n : Z) : timer_handle_struct :=
  Timer (prev t) (next t) (abs_timeout t) (cb t) (timeout_ms t) (userdata t) (t_repeat t) n (status t).
Definition with_status (t : timer_handle_struct) (s : timer_status_e) : timer_handle_struct :=
  Timer (prev t) (next t) (abs_timeout t) (cb t) (timeout_ms t) (userdata t) (t_repeat t) (timeout_count t) s.
Definition with_userdata (t : timer_handle_struct) (u : option Z) : timer_handle_struct :=
  Timer (prev t) (next t) (abs_timeout t) (cb t) (timeout_ms t) u (t_repeat t) (timeout_count t) (status t).

(** [p->field = v] *)
Definition upd (h : timer_heap) (p : Z) (f : timer_handle_struct -> timer_handle_struct)
    : option timer_heap :=
  t ← h !! p; Some (<[p := f t]> h).
Definition set_prev (h : timer_heap) (p : Z) (v : option Z) : option timer_heap :=
  upd h p (fun t => with_links t v (next t)).
Definition set_next (h : timer_heap) (p : Z) (v : option Z) : option timer_heap :=
  upd h p (fun t => with_links t (prev t) v).

Definition on_heap (st : timer_state) (h : timer_heap) : timer_state :=
  State h (g_timer_list_head st) (g_ctrl_fd st) (fired st) (signals st) (freed st).
Definition on_list (st : timer_state) (h : timer_heap) (hd : option Z) : timer_state :=
  State h hd (g_ctrl_fd st) (fired st) (signals st) (freed st).

(** ** Times *)

Definition gettime (c : clock) : timespec * clock :=
  let '(ns, c') := clock_read c in (Timespec (ns / 1000000000) (ns mod 1000000000), c').

Definition _timer_add_abstimeout (a : timespec) (ms : Z) : timespec :=
  let s := int64 (tv_sec a + ms / 1000) in
  let n := int64 (tv_nsec a + ms mod 1000 * 1000000) in
  if 1000000000 <? n then Timespec (s + 1) (n - 1000000000) else Timespec s n.

Definition _timer_set_abstimeout (ms : Z) (c : clock) : timespec * clock :=
  let '(now, c') := gettime c in (_timer_add_abstimeout now ms, c').

Definition _timespec_compare (first second : timespec) : Z :=
  if tv_sec second <? tv_sec first then 1
  else if tv_sec first <? tv_sec second then -1
  else if tv_nsec first =? tv_nsec second then 0
  else if tv_nsec second <? tv_nsec first then 1 else -1.

Definition _timer_post_timeout_signal (st : timer_state) : timer_state :=
  if 0 <? g_ctrl_fd st
  then State (heap st) (g_timer_list_head st) (g_ctrl_fd st) (fired st) (S (signals st)) (freed st)
  else st.

(** ** The list *)

(** The list loops follow [next] until it is null; the fuel is the number of
    handles, and running out of it means a cycle. *)
Fixpoint is_inlist_from (fuel : nat) (h : timer_heap) (cur : option Z) (hdl : Z) : option bool :=
  match cur, fuel with
  | None, _ => Some false
  | Some _, O => None
  | Some a, S fuel' =>
    if a =? hdl then Some true else t ← h !! a; is_inlist_from fuel' h (next t) hdl
  end.

Definition _timer_is_inlist (st : timer_state) (hdl : Z) : option bool :=
  is_inlist_from (size (heap st)) (heap st) (g_timer_list_head st) hdl.

Definition _timer_list_remove (st : timer_state) (hdl : Z) : option timer_state :=
  let h := heap st in
  t ← h !! hdl;
  match prev t, next t with
  | None, None => Some (on_list st h None)
  | None, Some n => h1 ← set_prev h n None; Some (on_list st h1 (Some n))
  | Some p, None => h1 ← set_next h p None; Some (on_heap st h1)
  | Some p, Some n => h1 ← set_prev h n None; h2 ← set_next h1 p None; Some (on_heap st h2)
  end.

Definition _timer_list_insert_after (st : timer_state) (cur hdl : Z) : option timer_state :=
  t ← heap st !! cur;
  let nxt := next t in
  h1 ← set_prev (heap st) hdl (Some cur);
  h2 ← set_next h1 hdl nxt;
  h3 ← set_next h2 cur (Some hdl);
  match nxt with
  | None => Some (on_heap st h3)
  | Some n => h4 ← set_prev h3 n (Some hdl); Some (on_heap st h4)
  end.

Definition _timer_list_insert_before (st : timer_state) (cur hdl : Z) : option timer_state :=
  t ← heap st !! cur;
  match prev t with
  | None =>
    h1 ← set_prev (heap st) hdl None;
    h2 ← set_next h1 hdl (Some cur);
    h3 ← set_prev h2 cur (Some hdl);
    Some (on_list st h3 (Some hdl))
  | Some p =>
    h1 ← set_prev (heap st) hdl (Some p);
    h2 ← set_next h1 hdl (Some cur);
    h3 ← set_next h2 p (Some hdl);
    h4 ← set_prev h3 cur (Some hdl);
    Some (on_heap st h4)
  end.

(** The loop of [_timer_list_add] from [cur], at position [index]. *)
Fixpoint list_add_from (fuel : nat) (st : timer_state) (cur : option Z) (hdl index : Z)
    : option (Z * timer_state) :=
  match cur, fuel with
  | None, _ => Some (index, st)
  | Some _, O => None
  | Some a, S fuel' =>
    t ← heap st !! a;
    new ← heap st !! hdl;
    if 0 <? _timespec_compare (abs_timeout t) (abs_timeout new)
    then st1 ← _timer_list_insert_before st a hdl; Some (index, st1)
    else match next t with
         | None => st1 ← _timer_list_insert_after st a hdl; Some (index, st1)
         | Some n => list_add_from fuel' st (Some n) hdl (index + 1)
         end
  end.

Definition _timer_list_add (st : timer_state) (hdl : Z) : option (Z * timer_state) :=
  match g_timer_list_head st with
  | None =>
    h1 ← set_prev (heap st) hdl None;
    h2 ← set_next h1 hdl None;
    Some (0, on_list st h2 (Some hdl))
  | Some a => list_add_from (size (heap st)) st (Some a) hdl 0
  end.

(** ** The timer thread *)

(** The firing of one due timer: callback, count, removal, and the restart
    with [ABSOLUTE_STRICT_INTERVAL_TIMEOUT == 1].  A callback may not call
    the timer functions, which would wait for the mutex the loop holds, so it
    only leaves its call behind. *)
Definition fire_timer (st : timer_state) (curtime : timespec) (cur : Z) : option timer_state :=
  t ← heap st !! cur;
  let st1 := match cb t with
             | Some f => State (heap st) (g_timer_list_head st) (g_ctrl_fd st)
                           ((f, userdata t) :: fired st) (signals st) (freed st)
             | None => st
             end in
  let t1 := with_count t (int32 (timeout_count t + 1)) in
  st2 ← _timer_list_remove (on_heap st1 (<[cur := t1]> (heap st1))) cur;
  if (timeout_count t1 <? t_repeat t1) || (t_repeat t1 <? 0) then
    h ← upd (heap st2) cur (fun t => with_timeout t (_timer_add_abstimeout curtime (timeout_ms t)));
    '(_, st3) ← _timer_list_add (on_heap st2 h) cur;
    Some st3
  else
    h ← upd (heap st2) cur (fun t => with_status t TIMER_STOP);
    Some (on_heap st2 h).

Fixpoint loop_from (fuel : nat) (st : timer_state) (curtime : timespec) (cur : option Z)
    : option timer_state :=
  match cur, fuel with
  | None, _ => Some st
  | Some _, O => None
  | Some a, S fuel' =>
    t ← heap st !! a;
    let nxt := next t in
    if _timespec_compare curtime (abs_timeout t) <? 0 then Some st else
    match status t with
    | TIMER_RUNNING => st1 ← fire_timer st curtime a; loop_from fuel' st1 curtime nxt
    | _ => st1 ← _timer_list_remove st a; loop_from fuel' st1 curtime nxt
    end
  end.

Definition p_timer_loop_once (st : timer_state) (c : clock) : option (timer_state * clock) :=
  match g_timer_list_head st with
  | None => Some (st, c)
  | Some a =>
    let '(curtime, c') := gettime c in
    st' ← loop_from (S (size (heap st))) st curtime (Some a);
    Some (st', c')
  end.

(** The [struct timeval] passed to [select], as seconds and microseconds. *)
Definition p_timer_loop_get_next_min_timeout (st : timer_state) (c : clock)
    : option (Z * Z * clock) :=
  match g_timer_list_head st with
  | None => Some (10, 0, c)
  | Some a =>
    cur ← heap st !! a;
    let '(now, c') := gettime c in
    let sec := tv_sec (abs_timeout cur) - tv_sec now in
    let usec := Z.quot (tv_nsec (abs_timeout cur) - tv_nsec now) 1000 in
    let '(sec, usec) := if usec <? 0 then (sec - 1, usec + 1000000) else (sec, usec) in
    if (sec <? 0) || ((sec =? 0) && (usec <? 1000)) then Some (0, 1000, c') else Some (sec, usec, c')
  end.

(** ** The interface *)

Definition p_timer_start (st : timer_state) (hdl : option Z) (c : clock)
    : option (Z * timer_state * clock) :=
  match hdl with
  | None => Some (-1, st, c)
  | Some a =>
    t ← heap st !! a;
    let '(ts, c') := _timer_set_abstimeout (timeout_ms t) c in
    let t1 := with_status (with_count (with_timeout t ts) 0) TIMER_RUNNING in
    let st1 := on_heap st (<[a := t1]> (heap st)) in
    listed ← _timer_is_inlist st1 a;
    st2 ← (if (listed : bool) then _timer_list_remove st1 a else Some st1);
    '(index, st3) ← _timer_list_add st2 a;
    Some (0, if index =? 0 then _timer_post_timeout_signal st3 else st3, c')
  end.

Definition p_timer_add (st : timer_state) (ms rep : Z) (f : option Z) (u : option Z)
    (o : list bool) (c : clock) : option (option Z * timer_state * list bool * clock) :=
  match f, u with
  | Some _, Some _ =>
    if ms <=? 0 then Some (None, st, o, c) else
    let '(ok, o1) := malloc o in
    if negb ok then Some (None, st, o1, c) else
    let a := fresh (dom (heap st)) in
    let t := Timer None None (Timespec 0 0) f ms u rep 0 TIMER_IDLE in
    '(_, st1, c1) ← p_timer_start (on_heap st (<[a := t]> (heap st))) (Some a) c;
    Some (Some a, st1, o1, c1)
  | _, _ => Some (None, st, o, c)
  end.

Definition p_timerSetParam (st : timer_state) (hdl : option Z) (u : option Z)
    : option (Z * timer_state) :=
  match hdl with
  | None => Some (-1, st)
  | Some a => h ← upd (heap st) a (fun t => with_userdata t u); Some (0, on_heap st h)
  end.

Definition p_timer_stop (st : timer_state) (hdl : option Z) : option (Z * timer_state) :=
  match hdl with
  | None => Some (-1, st)
  | Some a =>
    h ← upd (heap st) a (fun t => with_status t TIMER_STOP);
    let st1 := on_heap st h in
    listed ← _timer_is_inlist st1 a;
    st2 ← (if (listed : bool) then _timer_list_remove st1 a else Some st1);
    Some (0, st2)
  end.

(** [free_hdl] frees the user data and not the handle. *)
Definition free_hdl (st : timer_state) (a : Z) : option timer_state :=
  t ← heap st !! a;
  match userdata t with
  | Some u => Some (State (heap st) (g_timer_list_head st) (g_ctrl_fd st) (fired st) (signals st)
                      (u :: freed st))
  | None => Some st
  end.

(** [p_hdl] points to the handle pointer, which is cleared. *)
Definition p_timer_del (st : timer_state) (p_hdl : option (option Z))
    : option (Z * option (option Z) * timer_state) :=
  match p_hdl with
  | Some (Some a) =>
    '(_, st1) ← p_timer_stop st (Some a);
    st2 ← free_hdl st1 a;
    Some (0, Some None, st2)
  | _ => Some (-1, p_hdl, st)
  end.

(** [p_timer_init] drops whatever list there was. *)
Definition p_timer_init (st : timer_state) (eventfd : Z) : Z * timer_state :=
  (eventfd, State (heap st) None eventfd (fired st) (signals st) (freed st)).

(** ** The list as a sequence of handles

    [dseg h p l n]: the handles of [l] are linked one to the next; the first
    points back to [p] and the last forward to [n]. *)

Definition first (l : list Z) (n : option Z) : option Z := match l with [] => n | a :: _ => Some a end.
Definition final (p : option Z) (l : list Z) : option Z := match last l with Some a => Some a | None => p end.

Fixpoint dseg (h : timer_heap) (p : option Z) (l : list Z) (n : option Z) : Prop :=
  match l with
  | [] => True
  | a :: l' => (exists t, h !! a = Some t /\ prev t = p /\ next t = first l' n) /\ dseg h (Some a) l' n
  end.

Lemma final_cons p a l : final p (a :: l) = final (Some a) l.
Proof. unfold final. rewrite last_cons. by destruct (last l). Qed.

Lemma final_snoc p l a : final p (l ++ [a]) = Some a.
Proof. unfold final. by rewrite last_snoc. Qed.

Lemma first_app l1 l2 n : first (l1 ++ l2) n = first l1 (first l2 n).
Proof. by destruct l1. Qed.

Lemma dseg_app h l1 l2 n : forall p,
  dseg h p (l1 ++ l2) n <-> dseg h p l1 (first l2 n) /\ dseg h (final p l1) l2 n.
Proof.
  induction l1 as [|a l1 IH]; intros p; simpl.
  - unfold final. simpl. tauto.
  - rewrite IH, first_app, final_cons. tauto.
Qed.

Lemma dseg_frame h a t l n : a ∉ l -> forall p, dseg (<[a := t]> h) p l n <-> dseg h p l n.
Proof.
  induction l as [|b l IH]; intros Ha p; simpl; [done|].
  rewrite lookup_insert_ne by set_solver. rewrite IH by set_solver. done.
Qed.

(** Updates that keep the links. *)
Lemma dseg_same_links h a t t' l n : h !! a = Some t -> prev t' = prev t -> next t' = next t ->
  forall p, dseg h p l n -> dseg (<[a := t']> h) p l n.
Proof.
  intros Ha Hp Hn. induction l as [|b l IH]; intros p; simpl; [done|].
  intros [(tb & Hb & H1 & H2) Hl]. split; [|by apply IH].
  destruct (decide (b = a)) as [->|Hne].
  - rewrite lookup_insert_eq. exists t'. rewrite Ha in Hb. injection Hb as ->. by rewrite Hp, Hn.
  - rewrite lookup_insert_ne by done. by exists tb.
Qed.

Lemma dseg_lookup h l n : forall p a, dseg h p l n -> a ∈ l -> is_Some (h !! a).
Proof.
  induction l as [|b l IH]; intros p a; [set_solver|]. simpl.
  intros [(t & Ht & _) Hl] [->|Ha]%elem_of_cons; [by eexists|by eapply IH].
Qed.

Lemma dseg_dom h p l n : dseg h p l n -> NoDup l -> (length l <= size h)%nat.
Proof.
  intros Hd Hnd. rewrite <- size_dom.
  rewrite <- (size_list_to_set (C := gset Z) l Hnd). apply subseteq_size.
  intros a Ha%elem_of_list_to_set. apply elem_of_dom. by eapply dseg_lookup.
Qed.

(** Changing the outer link of an end of a segment. *)
Lemma dseg_set_first h a l p q n : NoDup (a :: l) -> dseg h p (a :: l) n ->
  exists h', set_prev h a q = Some h' /\ dseg h' q (a :: l) n.
Proof.
  intros [Ha Hnd]%NoDup_cons [(t & Ht & Hp & Hn) Hl]. unfold set_prev, upd. rewrite Ht. simpl.
  eexists. split; [done|]. split; [rewrite lookup_insert_eq; eexists; done|].
  by apply dseg_frame.
Qed.

Lemma dseg_set_last h l a p n m : NoDup (l ++ [a]) -> dseg h p (l ++ [a]) n ->
  exists h', set_next h a m = Some h' /\ dseg h' p (l ++ [a]) m.
Proof.
  intros Hnd Hd. apply dseg_app in Hd as [Hl [(t & Ht & Hp & Hn) _]].
  unfold set_next, upd. rewrite Ht. simpl. eexists. split; [done|].
  apply dseg_app. simpl in *. split.
  - apply NoDup_app in Hnd as (_ & Hx & _). apply dseg_frame; [|done].
    intros Hin. apply (Hx a Hin). left.
  - split; [|done]. rewrite lookup_insert_eq. eexists. done.
Qed.

(** *** What the link updates keep *)

(** A handle without its links. *)
Definition core (t : timer_handle_struct) : timer_handle_struct := with_links t None None.
Definition cores (h : timer_heap) : timer_heap := core <$> h.

Lemma cores_links h a t p n : h !! a = Some t -> cores (<[a := with_links t p n]> h) = cores h.
Proof.
  intros Ha. unfold cores. rewrite fmap_insert. apply insert_id. rewrite lookup_fmap, Ha. done.
Qed.

Lemma cores_set_prev h a v h' : set_prev h a v = Some h' -> cores h' = cores h.
Proof.
  unfold set_prev, upd. intros (t & Ha & [= <-])%bind_Some. by apply cores_links.
Qed.

Lemma cores_set_next h a v h' : set_next h a v = Some h' -> cores h' = cores h.
Proof.
  unfold set_next, upd. intros (t & Ha & [= <-])%bind_Some. by apply cores_links.
Qed.

Lemma cores_lookup h a t : h !! a = Some t -> cores h !! a = Some (core t).
Proof. intros Ha. unfold cores. by rewrite lookup_fmap, Ha. Qed.

Lemma frame_set_prev h a v h' l p n : set_prev h a v = Some h' -> a ∉ l ->
  dseg h p l n -> dseg h' p l n.
Proof. unfold set_prev, upd. intros (t & Ha & [= <-])%bind_Some Hl. by apply dseg_frame. Qed.

Lemma frame_set_next h a v h' l p n : set_next h a v = Some h' -> a ∉ l ->
  dseg h p l n -> dseg h' p l n.
Proof. unfold set_next, upd. intros (t & Ha & [= <-])%bind_Some Hl. by apply dseg_frame. Qed.

(** The list of a state. *)
Definition timer_list (st : timer_state) (l : list Z) : Prop :=
  NoDup l /\ g_timer_list_head st = first l None /\ dseg (heap st) None l None.

(** Two states that differ in links only. *)
Definition same_rest (st st' : timer_state) : Prop :=
  cores (heap st') = cores (heap st) /\ g_ctrl_fd st' = g_ctrl_fd st /\ fired st' = fired st /\
  signals st' = signals st /\ freed st' = freed st.

Lemma same_rest_trans a b d : same_rest a b -> same_rest b d -> same_rest a d.
Proof. unfold same_rest. intros (?&?&?&?&?) (?&?&?&?&?). split_and!; congruence. Qed.

Lemma cores_size h h' : cores h' = cores h -> size h' = size h.
Proof. intros Hc. apply (f_equal size) in Hc. unfold cores in Hc. by rewrite !map_size_fmap in Hc. Qed.

Lemma cores_is_some h h' a : cores h' = cores h -> is_Some (h !! a) -> is_Some (h' !! a).
Proof.
  intros Hc [t Ht]. apply (f_equal (.!! a)) in Hc. unfold cores in Hc. rewrite !lookup_fmap, Ht in Hc.
  simpl in Hc. destruct (h' !! a); [by eexists|done].
Qed.

(** *** Membership *)

Lemma is_inlist_from_spec h a l : forall fuel p, dseg h p l None -> (length l <= fuel)%nat ->
  is_inlist_from fuel h (first l None) a = Some (bool_decide (a ∈ l)).
Proof.
  induction l as [|b l IH]; intros fuel p Hd Hf; simpl; [by destruct fuel|].
  destruct fuel as [|fuel]; simpl in Hf; [lia|]. simpl. destruct Hd as [(t & Ht & _ & Hn) Hl].
  destruct (Z.eqb_spec b a) as [->|Hne].
  - by rewrite bool_decide_eq_true_2 by (left).
  - rewrite Ht. simpl. rewrite Hn, (IH _ _ Hl) by lia. f_equal. apply bool_decide_ext.
    rewrite elem_of_cons. split; [by right|]. by intros [->|?].
Qed.

Lemma is_inlist_spec st l a : timer_list st l ->
  _timer_is_inlist st a = Some (bool_decide (a ∈ l)).
Proof.
  intros (Hnd & Hh & Hd). unfold _timer_is_inlist. rewrite Hh.
  eapply is_inlist_from_spec; [done|]. by eapply dseg_dom.
Qed.

(** *** Removal *)

(** What the list is after the removal of the handle between [l1] and [l2]. *)
Definition after_remove (l1 l2 : list Z) : list Z := match l1 with [] => l2 | _ => l1 end.

Lemma remove_spec st l1 a l2 : timer_list st (l1 ++ a :: l2) ->
  exists st', _timer_list_remove st a = Some st' /\ timer_list st' (after_remove l1 l2) /\
    same_rest st st' /\ heap st' !! a = heap st !! a.
Proof.
  intros (Hnd & Hh & Hd). unfold _timer_list_remove.
  apply dseg_app in Hd as [H1 [(t & Ht & Hp & Hn) H2]]. rewrite Ht. simpl. rewrite Hp, Hn.
  apply NoDup_app in Hnd as (Hnd1 & Hx & [Ha Hnd2]%NoDup_cons).
  destruct l1 as [|b1 l1 _] using rev_ind.
  - unfold final. simpl. destruct l2 as [|b l2]; simpl.
    { exists (on_list st (heap st) None). repeat split; try done; constructor. }
    destruct (dseg_set_first _ _ _ _ None _ Hnd2 H2) as (h1 & Hs & Hd1). rewrite Hs. simpl.
    eexists. split; [done|]. split; [done|]. split; [repeat split; by eapply cores_set_prev|].
    unfold set_prev, upd in Hs. apply bind_Some in Hs as (tb & _ & [= <-]). simpl.
    rewrite lookup_insert_ne; [done|]. set_solver.
  - assert (Hne : b1 <> a) by (intros ->; apply (Hx a); [apply elem_of_app; right; left|left]).
    rewrite final_snoc. destruct l2 as [|b l2]; simpl.
    + destruct (dseg_set_last _ _ _ _ _ None Hnd1 H1) as (h1 & Hs & Hd1). rewrite Hs. simpl.
      eexists. split; [done|].
      replace (after_remove (l1 ++ [b1]) []) with (l1 ++ [b1]) by (by destruct l1).
      split; [split; [done|]; split; [simpl; rewrite Hh, first_app; by destruct l1|done]|].
      split; [repeat split; by eapply cores_set_next|].
      unfold set_next, upd in Hs. apply bind_Some in Hs as (tb & _ & [= <-]). simpl.
      by rewrite lookup_insert_ne.
    + destruct (dseg_set_first _ _ _ _ None _ Hnd2 H2) as (h1 & Hs1 & Hd1). rewrite Hs1. simpl.
      assert (Hb : b ∉ l1 ++ [b1]) by (intros Hin; apply (Hx b Hin); set_solver).
      pose proof (frame_set_prev _ _ _ _ _ _ _ Hs1 Hb H1) as H1'.
      destruct (dseg_set_last _ _ _ _ _ None Hnd1 H1') as (h2 & Hs2 & Hd2). rewrite Hs2. simpl.
      eexists. split; [done|].
      replace (after_remove (l1 ++ [b1]) (b :: l2)) with (l1 ++ [b1]) by (by destruct l1).
      split; [split; [done|]; split; [simpl; rewrite Hh, first_app; by destruct l1|done]|].
      split.
      * repeat split. simpl. rewrite (cores_set_next _ _ _ _ Hs2). by eapply cores_set_prev.
      * unfold set_next, set_prev, upd in Hs2, Hs1. apply bind_Some in Hs2 as (? & _ & [= <-]).
        apply bind_Some in Hs1 as (? & _ & [= <-]). simpl.
        rewrite !lookup_insert_ne; [done|set_solver|done].
Qed.

(** *** Insertion *)

Lemma new_links h hdl t p n : h !! hdl = Some t ->
  exists h1 h2, set_prev h hdl p = Some h1 /\ set_next h1 hdl n = Some h2 /\
    h2 !! hdl = Some (with_links t p n) /\ cores h2 = cores h /\
    forall l p' n', hdl ∉ l -> dseg h p' l n' -> dseg h2 p' l n'.
Proof.
  intros Ht. unfold set_prev, set_next, upd. rewrite Ht. simpl. eexists _, _. split; [done|].
  rewrite lookup_insert_eq. simpl. split; [done|]. rewrite lookup_insert_eq. split; [done|].
  rewrite insert_insert_eq. split; [exact (cores_links h hdl t p n Ht)|]. intros l p' n' Hl. by apply dseg_frame.
Qed.

Lemma lookup_set_prev h a v h' b : set_prev h a v = Some h' -> b <> a -> h' !! b = h !! b.
Proof. unfold set_prev, upd. intros (? & _ & [= <-])%bind_Some Hb. by rewrite lookup_insert_ne. Qed.

Lemma lookup_set_next h a v h' b : set_next h a v = Some h' -> b <> a -> h' !! b = h !! b.
Proof. unfold set_next, upd. intros (? & _ & [= <-])%bind_Some Hb. by rewrite lookup_insert_ne. Qed.

Lemma first_some (l : list Z) a n : first (l ++ [a]) n = first (l ++ [a]) None.
Proof. by destruct l. Qed.

Lemma insert_before_spec st l1 a l2 hdl : timer_list st (l1 ++ a :: l2) -> hdl ∉ l1 ++ a :: l2 ->
  is_Some (heap st !! hdl) ->
  exists st', _timer_list_insert_before st a hdl = Some st' /\
    timer_list st' (l1 ++ hdl :: a :: l2) /\ same_rest st st'.
Proof.
  intros (Hnd & Hh & Hd) Hnew [th Hth]. unfold _timer_list_insert_before.
  assert (Hnd' : NoDup (l1 ++ hdl :: a :: l2)).
  { rewrite <- Permutation_middle. by constructor. }
  apply dseg_app in Hd as [H1 H2]. pose proof H2 as [(t & Ht & Hp & Hn) _]. rewrite Ht. simpl. rewrite Hp.
  apply NoDup_app in Hnd as (Hnd1 & Hx & Hnd2).
  destruct l1 as [|b l1 _] using rev_ind.
  - unfold final. simpl.
    destruct (new_links (heap st) hdl th None (Some a) Hth) as (h1 & h2 & -> & Hs2 & Hl & Hc & Hfr).
    simpl. rewrite Hs2. simpl.
    pose proof (Hfr (a :: l2) _ _ Hnew H2) as H2'.
    destruct (dseg_set_first _ _ _ _ (Some hdl) _ Hnd2 H2') as (h3 & Hs3 & Hd3). rewrite Hs3. simpl.
    eexists. split; [done|]. split; [|repeat split; simpl; by rewrite (cores_set_prev _ _ _ _ Hs3)].
    split; [done|]. split; [done|]. split; [|done].
    exists (with_links th None (Some a)). simpl.
    rewrite (lookup_set_prev _ _ _ _ hdl Hs3) by set_solver. done.
  - rewrite final_snoc.
    destruct (new_links (heap st) hdl th (Some b) (Some a) Hth) as (h1 & h2 & -> & Hs2 & Hl & Hc & Hfr).
    cbn [mbind option_bind]. rewrite Hs2. cbn [mbind option_bind].
    pose proof (Hfr (a :: l2) _ _ ltac:(set_solver) H2) as H2'.
    pose proof (Hfr (l1 ++ [b]) _ _ ltac:(set_solver) H1) as H1'.
    destruct (dseg_set_last _ _ _ _ _ (Some hdl) Hnd1 H1') as (h3 & Hs3 & Hd3). rewrite Hs3.
    cbn [mbind option_bind].
    assert (Hb : b ∉ a :: l2) by (apply Hx; set_solver).
    pose proof (frame_set_next _ _ _ _ _ _ _ Hs3 Hb H2') as H2''.
    destruct (dseg_set_first _ _ _ _ (Some hdl) _ Hnd2 H2'') as (h4 & Hs4 & Hd4). rewrite Hs4.
    cbn [mbind option_bind]. eexists. split; [done|].
    split; [|repeat split; simpl; rewrite (cores_set_prev _ _ _ _ Hs4); by rewrite (cores_set_next _ _ _ _ Hs3)].
    split; [done|]. split; [simpl; rewrite Hh; by destruct l1|].
    apply dseg_app. split.
    + eapply frame_set_prev; [done| |done]. intros Hin. apply (Hx a Hin). left.
    + rewrite final_snoc. split; [|done]. simpl.
      rewrite (lookup_set_prev _ _ _ _ hdl Hs4) by set_solver.
      rewrite (lookup_set_next _ _ _ _ hdl Hs3) by set_solver. rewrite Hl. eexists. done.
Qed.

Lemma insert_after_spec st l1 a l2 hdl : timer_list st (l1 ++ a :: l2) -> hdl ∉ l1 ++ a :: l2 ->
  is_Some (heap st !! hdl) ->
  exists st', _timer_list_insert_after st a hdl = Some st' /\
    timer_list st' (l1 ++ a :: hdl :: l2) /\ same_rest st st'.
Proof.
  intros (Hnd & Hh & Hd) Hnew [th Hth]. unfold _timer_list_insert_after.
  assert (Hnd' : NoDup (l1 ++ a :: hdl :: l2)).
  { replace (l1 ++ a :: hdl :: l2) with ((l1 ++ [a]) ++ hdl :: l2) by (by rewrite <- app_assoc).
    rewrite <- Permutation_middle. rewrite <- app_assoc. by constructor. }
  replace (l1 ++ a :: l2) with ((l1 ++ [a]) ++ l2) in * by (by rewrite <- app_assoc).
  apply dseg_app in Hd as [H1 H2]. pose proof H1 as [_ [(t & Ht & Hp & Hn) _]]%dseg_app.
  rewrite Ht. cbn [mbind option_bind]. simpl in Hn. rewrite Hn.
  apply NoDup_app in Hnd as (Hnd1 & Hx & Hnd2).
  destruct (new_links (heap st) hdl th (Some a) (first l2 None) Hth) as (h1 & h2 & -> & Hs2 & Hl & Hc & Hfr).
  cbn [mbind option_bind]. rewrite Hs2. cbn [mbind option_bind].
  pose proof (Hfr (l1 ++ [a]) _ _ ltac:(set_solver) H1) as H1'.
  pose proof (Hfr l2 _ _ ltac:(set_solver) H2) as H2'.
  destruct (dseg_set_last _ _ _ _ _ (Some hdl) Hnd1 H1') as (h3 & Hs3 & Hd3). rewrite Hs3.
  cbn [mbind option_bind].
  assert (Ha : a ∉ l2) by (apply Hx; set_solver).
  pose proof (frame_set_next _ _ _ _ _ _ _ Hs3 Ha H2') as H2''.
  assert (Hhdl : h3 !! hdl = Some (with_links th (Some a) (first l2 None)))
    by (rewrite (lookup_set_next _ _ _ _ hdl Hs3) by set_solver; done).
  assert (Hcore : cores h3 = cores (heap st)) by (by rewrite (cores_set_next _ _ _ _ Hs3)).
  assert (Hhead : g_timer_list_head st = first (l1 ++ a :: hdl :: l2) None).
  { rewrite Hh. by destruct l1. }
  replace (l1 ++ a :: hdl :: l2) with ((l1 ++ [a]) ++ hdl :: l2) in * by (by rewrite <- app_assoc).
  destruct l2 as [|b l2]; cbn [first] in *.
  - eexists. split; [done|]. split; [|repeat split; done]. split; [done|]. split; [done|].
    apply dseg_app. split; [done|]. rewrite final_snoc. split; [|done]. eexists. done.
  - destruct (dseg_set_first _ _ _ _ (Some hdl) _ Hnd2 H2'') as (h4 & Hs4 & Hd4). rewrite Hs4.
    cbn [mbind option_bind]. eexists. split; [done|].
    split; [|repeat split; simpl; by rewrite (cores_set_prev _ _ _ _ Hs4)].
    split; [done|]. split; [done|]. apply dseg_app. split.
    + eapply frame_set_prev; [done| |done]. intros Hin. apply (Hx b Hin). left.
    + rewrite final_snoc. split; [|done]. simpl.
      rewrite (lookup_set_prev _ _ _ _ hdl Hs4) by set_solver. rewrite Hhdl. eexists. done.
Qed.

(** *** The order of the list *)

Definition expiry (h : timer_heap) (a : Z) : timespec :=
  match h !! a with Some t => abs_timeout t | None => Timespec 0 0 end.

(** [hdl] comes before the first handle that expires strictly later. *)
Fixpoint insert_timer (ex : Z -> timespec) (hdl : Z) (l : list Z) : list Z :=
  match l with
  | [] => [hdl]
  | a :: l' =>
    if 0 <? _timespec_compare (ex a) (ex hdl) then hdl :: l else a :: insert_timer ex hdl l'
  end.

(** The number [_timer_list_add] returns: the position of [hdl], or one less
    when it is last in a list that was not empty. *)
Fixpoint add_index (ex : Z -> timespec) (hdl : Z) (l : list Z) : Z :=
  match l with
  | [] => 0
  | [a] => 0
  | a :: l' => if 0 <? _timespec_compare (ex a) (ex hdl) then 0 else 1 + add_index ex hdl l'
  end.

Lemma expiry_cores h h' a : cores h' = cores h -> expiry h' a = expiry h a.
Proof.
  intros Hc. apply (f_equal (.!! a)) in Hc. unfold cores in Hc.
  rewrite !lookup_fmap in Hc. unfold expiry.
  destruct (h' !! a) as [t'|], (h !! a) as [t|]; simpl in Hc; try done.
  injection Hc. by intros.
Qed.

Lemma add_index_ext ex ex' a l : (forall b, ex b = ex' b) -> add_index ex a l = add_index ex' a l.
Proof.
  intros Hex. induction l as [|b l IH]; [done|]. destruct l as [|b' l]; [done|].
  assert (Hstep : forall e, add_index e a (b :: b' :: l) =
    if 0 <? _timespec_compare (e b) (e a) then 0 else 1 + add_index e a (b' :: l)) by done.
  by rewrite !Hstep, IH, !Hex.
Qed.

Lemma list_add_from_spec l2 : forall fuel st l1 a hdl index,
  timer_list st (l1 ++ a :: l2) -> hdl ∉ l1 ++ a :: l2 -> is_Some (heap st !! hdl) ->
  (length l2 < fuel)%nat ->
  exists st', list_add_from fuel st (Some a) hdl index =
      Some (index + add_index (expiry (heap st)) hdl (a :: l2), st') /\
    timer_list st' (l1 ++ insert_timer (expiry (heap st)) hdl (a :: l2)) /\ same_rest st st'.
Proof.
  induction l2 as [|b l2 IH]; intros fuel st l1 a hdl index Hst Hnew Hsome Hf;
    (destruct fuel as [|fuel]; [simpl in Hf; lia|]);
    pose proof Hst as (_ & _ & Hd); apply dseg_app in Hd as [_ [(t & Ht & _ & Hn) _]];
    pose proof Hsome as [th Hth]; cbn [list_add_from]; rewrite Ht, Hth; cbn [mbind option_bind];
    (assert (Hext : abs_timeout t = expiry (heap st) a) by (unfold expiry; by rewrite Ht));
    (assert (Hexh : abs_timeout th = expiry (heap st) hdl) by (unfold expiry; by rewrite Hth));
    rewrite Hext, Hexh; cbn [insert_timer add_index];
    destruct (0 <? _timespec_compare (expiry (heap st) a) (expiry (heap st) hdl)).
  1,3: destruct (insert_before_spec st l1 a _ hdl Hst Hnew Hsome) as (st' & -> & Hl & Hr);
    cbn [mbind option_bind]; exists st'; rewrite Z.add_0_r; done.
  - rewrite Hn. simpl first. cbv iota.
    destruct (insert_after_spec st l1 a [] hdl Hst Hnew Hsome) as (st' & -> & Hl & Hr).
    cbn [mbind option_bind]. exists st'. by rewrite Z.add_0_r.
  - rewrite Hn. cbn [first].
    destruct (IH fuel st (l1 ++ [a]) b hdl (index + 1)) as (st' & -> & Hl & Hr);
      [by rewrite <- app_assoc|by rewrite <- app_assoc|done|simpl in Hf; lia|].
    exists st'. rewrite <- app_assoc in Hl. split; [|done]. do 2 f_equal. cbn [add_index]. lia.
Qed.

Lemma list_add_spec st l hdl : timer_list st l -> hdl ∉ l -> is_Some (heap st !! hdl) ->
  exists st', _timer_list_add st hdl = Some (add_index (expiry (heap st)) hdl l, st') /\
    timer_list st' (insert_timer (expiry (heap st)) hdl l) /\ same_rest st st'.
Proof.
  intros Hst Hnew Hsome. pose proof Hst as (Hnd & Hh & Hd). unfold _timer_list_add. rewrite Hh.
  destruct l as [|a l]; cbn [first].
  - destruct Hsome as [th Hth].
    destruct (new_links (heap st) hdl th None None Hth) as (h1 & h2 & -> & Hs2 & Hl & Hc & _).
    cbn [mbind option_bind]. rewrite Hs2. cbn [mbind option_bind]. eexists. split; [done|].
    split; [|done]. split; [by apply NoDup_singleton|]. split; [done|]. split; [|done].
    simpl. rewrite Hl. eexists. done.
  - destruct (list_add_from_spec l (size (heap st)) st [] a hdl 0 Hst Hnew Hsome)
      as (st' & -> & Hl & Hr); [|by exists st'].
    pose proof (dseg_dom _ _ _ _ Hd Hnd) as Hlen. simpl in Hlen. lia.
Qed.

(** ** Times *)

Definition time_of (ts : timespec) : Z := tv_sec ts * 1000000000 + tv_nsec ts.

(** The values the code computes: [tv_nsec] may also be [1000000000]. *)
Definition ts_ok (ts : timespec) : Prop := 0 <= tv_nsec ts <= 1000000000.

Lemma compare_pos a b : ts_ok a -> ts_ok b -> 0 < _timespec_compare a b -> time_of b <= time_of a.
Proof. unfold ts_ok, time_of, _timespec_compare. intros. bool_cases; lia. Qed.

Lemma compare_nonpos a b : ts_ok a -> ts_ok b -> _timespec_compare a b <= 0 -> time_of a <= time_of b.
Proof. unfold ts_ok, time_of, _timespec_compare. intros. bool_cases; lia. Qed.

Lemma compare_trans a b d : _timespec_compare a b <= 0 -> _timespec_compare b d <= 0 ->
  _timespec_compare a d <= 0.
Proof. unfold _timespec_compare. intros. bool_cases; lia. Qed.

Lemma compare_flip a b : _timespec_compare a b = - _timespec_compare b a.
Proof. unfold _timespec_compare. bool_cases; lia. Qed.

Lemma compare_range a b : -1 <= _timespec_compare a b <= 1.
Proof. unfold _timespec_compare. bool_cases; lia. Qed.

Lemma gettime_spec c : let '(now, c') := gettime c in
  time_of now = clock_now c /\ 0 <= tv_nsec now < 1000000000 /\ c' = (clock_read c).2.
Proof.
  unfold gettime, clock_read, time_of. simpl.
  pose proof (Z.mod_pos_bound (clock_now c) 1000000000). pose proof (Z.div_mod (clock_now c) 1000000000).
  split_and!; lia || done.
Qed.

(** Within 292 years the sum of the two times is exact. *)
Definition time_small (ns ms : Z) : Prop := 0 <= ns /\ 0 <= ms /\ ns + ms * 1000000 < 2 ^ 63.

Lemma add_abstimeout_spec now ms : 0 <= tv_nsec now < 1000000000 -> 0 <= tv_sec now ->
  time_small (time_of now) ms ->
  time_of (_timer_add_abstimeout now ms) = time_of now + ms * 1000000 /\
  ts_ok (_timer_add_abstimeout now ms) /\ 0 <= tv_sec (_timer_add_abstimeout now ms).
Proof.
  unfold time_small, time_of, _timer_add_abstimeout, ts_ok. intros Hn Hs (H1 & H2 & H3).
  pose proof (Z.div_mod ms 1000). pose proof (Z.mod_pos_bound ms 1000).
  rewrite !sint64_id by (unfold in_int64; lia).
  destruct (Z.ltb_spec 1000000000 (tv_nsec now + ms mod 1000 * 1000000)); simpl; lia.
Qed.

(** *** Sortedness *)

Definition sorted_by (ex : Z -> timespec) (l : list Z) : Prop :=
  StronglySorted (fun a b => _timespec_compare (ex a) (ex b) <= 0) l.

Lemma insert_timer_perm ex hdl l : insert_timer ex hdl l ≡ₚ hdl :: l.
Proof.
  induction l as [|a l IH]; simpl; [done|]. destruct (0 <? _); [done|]. rewrite IH. apply Permutation_swap.
Qed.

Lemma insert_timer_sorted ex hdl l : sorted_by ex l -> sorted_by ex (insert_timer ex hdl l).
Proof.
  induction 1 as [|a l Hs IH Hall]; simpl; [repeat constructor|].
  destruct (Z.ltb_spec 0 (_timespec_compare (ex a) (ex hdl))) as [Hlt|Hge].
  - pose proof (compare_flip (ex a) (ex hdl)). constructor; [by constructor|].
    constructor; [lia|]. eapply Forall_impl; [exact Hall|]. simpl. intros b Hb.
    eapply compare_trans; [|exact Hb]. lia.
  - constructor; [done|]. rewrite insert_timer_perm. constructor; [lia|done].
Qed.

(** A sorted list is split where the new handle goes, after every handle that
    expires no later. *)
Lemma insert_timer_split ex hdl l : sorted_by ex l ->
  exists l1 l2, l = l1 ++ l2 /\ insert_timer ex hdl l = l1 ++ hdl :: l2 /\
    Forall (fun a => _timespec_compare (ex a) (ex hdl) <= 0) l1 /\
    Forall (fun a => 0 < _timespec_compare (ex a) (ex hdl)) l2 /\
    add_index ex hdl l = match l2 with [] => Z.of_nat (length l1 - 1) | _ => Z.of_nat (length l1) end.
Proof.
  induction 1 as [|a l Hs (l1 & l2 & -> & Heq & H1 & H2 & Hidx) Hall].
  { exists [], []. repeat split; constructor. }
  cbn [insert_timer]. destruct (Z.ltb_spec 0 (_timespec_compare (ex a) (ex hdl))) as [Hlt|Hge].
  - exists [], (a :: l1 ++ l2). do 2 (split; [done|]). split; [constructor|]. split.
    + constructor; [done|]. eapply Forall_impl; [exact Hall|]. simpl. intros b Hb.
      destruct (Z.ltb_spec 0 (_timespec_compare (ex b) (ex hdl))) as [|Hn]; [done|].
      pose proof (compare_trans _ _ _ Hb Hn). lia.
    + cbn [add_index]. destruct (Z.ltb_spec 0 (_timespec_compare (ex a) (ex hdl))); [|lia].
      by destruct (l1 ++ l2).
  - exists (a :: l1), l2. do 2 (split; [by simpl; f_equal|]). split; [by constructor|]. split; [done|].
    cbn [add_index]. destruct (Z.ltb_spec 0 (_timespec_compare (ex a) (ex hdl))); [lia|].
    destruct (l1 ++ l2) as [|x rest] eqn:Hcase.
    + apply app_eq_nil in Hcase as [-> ->]. done.
    + rewrite Hidx. destruct l2; simpl; [|lia]. destruct l1; [done|]. simpl. lia.
Qed.

Lemma insert_timer_ext ex ex' hdl l : (forall a, a ∈ hdl :: l -> ex a = ex' a) ->
  insert_timer ex hdl l = insert_timer ex' hdl l.
Proof.
  intros Hex.
  induction l as [|a l IH]; simpl; [done|].
  rewrite (Hex a), (Hex hdl) by set_solver. rewrite IH by (intros; apply Hex; set_solver). done.
Qed.

Lemma sorted_by_ext ex ex' l : (forall a, a ∈ l -> ex a = ex' a) -> sorted_by ex l -> sorted_by ex' l.
Proof.
  intros Hex Hs. induction Hs as [|a l Hs IH Hall]; [constructor|].
  constructor; [apply IH; intros; apply Hex; by right|].
  apply Forall_forall. intros b Hb. rewrite <- (Hex a), <- (Hex b) by (by left || by right).
  by apply (proj1 (Forall_forall _ _) Hall).
Qed.

(** ** One pass of the timer thread *)

Definition restarts (t : timer_handle_struct) : bool :=
  (int32 (timeout_count t + 1) <? t_repeat t) || (t_repeat t <? 0).

(** A handle after it fired at time [now]. *)
Definition fired_handle (now : timespec) (t : timer_handle_struct) : timer_handle_struct :=
  let t1 := with_count t (int32 (timeout_count t + 1)) in
  if restarts t then with_timeout t1 (_timer_add_abstimeout now (timeout_ms t))
  else with_status t1 TIMER_STOP.

(** The pass over the due handles [due], with the later ones [later]: the
    running ones fire in order; those that repeat take their place among the
    later ones. *)
Fixpoint timer_pass (now : timespec) (h : timer_heap) (due later : list Z)
    : timer_heap * list Z * list (Z * option Z) :=
  match due with
  | [] => (h, later, [])
  | a :: due' =>
    match h !! a with
    | Some t =>
      match status t with
      | TIMER_RUNNING =>
        let h' := <[a := fired_handle now t]> h in
        let later' := if restarts t then insert_timer (expiry h') a later else later in
        let '(h2, l2, ev) := timer_pass now h' due' later' in
        (h2, l2, (match cb t with Some f => [(f, userdata t)] | None => [] end) ++ ev)
      | _ => timer_pass now h due' later
      end
    | None => (h, later, [])
    end
  end.

Definition is_due (now : timespec) (h : timer_heap) (a : Z) : Prop :=
  0 <= _timespec_compare now (expiry h a).

Lemma expiry_core h a : expiry (cores h) a = expiry h a.
Proof. unfold expiry, cores. rewrite lookup_fmap. by destruct (h !! a). Qed.

Lemma cores_insert h a t : cores (<[a := t]> h) = <[a := core t]> (cores h).
Proof. apply fmap_insert. Qed.

Lemma core_fired now t : core (fired_handle now t) = fired_handle now (core t).
Proof. unfold fired_handle, restarts. simpl. by destruct (_ || _). Qed.

(** Handles a caller can have made: a positive interval, and times within the
    range of the clock. *)
Definition interval_ok (now : timespec) (h : timer_heap) (a : Z) : Prop :=
  forall t, h !! a = Some t -> 0 < timeout_ms t /\ time_small (time_of now) (timeout_ms t).

Definition now_ok (now : timespec) : Prop := 0 <= tv_nsec now < 1000000000 /\ 0 <= tv_sec now.

Lemma restart_not_due now ms : now_ok now -> 0 < ms -> time_small (time_of now) ms ->
  _timespec_compare now (_timer_add_abstimeout now ms) < 0.
Proof.
  intros [Hn Hs] Hms Hsm. destruct (add_abstimeout_spec now ms Hn Hs Hsm) as (Ht & Hok & _).
  destruct (Z.ltb_spec (_timespec_compare now (_timer_add_abstimeout now ms)) 0) as [|Hge]; [done|].
  pose proof (compare_flip now (_timer_add_abstimeout now ms)) as Hf.
  pose proof (compare_nonpos (_timer_add_abstimeout now ms) now Hok) as Hc. unfold ts_ok in Hc.
  specialize (Hc ltac:(lia) ltac:(lia)). lia.
Qed.

(** A handle that is not due goes after all that are. *)
Lemma insert_past_due ex now hdl due later : _timespec_compare now (ex hdl) < 0 ->
  Forall (fun b => 0 <= _timespec_compare now (ex b)) due ->
  insert_timer ex hdl (due ++ later) = due ++ insert_timer ex hdl later.
Proof.
  intros Hnd. induction 1 as [|b due Hb _ IH]; [done|]. simpl.
  pose proof (compare_flip now (ex b)).
  pose proof (compare_trans (ex b) now (ex hdl) ltac:(lia) ltac:(lia)).
  destruct (Z.ltb_spec 0 (_timespec_compare (ex b) (ex hdl))); [lia|]. by f_equal.
Qed.

(** The firing of the first handle of the list. *)
Lemma fire_timer_spec st now a due later t :
  timer_list st (a :: due ++ later) -> heap st !! a = Some t -> now_ok now ->
  interval_ok now (heap st) a ->
  Forall (is_due now (heap st)) due ->
  exists st', fire_timer st now a = Some st' /\
    timer_list st' (if restarts t
      then due ++ insert_timer (expiry (<[a := fired_handle now t]> (heap st))) a later else due ++ later) /\
    cores (heap st') = cores (<[a := fired_handle now t]> (heap st)) /\
    fired st' = (match cb t with Some f => [(f, userdata t)] | None => [] end) ++ fired st /\
    g_ctrl_fd st' = g_ctrl_fd st /\ signals st' = signals st /\ freed st' = freed st.
Proof.
  intros Hst Ht Hnow Hint Hdue. unfold fire_timer. rewrite Ht. cbn [mbind option_bind].
  set (st1 := match cb t with Some f => _ | None => st end).
  assert (Hst1 : heap st1 = heap st /\ g_timer_list_head st1 = g_timer_list_head st /\
    g_ctrl_fd st1 = g_ctrl_fd st /\ signals st1 = signals st /\ freed st1 = freed st /\
    fired st1 = (match cb t with Some f => [(f, userdata t)] | None => [] end) ++ fired st)
    by (unfold st1; by destruct (cb t)).
  destruct Hst1 as (Eh & Ehd & Ec & Es & Ef & Efi). rewrite Eh. clearbody st1.
  set (t1 := with_count t (int32 (timeout_count t + 1))).
  set (sta := on_heap st1 (<[a := t1]> (heap st))).
  assert (Hsta : timer_list sta ([] ++ a :: due ++ later)).
  { destruct Hst as (Hnd & Hh & Hd). split; [done|]. simpl. rewrite Ehd. split; [done|].
    by apply (dseg_same_links _ _ t t1 _ _ Ht eq_refl eq_refl None) in Hd. }
  destruct (remove_spec sta [] a (due ++ later) Hsta) as (st2 & -> & Hl2 & (Hc2 & Hr2 & Hr3 & Hr4 & Hr5) & Ha2).
  cbn [mbind option_bind after_remove] in *.
  assert (Ha2' : exists u, heap st2 !! a = Some u /\ core u = core t1).
  { rewrite Ha2. simpl. rewrite lookup_insert_eq. by exists t1. }
  destruct Ha2' as (u & Hu & Hcu).
  assert (Hnota : a ∉ due ++ later) by (destruct Hst as (Hnd & _); by apply NoDup_cons in Hnd as [? _]).
  change ((timeout_count t1 <? t_repeat t1) || (t_repeat t1 <? 0)) with (restarts t).
  assert (Hupd : forall f h', upd (heap st2) a f = Some h' -> prev (f u) = prev u -> next (f u) = next u ->
    core (f u) = core (fired_handle now t) ->
    timer_list (on_heap st2 h') (due ++ later) /\ cores h' = cores (<[a := fired_handle now t]> (heap st)) /\
    is_Some (h' !! a)).
  { intros f h' Hf Hp Hn Hcf. unfold upd in Hf. rewrite Hu in Hf. injection Hf as <-.
    destruct Hl2 as (Hnd2 & Hh2 & Hd2). split; [|split].
    - split; [done|]. split; [done|]. by apply dseg_frame.
    - rewrite !cores_insert, Hcf, Hc2. simpl. by rewrite cores_insert, insert_insert_eq.
    - rewrite lookup_insert_eq. by eexists. }
  destruct (restarts t) eqn:Hre.
  - destruct (upd (heap st2) a (fun t => with_timeout t (_timer_add_abstimeout now (timeout_ms t)))) as [h'|] eqn:Hf;
      [|unfold upd in Hf; by rewrite Hu in Hf].
    destruct (Hupd _ _ Hf eq_refl eq_refl) as (Hl3 & Hc3 & Hs3).
    { rewrite core_fired. unfold fired_handle. change (restarts (core t)) with (restarts t). rewrite Hre.
      assert (timeout_ms u = timeout_ms t) as ->
        by (by apply (f_equal timeout_ms) in Hcu). 
      transitivity (with_timeout (core u) (_timer_add_abstimeout now (timeout_ms t))); [done|]. by rewrite Hcu. }
    cbn [mbind option_bind].
    destruct (list_add_spec _ _ a Hl3 Hnota Hs3) as (st3 & -> & Hl4 & (Hc4 & ? & ? & ? & ?)).
    cbn [mbind option_bind]. exists st3. split; [done|].
    assert (Hins : insert_timer (expiry h') a (due ++ later) =
      due ++ insert_timer (expiry (<[a := fired_handle now t]> (heap st))) a later).
    { rewrite (insert_timer_ext _ (expiry (<[a := fired_handle now t]> (heap st))))
        by (intros; by apply expiry_cores).
      apply (insert_past_due _ now).
      - unfold expiry. rewrite lookup_insert_eq. unfold fired_handle. rewrite Hre.
        by apply restart_not_due; try apply (Hint t Ht).
      - apply Forall_forall. intros b Hb. apply (proj1 (Forall_forall _ _) Hdue) in Hb as Hb'.
        unfold expiry, is_due in *. rewrite lookup_insert_ne; [done|]. set_solver. }
    simpl heap in *. rewrite Hins in Hl4. split; [done|]. split; [by rewrite Hc4|].
    simpl in *. split_and!; congruence.
  - destruct (upd (heap st2) a (fun t => with_status t TIMER_STOP)) as [h'|] eqn:Hf;
      [|unfold upd in Hf; by rewrite Hu in Hf].
    destruct (Hupd _ _ Hf eq_refl eq_refl) as (Hl3 & Hc3 & Hs3).
    { rewrite core_fired. unfold fired_handle. change (restarts (core t)) with (restarts t). rewrite Hre.
      transitivity (with_status (core u) TIMER_STOP); [done|]. by rewrite Hcu. }
    cbn [mbind option_bind]. eexists. split; [done|]. split; [done|]. split; [done|].
    simpl in *. split_and!; congruence.
Qed.

Lemma is_due_cores now h h' a : cores h' = cores h -> is_due now h a -> is_due now h' a.
Proof. unfold is_due. intros Hc. by rewrite (expiry_cores _ _ a Hc). Qed.

Lemma interval_cores now h h' a : cores h' = cores h -> interval_ok now h a -> interval_ok now h' a.
Proof.
  unfold interval_ok. intros Hc Hint t Ht. apply (f_equal (.!! a)) in Hc. unfold cores in Hc.
  rewrite !lookup_fmap, Ht in Hc. simpl in Hc. destruct (h !! a) as [u|]; [|done]. simpl in Hc.
  injection Hc as _ _ -> _ _ _. by apply Hint.
Qed.

(** What the rest of the pass needs is not disturbed by firing [a]. *)
Lemma fired_frame now h h' a t due : cores h' = cores (<[a := fired_handle now t]> h) -> a ∉ due ->
  Forall (is_due now h) due -> Forall (interval_ok now h) due ->
  Forall (is_due now h') due /\ Forall (interval_ok now h') due.
Proof.
  intros Hc Ha Hd Hi. split; apply Forall_forall; intros b Hb.
  - apply (is_due_cores _ _ _ _ Hc). unfold is_due, expiry.
    rewrite lookup_insert_ne by set_solver. by apply (proj1 (Forall_forall _ _) Hd).
  - apply (interval_cores _ _ _ _ Hc). unfold interval_ok.
    rewrite lookup_insert_ne by set_solver. by apply (proj1 (Forall_forall _ _) Hi).
Qed.

Definition not_due (now : timespec) (h : timer_heap) (a : Z) : Prop :=
  _timespec_compare now (expiry h a) < 0.

Lemma insert_timer_in ex hdl l a : a ∈ insert_timer ex hdl l <-> a = hdl \/ a ∈ l.
Proof. rewrite insert_timer_perm. apply elem_of_cons. Qed.

(** The loop from its first due handle: it ends within one step per due
    handle and one more, and does what [timer_pass] does. *)
Lemma loop_from_spec due : forall fuel st now later x,
  timer_list st (due ++ later) -> now_ok now ->
  Forall (is_due now (heap st)) due -> Forall (not_due now (heap st)) later ->
  Forall (interval_ok now (heap st)) due ->
  (forall b, x = Some b -> b ∈ later) -> (length due < fuel)%nat ->
  exists st', loop_from fuel st now (first due x) = Some st' /\
    let '(h, l, ev) := timer_pass now (cores (heap st)) due later in
    timer_list st' l /\ cores (heap st') = h /\ fired st' = rev ev ++ fired st /\
    g_ctrl_fd st' = g_ctrl_fd st /\ signals st' = signals st /\ freed st' = freed st.
Proof.
  induction due as [|a due IH]; intros fuel st now later x Hst Hnow Hdue Hlater Hint Hx Hf.
  - simpl. exists st. split; [|done]. destruct fuel as [|fuel]; [simpl in Hf; lia|].
    destruct x as [b|]; [|done]. specialize (Hx b eq_refl). cbn [loop_from].
    destruct (dseg_lookup _ _ _ _ b (proj2 (proj2 Hst)) Hx) as [t Ht]. rewrite Ht. simpl.
    apply (proj1 (Forall_forall _ _) Hlater) in Hx. unfold not_due, expiry in Hx. rewrite Ht in Hx.
    by destruct (Z.ltb_spec (_timespec_compare now (abs_timeout t)) 0); [|lia].
  - destruct fuel as [|fuel]; [simpl in Hf; lia|]. simpl in Hf.
    apply Forall_cons in Hdue as [Ha Hdue]. apply Forall_cons in Hint as [Hia Hint].
    pose proof Hst as (Hnd & _ & [(t & Ht & Hp & Hn) _]).
    apply NoDup_cons in Hnd as [Hna _]. cbn [first loop_from timer_pass]. rewrite Ht.
    cbn [mbind option_bind]. rewrite (cores_lookup _ _ _ Ht).
    unfold is_due, expiry in Ha. rewrite Ht in Ha.
    destruct (Z.ltb_spec (_timespec_compare now (abs_timeout t)) 0); [lia|].
    rewrite Hn. fold (app due later). rewrite first_app.
    assert (Hskip : exists st1, _timer_list_remove st a = Some st1 /\ timer_list st1 (due ++ later) /\ same_rest st st1).
    { destruct (remove_spec st [] a _ Hst) as (st1 & H1 & H2 & H3 & _). by exists st1. }
    change (status (core t)) with (status t). destruct (status t).
    1,3: destruct Hskip as (st1 & -> & Hl1 & (Hc1 & Hr1 & Hr2 & Hr3 & Hr4)); cbn [mbind option_bind];
      destruct (IH fuel st1 now later (first later None)) as (st' & -> & Hres);
      [done|done|by eapply Forall_impl; [exact Hdue|]; intros; eapply is_due_cores
      |eapply Forall_impl; [exact Hlater|]; intros b; unfold not_due; by rewrite (expiry_cores _ _ b Hc1)
      |by eapply Forall_impl; [exact Hint|]; intros; eapply interval_cores
      |intros b Hb; destruct later; [done|]; injection Hb as ->; left
      |lia|];
      exists st'; split; [done|]; rewrite Hc1 in Hres;
      destruct (timer_pass now (cores (heap st)) due later) as [[h l] ev];
      destruct Hres as (? & ? & ? & ? & ? & ?); split_and!; congruence || done.
    destruct (fire_timer_spec st now a due later t Hst Ht Hnow Hia Hdue)
      as (st1 & -> & Hl1 & Hc1 & Hf1 & Hr1 & Hr2 & Hr3). cbn [mbind option_bind].
    change (restarts (core t)) with (restarts t). rewrite <- core_fired, <- cores_insert.
    rewrite (insert_timer_ext (expiry (cores _)) (expiry (<[a := fired_handle now t]> (heap st))))
      by (intros; apply expiry_core).
    set (later' := if restarts t then _ else later).
    assert (Hl1' : timer_list st1 (due ++ later')) by (unfold later'; by destruct (restarts t)).
    destruct (fired_frame now (heap st) (heap st1) a t due Hc1 ltac:(set_solver) Hdue Hint) as [Hdue1 Hint1].
    assert (Hlater1 : Forall (not_due now (heap st1)) later').
    { apply Forall_forall. intros b Hb. unfold not_due. rewrite (expiry_cores _ _ b Hc1). unfold expiry.
      assert (Hcase : (b = a /\ restarts t = true) \/ b ∈ later).
      { unfold later' in Hb. destruct (restarts t); [|by right].
        apply insert_timer_in in Hb as [->|Hb]; [by left|by right]. }
      destruct Hcase as [[-> Hre]|Hb'].
      - rewrite lookup_insert_eq. unfold fired_handle. rewrite Hre.
        by apply restart_not_due; try apply (Hia t Ht).
      - rewrite lookup_insert_ne by (intros ->; apply Hna, elem_of_app; by right).
        by apply (proj1 (Forall_forall _ _) Hlater) in Hb'. }
    destruct (IH fuel st1 now later' (first later None)) as (st' & -> & Hres); try done; [|lia|].
    { intros b Hb. unfold later'. destruct later as [|y later]; [done|]. injection Hb as ->.
      destruct (restarts t); [apply insert_timer_in; right; left|left]. }
    exists st'. split; [done|]. rewrite Hc1 in Hres.
    destruct (timer_pass now _ due later') as [[h l] ev].
    destruct Hres as (Hl & Hh & Hfi & ? & ? & ?). split; [done|]. split; [done|].
    split; [|split_and!; congruence]. rewrite Hfi, Hf1. simpl.
    destruct (cb t); simpl; [|done]. by rewrite <- app_assoc.
Qed.

(** *** What a pass amounts to *)

Definition is_running (t : timer_handle_struct) : bool :=
  match status t with TIMER_RUNNING => true | _ => false end.

Definition after_pass (now : timespec) (t : timer_handle_struct) : timer_handle_struct :=
  if is_running t then fired_handle now t else t.

Definition callback_of (h : timer_heap) (a : Z) : option (Z * option Z) :=
  t ← h !! a; if is_running t then (fun f => (f, userdata t)) <$> cb t else None.

Definition rearmed (h : timer_heap) (a : Z) : bool :=
  match h !! a with Some t => is_running t && restarts t | None => false end.

Lemma timer_pass_spec now due : forall h later, NoDup (due ++ later) ->
  (forall a, a ∈ due -> is_Some (h !! a)) -> sorted_by (expiry h) later ->
  let '(h', l', ev) := timer_pass now h due later in
  ev = omap (callback_of h) due /\
  (forall a, h' !! a = if decide (a ∈ due) then after_pass now <$> h !! a else h !! a) /\
  l' ≡ₚ List.filter (rearmed h) due ++ later /\ sorted_by (expiry h') l'.
Proof.
  induction due as [|a due IH]; intros h later Hnd Hdom Hs; cbn [timer_pass].
  { split; [done|]. split; [intros a; by rewrite decide_False by set_solver|]. done. }
  csimpl. unfold callback_of at 1, rearmed at 1.
  destruct (Hdom a) as [t Ht]; [left|]. rewrite Ht. cbn [mbind option_bind].
  pose proof Hnd as [Ha Hnd']%NoDup_cons.
  assert (Hdom' : forall t', forall b, b ∈ due -> is_Some (<[a := t']> h !! b)).
  { intros t' b Hb. rewrite lookup_insert_ne by set_solver. apply Hdom. by right. }
  assert (Hskip : is_running t = false ->
    let '(h', l', ev) := timer_pass now h due later in
    ev = omap (callback_of h) due /\
    (forall b, h' !! b = if decide (b ∈ a :: due) then after_pass now <$> h !! b else h !! b) /\
    l' ≡ₚ List.filter (rearmed h) due ++ later /\ sorted_by (expiry h') l').
  { intros Hr. specialize (IH h later Hnd' ltac:(set_solver) Hs).
    destruct (timer_pass now h due later) as [[h' l'] ev]. destruct IH as (-> & Hl & Hp & Hs').
    split; [done|]. split; [|done]. intros b. rewrite Hl. destruct (decide (b = a)) as [->|Hba].
    - rewrite decide_False by set_solver. rewrite decide_True by (left). rewrite Ht. simpl.
      unfold after_pass. by rewrite Hr.
    - destruct (decide (b ∈ due)); [by rewrite decide_True by (by right)|by rewrite decide_False by set_solver]. }
  assert (Hr : is_running t = match status t with TIMER_RUNNING => true | _ => false end) by done.
  rewrite Hr. destruct (status t) eqn:Hst; [by apply Hskip| |by apply Hskip]. cbn [andb].
  set (h1 := <[a := fired_handle now t]> h).
  set (later1 := if restarts t then insert_timer (expiry h1) a later else later).
  assert (Hex : forall b, b ∈ later -> expiry h b = expiry h1 b).
  { intros b Hb. unfold expiry, h1. rewrite lookup_insert_ne; [done|]. intros ->. apply Ha. set_solver. }
  assert (Hs1 : sorted_by (expiry h1) later1).
  { unfold later1. apply (sorted_by_ext _ _ _ Hex) in Hs. destruct (restarts t); [|done].
    by apply insert_timer_sorted. }
  assert (Hp1 : later1 ≡ₚ (if restarts t then [a] else []) ++ later).
  { unfold later1. destruct (restarts t); [apply insert_timer_perm|done]. }
  assert (Hnd1 : NoDup (due ++ later1)).
  { rewrite Hp1. destruct (restarts t); [|done]. simpl. rewrite <- Permutation_middle. done. }
  specialize (IH h1 later1 Hnd1 (Hdom' _) Hs1).
  destruct (timer_pass now h1 due later1) as [[h' l'] ev]. destruct IH as (-> & Hl & Hp & Hs').
  assert (Hout : forall b, b ∈ due -> h1 !! b = h !! b).
  { intros b Hb. unfold h1. rewrite lookup_insert_ne; [done|]. set_solver. }
  split; [|split; [|split; [|done]]].
  - assert (omap (callback_of h1) due = omap (callback_of h) due) as ->.
    { assert (Hcb : forall b, b ∈ due -> callback_of h1 b = callback_of h b)
        by (intros b Hb; unfold callback_of; by rewrite (Hout b Hb)).
      clear -Hcb. induction due as [|b due IH]; csimpl; [done|].
      rewrite (Hcb b) by (left). rewrite IH by (intros; apply Hcb; by right). done. }
    by destruct (cb t).
  - intros b. rewrite Hl. destruct (decide (b = a)) as [->|Hba].
    + rewrite decide_False by set_solver. rewrite decide_True by (left). unfold h1.
      rewrite lookup_insert_eq, Ht. simpl. unfold after_pass, is_running. by rewrite Hst.
    + unfold h1. rewrite lookup_insert_ne by done.
      destruct (decide (b ∈ due)); [by rewrite decide_True by (by right)|by rewrite decide_False by set_solver].
  - rewrite Hp, Hp1. simpl.
    assert (List.filter (rearmed h1) due = List.filter (rearmed h) due) as ->.
    { apply List.filter_ext_in. intros b Hb. unfold rearmed. rewrite Hout; [done|]. by apply list_elem_of_In. }
    destruct (restarts t); simpl; [|done]. by rewrite <- Permutation_middle.
Qed.

Lemma split_due now h l : sorted_by (expiry h) l ->
  exists due later, l = due ++ later /\ Forall (is_due now h) due /\ Forall (not_due now h) later.
Proof.
  induction 1 as [|a l Hs (due & later & -> & Hd & Hl) Hall].
  { exists [], []. repeat split; constructor. }
  destruct (Z.leb_spec 0 (_timespec_compare now (expiry h a))) as [Hge|Hlt].
  - exists (a :: due), later. repeat split; [by constructor|done].
  - exists [], (a :: due ++ later). split; [done|]. split; [constructor|]. constructor; [done|].
    eapply Forall_impl; [exact Hall|]. simpl. intros b Hb. unfold not_due.
    pose proof (compare_flip now (expiry h a)). pose proof (compare_flip now (expiry h b)).
    destruct (Z.ltb_spec (_timespec_compare now (expiry h b)) 0); [done|].
    pose proof (compare_trans (expiry h a) (expiry h b) now Hb ltac:(lia)). lia.
Qed.

(** The invariant of the timer list: it is a well-formed list, sorted by
    expiry, of handles made by [p_timer_add]. *)
Definition timer_inv (st : timer_state) (l : list Z) : Prop :=
  timer_list st l /\ sorted_by (expiry (heap st)) l.

(** ** Starting and stopping *)

Definition started (ts : timespec) (t : timer_handle_struct) : timer_handle_struct :=
  with_status (with_count (with_timeout t ts) 0) TIMER_RUNNING.

Lemma timer_list_data st l a t t' : timer_list st l -> heap st !! a = Some t ->
  prev t' = prev t -> next t' = next t -> timer_list (on_heap st (<[a := t']> (heap st))) l.
Proof.
  intros (Hnd & Hh & Hd) Ht Hp Hn. split; [done|]. split; [done|].
  by apply (dseg_same_links _ _ t t').
Qed.

Lemma sorted_by_sub ex (l1 l2 l3 : list Z) : sorted_by ex (l1 ++ l2 ++ l3) -> sorted_by ex (l1 ++ l3).
Proof.
  intros Hs. induction l1 as [|a l1 IH]; simpl in *.
  - induction l2 as [|b l2 IH]; [done|]. apply IH. by inversion Hs.
  - inversion Hs as [|? ? Hs' Hall]; subst. constructor; [by apply IH|].
    rewrite !Forall_app in *. naive_solver.
Qed.

Lemma after_remove_sub ex l1 a l2 : sorted_by ex (l1 ++ a :: l2) -> sorted_by ex (after_remove l1 l2).
Proof.
  intros Hs. destruct l1 as [|b l1]; [by inversion Hs|]. cbn [after_remove].
  pose proof (sorted_by_sub ex (b :: l1) (a :: l2) []) as H. rewrite !app_nil_r in H. by apply H.
Qed.

(** The list without [a], as the code computes it. *)
Definition unlisted (a : Z) (l l' : list Z) : Prop :=
  ((a ∉ l) /\ l' = l) \/ exists l1 l2, l = l1 ++ a :: l2 /\ l' = after_remove l1 l2.

Lemma unlisted_sub a l l' : NoDup l -> unlisted a l l' -> (a ∉ l') /\ (forall b, b ∈ l' -> b ∈ l) /\
  forall ex, sorted_by ex l -> sorted_by ex l'.
Proof.
  intros Hnd [[Ha ->]|(l1 & l2 & -> & ->)]; [done|].
  apply NoDup_app in Hnd as (_ & Hx & [Ha _]%NoDup_cons). split; [|split].
  - destruct l1 as [|b l1]; [done|]. cbn [after_remove]. intros Hin. apply (Hx a Hin). left.
  - intros b Hb. destruct l1; cbn [after_remove] in Hb; set_solver.
  - intros ex. apply after_remove_sub.
Qed.

(** The removal both operations start with. *)
Lemma unlist_spec st l a : timer_list st l -> is_Some (heap st !! a) ->
  exists st' l', (listed ← _timer_is_inlist st a;
      if (listed : bool) then _timer_list_remove st a else Some st) = Some st' /\
    timer_list st' l' /\ same_rest st st' /\ unlisted a l l'.
Proof.
  intros Hst Ha. rewrite (is_inlist_spec _ _ _ Hst). cbn [mbind option_bind].
  case_bool_decide as Hin.
  - apply list_elem_of_split in Hin as (l1 & l2 & ->).
    destruct (remove_spec st l1 a l2 Hst) as (st' & -> & Hl & Hr & _).
    exists st', (after_remove l1 l2). do 3 (split; [done|]). right. by exists l1, l2.
  - exists st, l. do 2 (split; [done|]). split; [done|]. by left.
Qed.

Lemma start_spec st l a t c : timer_inv st l -> heap st !! a = Some t ->
  let '(ts, c') := _timer_set_abstimeout (timeout_ms t) c in
  exists st' l0 l', p_timer_start st (Some a) c = Some (0, st', c') /\
    unlisted a l l0 /\ timer_inv st' l' /\ l' = insert_timer (expiry (heap st')) a l0 /\
    cores (heap st') = <[a := started ts (core t)]> (cores (heap st)) /\
    fired st' = fired st /\ freed st' = freed st /\ g_ctrl_fd st' = g_ctrl_fd st /\
    signals st' = (if (add_index (expiry (heap st')) a l0 =? 0) && (0 <? g_ctrl_fd st)
                   then S (signals st) else signals st).
Proof.
  intros [Hst Hs] Ht. destruct (_timer_set_abstimeout (timeout_ms t) c) as [ts c'] eqn:Hts.
  unfold p_timer_start. rewrite Ht. cbn [mbind option_bind]. rewrite Hts.
  set (t1 := with_status _ _). set (st1 := on_heap st _).
  assert (Hst1 : timer_list st1 l) by (by apply (timer_list_data st l a t t1)).
  destruct (unlist_spec st1 l a Hst1) as (st2 & l0 & Hun & Hst2 & Hr2 & Hl0);
    [simpl; rewrite lookup_insert_eq; by eexists|].
  destruct (_timer_is_inlist st1 a) as [listed|]; [|done]. cbn [mbind option_bind] in Hun |- *.
  rewrite Hun. cbn [mbind option_bind].
  pose proof Hst as (Hnd & _). destruct (unlisted_sub a l l0 Hnd Hl0) as (Ha0 & _ & Hsort0).
  pose proof Hr2 as (Hc2 & Hr2').
  assert (Hc2' : cores (heap st2) = <[a := started ts (core t)]> (cores (heap st)))
    by (rewrite Hc2; apply cores_insert).
  destruct (list_add_spec st2 l0 a Hst2 Ha0) as (st3 & -> & Hst3 & Hr3).
  { apply (cores_is_some (heap st1)); [done|]. simpl. rewrite lookup_insert_eq. by eexists. }
  cbn [mbind option_bind].
  assert (Hex3 : forall b, expiry (heap st2) b = expiry (heap st3) b)
    by (intros b; symmetry; by apply expiry_cores, Hr3).
  rewrite (insert_timer_ext _ (expiry (heap st3))) in Hst3 by (intros; apply Hex3).
  set (st4 := if _ =? 0 then _ else st3).
  assert (Hst4 : heap st4 = heap st3 /\ g_timer_list_head st4 = g_timer_list_head st3 /\
    fired st4 = fired st3 /\ freed st4 = freed st3 /\ g_ctrl_fd st4 = g_ctrl_fd st3).
  { unfold st4, _timer_post_timeout_signal. destruct (_ =? 0); [|done]. by destruct (0 <? g_ctrl_fd st3). }
  destruct Hst4 as (Eh & Ehd & Efi & Efr & Ec).
  exists st4, l0, (insert_timer (expiry (heap st3)) a l0). rewrite Eh, Efi, Efr, Ec.
  destruct Hr2' as (Hr21 & Hr22 & Hr23 & Hr24). destruct Hr3 as (Hc3 & Hr31 & Hr32 & Hr33 & Hr34).
  simpl in *. do 2 (split; [done|]). split; [|split; [done|split; [by rewrite Hc3|]]].
  - split.
    + destruct Hst3 as (Hnd3 & Hh3 & Hd3). split; [done|]. by rewrite Ehd, Eh.
    + rewrite Eh. apply insert_timer_sorted. apply (sorted_by_ext (expiry (heap st))); [|by apply Hsort0].
      intros b Hb. rewrite <- Hex3. rewrite <- (expiry_core (heap st2)), Hc2', <- (expiry_core (heap st)).
      unfold expiry. rewrite lookup_insert_ne; [done|]. intros ->. done.
  - split_and!; try congruence.
    assert (Hidx : add_index (expiry (heap st2)) a l0 = add_index (expiry (heap st3)) a l0)
      by (by apply add_index_ext).
    unfold st4. rewrite Hidx. destruct (add_index (expiry (heap st3)) a l0 =? 0); simpl; [|congruence].
    unfold _timer_post_timeout_signal. rewrite Hr31, Hr21. destruct (0 <? g_ctrl_fd st); simpl; congruence.
Qed.

Lemma stop_spec st l a t : timer_inv st l -> heap st !! a = Some t ->
  exists st' l', p_timer_stop st (Some a) = Some (0, st') /\ unlisted a l l' /\ timer_inv st' l' /\
    cores (heap st') = <[a := with_status (core t) TIMER_STOP]> (cores (heap st)) /\
    fired st' = fired st /\ freed st' = freed st /\ signals st' = signals st /\ g_ctrl_fd st' = g_ctrl_fd st.
Proof.
  intros [Hst Hs] Ht. unfold p_timer_stop, upd. rewrite Ht. cbn [mbind option_bind].
  set (st1 := on_heap st _).
  assert (Hst1 : timer_list st1 l) by (by apply (timer_list_data st l a t)).
  destruct (unlist_spec st1 l a Hst1) as (st2 & l0 & Hun & Hst2 & Hr2 & Hl0);
    [simpl; rewrite lookup_insert_eq; by eexists|].
  destruct (_timer_is_inlist st1 a) as [listed|]; [|done]. cbn [mbind option_bind] in Hun |- *.
  rewrite Hun. cbn [mbind option_bind].
  pose proof Hst as (Hnd & _). destruct (unlisted_sub a l l0 Hnd Hl0) as (Ha0 & _ & Hsort0).
  destruct Hr2 as (Hc2 & Hr21 & Hr22 & Hr23 & Hr24).
  exists st2, l0. do 2 (split; [done|]). split; [split; [done|]|].
  - apply (sorted_by_ext (expiry (heap st))); [|by apply Hsort0]. intros b Hb.
    rewrite <- (expiry_core (heap st2)), Hc2, <- (expiry_core (heap st)). simpl.
    rewrite cores_insert. unfold expiry. rewrite lookup_insert_ne; [done|]. intros ->. done.
  - rewrite Hc2. simpl. by rewrite cores_insert.
Qed.

Lemma loop_once_spec st l c :
  timer_inv st l -> 0 <= clock_now c ->
  (forall a, a ∈ l -> interval_ok (gettime c).1 (heap st) a) ->
  let now := (gettime c).1 in
  exists due later st' l' c', l = due ++ later /\
    Forall (is_due now (heap st)) due /\ Forall (not_due now (heap st)) later /\
    p_timer_loop_once st c = Some (st', c') /\
    rev (fired st') = rev (fired st) ++ omap (callback_of (heap st)) due /\
    (forall a, cores (heap st') !! a =
      if decide (a ∈ due) then after_pass now <$> cores (heap st) !! a else cores (heap st) !! a) /\
    timer_inv st' l' /\ l' ≡ₚ List.filter (rearmed (heap st)) due ++ later.
Proof.
  intros [Hst Hs] Hc Hint now.
  destruct (split_due now (heap st) l Hs) as (due & later & -> & Hdue & Hlater).
  exists due, later. pose proof Hst as (Hnd & Hh & Hd).
  assert (Hnow : now_ok now).
  { pose proof (gettime_spec c) as Hg. unfold now. destruct (gettime c) as [n c'] eqn:Hgt. simpl.
    unfold gettime in Hgt. simpl in Hgt. injection Hgt as <- _. split; [apply Hg|].
    apply Z.div_pos; simpl; lia. }
  assert (Hcore : forall h due, omap (callback_of (cores h)) due = omap (callback_of h) due /\
    List.filter (rearmed (cores h)) due = List.filter (rearmed h) due).
  { intros h ds. assert (forall a, callback_of (cores h) a = callback_of h a /\ rearmed (cores h) a = rearmed h a).
    { intros a. unfold callback_of, rearmed, cores. rewrite lookup_fmap. by destruct (h !! a). }
    split; [|apply List.filter_ext; naive_solver].
    induction ds as [|a ds IH]; csimpl; [done|]. by rewrite (proj1 (H a)), IH. }
  unfold p_timer_loop_once. destruct (gettime c) as [n c'] eqn:Hgt. simpl in now.
  pose proof (timer_pass_spec now due (cores (heap st)) later Hnd) as Hpass.
  specialize (Hpass ltac:(intros a Ha; unfold cores; rewrite lookup_fmap, fmap_is_Some;
    eapply dseg_lookup; [exact Hd|set_solver])).
  specialize (Hpass ltac:(apply (sorted_by_ext (expiry (heap st))); [intros; by rewrite expiry_core|];
    clear -Hs; induction due as [|a due IH]; [done|]; apply IH; by inversion Hs)).
  destruct (loop_from_spec due (S (size (heap st))) st now later (first later None) Hst Hnow Hdue Hlater)
    as (st' & Hrun & Hres).
  { apply Forall_forall. intros a Ha. apply Hint. set_solver. }
  { intros b Hb. destruct later; [done|]. injection Hb as ->. left. }
  { pose proof (dseg_dom _ _ _ _ Hd Hnd) as Hlen. rewrite length_app in Hlen. lia. }
  destruct (timer_pass now (cores (heap st)) due later) as [[h' l'] ev].
  destruct Hpass as (-> & Hl & Hp & Hsort). destruct Hres as (Hl' & Hh' & Hf & _).
  destruct (Hcore (heap st) due) as [Ho Hfi]. rewrite Ho in Hf. rewrite Hfi in Hp.
  rewrite first_app in Hh.
  assert (Hloop : exists c1, (match g_timer_list_head st with
    | None => Some (st, c)
    | Some a => st'0 ← loop_from (S (size (heap st))) st n (Some a); Some (st'0, c')
    end) = Some (st', c1)).
  { rewrite Hh. destruct (first due (first later None)) eqn:Hfirst; [|by injection Hrun as <-; eexists].
    unfold now in Hrun. rewrite Hrun. by eexists. }
  destruct Hloop as [c1 Hloop]. exists st', l', c1.
  do 3 (split; [done|]). split; [exact Hloop|]. split; [by rewrite Hf, rev_app_distr, rev_involutive|].
  split; [intros a; by rewrite Hh', Hl|]. split; [|done]. split; [done|].
  apply (sorted_by_ext (expiry h')); [|done]. intros a _. by rewrite <- Hh', expiry_core.
Qed.

Lemma NoDup_split_unique {A} (a : A) l1 l2 k1 k2 : NoDup (l1 ++ a :: l2) ->
  l1 ++ a :: l2 = k1 ++ a :: k2 -> l1 = k1 /\ l2 = k2.
Proof.
  revert k1. induction l1 as [|b l1 IH]; intros [|b' k1] Hnd Heq; simpl in *.
  - by injection Heq as ->.
  - injection Heq as <- ->. apply NoDup_cons in Hnd as [Hn _]. exfalso. apply Hn. set_solver.
  - injection Heq as -> <-. apply NoDup_cons in Hnd as [Hn _]. exfalso. apply Hn. set_solver.
  - injection Heq as <- Heq. apply NoDup_cons in Hnd as [_ Hnd]. by destruct (IH k1 Hnd Heq) as [-> ->].
Qed.

(** ** The states the timers go through *)

(** Any sequence of calls, with intervals up to 34 years and a clock below
    146 years; a call gets a handle [p_timer_add] returned, or null. *)
Definition MAX_INTERVAL : Z := 2 ^ 40.
Definition MAX_CLOCK : Z := 2 ^ 62.

Definition clock_ok (c : clock) : Prop := 0 <= clock_now c < MAX_CLOCK.

Inductive timer_step : timer_state -> timer_state -> Prop :=
  | step_timer_add st ms rep f u o c a st' o' c' : clock_ok c -> ms <= MAX_INTERVAL ->
      p_timer_add st ms rep f u o c = Some (a, st', o', c') -> timer_step st st'
  | step_timer_start st a c r st' c' : clock_ok c ->
      p_timer_start st a c = Some (r, st', c') -> timer_step st st'
  | step_timer_stop st a r st' : p_timer_stop st a = Some (r, st') -> timer_step st st'
  | step_timer_del st a r a' st' : p_timer_del st a = Some (r, a', st') -> timer_step st st'
  | step_timer_param st a u r st' : p_timerSetParam st a u = Some (r, st') -> timer_step st st'
  | step_timer_loop st c st' c' : clock_ok c ->
      p_timer_loop_once st c = Some (st', c') -> timer_step st st'.

Definition timer_initial (st : timer_state) : Prop :=
  exists raw fd, heap raw = ∅ /\ st = (p_timer_init raw fd).2.

Definition intervals_ok (h : timer_heap) : Prop :=
  forall a t, h !! a = Some t -> 0 < timeout_ms t <= MAX_INTERVAL.

Lemma intervals_cores h : intervals_ok (cores h) <-> intervals_ok h.
Proof.
  unfold intervals_ok, cores. split; intros Hi a t Ht.
  - apply (Hi a (core t)). by rewrite lookup_fmap, Ht.
  - rewrite lookup_fmap in Ht. destruct (h !! a) as [u|] eqn:Hu; [|done]. injection Ht as <-.
    by apply (Hi a u).
Qed.

Lemma intervals_insert h a t : intervals_ok h -> 0 < timeout_ms t <= MAX_INTERVAL ->
  intervals_ok (<[a := t]> h).
Proof. intros Hi Ht b u [[<- <-]|[_ Hb]]%lookup_insert_Some; [done|by apply (Hi b)]. Qed.

Lemma intervals_interval c h a : clock_ok c -> intervals_ok h -> interval_ok (gettime c).1 h a.
Proof.
  intros Hc Hi t Ht. specialize (Hi a t Ht). pose proof (gettime_spec c) as Hg.
  destruct (gettime c) as [n c']. simpl. unfold time_small, clock_ok, MAX_CLOCK, MAX_INTERVAL in *. lia.
Qed.

Lemma set_abstimeout_spec c ms : clock_ok c -> 0 <= ms <= MAX_INTERVAL ->
  let ts := (_timer_set_abstimeout ms c).1 in
  time_of ts = clock_now c + ms * 1000000 /\ ts_ok ts /\
  (tv_nsec ts = 1000000000 <-> 0 < ms mod 1000 /\ (clock_now c + ms * 1000000) mod 1000000000 = 0).
Proof.
  intros Hc Hms ts. unfold clock_ok, MAX_CLOCK, MAX_INTERVAL in *.
  unfold ts, _timer_set_abstimeout. pose proof (gettime_spec c) as Hg.
  destruct (gettime c) as [now c']. destruct Hg as (Hnow & Hn & _). cbn [fst].
  assert (Hsec : 0 <= tv_sec now) by (unfold time_of in Hnow; lia).
  destruct (add_abstimeout_spec now ms Hn Hsec) as (Ht & Hok & _); [unfold time_small; lia|].
  rewrite Ht, Hnow. do 2 (split; [done|]). rewrite <- Hnow, <- Ht.
  pose proof (Z.div_mod ms 1000). pose proof (Z.mod_pos_bound ms 1000).
  unfold _timer_add_abstimeout, time_of in *.
  rewrite !sint64_id by (unfold in_int64; lia).
  destruct (Z.ltb_spec 1000000000 (tv_nsec now + ms mod 1000 * 1000000)); cbn [tv_sec tv_nsec];
    split; intros; try (Z.to_euclidean_division_equations; lia).
Qed.

Definition timer_ok (st : timer_state) : Prop :=
  intervals_ok (heap st) /\ exists l, timer_inv st l.

Lemma start_ok st a t c : timer_ok st -> heap st !! a = Some t -> 
  exists st' c', p_timer_start st (Some a) c = Some (0, st', c') /\ timer_ok st' /\ dom (heap st') = dom (heap st).
Proof.
  intros (Hi & l & Hl) Ht. pose proof (start_spec st l a t c Hl Ht) as Hs.
  destruct (_timer_set_abstimeout (timeout_ms t) c) as [ts c'].
  destruct Hs as (st' & l0 & l' & Hrun & _ & Hl' & _ & Hc & _). exists st', c'. split; [done|].
  split; [split; [|by eexists]|].
  - apply intervals_cores. rewrite Hc. apply intervals_insert; [by apply intervals_cores|]. exact (Hi a t Ht).
  - apply (f_equal dom) in Hc. unfold cores in Hc. rewrite dom_insert_L, !dom_fmap_L in Hc. rewrite Hc.
    assert (a ∈ dom (heap st)) by (by apply elem_of_dom). set_solver.
Qed.

Lemma stop_ok st a t : timer_ok st -> heap st !! a = Some t ->
  exists st', p_timer_stop st (Some a) = Some (0, st') /\ timer_ok st' /\ is_Some (heap st' !! a).
Proof.
  intros (Hi & l & Hl) Ht. destruct (stop_spec st l a t Hl Ht) as (st' & l' & Hrun & _ & Hl' & Hc & _).
  exists st'. split; [done|]. split; [split; [|by eexists]|].
  - apply intervals_cores. rewrite Hc. apply intervals_insert; [by apply intervals_cores|]. exact (Hi a t Ht).
  - apply (f_equal (.!! a)) in Hc. rewrite lookup_insert_eq in Hc. unfold cores in Hc.
    rewrite lookup_fmap in Hc. destruct (heap st' !! a); [by eexists|done].
Qed.

Lemma del_ok st a t : timer_ok st -> heap st !! a = Some t ->
  exists st', p_timer_del st (Some (Some a)) = Some (0, Some None, st') /\ timer_ok st'.
Proof.
  intros Hok Ht. destruct (stop_ok st a t Hok Ht) as (st1 & Hs & (Hi & l & Hl) & t1 & Ht1).
  unfold p_timer_del. rewrite Hs. cbn [mbind option_bind]. unfold free_hdl. rewrite Ht1.
  cbn [mbind option_bind]. destruct (userdata t1) as [u|]; cbn [mbind option_bind]; eexists; (split; [done|]);
    split; try done; by exists l.
Qed.

Lemma on_heap_lookup st a t : heap (on_heap st (<[a := t]> (heap st))) !! a = Some t.
Proof. apply lookup_insert_eq. Qed.

(** A handle that is not linked in yet. *)
Lemma inv_new st l a t : timer_inv st l -> heap st !! a = None ->
  timer_inv (on_heap st (<[a := t]> (heap st))) l /\ a ∉ l.
Proof.
  intros [(Hnd & Hh & Hd) Hs] Hnone.
  assert (Ha : a ∉ l) by (intros Hin; destruct (dseg_lookup _ _ _ _ a Hd Hin); congruence).
  split; [|done]. split; [split; [done|]; split; [done|]; by apply dseg_frame|].
  apply (sorted_by_ext (expiry (heap st))); [|done]. intros b Hb. unfold expiry. simpl.
  rewrite lookup_insert_ne; [done|]. by intros ->.
Qed.

Lemma add_ok st ms rep f u o c : timer_ok st -> ms <= MAX_INTERVAL ->
  exists a st' o' c', p_timer_add st ms rep f u o c = Some (a, st', o', c') /\ timer_ok st'.
Proof.
  intros Hok Hms. unfold p_timer_add. destruct f as [f|], u as [u|]; try by eexists _, _, _, _.
  destruct (Z.leb_spec ms 0); [by eexists _, _, _, _|].
  destruct (malloc o) as [[] o1]; [|by eexists _, _, _, _]. cbn [negb].
  set (a := fresh (dom (heap st))). set (t := Timer _ _ _ _ _ _ _ _ _).
  assert (Hok1 : timer_ok (on_heap st (<[a := t]> (heap st)))).
  { destruct Hok as (Hi & l & Hl). split; [by apply intervals_insert|].
    exists l. apply inv_new; [done|]. apply not_elem_of_dom, is_fresh. }
  destruct (start_ok _ a t c Hok1) as (st' & c' & -> & Hok' & _);
    [apply lookup_insert_eq|].
  by eexists _, _, _, _.
Qed.

Lemma param_ok st a t u : timer_ok st -> heap st !! a = Some t ->
  exists st', p_timerSetParam st (Some a) u = Some (0, st') /\ timer_ok st'.
Proof.
  intros (Hi & l & Hl & Hs) Ht. unfold p_timerSetParam, upd. rewrite Ht. cbn [mbind option_bind].
  eexists. split; [done|]. split; [apply intervals_insert; [done|exact (Hi a t Ht)]|].
  exists l. split; [by apply (timer_list_data st l a t)|].
  apply (sorted_by_ext (expiry (heap st))); [|done]. intros b _. unfold expiry. simpl.
  destruct (decide (b = a)) as [->|]; [by rewrite lookup_insert_eq, Ht|by rewrite lookup_insert_ne].
Qed.


Lemma loop_ok st c : timer_ok st -> clock_ok c ->
  exists st' c', p_timer_loop_once st c = Some (st', c') /\ timer_ok st'.
Proof.
  intros (Hi & l & Hl) Hc.
  destruct (loop_once_spec st l c Hl) as (due & later & st' & l' & c' & _ & _ & _ & Hrun & _ & Hh & Hl' & _);
    [apply Hc|intros; by apply intervals_interval|].
  exists st', c'. split; [done|]. split; [|by eexists]. apply intervals_cores. intros a t Ht.
  rewrite Hh in Ht. apply intervals_cores in Hi. destruct (decide (a ∈ due)); [|by apply (Hi a)].
  destruct (cores (heap st) !! a) as [u|] eqn:Hu; [|done]. injection Ht as <-.
  unfold after_pass, fired_handle. destruct (is_running u), (restarts u); by apply (Hi a u).
Qed.

Lemma step_ok st st' : timer_ok st -> timer_step st st' -> timer_ok st'.
Proof.
  intros Hok Hs. destruct Hs as [st ms rep f u o c a st' o' c' Hc Hms Hrun|st [a|] c r st' c' Hc Hrun
    |st [a|] r st' Hrun|st [[a|]|] r a' st' Hrun|st [a|] u r st' Hrun|st c st' c' Hc Hrun];
    try (by injection Hrun as <- <-); try (by injection Hrun as <- <- <-).
  - destruct (add_ok st ms rep f u o c Hok Hms) as (? & ? & ? & ? & H & ?). rewrite Hrun in H. by injection H as -> -> -> ->.
  - destruct (heap st !! a) as [t|] eqn:Ht; [|unfold p_timer_start in Hrun; by rewrite Ht in Hrun].
    destruct (start_ok st a t c Hok Ht) as (? & ? & H & ? & _). rewrite Hrun in H. by injection H as -> -> ->.
  - destruct (heap st !! a) as [t|] eqn:Ht; [|unfold p_timer_stop, upd in Hrun; by rewrite Ht in Hrun].
    destruct (stop_ok st a t Hok Ht) as (? & H & ? & _). rewrite Hrun in H. by injection H as -> ->.
  - destruct (heap st !! a) as [t|] eqn:Ht;
      [|unfold p_timer_del, p_timer_stop, upd in Hrun; by rewrite Ht in Hrun].
    destruct (del_ok st a t Hok Ht) as (? & H & ?). rewrite Hrun in H. by injection H as -> -> ->.
  - destruct (heap st !! a) as [t|] eqn:Ht; [|unfold p_timerSetParam, upd in Hrun; by rewrite Ht in Hrun].
    destruct (param_ok st a t u Hok Ht) as (? & H & ?). rewrite Hrun in H. by injection H as -> ->.
  - destruct (loop_ok st c Hok Hc) as (? & ? & H & ?). rewrite Hrun in H. by injection H as -> ->.
Qed.

Lemma reachable_ok st : reachable timer_step timer_initial st -> timer_ok st.
Proof.
  induction 1 as [st (raw & fd & Hraw & ->)|st st' _ IH Hs]; [|by eapply step_ok].
  simpl. rewrite Hraw. split; [by intros a t Ha; cbn [heap] in Ha; rewrite lookup_empty in Ha|].
  exists []. split; [|constructor]. split; [constructor|]. by split.
Qed.

(** The time handed to [select], in nanoseconds against the time left. *)
Lemma sleep_bounds st l c : timer_inv st l -> clock_ok c ->
  (forall a, a ∈ l -> ts_ok (expiry (heap st) a)) ->
  exists sec usec c', p_timer_loop_get_next_min_timeout st c = Some (sec, usec, c') /\
    0 <= sec /\ 0 <= usec <= 1000000 /\ 1000 <= sec * 1000000 + usec /\
    match l with
    | [] => sec * 1000000 + usec = 10000000
    | a :: _ =>
      let left := time_of (expiry (heap st) a) - clock_now c in
      if 1001000 <=? left then Z.abs ((sec * 1000000 + usec) * 1000 - left) < 1000
      else (sec, usec) = (0, 1000) \/ Z.abs ((sec * 1000000 + usec) * 1000 - left) < 1000
    end.
Proof.
  intros [(_ & Hh & Hd) _] Hc Hok. unfold p_timer_loop_get_next_min_timeout. rewrite Hh.
  destruct l as [|a l]; cbn [first].
  - exists 10, 0, c. repeat split; lia.
  - destruct Hd as [(t & Ht & _) _]. specialize (Hok a ltac:(left)). unfold expiry in *. rewrite Ht in *.
    cbn [mbind option_bind]. pose proof (gettime_spec c) as Hg. destruct (gettime c) as [now c'].
    destruct Hg as (Hnow & Hn & _). unfold time_of, ts_ok in *.
    set (s := tv_sec (abs_timeout t) - tv_sec now).
    set (d := tv_nsec (abs_timeout t) - tv_nsec now).
    assert (Hdr : -1000000000 < d <= 1000000000) by (unfold d; lia).
    assert (Hq : exists q, Z.quot d 1000 = q /\ Z.abs (q * 1000 - d) < 1000 /\ -1000000 < q <= 1000000).
    { exists (Z.quot d 1000). split; [done|]. pose proof (Z.quot_rem d 1000 ltac:(lia)).
      pose proof (Z.rem_bound_abs d 1000 ltac:(lia)).
      pose proof (Z.rem_nonneg d 1000). pose proof (Z.rem_nonpos d 1000). lia. }
    destruct Hq as (q & -> & Hq & Hqr).
    replace (tv_sec (abs_timeout t) * 1000000000 + tv_nsec (abs_timeout t) - clock_now c)
      with (s * 1000000000 + d) by (unfold s, d; lia).
    clearbody s d. clear -Hq Hqr.
    destruct (Z.ltb_spec q 0).
    + destruct (Z.ltb_spec (s - 1) 0), (Z.eqb_spec (s - 1) 0), (Z.ltb_spec (q + 1000000) 1000),
        (Z.leb_spec 1001000 (s * 1000000000 + d)); simpl;
        eexists _, _, _; (split; [done|]); try lia; repeat split; try lia; try (left; done); right; lia.
    + destruct (Z.ltb_spec s 0), (Z.eqb_spec s 0), (Z.ltb_spec q 1000),
        (Z.leb_spec 1001000 (s * 1000000000 + d)); simpl;
        eexists _, _, _; (split; [done|]); try lia; repeat split; try lia; try (left; done); right; lia.
Qed.

(** ** Properties *)


(** A concrete system: three one-shot timers of 10, 20 and 30 ms. *)
Definition at_ms (ms : Z) : clock := Clock (fun _ => ms * 1000000) 0.
Definition timer_fresh : timer_state := (p_timer_init (State ∅ None (-1) [] 0 []) 5).2.
Definition timer_added (ms : Z) (f : Z) (st : timer_state) : timer_state :=
  match p_timer_add st ms 1 (Some f) (Some 1) [] (at_ms 1000) with
  | Some (_, st', _, _) => st'
  | None => st
  end.
Definition one_timer : timer_state := timer_added 10 101 timer_fresh.
Definition three_timers : timer_state := timer_added 30 103 (timer_added 20 102 one_timer).

Lemma added_reachable ms f st : ms <= MAX_INTERVAL -> reachable timer_step timer_initial st ->
  reachable timer_step timer_initial (timer_added ms f st).
Proof.
  intros Hms Hr. unfold timer_added.
  destruct (p_timer_add st ms 1 (Some f) (Some 1) [] (at_ms 1000)) as [[[[a st'] o'] c']|] eqn:Ha; [|done].
  eapply reach_step; [exact Hr|]. eapply step_timer_add; [|exact Hms|exact Ha].
  vm_compute. split; congruence.
Qed.

Lemma fresh_reachable : reachable timer_step timer_initial timer_fresh.
Proof. apply reach_init. by exists (State ∅ None (-1) [] 0 []), 5. Qed.

Lemma three_timers_reachable : reachable timer_step timer_initial three_timers.
Proof. repeat (apply added_reachable; [vm_compute; congruence|]); apply fresh_reachable. Qed.




(** Starting a timer that is not in the list puts it after every timer that
    expires no later and before the rest, which keep their places; the thread
    is woken when the timer is the new first one (and also when it is added
    behind a single one). *)
Theorem p_timer_start_inserts st l a t c :
  timer_inv st l -> heap st !! a = Some t -> a ∉ l ->
  let '(ts, c') := _timer_set_abstimeout (timeout_ms t) c in
  exists st' l1 l2, p_timer_start st (Some a) c = Some (0, st', c') /\
    l = l1 ++ l2 /\ timer_inv st' (l1 ++ a :: l2) /\
    Forall (fun b => _timespec_compare (expiry (heap st') b) ts <= 0) l1 /\
    Forall (fun b => 0 < _timespec_compare (expiry (heap st') b) ts) l2 /\
    cores (heap st') = <[a := started ts (core t)]> (cores (heap st)) /\
    signals st' = (if ((length l1 =? 0) || ((length l1 =? 1) && (length l2 =? 0)))%nat && (0 <? g_ctrl_fd st)
                   then S (signals st) else signals st).
Proof.
  intros Hl Ht Ha. pose proof (start_spec st l a t c Hl Ht) as Hs.
  destruct (_timer_set_abstimeout (timeout_ms t) c) as [ts c'].
  destruct Hs as (st' & l0 & l' & Hrun & Hun & [Hl' Hsort'] & -> & Hc & _ & _ & _ & Hsig).
  destruct Hun as [[_ ->]|(l1 & l2 & -> & _)]; [|exfalso; set_solver].
  assert (Hexa : expiry (heap st') a = ts).
  { rewrite <- expiry_core, Hc. unfold expiry. by rewrite lookup_insert_eq. }
  assert (Hsort : sorted_by (expiry (heap st')) l).
  { apply (sorted_by_ext (expiry (heap st))); [|apply Hl]. intros b Hb.
    rewrite <- (expiry_core (heap st')), Hc, <- (expiry_core (heap st)). unfold expiry.
    rewrite lookup_insert_ne; [done|]. by intros ->. }
  destruct (insert_timer_split _ a l Hsort) as (l1 & l2 & -> & Hins & H1 & H2 & Hidx).
  exists st', l1, l2. rewrite Hins in *. rewrite Hexa in *. do 2 (split; [done|]). split; [done|].
  do 3 (split; [done|]). rewrite Hsig, Hidx. f_equal. f_equal.
  destruct l2 as [|b l2]; destruct l1 as [|a1 [|a2 l1]]; simpl; try done.
Qed.

Lemma p_timer_start_inserts_witness :
  let t := Timer None None (Timespec 0 0) (Some 7) 15 (Some 1) 1 0 TIMER_IDLE in
  let st := on_heap three_timers (<[9 := t]> (heap three_timers)) in
  exists l st' l1 l2, timer_inv st l /\
    p_timer_start st (Some 9) (at_ms 1000) = Some (0, st', Clock (fun _ => 1000000000) 1) /\
    l = l1 ++ l2 /\ timer_inv st' (l1 ++ 9 :: l2).
Proof.
  intros t st. destruct (reachable_ok _ three_timers_reachable) as (_ & l & Hl0).
  destruct (inv_new three_timers l 9 t Hl0) as [Hl Hn]; [vm_compute; reflexivity|].
  pose proof (on_heap_lookup three_timers 9 t) as Ht.
  pose proof (p_timer_start_inserts st l 9 t (at_ms 1000) Hl Ht Hn) as H.
  destruct H as (st' & l1 & l2 & Hrun & Heq & Hinv & _).
  exists l, st', l1, l2. split; [exact Hl|]. split; [exact Hrun|]. split; [exact Heq|exact Hinv].
Defined.

(** Stopping a timer leaves it stopped and not in the list, and the list
    well-formed and sorted.  When it is the first or the last of the list,
    every other timer stays; when it stands between two others, it takes all
    the timers after it out of the list with it, although they are still
    marked as running. *)
Theorem p_timer_stop_removes st l a t : timer_inv st l -> heap st !! a = Some t ->
  exists st' l', p_timer_stop st (Some a) = Some (0, st') /\ timer_inv st' l' /\ (a ∉ l') /\
    cores (heap st') = <[a := with_status (core t) TIMER_STOP]> (cores (heap st)) /\
    (a ∉ l -> l' = l) /\
    (forall l1 l2, l = l1 ++ a :: l2 ->
       (l1 = [] \/ l2 = [] -> l' = l1 ++ l2) /\ (l1 <> [] -> l' = l1)).
Proof.
  intros Hl Ht. destruct (stop_spec st l a t Hl Ht) as (st' & l' & Hrun & Hun & Hl' & Hc & _).
  pose proof Hl as [(Hnd & _) _]. destruct (unlisted_sub a l l' Hnd Hun) as (Ha & _ & _).
  exists st', l'. do 4 (split; [done|]). destruct Hun as [[Hn ->]|(l1 & l2 & -> & ->)].
  - split; [done|]. intros l1 l2 ->. exfalso. set_solver.
  - split; [set_solver|]. intros k1 k2 Heq.
    assert (l1 = k1 /\ l2 = k2) as [-> ->] by (by apply (NoDup_split_unique a)).
    unfold after_remove. destruct k1 as [|b k1]; [by split|]. split; [|done].
    intros [?| ->]; [done|by rewrite app_nil_r].
Qed.

Lemma p_timer_stop_removes_witness :
  exists st' l', p_timer_stop one_timer (Some 0) = Some (0, st') /\ timer_inv st' l' /\ 0 ∉ l'.
Proof.
  destruct (reachable_ok one_timer) as (_ & l & Hl);
    [apply added_reachable; [vm_compute; congruence|apply fresh_reachable]|].
  destruct (heap one_timer !! 0) as [t|] eqn:Ht; [|vm_compute in Ht; discriminate Ht].
  destruct (p_timer_stop_removes one_timer l 0 t Hl Ht) as (st' & l' & H1 & H2 & H3 & _).
  exists st', l'. split; [exact H1|]. split; [exact H2|exact H3].
Defined.

(** With timers of 10, 20 and 30 ms, stopping the second means that the third
    is never called: it is still running, but the passes at 40 ms and later
    call the first only, while without the stop the third is called. *)
Theorem stopped_timer_silences_later : forall later, 40 <= later <= 1000000 ->
  (exists st c, p_timer_loop_once three_timers (at_ms (1000 + 40)) = Some (st, c) /\
     rev (fired st) = [(101, Some 1); (102, Some 1); (103, Some 1)]) /\
  exists st1 st2 st3 c2 c3 t, p_timer_stop three_timers (Some 1) = Some (0, st1) /\
    p_timer_loop_once st1 (at_ms (1000 + 40)) = Some (st2, c2) /\
    p_timer_loop_once st2 (at_ms (1000 + later)) = Some (st3, c3) /\
    fired st3 = [(101, Some 1)] /\ heap st3 !! 2 = Some t /\ status t = TIMER_RUNNING.
Proof.
  intros later Hl. split.
  - eexists _, _. split; [vm_compute; reflexivity|]. vm_compute. reflexivity.
  - eexists _, _, _, _, _, _. split; [vm_compute; reflexivity|]. split; [vm_compute; reflexivity|].
    split; [reflexivity|]. split; [reflexivity|]. split; [vm_compute; reflexivity|]. reflexivity.
Qed.

Lemma stopped_timer_silences_later_witness :
  exists st c, p_timer_loop_once three_timers (at_ms (1000 + 40)) = Some (st, c) /\
     rev (fired st) = [(101, Some 1); (102, Some 1); (103, Some 1)].
Proof. apply (stopped_timer_silences_later 50). lia. Defined.

(** The expiry the code computes is the time asked for to the nanosecond, and
    the order of the timers is the order of their expiries: a strictly later
    expiry always compares greater, although a sum of exactly one second is
    left in [tv_nsec]. *)
Theorem timer_expiry_exact c ms : clock_ok c -> 0 <= ms <= MAX_INTERVAL ->
  let ts := (_timer_set_abstimeout ms c).1 in
  time_of ts = clock_now c + ms * 1000000 /\ 0 <= tv_nsec ts <= 1000000000 /\
  (tv_nsec ts = 1000000000 <-> 0 < ms mod 1000 /\ (clock_now c + ms * 1000000) mod 1000000000 = 0) /\
  forall c2 ms2, clock_ok c2 -> 0 <= ms2 <= MAX_INTERVAL ->
    let ts2 := (_timer_set_abstimeout ms2 c2).1 in
    (time_of ts < time_of ts2 -> _timespec_compare ts ts2 = -1) /\
    (time_of ts2 < time_of ts -> _timespec_compare ts ts2 = 1).
Proof.
  intros Hc Hms ts. destruct (set_abstimeout_spec c ms Hc Hms) as (Ht & Hok & Hone).
  split; [done|]. split; [done|]. split; [done|]. intros c2 ms2 Hc2 Hms2 ts2.
  destruct (set_abstimeout_spec c2 ms2 Hc2 Hms2) as (Ht2 & Hok2 & _).
  pose proof (compare_pos ts ts2 Hok Hok2). pose proof (compare_nonpos ts ts2 Hok Hok2).
  pose proof (compare_range ts ts2). pose proof (compare_flip ts ts2).
  pose proof (compare_nonpos ts2 ts Hok2 Hok). lia.
Qed.

Lemma timer_expiry_exact_witness :
  time_of (_timer_set_abstimeout 500 (at_ms 1500)).1 = 2000000000 /\
  tv_nsec (_timer_set_abstimeout 500 (at_ms 1500)).1 = 1000000000.
Proof.
  destruct (timer_expiry_exact (at_ms 1500) 500) as (H1 & _ & H3 & _);
    [vm_compute; split; congruence|vm_compute; split; congruence|].
  split; [exact H1|]. apply H3. vm_compute. split; reflexivity.
Defined.

(** The thread never sleeps less than a millisecond, nor past the first
    expiry: the time handed to [select] is the time left until the first
    timer expires, to within a microsecond, or one millisecond when less is
    left; without timers it is ten seconds. *)
Theorem timer_sleep_bounds st l c : timer_inv st l -> clock_ok c ->
  (forall a, a ∈ l -> ts_ok (expiry (heap st) a)) ->
  exists sec usec c', p_timer_loop_get_next_min_timeout st c = Some (sec, usec, c') /\
    0 <= sec /\ 0 <= usec <= 1000000 /\ 1000 <= sec * 1000000 + usec /\
    match l with
    | [] => sec * 1000000 + usec = 10000000
    | a :: _ =>
      let left := time_of (expiry (heap st) a) - clock_now c in
      if 1001000 <=? left then Z.abs ((sec * 1000000 + usec) * 1000 - left) < 1000
      else (sec, usec) = (0, 1000) \/ Z.abs ((sec * 1000000 + usec) * 1000 - left) < 1000
    end.
Proof. apply sleep_bounds. Qed.

Lemma timer_sleep_bounds_witness :
  exists sec usec c', p_timer_loop_get_next_min_timeout timer_fresh (at_ms 3) = Some (sec, usec, c') /\
    sec * 1000000 + usec = 10000000.
Proof.
  destruct (timer_sleep_bounds timer_fresh [] (at_ms 3)) as (sec & usec & c' & H & _ & _ & _ & Hs).
  - split; [|constructor]. split; [constructor|by split].
  - vm_compute. split; congruence.
  - intros a Ha. by apply elem_of_nil in Ha.
  - exists sec, usec, c'. split; [exact H|exact Hs].
Defined.
