(* ===== verification/TimerLoop.v ===== *)
(** * The thread of the software timers ([p_timer_mian_loop] of [src/utils/timer.c])

    One turn of the thread asks how long to sleep, waits in [select] for that
    time or for the event descriptor, and makes one pass over the list.  A turn
    is given by the clock when it starts and when [select] has returned, by
    whether the descriptor was readable, and by the flag after the pass. *)

From S2P Require Import Prelude Timer.

(** ** The loop *)

Record turn := Turn { started_at : Z; woken_at : Z; readable : bool; quit_ctl : Z }.

Definition at_time (now : Z) : clock := Clock (fun _ => now) 0.

(** [read] of the descriptor takes all signals. *)
Definition read_ctrl_fd (st : timer_state) : timer_state :=
  State (heap st) (g_timer_list_head st) (g_ctrl_fd st) (fired st) 0 (freed st).

(** How long [select] is asked to wait, in nanoseconds. *)
Definition sleep_of (st : timer_state) (u : turn) : option Z :=
  '(sec, usec, _) ← p_timer_loop_get_next_min_timeout st (at_time (started_at u));
  Some ((sec * 1000000 + usec) * 1000).

Definition main_loop_turn (u : turn) (st : timer_state) : option timer_state :=
  _ ← sleep_of st u;
  let st := if readable u then read_ctrl_fd st else st in
  '(st, _) ← p_timer_loop_once st (at_time (woken_at u));
  Some st.

(** The state after the turns, and whether the thread has ended. *)
Fixpoint p_timer_mian_loop (turns : list turn) (st : timer_state) : option (timer_state * bool) :=
  match turns with
  | [] => Some (st, false)
  | u :: turns' =>
    st ← main_loop_turn u st;
    if quit_ctl u =? 0 then p_timer_mian_loop turns' st else Some (st, true)
  end.

(** ** The expiries of a reachable state *)

Definition times_ok (h : timer_heap) : Prop := forall a t, h !! a = Some t -> ts_ok (abs_timeout t).

Lemma times_cores h : times_ok (cores h) <-> times_ok h.
Proof.
  unfold times_ok, cores. split; intros Hi a t Ht.
  - apply (Hi a (core t)). by rewrite lookup_fmap, Ht.
  - rewrite lookup_fmap in Ht. destruct (h !! a) as [u|] eqn:Hu; [|done]. injection Ht as <-. by apply (Hi a u).
Qed.

Lemma times_insert h a t : times_ok h -> ts_ok (abs_timeout t) -> times_ok (<[a := t]> h).
Proof. intros Hi Ht b u [[<- <-]|[_ Hb]]%lookup_insert_Some; [done|by apply (Hi b)]. Qed.

Lemma start_times st a t c r st' c' : timer_ok st -> times_ok (heap st) -> clock_ok c -> heap st !! a = Some t ->
  p_timer_start st (Some a) c = Some (r, st', c') -> times_ok (heap st').
Proof.
  intros (Hi & l & Hl) Ht Hc Ha Hrun. pose proof (start_spec st l a t c Hl Ha) as Hs. specialize (Hi a t Ha).
  destruct (set_abstimeout_spec c (timeout_ms t) Hc ltac:(lia)) as (_ & Hok & _).
  destruct (_timer_set_abstimeout (timeout_ms t) c) as [ts c1]. destruct Hs as (st1 & l0 & l1 & Hr & _ & _ & _ & Hcore & _).
  rewrite Hrun in Hr. injection Hr as _ -> _. apply times_cores. rewrite Hcore. apply times_insert; [by apply times_cores|done].
Qed.

Lemma stop_times st a t r st' : timer_ok st -> times_ok (heap st) -> heap st !! a = Some t ->
  p_timer_stop st (Some a) = Some (r, st') -> times_ok (heap st').
Proof.
  intros (Hi & l & Hl) Ht Ha Hrun. destruct (stop_spec st l a t Hl Ha) as (st1 & l1 & Hr & _ & _ & Hcore & _).
  rewrite Hrun in Hr. injection Hr as _ ->. apply times_cores. rewrite Hcore. apply times_insert; [by apply times_cores|exact (Ht a t Ha)].
Qed.

Lemma free_hdl_heap st a st' : free_hdl st a = Some st' -> heap st' = heap st.
Proof. unfold free_hdl. intros (t & _ & Hs)%bind_Some. by destruct (userdata t); injection Hs as <-. Qed.

Lemma fired_times now t : now_ok now -> time_small (time_of now) (timeout_ms t) -> ts_ok (abs_timeout t) -> ts_ok (abs_timeout (after_pass now t)).
Proof.
  intros [Hn Hs] Hsm Ht. unfold after_pass, fired_handle. destruct (is_running t); [|done]. destruct (restarts t); [|done].
  by apply add_abstimeout_spec.
Qed.

Lemma gettime_ok c : 0 <= clock_now c -> now_ok (gettime c).1 /\ time_of (gettime c).1 = clock_now c.
Proof.
  intros Hc. pose proof (gettime_spec c) as Hg. destruct (gettime c) as [now c'] eqn:E. destruct Hg as (Ht & Hn & _). cbn [fst].
  split; [|done]. split; [done|]. unfold time_of in Ht. lia.
Qed.

Lemma loop_times st c st' c' : timer_ok st -> times_ok (heap st) -> clock_ok c -> p_timer_loop_once st c = Some (st', c') -> times_ok (heap st').
Proof.
  intros (Hi & l & Hl) Ht Hc Hrun. destruct (loop_once_spec st l c Hl) as (due & later & st1 & l' & c1 & _ & _ & _ & Hr & _ & Hh & _);
    [apply Hc|intros; by apply intervals_interval|].
  rewrite Hrun in Hr. injection Hr as -> ->. apply times_cores. intros a t Ha. rewrite Hh in Ha. apply times_cores in Ht.
  destruct (decide (a ∈ due)); [|by apply (Ht a)]. destruct (cores (heap st) !! a) as [u|] eqn:Hu; [|done]. injection Ha as <-.
  apply intervals_cores in Hi. destruct (gettime_ok c (proj1 Hc)) as [Hn Heq]. apply fired_times; [done| |by apply (Ht a)].
  change (time_small (time_of (gettime c).1) (timeout_ms u)). rewrite Heq. specialize (Hi a u Hu). unfold time_small, clock_ok, MAX_CLOCK, MAX_INTERVAL in *. lia.
Qed.

Lemma add_times st ms rep f u o c a st' o' c' : timer_ok st -> times_ok (heap st) -> clock_ok c -> ms <= MAX_INTERVAL ->
  p_timer_add st ms rep f u o c = Some (a, st', o', c') -> times_ok (heap st').
Proof.
  intros Hok Ht Hc Hms. unfold p_timer_add. destruct f as [f|], u as [u|]; try by intros [= <- <- <- <-].
  destruct (Z.leb_spec ms 0); [by intros [= <- <- <- <-]|]. destruct (malloc o) as [[] o1]; [|by intros [= <- <- <- <-]]. cbn [negb].
  set (x := fresh (dom (heap st))). set (t := Timer.Timer _ _ _ _ _ _ _ _ _). intros ([[r st1] c1] & Hs & [= _ <- _ _])%bind_Some.
  eapply (start_times (on_heap st (<[x := t]> (heap st))) x t); [| |exact Hc|apply lookup_insert_eq|exact Hs].
  - destruct Hok as (Hi & l & Hl). split; [by apply intervals_insert|]. exists l. apply inv_new; [done|]. apply not_elem_of_dom, is_fresh.
  - apply times_insert; [done|]. unfold ts_ok. cbn. lia.
Qed.

Lemma step_times st st' : timer_ok st -> times_ok (heap st) -> timer_step st st' -> times_ok (heap st').
Proof.
  intros Hok Ht Hs. destruct Hs as [st ms rep f u o c a st' o' c' Hc Hms Hrun|st [a|] c r st' c' Hc Hrun
    |st [a|] r st' Hrun|st [[a|]|] r a' st' Hrun|st [a|] u r st' Hrun|st c st' c' Hc Hrun];
    try (by injection Hrun as <- <-); try (by injection Hrun as <- <- <-).
  - by eapply (add_times st).
  - destruct (heap st !! a) as [t|] eqn:Ha; [by eapply (start_times st)|unfold p_timer_start in Hrun; by rewrite Ha in Hrun].
  - destruct (heap st !! a) as [t|] eqn:Ha; [by eapply (stop_times st)|unfold p_timer_stop, upd in Hrun; by rewrite Ha in Hrun].
  - apply bind_Some in Hrun as ([x st1] & Hstop & Hrun). apply bind_Some in Hrun as (st2 & Hfree%free_hdl_heap & [= _ _ <-]). rewrite Hfree.
    destruct (heap st !! a) as [t|] eqn:Ha; [by eapply (stop_times st)|unfold p_timer_stop, upd in Hstop; by rewrite Ha in Hstop].
  - apply bind_Some in Hrun as (h & Hu & [= _ <-]). apply bind_Some in Hu as (t & Ha & [= <-]). cbn.
    apply times_insert; [done|exact (Ht a t Ha)].
  - by eapply (loop_times st).
Qed.

Lemma reachable_times st : reachable timer_step timer_initial st -> times_ok (heap st).
Proof.
  induction 1 as [st (raw & fd & Hraw & ->)|st st' Hr IH Hs].
  - cbn. rewrite Hraw. intros a t Ha. by rewrite lookup_empty in Ha.
  - apply (step_times st); [by apply reachable_ok|done|done].
Qed.

(** ** The thread and its callers

    The calls and the passes are the steps of [Timer]; the thread also empties
    the descriptor. *)

Inductive thread_step : timer_state -> timer_state -> Prop :=
  | thread_call st st' : timer_step st st' -> thread_step st st'
  | thread_read st : thread_step st (read_ctrl_fd st).

Definition reachable_thread : timer_state -> Prop := reachable thread_step timer_initial.
Definition thread_ok (st : timer_state) : Prop := timer_ok st /\ times_ok (heap st).

Lemma reachable_thread_ok st : reachable_thread st -> thread_ok st.
Proof.
  induction 1 as [st Hi|st st' _ IH Hs].
  - apply (reach_init timer_step) in Hi. split; [by apply reachable_ok|by apply reachable_times].
  - destruct Hs as [st st' Hs|st]; [|exact IH]. destruct IH as [Hok Ht]. split; [by eapply step_ok|by eapply step_times].
Qed.

Definition turn_ok (u : turn) : Prop := clock_ok (at_time (started_at u)) /\ clock_ok (at_time (woken_at u)).

Lemma sleep_of_spec st l u : thread_ok st -> timer_inv st l -> turn_ok u ->
  exists d, sleep_of st u = Some d /\ 1000000 <= d /\
    match l with
    | [] => d = 10000000000
    | a :: _ =>
      let left := time_of (expiry (heap st) a) - started_at u in
      if 1001000 <=? left then Z.abs (d - left) < 1000 else d = 1000000 \/ Z.abs (d - left) < 1000
    end.
Proof.
  intros [_ Ht] Hl [Hc _]. destruct (sleep_bounds st l (at_time (started_at u)) Hl Hc) as (sec & usec & c' & Hs & _ & _ & Hmin & Hd).
  - intros a Ha. destruct Hl as [(_ & _ & Hseg) _]. destruct (dseg_lookup _ _ _ _ a Hseg Ha) as [t Hta]. unfold expiry. rewrite Hta. exact (Ht a t Hta).
  - unfold sleep_of. rewrite Hs. cbn [mbind option_bind]. eexists. split; [done|]. split; [lia|].
    destruct l as [|a l]; [lia|]. cbn [clock_now reading tick at_time] in Hd. cbv zeta in *. bool_cases; [exact Hd|].
    destruct Hd as [[= -> ->]|Hd]; [by left|by right].
Qed.

Lemma turn_runs st u : reachable_thread st -> turn_ok u -> exists st', main_loop_turn u st = Some st' /\ reachable_thread st'.
Proof.
  intros Hr Hu. pose proof (reachable_thread_ok st Hr) as Hok. destruct (proj1 Hok) as (_ & l & Hl).
  destruct (sleep_of_spec st l u Hok Hl Hu) as (d & Hd & _). unfold main_loop_turn. rewrite Hd. cbn [mbind option_bind].
  set (st0 := if readable u then read_ctrl_fd st else st).
  assert (Hr0 : reachable_thread st0) by (unfold st0; destruct (readable u); [eapply reach_step; [exact Hr|constructor]|done]).
  destruct (loop_ok st0 (at_time (woken_at u))) as (st' & c' & Hrun & _); [by apply reachable_thread_ok|apply Hu|].
  rewrite Hrun. exists st'. split; [done|]. eapply reach_step; [exact Hr0|]. apply thread_call. eapply step_timer_loop; [apply Hu|exact Hrun].
Qed.

(** *** A pass by the expiry of the first timer *)

Lemma due_time now e : now_ok now -> ts_ok e -> 0 <= _timespec_compare now e <-> time_of e <= time_of now.
Proof. unfold now_ok, ts_ok, time_of, _timespec_compare. intros. bool_cases; lia. Qed.

(** What is called first. *)
Definition called (f : Z) (arg : option Z) (st st' : timer_state) : Prop := exists evs, rev (fired st') = rev (fired st) ++ (f, arg) :: evs.

Section FirstTimer.
Context (st : timer_state) (a : Z) (l : list Z) (t : timer_handle_struct) (f : Z).
Hypothesis Hok : thread_ok st.
Hypothesis Hl : timer_inv st (a :: l).
Hypothesis Ht : heap st !! a = Some t.
Hypothesis Hrun : status t = TIMER_RUNNING.
Hypothesis Hf : cb t = Some f.

Lemma pass_early now : clock_ok (at_time now) -> now < time_of (abs_timeout t) -> exists c', p_timer_loop_once st (at_time now) = Some (st, c').
Proof.
  intros Hc Hnow. destruct Hl as [(_ & Hh & _) _]. unfold p_timer_loop_once. rewrite Hh. cbn [first].
  destruct (gettime_ok (at_time now) (proj1 Hc)) as [Hn Heq]. destruct (gettime (at_time now)) as [n c'] eqn:Hg. cbn [fst] in *.
  exists c'. cbn [loop_from mbind option_bind]. rewrite Ht. cbn [mbind option_bind].
  destruct (Z.ltb_spec (_timespec_compare n (abs_timeout t)) 0) as [|Hge]; [done|]. apply due_time in Hge; [|done|exact (proj2 Hok a t Ht)].
  rewrite Heq in Hge. cbn in Hge. lia.
Qed.

Lemma pass_due now : clock_ok (at_time now) -> time_of (abs_timeout t) <= now ->
  exists st' c', p_timer_loop_once st (at_time now) = Some (st', c') /\ called f (userdata t) st st'.
Proof.
  intros Hc Hnow. destruct Hok as [(Hi & _) Hts]. destruct (gettime_ok (at_time now) (proj1 Hc)) as [Hn Heq].
  destruct (loop_once_spec st (a :: l) (at_time now) Hl) as (due & later & st' & l' & c' & Hsplit & _ & Hlater & Hp & Hfired & _);
    [apply Hc|intros; by apply intervals_interval|].
  exists st', c'. split; [done|]. unfold called. rewrite Hfired. destruct due as [|b due]; cbn [app] in Hsplit.
  - rewrite <- Hsplit in Hlater. apply Forall_cons in Hlater as [Hlate _]. exfalso. unfold not_due, expiry in Hlate. rewrite Ht in Hlate.
    assert (Hd : 0 <= _timespec_compare (gettime (at_time now)).1 (abs_timeout t)); [|lia].
    apply due_time; [done|exact (Hts a t Ht)|]. rewrite Heq. done.
  - injection Hsplit as <- _. cbn [omap list_omap]. unfold callback_of at 1. rewrite Ht. cbn [mbind option_bind]. unfold is_running. rewrite Hrun, Hf. cbn.
    by eexists.
Qed.

End FirstTimer.

(** [select] returns when the time is over, at most [slack] late. *)
Definition on_time (slack : Z) (st : timer_state) (u : turn) : Prop :=
  exists d, sleep_of st u = Some d /\ started_at u + d <= woken_at u <= started_at u + d + slack.

Lemma quiet_turn st u d st' c' : readable u = false -> sleep_of st u = Some d ->
  p_timer_loop_once st (at_time (woken_at u)) = Some (st', c') -> main_loop_turn u st = Some st'.
Proof. intros Hu Hd Hp. unfold main_loop_turn. rewrite Hd. cbn [mbind option_bind]. by rewrite Hu, Hp. Qed.

(** ** Properties *)

(** C30: In every reachable state the thread goes through any sequence of turns
    without following a pointer to nothing and without an endless loop; it
    ends exactly when the flag is set at the end of a turn, and leaves a
    reachable state with a well-formed sorted list. *)
Theorem main_loop_ends turns : forall st, reachable_thread st -> Forall turn_ok turns ->
  exists st' l, p_timer_mian_loop turns st = Some (st', existsb (fun u => negb (quit_ctl u =? 0)) turns) /\
    reachable_thread st' /\ timer_inv st' l.
Proof.
  induction turns as [|u turns IH]; intros st Hr Hu; cbn [p_timer_mian_loop existsb].
  - destruct (reachable_thread_ok st Hr) as [(_ & l & Hl) _]. by exists st, l.
  - apply Forall_cons in Hu as [Hu1 Hu]. destruct (turn_runs st u Hr Hu1) as (st1 & Hrun & Hr1). rewrite Hrun. cbn [mbind option_bind].
    destruct (quit_ctl u =? 0); cbn [negb orb]; [by apply IH|].
    destruct (reachable_thread_ok st1 Hr1) as [(_ & l & Hl) _]. by exists st1, l.
Qed.

(** C4: A running timer that is first in the list is called by the next turn
    or the one after it when nothing else happens: never before it expires,
    and at most a millisecond and twice the lateness of [select] after. *)
Theorem first_timer_called slack st a l t f u1 u2 : let E := time_of (abs_timeout t) in
  reachable_thread st -> timer_inv st (a :: l) -> heap st !! a = Some t -> status t = TIMER_RUNNING -> cb t = Some f ->
  turn_ok u1 -> turn_ok u2 -> readable u1 = false -> readable u2 = false -> on_time slack st u1 ->
  (woken_at u1 < E -> woken_at u1 <= started_at u2 <= woken_at u1 + slack /\ on_time slack st u2) ->
  (exists st1, main_loop_turn u1 st = Some st1 /\ called f (userdata t) st st1 /\
    E <= woken_at u1 <= Z.max E (started_at u1) + 1000000 + slack) \/
  (main_loop_turn u1 st = Some st /\ exists st2, main_loop_turn u2 st = Some st2 /\ called f (userdata t) st st2 /\
    E <= woken_at u2 <= E + 1000000 + 2 * slack).
Proof.
  intros E Hr Hl Ht Hrun Hf Hu1 Hu2 Hq1 Hq2 (d1 & Hd1 & Hw1) Hnext. pose proof (reachable_thread_ok st Hr) as Hok.
  destruct (sleep_of_spec st _ u1 Hok Hl Hu1) as (d & Hd & Hmin1 & Hb1). rewrite Hd1 in Hd. injection Hd as <-.
  unfold expiry in Hb1. rewrite Ht in Hb1. fold E in Hb1. cbv zeta in Hb1. destruct (Z.le_gt_cases E (woken_at u1)) as [Hdue|Hearly].
  - left. destruct (pass_due st a l t f Hok Hl Ht Hrun Hf (woken_at u1) (proj2 Hu1) Hdue) as (st1 & c1 & Hp & Hc).
    exists st1. split; [by eapply quiet_turn|]. split; [done|]. bool_cases; lia.
  - right. destruct (pass_early st a l t Hok Hl Ht (woken_at u1) (proj2 Hu1) Hearly) as (c1 & Hp1). split; [by eapply quiet_turn|].
    destruct (Hnext Hearly) as (Hs2 & d2 & Hd2 & Hw2). destruct (sleep_of_spec st _ u2 Hok Hl Hu2) as (d & Hd & Hmin2 & Hb2).
    rewrite Hd2 in Hd. injection Hd as <-. unfold expiry in Hb2. rewrite Ht in Hb2. fold E in Hb2. cbv zeta in Hb2.
    assert (Hdue : E <= woken_at u2 <= E + 1000000 + 2 * slack) by (bool_cases; lia).
    destruct (pass_due st a l t f Hok Hl Ht Hrun Hf (woken_at u2) (proj2 Hu2) (proj1 Hdue)) as (st2 & c2 & Hp2 & Hc).
    exists st2. split; [by eapply quiet_turn|]. done.
Qed.

(** A timer of 10 ms, started at second 1; the thread looks 7 ms later, wakes
    half a microsecond early, and sleeps a millisecond more. *)
Definition demo_turn1 : turn := Turn 1007000500 1009999500 false 0.
Definition demo_turn2 : turn := Turn 1009999600 1010999600 false 1.

Lemma one_timer_reachable : reachable_thread one_timer.
Proof.
  assert (H : reachable timer_step timer_initial one_timer) by (apply added_reachable; [vm_compute; congruence|apply fresh_reachable]).
  induction H as [st Hi|st st' _ IH Hs]; [by apply reach_init|]. eapply reach_step; [exact IH|by apply thread_call].
Qed.

Lemma main_loop_ends_witness : exists st', p_timer_mian_loop [demo_turn1; demo_turn2] one_timer = Some (st', true).
Proof.
  destruct (main_loop_ends [demo_turn1; demo_turn2] one_timer one_timer_reachable) as (st' & l & H & _).
  - repeat constructor; vm_compute; congruence.
  - exists st'. exact H.
Defined.

Lemma first_timer_called_witness : main_loop_turn demo_turn1 one_timer = Some one_timer /\
  exists st2, main_loop_turn demo_turn2 one_timer = Some st2 /\ called 101 (Some 1) one_timer st2.
Proof.
  destruct (proj1 (reachable_thread_ok one_timer one_timer_reachable)) as (_ & l & Hl).
  pose proof Hl as [(_ & Hh & _) _]. destruct l as [|a l]; [vm_compute in Hh; discriminate Hh|]. vm_compute in Hh. injection Hh as <-.
  assert (Hon1 : on_time 1000 one_timer demo_turn1) by (exists 2999000; split; [vm_compute; reflexivity|vm_compute; split; congruence]).
  assert (Hon2 : on_time 1000 one_timer demo_turn2) by (exists 1000000; split; [vm_compute; reflexivity|vm_compute; split; congruence]).
  destruct (first_timer_called 1000 one_timer _ l (Timer.Timer None None (Timespec 1 10000000) (Some 101) 10 (Some 1) 1 0 TIMER_RUNNING) 101 demo_turn1 demo_turn2
    one_timer_reachable Hl ltac:(vm_compute; reflexivity) eq_refl eq_refl ltac:(split; vm_compute; split; congruence)
    ltac:(split; vm_compute; split; congruence) eq_refl eq_refl Hon1 ltac:(intros _; split; [vm_compute; split; congruence|exact Hon2]))
    as [(_ & _ & _ & H & _)|(H1 & st2 & H2 & H3 & _)].
  - exfalso. vm_compute in H. by apply H.
  - split; [exact H1|]. by exists st2.
Defined.
