(* ===== verification/FileUtils.v ===== *)
(** * File utilities ([src/utils/file_utils.c])

    Sizes and contents of files, the operations that run a shell command, and
    the directory part of a path.  The file system and the shell answer; a
    path is a string without null bytes. *)

From Stdlib Require Import Ascii.
From S2P Require Import Prelude Utils Lru.

Definition PCU_ERR_SUCCESS : Z := 0.
Definition PCU_ERR : Z := -1.

(** ** Files *)

(** [st] is what [stat] finds: the size of the file. *)
Definition file_size (file_path : option string) (st : option Z) : Z :=
  match file_path, st with
  | Some _, Some st_size => uint32 st_size
  | _, _ => 0
  end.

(** What the calls on the stream answer: the bytes of the file, the result of
    [fseek], and how many bytes [fread] delivers at most. *)
Record stream := Stream { content : list Z; fseek_ok : bool; delivers : nat }.

(** [data] and [len] are the pointers to the results; the buffer is [fSize]
    bytes, of which [fread] fills the first. *)
Definition get_file_data (file_path : option string) (data : option (option (list Z))) (len : option Z)
    (fp : option stream) (o : list bool) : Z * option (option (list Z)) * option Z * list bool :=
  match file_path, data, len with
  | Some _, Some _, Some _ =>
    match fp with
    | None => (PCU_ERR, data, len, o)
    | Some f =>
      if negb (fseek_ok f) then (PCU_ERR, data, len, o) else
      let fSize := uint32 (Z.of_nat (length (content f))) in
      if fSize <=? 0 then (PCU_ERR, data, len, o) else
      let '(ok, o) := malloc o in
      if negb ok then (PCU_ERR, data, len, o) else
      let readSize := Nat.min (delivers f) (Z.to_nat fSize) in
      let buf := (take readSize (content f) ++ replicate (Z.to_nat fSize - readSize) 0)%list in
      if Z.of_nat readSize <=? 0 then (PCU_ERR, data, len, o)
      else (PCU_ERR_SUCCESS, Some (Some buf), Some (Z.of_nat readSize), o)
    end
  | _, _, _ => (PCU_ERR, data, len, o)
  end.

(** ** Shell commands

    [popen] answers whether the shell could be started; the command it is
    given is part of the result.  The exit status is not looked at. *)

Definition run_command (cmd : string) (popen_ok : bool) : bool * string := (popen_ok, cmd).

Definition file_copy (dst src : string) (popen_ok : bool) : bool * string :=
  run_command ("cp " ++ src ++ " " ++ dst)%string popen_ok.
Definition file_move (dst src : string) (popen_ok : bool) : bool * string :=
  run_command ("mv " ++ src ++ " " ++ dst)%string popen_ok.
Definition file_remove (dst : string) (popen_ok : bool) : bool * string :=
  run_command ("rm " ++ dst)%string popen_ok.

Definition file_exist (access_ok : bool) : bool := access_ok.

(** [None]: [stat] fails; otherwise whether the path is a directory. *)
Definition is_directory (st : option bool) : bool := default false st.

Definition dir_size_command (path : string) : string :=
  String.substring 0 511 ("du -s " ++ path ++ " | awk '{print $1}'")%string.

(** [scan] is [sscanf] with ["%ld"]; [output] what the command prints. *)
Definition dir_size (scan : string -> option Z) (popen_ok : bool) (output : string) : Z :=
  if negb popen_ok then -1
  else
    let buf := String.substring 0 128 output in
    if Nat.eqb (String.length buf) 0 then -1
    else match scan buf with Some size => size | None => -1 end.

(** ** The directory of a path *)

Definition is_separator (c : ascii) : bool := Ascii.eqb c "/" || Ascii.eqb c "\".

(** The loop from [i] down to 1. *)
Fixpoint last_slash (path : list ascii) (i : nat) : option nat :=
  match i with
  | O => None
  | S i' => if from_option is_separator false (path !! i) then Some i else last_slash path i'
  end.

Definition dot : list ascii := ["."%char].
Definition slash : list ascii := ["/"%char].

(** A failed allocation is a write through a null pointer, [None]; [strdup]
    gives a null pointer instead. *)
Definition extract_directory (path : option (list ascii)) (o : list bool) : option (option (list ascii)) :=
  match path with
  | None => Some None
  | Some path =>
    let '(ok, _) := malloc o in
    let len := length path in
    if Nat.eqb len 0 then Some (if ok then Some dot else None) else
    match last_slash path (len - 1) with
    | None => Some (if ok then Some dot else None)
    | Some i =>
      if Nat.eqb i 0 then (if ok then Some (Some slash) else None)
      else if ok then Some (Some (take i path)) else None
    end
  end.

(** ** Lemmas *)

Lemma last_slash_spec path i :
  match last_slash path i with
  | Some j => (0 < j <= i)%nat /\ (exists c, path !! j = Some c /\ is_separator c = true) /\
              forall k c, (j < k <= i)%nat -> path !! k = Some c -> is_separator c = false
  | None => forall k c, (0 < k <= i)%nat -> path !! k = Some c -> is_separator c = false
  end.
Proof.
  induction i as [|i IH]; cbn [last_slash]; [intros; lia|].
  destruct (path !! S i) as [c|] eqn:Hc; cbn [from_option].
  - destruct (is_separator c) eqn:Hs.
    + split; [lia|]. split; [by exists c|]. intros; lia.
    + destruct (last_slash path i) as [j|].
      * destruct IH as (Hj & He & Hk). split; [lia|]. split; [done|]. intros k c' Hkj Hc'.
        destruct (decide (k = S i)) as [->|]; [congruence|]. apply (Hk k); [lia|done].
      * intros k c' Hki Hc'. destruct (decide (k = S i)) as [->|]; [congruence|]. apply (IH k); [lia|done].
  - destruct (last_slash path i) as [j|].
    + destruct IH as (Hj & He & Hk). split; [lia|]. split; [done|]. intros k c' Hkj Hc'.
      destruct (decide (k = S i)) as [->|]; [congruence|]. apply (Hk k); [lia|done].
    + intros k c' Hki Hc'. destruct (decide (k = S i)) as [->|]; [congruence|]. apply (IH k); [lia|done].
Qed.

(** ** Properties *)

(** what [extract_directory] returns for a path that is split at its last
    separator: the part before it; [.] when that part is empty, so for a file
    of the root directory too, or when there is no separator. *)
Theorem extract_directory_splits (dir base : list ascii) (sep : ascii) :
  is_separator sep = true -> Forall (fun c => is_separator c = false) base ->
  extract_directory (Some (dir ++ sep :: base)) [] = Some (Some (match dir with [] => dot | _ => dir end)) /\
  extract_directory (Some base) [] = Some (Some dot).
Proof.
  intros Hsep Hbase. split.
  - unfold extract_directory. cbn [malloc]. rewrite length_app. cbn [length]. rewrite Nat.add_succ_r. cbn [Nat.eqb].
    replace (S (length dir + length base) - 1)%nat with (length dir + length base)%nat by lia.
    pose proof (last_slash_spec (dir ++ sep :: base) (length dir + length base)) as Hspec.
    assert (Hmid : (dir ++ sep :: base) !! length dir = Some sep) by by apply list_lookup_middle.
    assert (Hlate : forall k c, (length dir < k)%nat -> (dir ++ sep :: base) !! k = Some c -> is_separator c = false).
    { intros k c Hk Hc. apply (proj1 (Forall_lookup _ _) Hbase (k - length dir - 1)%nat).
      rewrite lookup_app_r in Hc by lia. rewrite lookup_cons_ne_0 in Hc by lia. by rewrite <- Nat.sub_1_r in Hc. }
    destruct (last_slash _ _) as [j|].
    + destruct Hspec as (Hj & (c & Hc & Hsc) & Hk).
      assert (j = length dir) as ->.
      { destruct (Nat.lt_trichotomy j (length dir)) as [Hlt|[->|Hlt]]; [|done|].
        - rewrite (Hk (length dir) sep) in Hsep; [done|lia|done].
        - rewrite (Hlate j c) in Hsc; done. }
      destruct dir as [|d dir]; [simpl in Hj; lia|]. change (Nat.eqb (length (d :: dir)) 0) with false. cbv iota. by rewrite take_app_length.
    + destruct dir as [|d dir]; [done|]. rewrite (Hspec (length (d :: dir)) sep) in Hsep; [done|simpl; lia|done].
  - unfold extract_directory. cbn [malloc]. destruct (Nat.eqb (length base) 0); [done|].
    pose proof (last_slash_spec base (length base - 1)) as Hspec. destruct (last_slash _ _) as [j|]; [|done].
    destruct Hspec as (_ & (c & Hc & Hs) & _). by rewrite (proj1 (Forall_lookup _ _) Hbase j c Hc) in Hs.
Qed.

Lemma extract_directory_splits_witness :
  extract_directory (Some ["/"; "a"; "/"; "b"]%char) [] = Some (Some ["/"; "a"]%char) /\
  extract_directory (Some ["/"; "b"]%char) [] = Some (Some dot).
Proof.
  split.
  - apply (extract_directory_splits ["/"; "a"]%char ["b"]%char "/"%char); [reflexivity|by repeat constructor].
  - apply (extract_directory_splits [] ["b"]%char "/"%char); [reflexivity|by repeat constructor].
Defined.

(** [get_file_data] of a file below 4 GiB either fails and leaves its
    results alone, or delivers a buffer that begins with the bytes read, whose
    number it reports; with memory and a stream that works it succeeds on every
    file that is not empty, with its whole content. *)
Theorem get_file_data_reads path data len f o :
  Z.of_nat (length (content f)) < 2 ^ 32 ->
  let '(ret, data', len', _) := get_file_data (Some path) (Some data) (Some len) (Some f) o in
  ((ret = PCU_ERR /\ data' = Some data /\ len' = Some len) \/
   (ret = PCU_ERR_SUCCESS /\ exists buf n, data' = Some (Some buf) /\ len' = Some (Z.of_nat n) /\ (0 < n)%nat /\
      length buf = length (content f) /\ take n buf = take n (content f))) /\
  (o = [] -> fseek_ok f = true -> (length (content f) <= delivers f)%nat -> content f <> [] ->
   ret = PCU_ERR_SUCCESS /\ data' = Some (Some (content f)) /\ len' = Some (Z.of_nat (length (content f)))).
Proof.
  intros Hl. unfold get_file_data. rewrite uint_id by lia. destruct (fseek_ok f); cbn [negb]; [|split; [by left|done]].
  destruct (Z.leb_spec (Z.of_nat (length (content f))) 0) as [H0|H0].
  { split; [by left|]. intros _ _ _ Hne. destruct (content f); [done|simpl in H0; lia]. }
  rewrite Nat2Z.id. set (n := Nat.min (delivers f) (length (content f))).
  assert (Hn : (n <= length (content f))%nat) by (unfold n; lia).
  destruct (malloc o) as [[] o'] eqn:Hm; cbn [negb].
  - destruct (Z.leb_spec (Z.of_nat n) 0) as [Hz|Hz]; (split; [|intros -> _ Hd Hne]).
    + by left.
    + unfold n in Hz. lia.
    + right. split; [done|]. eexists _, n. split; [done|]. split; [done|]. split; [lia|].
      assert (Ht : length (take n (content f)) = n) by (rewrite length_take; lia).
      split; [rewrite length_app, length_replicate; lia|]. rewrite take_app_le by lia. by rewrite take_take, Nat.min_id.
    + assert (n = length (content f)) as -> by (unfold n; lia). by rewrite firstn_all, Nat.sub_diag, app_nil_r.
  - split; [by left|]. intros ->. done.
Qed.

Lemma get_file_data_reads_witness :
  get_file_data (Some "/etc/x"%string) (Some None) (Some 7) (Some (Stream [1; 2; 3] true 9)) [] =
    (PCU_ERR_SUCCESS, Some (Some [1; 2; 3]), Some 3, []).
Proof.
  pose proof (get_file_data_reads "/etc/x" None 7 (Stream [1; 2; 3] true 9) [] ltac:(simpl; lia)) as H.
  cbn -[Z.lt Z.of_nat] in H. destruct H as [_ H]. destruct (H eq_refl eq_refl ltac:(lia) ltac:(done)) as (_ & _ & _). reflexivity.
Defined.
