(* ===== verification/EventLoop.v ===== *)
(** * The event loop ([src/peventloop])

    The monotonic clock behind a function pointer ([monotonic.c]), the
    creation of a loop with its allocations and its epoll descriptor
    ([peventloop.c], [p_epoll.c]) and the close-on-exec flag ([anet.c]).  The
    program creates loops and has no code to run or free one. *)

From S2P Require Import Prelude Utils.

(** ** The clock ([monotonic.c]) *)

Inductive clock_fn := GetMonotonicUs_posix.

Record monotonic_t := Mono { getMonotonicUs : option clock_fn; monotonic_info_string : string }.

Definition monotonic_start : monotonic_t := Mono None EmptyString.

(** [tv_sec * 1000000 + tv_nsec / 1000] in [uint64_t], of a reading in
    nanoseconds. *)
Definition getMonotonicUs_posix (ns : Z) : Z :=
  uint64 (uint64 (ns / 1000000000) * 1000000 + (ns mod 1000000000) / 1000).

Definition monotonicInit_posix (m : monotonic_t) : monotonic_t := Mono (Some GetMonotonicUs_posix) "POSIX clock_gettime".

Definition monotonicInit (m : monotonic_t) : string * monotonic_t :=
  let m := match getMonotonicUs m with None => monotonicInit_posix m | Some _ => m end in
  (monotonic_info_string m, m).

Inductive monotonic_clock_e := MONOTONIC_CLOCK_POSIX | MONOTONIC_CLOCK_HW.

Definition monotonicGetType (m : monotonic_t) : monotonic_clock_e :=
  match getMonotonicUs m with Some GetMonotonicUs_posix => MONOTONIC_CLOCK_POSIX | None => MONOTONIC_CLOCK_HW end.

(** ** Descriptor flags ([anet.c]) *)

Definition FD_CLOEXEC : Z := 1.

(** What a call of [fcntl] does: interrupted, refused, or done. *)
Inductive fcntl_answer := Eintr | Refused | Done.

(** The loop that repeats an interrupted call: what the last call did, and the
    answers to come; [None] when every call is interrupted. *)
Fixpoint repeat_call (answers : list fcntl_answer) : option (bool * list fcntl_answer) :=
  match answers with
  | [] => None
  | Eintr :: rest => repeat_call rest
  | Refused :: rest => Some (false, rest)
  | Done :: rest => Some (true, rest)
  end.

(** The result and the flags of the descriptor, which were [flags]. *)
Definition anetCloexec (flags : Z) (answers : list fcntl_answer) : option (Z * Z) :=
  '(ok, rest) ← repeat_call answers;
  let r := if ok : bool then flags else -1 in
  if (r =? -1) || negb (Z.land r FD_CLOEXEC =? 0) then Some (r, flags)
  else
    '(ok, _) ← repeat_call rest;
    if ok : bool then Some (0, Z.lor r FD_CLOEXEC) else Some (-1, flags).

(** ** Memory *)

(** The blocks allocated, by address; addresses are not used again. *)
Record heap := Heap { blocks : gset Z; next : Z }.

Definition malloc_block (h : heap) (o : list bool) : option Z * heap * list bool :=
  let '(ok, o) := malloc o in
  if ok then (Some (next h), Heap ({[next h]} ∪ blocks h) (next h + 1), o) else (None, h, o).

(** Freeing a null pointer does nothing; any other pointer must be allocated. *)
Definition free_block (p : option Z) (h : heap) : option heap :=
  match p with
  | None => Some h
  | Some p => if decide (p ∈ blocks h) then Some (Heap (blocks h ∖ {[p]}) (next h)) else None
  end.

(** ** The loop ([peventloop.h], [p_epoll.c]) *)

Definition P_OK : Z := 0.
Definition P_ERR : Z := -1.
Definition P_DONT_WAIT : Z := Z.shiftl 1 2.
Definition INITIAL_EVENT : Z := 1024.

Record pApiState_t := ApiState { state_block : Z; epfd : Z; epoll_events : option Z }.

Record pEventLoop_t := EventLoop {
  loop_block : Z;
  maxfd : Z;
  setsize : Z;
  timeEventNextId : Z;
  nevents : Z;
  events : option Z;
  fired : option Z;
  stop : Z;
  apidata : option pApiState_t;
  flags : Z
}.

(** The block of the structure is freed last. *)
Definition free_eventloop (loop : Z) (events fired : option Z) (h : heap) : option heap :=
  h ← free_block events h;
  h ← free_block fired h;
  free_block (Some loop) h.

(** [epoll_create] gives a descriptor or [-1]. *)
Definition pApiCreate (epoll_fd : Z) (h : heap) (o : list bool) : option (option pApiState_t * heap * list bool) :=
  let '(state, h, o) := malloc_block h o in
  match state with
  | None => Some (None, h, o)
  | Some state =>
    let '(evs, h, o) := malloc_block h o in
    match evs with
    | None => h ← free_block (Some state) h; Some (None, h, o)
    | Some evs =>
      if epoll_fd =? -1 then
        h ← free_block (Some evs) h;
        h ← free_block (Some state) h;
        Some (None, h, o)
      else Some (Some (ApiState state epoll_fd (Some evs)), h, o)
    end
  end.

(** [None] is the freeing of memory that is not allocated. *)
Definition pCreateEventLoop (size : Z) (epoll_fd : Z) (m : monotonic_t) (h : heap) (o : list bool)
    : option (option pEventLoop_t * monotonic_t * heap * list bool) :=
  let '(_, m) := monotonicInit m in
  let '(loop, h, o) := malloc_block h o in
  match loop with
  | None => Some (None, m, h, o)
  | Some loop =>
    let n := if size <? INITIAL_EVENT then size else INITIAL_EVENT in
    let '(evs, h, o) := malloc_block h o in
    let '(frd, h, o) := malloc_block h o in
    match evs, frd with
    | Some _, Some _ =>
      '(api, h, o) ← pApiCreate epoll_fd h o;
      match api with
      | None => h ← free_eventloop loop evs frd h; Some (None, m, h, o)
      | Some api => Some (Some (EventLoop loop 0 size 0 n evs frd 0 (Some api) 0), m, h, o)
      end
    | _, _ => h ← free_eventloop loop evs frd h; Some (None, m, h, o)
    end
  end.

Definition pGetSetSize (l : pEventLoop_t) : Z := setsize l.

Definition set_flags (l : pEventLoop_t) (f : Z) : pEventLoop_t :=
  EventLoop (loop_block l) (maxfd l) (setsize l) (timeEventNextId l) (nevents l) (events l) (fired l) (stop l) (apidata l) f.

Definition pSetDontWait (l : pEventLoop_t) (noWait : Z) : pEventLoop_t :=
  set_flags l (if negb (noWait =? 0) then Z.lor (flags l) P_DONT_WAIT else Z.land (flags l) (Z.lnot P_DONT_WAIT)).

(** [None]: the end of the function is reached without a value. *)
Definition pResizeSetSize (l : pEventLoop_t) (size : Z) : option Z :=
  if size =? setsize l then Some P_OK
  else if size <=? maxfd l then Some P_ERR
  else None.

(** What [realloc] does with a block that is allocated. *)
Inductive realloc_answer := InPlace | Moved | Failed.

Definition realloc_block (p : option Z) (a : realloc_answer) (h : heap) : option (option Z * heap) :=
  match a with
  | InPlace => match p with Some b => if decide (b ∈ blocks h) then Some (p, h) else None | None => Some (None, h) end
  | Moved => h ← free_block p h; Some (Some (next h), Heap ({[next h]} ∪ blocks h) (next h + 1))
  | Failed => Some (None, h)
  end.

(** The block of the loop's [events] is resized and becomes the state's; the
    loop keeps its pointer. *)
Definition pApiResize (l : pEventLoop_t) (a : realloc_answer) (h : heap) : option (Z * pEventLoop_t * heap) :=
  match apidata l with
  | None => None
  | Some s =>
    '(p, h) ← realloc_block (events l) a h;
    Some (0, EventLoop (loop_block l) (maxfd l) (setsize l) (timeEventNextId l) (nevents l) (events l) (fired l) (stop l)
               (Some (ApiState (state_block s) (epfd s) p)) (flags l), h)
  end.

(** ** Lemmas *)

(** Addresses to come are not in use. *)
Definition heap_ok (h : heap) : Prop := forall p, p ∈ blocks h -> p < next h.

Lemma malloc_block_spec h o : heap_ok h ->
  (exists o', malloc_block h o = (None, h, o')) \/
  (exists o', malloc_block h o = (Some (next h), Heap ({[next h]} ∪ blocks h) (next h + 1), o') /\
     heap_ok (Heap ({[next h]} ∪ blocks h) (next h + 1)) /\ next h ∉ blocks h).
Proof.
  intros Hh. unfold malloc_block. destruct (malloc o) as [[] o']; [right|left]; exists o'; [|done].
  split; [done|]. split.
  - intros p [->%elem_of_singleton|Hp%Hh]%elem_of_union; simpl; lia.
  - intros Hp%Hh. lia.
Qed.

Lemma free_block_some p h : p ∈ blocks h -> free_block (Some p) h = Some (Heap (blocks h ∖ {[p]}) (next h)).
Proof. intros Hp. unfold free_block. by rewrite decide_True. Qed.

(** ** Properties *)

(** The blocks of a loop. *)
Definition loop_blocks (l : pEventLoop_t) : gset Z :=
  {[loop_block l]} ∪ list_to_set (option_list (events l)) ∪ list_to_set (option_list (fired l)) ∪
  match apidata l with Some s => {[state_block s]} ∪ list_to_set (option_list (epoll_events s)) | None => ∅ end.

(** A heap with the blocks of [h] and those of the list, all of them new. *)
Definition extends (h h' : heap) (ps : list Z) : Prop :=
  (forall p, p ∈ blocks h' <-> p ∈ blocks h \/ p ∈ ps) /\ NoDup ps /\ (forall p, p ∈ ps -> p ∉ blocks h) /\ next h <= next h' /\
  forall p, p ∈ ps -> p < next h'.

Lemma free_extends h h' ps qs p : extends h h' (ps ++ p :: qs) -> exists h'', free_block (Some p) h' = Some h'' /\ extends h h'' (ps ++ qs).
Proof.
  intros (Hb & Hnd & Hn & Hnext & Hlt). eexists. split; [apply free_block_some; apply Hb; set_solver|].
  rewrite <- Permutation_middle in Hnd. apply NoDup_cons in Hnd as [Hp Hnd].
  split; [|split; [done|split; [set_solver|split; [done|set_solver]]]]. intros q. cbn [blocks]. specialize (Hb q). specialize (Hn p). set_solver.
Qed.

Lemma free_null h : free_block None h = Some h.
Proof. done. Qed.

Lemma malloc_extends h h' ps o : heap_ok h -> extends h h' ps ->
  (exists o', malloc_block h' o = (None, h', o')) \/
  (exists o' p h'', malloc_block h' o = (Some p, h'', o') /\ extends h h'' (ps ++ [p])).
Proof.
  intros Hh (Hb & Hnd & Hn & Hnext & Hlt). unfold malloc_block. destruct (malloc o) as [[] o']; [right|left]; exists o'; [|done].
  assert (Hfresh : next h' ∉ ps) by (intros Hp%Hlt; lia).
  assert (Hold : next h' ∉ blocks h) by (intros Hp%Hh; lia).
  eexists _, _. split; [done|]. split; [|split; [|split; [|split]]]; cbn [blocks next].
  - intros p. specialize (Hb p). set_solver.
  - apply NoDup_app. split; [done|]. split; [set_solver|apply NoDup_singleton].
  - set_solver.
  - lia.
  - intros p [Hp%Hlt|Hp]%elem_of_app; [lia|]. apply list_elem_of_singleton in Hp as ->. lia.
Qed.

Lemma extends_nil h h' : extends h h' [] -> blocks h' = blocks h.
Proof. intros [Hb _]. apply set_eq. intros p. rewrite Hb. set_solver. Qed.

Lemma extends_ok h h' ps : heap_ok h -> extends h h' ps -> heap_ok h'.
Proof. intros Hh (Hb & _ & _ & Hnext & Hlt) p [Hp%Hh|Hp%Hlt]%Hb; lia. Qed.

(** Every block is freed, whichever of them the allocator gave. *)
Lemma free_eventloop_all h h' loop evs frd : extends h h' (loop :: option_list evs ++ option_list frd) ->
  exists h'', free_eventloop loop evs frd h' = Some h'' /\ extends h h'' [].
Proof.
  intros H0. unfold free_eventloop.
  assert (H1 : exists h1, free_block evs h' = Some h1 /\ extends h h1 (loop :: option_list frd)).
  { destruct evs as [e|]; [exact (free_extends h h' [loop] (option_list frd) e H0)|by exists h']. }
  destruct H1 as (h1 & -> & H1). cbn [mbind option_bind].
  assert (H2 : exists h2, free_block frd h1 = Some h2 /\ extends h h2 [loop]).
  { destruct frd as [f|]; [exact (free_extends h h1 [loop] [] f H1)|by exists h1]. }
  destruct H2 as (h2 & -> & H2). cbn [mbind option_bind]. exact (free_extends h h2 [] [] loop H2).
Qed.

(** What is built on top of the blocks [ps] is freed again when it fails. *)
Lemma pApiCreate_spec h h' ps epoll_fd o : heap_ok h -> extends h h' ps ->
  exists r h'' o', pApiCreate epoll_fd h' o = Some (r, h'', o') /\
    match r with
    | None => extends h h'' ps
    | Some s => exists e, epoll_events s = Some e /\ epoll_fd <> -1 /\ extends h h'' (ps ++ [state_block s; e])
    end.
Proof.
  intros Hh He. unfold pApiCreate.
  destruct (malloc_extends h h' ps o Hh He) as [(o1 & ->)|(o1 & p1 & h1 & -> & H1)]; [by exists None, h', o1|].
  destruct (malloc_extends h h1 _ o1 Hh H1) as [(o2 & ->)|(o2 & p2 & h2 & -> & H2)].
  - destruct (free_extends h h1 ps [] p1 H1) as (h2 & -> & H2). cbn [mbind option_bind]. exists None, h2, o2. by rewrite app_nil_r in H2.
  - destruct (Z.eqb_spec epoll_fd (-1)) as [->|Hfd].
    + destruct (free_extends h h2 (ps ++ [p1]) [] p2 H2) as (h3 & -> & H3). cbn [mbind option_bind]. rewrite app_nil_r in H3.
      destruct (free_extends h h3 ps [] p1 H3) as (h4 & -> & H4). cbn [mbind option_bind]. exists None, h4, o2. by rewrite app_nil_r in H4.
    + eexists _, h2, o2. split; [done|]. exists p2. split; [done|]. split; [done|]. by rewrite <- app_assoc in H2.
Qed.

(** A failure, or a loop on five blocks. *)
Definition created (h : heap) (size epoll_fd : Z) (r : option pEventLoop_t) (h' : heap) : Prop :=
  match r with
  | None => extends h h' []
  | Some l => exists p evs frd s e, epoll_events s = Some e /\ epoll_fd <> -1 /\
      l = EventLoop p 0 size 0 (if size <? INITIAL_EVENT then size else INITIAL_EVENT) (Some evs) (Some frd) 0 (Some s) 0 /\
      extends h h' [p; evs; frd; state_block s; e]
  end.

Lemma pCreateEventLoop_created size epoll_fd m h o : heap_ok h ->
  exists r h' o', pCreateEventLoop size epoll_fd m h o = Some (r, (monotonicInit m).2, h', o') /\ created h size epoll_fd r h'.
Proof.
  intros Hh. unfold pCreateEventLoop. destruct (monotonicInit m) as [str m']. cbn [snd].
  assert (H0 : extends h h []) by (split; [set_solver|split; [constructor|split; [set_solver|split; [done|set_solver]]]]).
  destruct (malloc_extends h h [] o Hh H0) as [(o1 & ->)|(o1 & p & h1 & -> & H1)]; [by exists None, h, o1|]. cbn [app] in H1.
  assert (Hfree : forall evs frd hx (ox : list bool), extends h hx (p :: option_list evs ++ option_list frd) ->
    exists r h' o', (h2 ← free_eventloop p evs frd hx; Some (@None pEventLoop_t, m', h2, ox)) = Some (r, m', h', o') /\ created h size epoll_fd r h').
  { intros evs frd hx ox Hx. destruct (free_eventloop_all h hx p evs frd Hx) as (h2 & -> & H2). by exists None, h2, ox. }
  destruct (malloc_extends h h1 [p] o1 Hh H1) as [(o2 & ->)|(o2 & evs & h2 & -> & H2)].
  - destruct (malloc_extends h h1 [p] o2 Hh H1) as [(o3 & ->)|(o3 & frd & h3 & -> & H3)].
    + by apply (Hfree None None).
    + by apply (Hfree None (Some frd)).
  - destruct (malloc_extends h h2 _ o2 Hh H2) as [(o3 & ->)|(o3 & frd & h3 & -> & H3)]; [by apply (Hfree (Some evs) None)|].
    destruct (pApiCreate_spec h h3 _ epoll_fd o3 Hh H3) as (r & h4 & o4 & -> & H4). cbn [mbind option_bind].
    destruct r as [s|]; [|by apply (Hfree (Some evs) (Some frd))].
    destruct H4 as (e & He & Hfd & H4). eexists _, h4, o4. split; [done|]. by exists p, evs, frd, s, e.
Qed.

(** the creation of a loop frees only what it allocated: it fails and leaves
    the memory as it was, or returns a loop that owns five new blocks, with
    room for at most 1024 events; whichever allocation fails. *)
Theorem create_event_loop_accounts size epoll_fd m h o : heap_ok h ->
  exists r m' h' o', pCreateEventLoop size epoll_fd m h o = Some (r, m', h', o') /\ heap_ok h' /\
    getMonotonicUs m' = Some GetMonotonicUs_posix /\
    match r with
    | None => blocks h' = blocks h
    | Some l => blocks h' = loop_blocks l ∪ blocks h /\ loop_blocks l ## blocks h /\ base.size (loop_blocks l) = 5%nat /\
        setsize l = size /\ nevents l = Z.min size 1024 /\ epoll_fd <> -1
    end.
Proof.
  intros Hh. destruct (pCreateEventLoop_created size epoll_fd m h o Hh) as (r & h' & o' & Hrun & Hc).
  exists r, (monotonicInit m).2, h', o'. split; [done|]. split; [|split].
  - destruct r; [destruct Hc as (?&?&?&?&?&_&_&_&Hc)|]; by eapply extends_ok.
  - unfold monotonicInit. by destruct (getMonotonicUs m) as [[]|] eqn:Hg.
  - destruct r as [l|]; [|by apply extends_nil].
    destruct Hc as (p & evs & frd & s & e & He & Hfd & -> & Hb & Hnd & Hn & _).
    assert (Hl : forall q, q ∈ loop_blocks (EventLoop p 0 size 0 (if size <? INITIAL_EVENT then size else INITIAL_EVENT) (Some evs) (Some frd) 0 (Some s) 0) <->
      q ∈ [p; evs; frd; state_block s; e]) by (intros q; unfold loop_blocks; cbn; rewrite He; set_solver).
    split; [|split; [|split; [|split; [done|split; [|done]]]]].
    + apply set_eq. intros q. rewrite elem_of_union, Hl, Hb. tauto.
    + intros q Hq Hq'. apply (Hn q); [by apply Hl|done].
    + transitivity (base.size (list_to_set [p; evs; frd; state_block s; e] : gset Z)); [|by rewrite size_list_to_set].
      f_equal. apply set_eq. intros q. by rewrite Hl, elem_of_list_to_set.
    + cbn [nevents]. unfold INITIAL_EVENT. destruct (Z.ltb_spec size 1024); lia.
Qed.

Lemma create_event_loop_accounts_witness :
  exists l m' h' o', pCreateEventLoop 4096 5 monotonic_start (Heap ∅ 1) [] = Some (Some l, m', h', o') /\
    loop_blocks l = {[1; 2; 3; 4; 5]} /\ nevents l = 1024.
Proof.
  assert (Hh : heap_ok (Heap ∅ 1)) by (intros q Hq; by apply not_elem_of_empty in Hq).
  destruct (create_event_loop_accounts 4096 5 monotonic_start (Heap ∅ 1) [] Hh) as (r & m' & h' & o' & Hrun & _ & _ & Hr).
  assert (Hs : exists l, r = Some l /\ loop_blocks l = {[1; 2; 3; 4; 5]}).
  { assert (Hv : Some r = Some (Some (EventLoop 1 0 4096 0 1024 (Some 2) (Some 3) 0 (Some (ApiState 4 5 (Some 5))) 0)))
      by exact (eq_sym (f_equal (fun x => match x with Some (r, _, _, _) => Some r | None => None end) Hrun)).
    injection Hv as ->. eexists. split; [reflexivity|]. apply set_eq. intros q. unfold loop_blocks. cbn. set_solver. }
  destruct Hs as (l & -> & Hl). destruct Hr as (_ & _ & _ & _ & Hn & _).
  exists l, m', h', o'. split; [exact Hrun|]. split; [exact Hl|exact Hn].
Defined.

(** The calls that are not interrupted. *)
Definition settled (answers : list fcntl_answer) : nat :=
  length (List.filter (fun a => match a with Eintr => false | _ => true end) answers).

(** setting the close-on-exec flag repeats the calls that are interrupted
    and ends once two calls are not; it returns -1 and changes nothing, or
    leaves the flag set and every other flag as it was. *)
Theorem close_on_exec flags answers : 0 <= flags ->
  match anetCloexec flags answers with
  | None => (settled answers <= 1)%nat
  | Some (r, flags') => (r = -1 /\ flags' = flags) \/
      (Z.testbit flags' 0 = true /\ forall i, 0 < i -> Z.testbit flags' i = Z.testbit flags i)
  end.
Proof.
  intros Hf. unfold anetCloexec.
  assert (Hrep : forall l, match repeat_call l with
    | None => settled l = 0%nat
    | Some (_, rest) => settled l = S (settled rest) end).
  { induction l as [|a l IH]; [done|]. by destruct a. }
  pose proof (Hrep answers) as H1. destruct (repeat_call answers) as [[ok rest]|]; cbn [mbind option_bind]; [|lia].
  assert (Hland : Z.land flags FD_CLOEXEC = Z.b2z (Z.testbit flags 0)).
  { change FD_CLOEXEC with (Z.ones 1). rewrite Z.land_ones by lia. by rewrite Z.bit0_mod. }
  destruct ok; [|by left].
  destruct (Z.eqb_spec flags (-1)); [lia|]. rewrite Hland. cbn [orb].
  destruct (Z.testbit flags 0) eqn:Hbit; cbn [Z.b2z Z.eqb negb]; [by right|].
  pose proof (Hrep rest) as H2. destruct (repeat_call rest) as [[ok2 rest2]|]; cbn [mbind option_bind]; [|lia].
  destruct ok2; [right|by left]. unfold FD_CLOEXEC. split; [by rewrite Z.lor_spec, orb_true_r|].
  intros i Hi. rewrite Z.lor_spec. rewrite (Z.bits_above_log2 1) by (simpl; lia). apply orb_false_r.
Qed.

Lemma close_on_exec_witness : anetCloexec 4 [Eintr; Done; Eintr; Eintr; Done] = Some (0, 5) /\ Z.testbit 5 0 = true.
Proof.
  split; [reflexivity|]. pose proof (close_on_exec 4 [Eintr; Done; Eintr; Eintr; Done] ltac:(lia)) as H. cbn in H.
  destruct H as [[H _]|[H _]]; [discriminate H|exact H].
Defined.
