(* ===== verification/Sqlite.v ===== *)
(** * The SQLite interface the database code relies on

    SQLite is third-party code: its functions are the operations of a class,
    on a type [DB] of connection states; a prepared statement is its address.
    The laws state the documented behaviour the theorems use: which
    statements are alive, and that a query yields finitely many rows.

    The database functions also lock and unlock a mutex, so their results are
    outcomes: undefined behaviour, blocked on a mutex that is held, or a
    result. *)

From S2P Require Import Prelude.

(** ** Outcomes *)

Inductive outcome (A : Type) : Type :=
  | Undefined
  | Blocked
  | Returns (a : A).
Arguments Undefined {A}.
Arguments Blocked {A}.
Arguments Returns {A}.

#[global] Instance outcome_ret : MRet outcome := fun A a => Returns a.
#[global] Instance outcome_bind : MBind outcome := fun A B f m =>
  match m with
  | Undefined => Undefined
  | Blocked => Blocked
  | Returns a => f a
  end.

(** A computation whose [None] is undefined behaviour. *)
Definition ub {A} (m : option A) : outcome A :=
  match m with Some a => Returns a | None => Undefined end.

(** ** Operations *)

Inductive sql_value :=
  | VInt (z : Z)
  | VDouble (z : Z)     (* the program only binds doubles converted from integers *)
  | VText (s : string)
  | VBlob (l : list Z).

Inductive step_code := SQLITE_ROW | SQLITE_DONE | SQLITE_FAILED.

Inductive close_code := CLOSE_OK | CLOSE_BUSY.

(** The booleans are [SQLITE_OK == ..]; [sqlite3_prepare_v2] gives no
    statement when it fails or leaves a null pointer. *)
Class Sqlite (DB : Type) := {
  sqlite3_prepare_v2 : DB -> string -> option Z * DB;
  sqlite3_step : DB -> Z -> step_code * DB;
  sqlite3_reset : DB -> Z -> bool * DB;
  sqlite3_stmt_busy : DB -> Z -> bool;
  sqlite3_sql : DB -> Z -> string;
  sqlite3_finalize : DB -> Z -> bool * DB;
  sqlite3_changes : DB -> Z;
  sqlite3_last_insert_rowid : DB -> Z;
  sqlite3_bind : DB -> Z -> Z -> sql_value -> bool * DB;
  sqlite3_column_int64 : DB -> Z -> Z -> Z;
  sqlite3_exec : DB -> string -> bool * DB;
  sqlite3_errmsg : DB -> string;
  sqlite3_next_stmt : DB -> option Z;
  sqlite3_close : DB -> close_code * DB;
  stmt_bytes : DB -> Z -> list Z    (* the memory of a statement object *)
}.

(** The lower 32 bits of the column. *)
Definition sqlite3_column_int {DB} `{Sqlite DB} (db : DB) (s i : Z) : Z :=
  int32 (sqlite3_column_int64 db s i).

(** ** Laws *)

(** Same statements, with the same texts. *)
Definition same_stmts {DB} `{Sqlite DB} (live : DB -> gset Z) (db db' : DB) : Prop :=
  live db' = live db /\ forall s, s ∈ live db -> sqlite3_sql db' s = sqlite3_sql db s.

Class SqliteLaws (DB : Type) `{Sqlite DB} := {
  live : DB -> gset Z;
  rows_left : DB -> Z -> nat;
  live_address db s : s ∈ live db -> 0 < s < 2 ^ 64;
  live_bytes db s : s ∈ live db -> (8 <= length (stmt_bytes db s))%nat;
  prepare_some db sql s db' : sqlite3_prepare_v2 db sql = (Some s, db') ->
    (s ∉ live db) /\ live db' = {[s]} ∪ live db /\ sqlite3_sql db' s = sql /\
    forall q, q ∈ live db -> sqlite3_sql db' q = sqlite3_sql db q;
  prepare_none db sql db' : sqlite3_prepare_v2 db sql = (None, db') -> same_stmts live db db';
  finalize_live db s : s ∈ live db ->
    live (sqlite3_finalize db s).2 = live db ∖ {[s]} /\
    forall q, q ∈ live db -> q <> s -> sqlite3_sql (sqlite3_finalize db s).2 q = sqlite3_sql db q;
  step_same db s : s ∈ live db -> same_stmts live db (sqlite3_step db s).2;
  step_row db s db' : s ∈ live db -> sqlite3_step db s = (SQLITE_ROW, db') ->
    (rows_left db' s < rows_left db s)%nat;
  reset_same db s : s ∈ live db -> same_stmts live db (sqlite3_reset db s).2;
  bind_same db s i v : s ∈ live db -> same_stmts live db (sqlite3_bind db s i v).2;
  exec_same db sql : same_stmts live db (sqlite3_exec db sql).2;
  next_stmt_live db s : sqlite3_next_stmt db = Some s -> s ∈ live db;
  next_stmt_none db : sqlite3_next_stmt db = None -> live db = ∅;
  close_busy db : (sqlite3_close db).1 = CLOSE_BUSY <-> live db <> ∅;
  close_same db : (sqlite3_close db).1 = CLOSE_BUSY -> same_stmts live db (sqlite3_close db).2
}.

Section Same.
Context {DB : Type} `{SqliteLaws DB}.

#[export] Instance same_stmts_preorder : PreOrder (same_stmts (live (DB := DB))).
Proof.
  split; [done|]. intros a b d [H1 H2] [H3 H4]. split; [congruence|].
  intros s Hs. rewrite H4 by (by rewrite H1). by apply H2.
Qed.

End Same.
#[export] Hint Resolve step_same reset_same bind_same exec_same : csem.
