(* ===== verification/CanLog.v ===== *)
(** * The CAN log ([src/utils/my_candump.c])

    One thread reads frames from the bus and puts a line for each into a
    double buffer; another writes a full buffer to the log file.  Both work on
    the buffers under one mutex, so their critical sections are the steps of
    the model; in between come the steps that touch the file only. *)

From Stdlib Require Import Ascii.
From S2P Require Import Prelude Utils CanFrame Lru Sqlite.

Definition MAX_LOG_MSG_LEN : Z := 77.
Definition INIT_LOG_QUEUE_SIZE : Z := 20.

(** ** Data *)

(** Two buffers of lines.  A line is the characters before its terminator; one
    of [MAX_LOG_MSG_LEN] characters has none. *)
Record log_queue_t := LogQueue {
  log_msg_queue : list (list string);
  cur_buf_index : Z;
  write_index : Z;
  cnt : list Z;
  log_path : option string;
  log_name : option string
}.

(** The static queue is zeroed. *)
Definition g_log_queue : log_queue_t :=
  LogQueue (replicate 2 (replicate 20 EmptyString)) 0 0 [0; 0] None None.

Record need_t := Need { sock_fd : Z; log_flag : bool }.

(** [g_fd] tells whether the file is open; [written] is what was written. *)
Record log_state := LogState {
  g_log : log_queue_t;
  g_fd : bool;
  written : list string;
  g_was_charging : bool;
  g_stop_charging_time : Z
}.

(** ** Lines *)

Definition hex_char (n : Z) : ascii :=
  ascii_of_nat (Z.to_nat (if n <? 10 then 48 + n else 87 + n)).

(** [%08x] and [%02x] of a value with at most that many digits. *)
Fixpoint hex (w : nat) (n : Z) : string :=
  match w with
  | O => EmptyString
  | S w' => (hex w' (n / 16) ++ String (hex_char (n mod 16)) EmptyString)%string
  end.

(** [snprintf] into a buffer of [size] characters. *)
Definition snprintf (size : nat) (text : string) : string := String.substring 0 (size - 1) text.

Fixpoint hex_bytes (bs : list Z) : string :=
  match bs with
  | [] => EmptyString
  | [b] => hex 2 b
  | b :: bs' => (hex 2 b ++ " " ++ hex_bytes bs')%string
  end.

Definition newline : string := String (ascii_of_nat 10) EmptyString.

Definition log_msg (f : can_frame) : string :=
  snprintf 60 ("mcan1  " ++ hex 8 (uint32 (can_id f)) ++ "  [8]  " ++ hex_bytes (take 8 (frame_data f)))%string.

(** The outcome of [read], a frame or less than one, and the buffer [str],
    left as it was when nothing is read. *)
Definition read_can_msg_log (frame : option can_frame) (time_str str : string) (len : nat) : Z * string :=
  match frame with
  | None => (-1, str)
  | Some f => (0, snprintf len ("(" ++ time_str ++ ")  " ++ log_msg f ++ newline)%string)
  end.

(** ** The double buffer *)

Definition init_can_log_queue (q : log_queue_t) (path name : option string) : Z * log_queue_t :=
  (0, LogQueue (log_msg_queue q) (cur_buf_index q) (write_index q) (cnt q) path name).

(** [strncpy] of [MAX_LOG_MSG_LEN] characters. *)
Definition strncpy_line (msg : string) : string := String.substring 0 77 msg.

Definition push_line (q : log_queue_t) (msg : string) : option log_queue_t :=
  n ← arr_get (cnt q) (cur_buf_index q);
  '(cur, wi, c) ←
    (if INIT_LOG_QUEUE_SIZE <=? n then
       c ← arr_set (cnt q) (1 - cur_buf_index q) 0;
       Some (1 - cur_buf_index q, 0, c)
     else Some (cur_buf_index q, write_index q, cnt q));
  buf ← arr_get (log_msg_queue q) cur;
  buf ← arr_set buf wi (strncpy_line msg);
  bufs ← arr_set (log_msg_queue q) cur buf;
  n ← arr_get c cur;
  c ← arr_set c cur (n + 1);
  Some (LogQueue bufs cur (Z.rem (wi + 1) INIT_LOG_QUEUE_SIZE) c (log_path q) (log_name q)).

(** [None] is an access outside the arrays. *)
Definition double_buffer_push (q : option log_queue_t) (msg : option string) : option (Z * option log_queue_t) :=
  match q, msg with
  | Some q, Some msg => q' ← push_line q msg; Some (0, Some q')
  | _, _ => Some (-1, q)
  end.

(** The lines [i] to [i + n - 1] of a buffer; a line without a terminator
    would be read past its end. *)
Fixpoint read_lines (buf : list string) (i : Z) (n : nat) : option (list string) :=
  match n with
  | O => Some []
  | S n' =>
    msg ← arr_get buf i;
    if MAX_LOG_MSG_LEN <=? strlen msg then None else
    rest ← read_lines buf (i + 1) n';
    Some (msg :: rest)
  end.

(** The critical section of the writer: it waits while the other buffer is
    empty, and writes through a null pointer when the file is not open. *)
Definition write_buffer (st : log_state) : outcome log_state :=
  let q := g_log st in
  let other := 1 - cur_buf_index q in
  match arr_get (cnt q) other with
  | None => Undefined
  | Some n =>
    if n =? 0 then Blocked
    else if negb (g_fd st) then Undefined
    else
      match arr_get (log_msg_queue q) other ≫= (fun buf => read_lines buf 0 (Z.to_nat n)), arr_set (cnt q) other 0 with
      | Some lines, Some c =>
        Returns (LogState (LogQueue (log_msg_queue q) (cur_buf_index q) (write_index q) c (log_path q) (log_name q))
                   (g_fd st) (written st ++ lines) (g_was_charging st) (g_stop_charging_time st))
      | _, _ => Undefined
      end
  end.

(** What the file system answers: whether the directory is there, and the
    results of [mkdir] and [fopen]. *)
Record fs_answer := FsAnswer { is_dir : bool; mkdir_ok : bool; fopen_ok : bool }.

Definition open_file (path name : option string) (a : fs_answer) : bool :=
  match path, name with
  | Some _, Some _ => if negb (is_dir a) && negb (mkdir_ok a) then false else fopen_ok a
  | _, _ => false
  end.

(** The start of a turn of the writer: the file is opened again when it is
    not there. *)
Definition check_file (found : bool) (a : fs_answer) (st : log_state) : log_state :=
  if found then st
  else LogState (g_log st) (open_file (log_path (g_log st)) (log_name (g_log st)) a) (written st)
         (g_was_charging st) (g_stop_charging_time st).

(** A turn of the reader. *)
Definition track_charging (flag : bool) (now : Z) (st : log_state) : log_state :=
  if flag && negb (g_was_charging st) then LogState (g_log st) (g_fd st) (written st) true (g_stop_charging_time st)
  else if negb flag && g_was_charging st then LogState (g_log st) (g_fd st) (written st) false now
  else st.

Definition dump_turn (arg : need_t) (now : Z) (frame : option can_frame) (time_str : string) (st : log_state) : option log_state :=
  let st := track_charging (log_flag arg) now st in
  if log_flag arg then
    let log_msg := (read_can_msg_log frame time_str EmptyString 77).2 in
    '(_, q) ← double_buffer_push (Some (g_log st)) (Some log_msg);
    Some (LogState (default (g_log st) q) (g_fd st) (written st) (g_was_charging st) (g_stop_charging_time st))
  else Some st.

(** *** Start *)

(** What the system calls of [dy_candump] answer. *)
Record dump_answers := DumpAnswers {
  open_answer : fs_answer;
  socket_fd : Z;
  fcntl_ok : bool;
  ioctl_ok : bool;
  bind_ok : bool;
  malloc_ok : bool
}.

(** What it leaves: the descriptor still open, whether the writer runs, and the
    argument of the reader if that runs. *)
Record dump_setup := DumpSetup {
  setup_log : log_state;
  setup_fd : option Z;
  writer : bool;
  reader : option need_t
}.

Definition dy_candump (path name : option string) (flag : bool) (a : dump_answers) (st : log_state) : dump_setup :=
  let q := (init_can_log_queue (g_log st) path name).2 in
  let st := LogState q (open_file path name (open_answer a)) (written st) (g_was_charging st) (g_stop_charging_time st) in
  if socket_fd a <? 0 then DumpSetup st None false None
  else if negb (fcntl_ok a) then DumpSetup st None false None
  else if negb (ioctl_ok a) then DumpSetup st None false None
  else if negb (bind_ok a) then DumpSetup st (Some (socket_fd a)) false None
  else if negb (malloc_ok a) then DumpSetup st (Some (socket_fd a)) true None
  else DumpSetup st (Some (socket_fd a)) true (Some (Need (socket_fd a) flag)).

(** ** Interleavings *)

Inductive log_event :=
  | Dump (now : Z) (frame : option can_frame) (time_str : string)
  | CheckFile (found : bool) (a : fs_answer)
  | WriteBuffer.

(** A writer that waits leaves the state to the reader. *)
Definition log_step (arg : need_t) (e : log_event) (st : log_state) : outcome log_state :=
  match e with
  | Dump now frame time_str => match dump_turn arg now frame time_str st with Some st' => Returns st' | None => Undefined end
  | CheckFile found a => Returns (check_file found a st)
  | WriteBuffer => match write_buffer st with Blocked => Returns st | r => r end
  end.

Fixpoint log_run (arg : need_t) (es : list log_event) (st : log_state) : outcome log_state :=
  match es with
  | [] => Returns st
  | e :: es' => st ← log_step arg e st; log_run arg es' st
  end.

(** ** Specification *)

(** The lines the reader makes, in order. *)
Definition line_of (e : log_event) : option string :=
  match e with Dump _ frame time_str => Some (read_can_msg_log frame time_str EmptyString 77).2 | _ => None end.

(** The lines of a buffer that are in use. *)
Definition lines_in (q : log_queue_t) (b : nat) : list string :=
  match log_msg_queue q !! b, cnt q !! b with
  | Some buf, Some n => take (Z.to_nat n) buf
  | _, _ => []
  end.

Definition cur_lines (q : log_queue_t) : list string := lines_in q (Z.to_nat (cur_buf_index q)).
Definition other_lines (q : log_queue_t) : list string := lines_in q (Z.to_nat (1 - cur_buf_index q)).

(** At most twenty lines are made between two turns of the writer. *)
Fixpoint timely (k : nat) (es : list log_event) : Prop :=
  match es with
  | [] => True
  | Dump _ _ _ :: es' => (k < 20)%nat /\ timely (S k) es'
  | CheckFile _ _ :: es' => timely k es'
  | WriteBuffer :: es' => timely 0 es'
  end.

(** The file can be opened whenever it has to be. *)
Definition opens (e : log_event) : Prop :=
  match e with CheckFile found a => found = true \/ (fopen_ok a = true /\ (is_dir a = true \/ mkdir_ok a = true)) | _ => True end.

(** ** Lemmas *)

Lemma substring_short (n : nat) (s : string) : (String.length s <= n)%nat -> String.substring 0 n s = s.
Proof.
  revert n. induction s as [|c s IH]; intros [|n] Hl; simpl in *; try done; [lia|]. by rewrite IH by lia.
Qed.

Lemma substring_length (n : nat) (s : string) : String.length (String.substring 0 n s) = Nat.min n (String.length s).
Proof. revert n. induction s as [|c s IH]; intros [|n]; simpl; [done..|]. by rewrite IH. Qed.

Definition short (s : string) : Prop := strlen s < MAX_LOG_MSG_LEN.

(** A line always has its terminator. *)
Lemma line_short frame time_str str : short str -> short (read_can_msg_log frame time_str str 77).2.
Proof.
  unfold short, strlen, MAX_LOG_MSG_LEN. intros Hs. destruct frame as [f|]; [|done]. cbn [read_can_msg_log snd].
  unfold snprintf. rewrite substring_length. lia.
Qed.

(** One buffer with its count. *)
Definition buffer_ok (buf : list string) (n : Z) : Prop :=
  length buf = 20%nat /\ 0 <= n <= 20 /\ Forall short buf.

Definition log_ok (q : log_queue_t) : Prop :=
  exists b0 b1 n0 n1, log_msg_queue q = [b0; b1] /\ cnt q = [n0; n1] /\ buffer_ok b0 n0 /\ buffer_ok b1 n1 /\
    ((cur_buf_index q = 0 /\ write_index q = n0 mod 20) \/ (cur_buf_index q = 1 /\ write_index q = n1 mod 20)).

Lemma initial_ok : log_ok g_log_queue.
Proof.
  exists (replicate 20 EmptyString), (replicate 20 EmptyString), 0, 0.
  assert (Hb : buffer_ok (replicate 20 EmptyString) 0) by (split; [done|]; split; [lia|]; by apply Forall_replicate).
  do 4 (split; [done|]). by left.
Qed.

(** A line appended to a buffer that is not full. *)
Lemma buffer_append buf n msg : buffer_ok buf n -> n < 20 -> short msg ->
  arr_set buf (n mod 20) (strncpy_line msg) = Some (<[Z.to_nat n := msg]> buf) /\
  buffer_ok (<[Z.to_nat n := msg]> buf) (n + 1) /\
  take (Z.to_nat (n + 1)) (<[Z.to_nat n := msg]> buf) = take (Z.to_nat n) buf ++ [msg].
Proof.
  intros (Hl & Hn & Hf) Hlt Hm. rewrite Z.mod_small by lia. unfold strncpy_line.
  rewrite substring_short by (unfold short, strlen, MAX_LOG_MSG_LEN in Hm; lia). split; [by apply arr_set_some; lia|]. split.
  - split; [by rewrite length_insert|]. split; [lia|]. by apply Forall_insert.
  - replace (Z.to_nat (n + 1)) with (S (Z.to_nat n)) by lia.
    rewrite take_S_r with (x := msg) by (apply list_lookup_insert_eq; lia). by rewrite take_insert_ge by lia.
Qed.

Lemma next_index n : 0 <= n < 20 -> Z.rem (n mod 20 + 1) 20 = (n + 1) mod 20.
Proof.
  intros Hn. rewrite Z.mod_small by lia. destruct (decide (n = 19)) as [->|]; [done|].
  by rewrite Z.rem_small, Z.mod_small by lia.
Qed.

Lemma push_room bufs cur n c buf path name msg :
  arr_get c cur = Some n -> arr_get bufs cur = Some buf -> buffer_ok buf n -> n < 20 -> short msg ->
  push_line (LogQueue bufs cur (n mod 20) c path name) msg =
    Some (LogQueue (<[Z.to_nat cur := <[Z.to_nat n := msg]> buf]> bufs) cur ((n + 1) mod 20) (<[Z.to_nat cur := n + 1]> c) path name).
Proof.
  intros Hc Hb Hok Hn Hm. unfold push_line, INIT_LOG_QUEUE_SIZE. cbn [cnt cur_buf_index write_index log_msg_queue log_path log_name].
  destruct (buffer_append buf n msg Hok Hn Hm) as (Hset & _ & _).
  rewrite Hc. cbn [mbind option_bind]. destruct (Z.leb_spec 20 n); [lia|]. cbn [mbind option_bind].
  rewrite Hb. cbn [mbind option_bind]. rewrite Hset. cbn [mbind option_bind].
  rewrite arr_set_some by by eapply arr_get_Some_range. cbn [mbind option_bind]. rewrite Hc. cbn [mbind option_bind].
  rewrite arr_set_some by by eapply arr_get_Some_range. cbn [mbind option_bind]. rewrite next_index; [done|].
  destruct Hok as (_ & ? & _). lia.
Qed.

Lemma push_full bufs cur n wi c buf path name msg :
  arr_get c cur = Some n -> 20 <= n -> arr_get bufs (1 - cur) = Some buf -> 0 <= 1 - cur < Z.of_nat (length c) ->
  buffer_ok buf 0 -> short msg ->
  push_line (LogQueue bufs cur wi c path name) msg =
    Some (LogQueue (<[Z.to_nat (1 - cur) := <[0%nat := msg]> buf]> bufs) (1 - cur) (1 mod 20) (<[Z.to_nat (1 - cur) := 1]> c) path name).
Proof.
  intros Hc Hn Hb Hlt Hok Hm. unfold push_line, INIT_LOG_QUEUE_SIZE. cbn [cnt cur_buf_index write_index log_msg_queue log_path log_name].
  destruct (buffer_append buf 0 msg Hok ltac:(lia) Hm) as (Hset & _ & _). change (0 mod 20) with 0 in Hset.
  rewrite Hc. cbn [mbind option_bind]. destruct (Z.leb_spec 20 n); [|lia]. rewrite (arr_set_some c) by done. cbn [mbind option_bind].
  rewrite Hb. cbn [mbind option_bind]. rewrite Hset. cbn [mbind option_bind].
  rewrite arr_set_some by by eapply arr_get_Some_range. cbn [mbind option_bind].
  unfold arr_get at 1. destruct (Z.leb_spec 0 (1 - cur)); [|lia]. rewrite list_lookup_insert_eq by lia. cbn [mbind option_bind].
  rewrite arr_set_some by (rewrite length_insert; lia). cbn [mbind option_bind]. by rewrite list_insert_insert_eq.
Qed.

#[local] Ltac lines_simpl :=
  unfold cur_lines, other_lines, lines_in; cbn [cur_buf_index cnt log_msg_queue];
  change (1 - 0) with 1; change (1 - 1) with 0; change (Z.to_nat 0) with 0%nat; change (Z.to_nat 1) with 1%nat;
  cbn [lookup list_lookup insert list_insert].

(** A push appends the line, after a change of buffers when the current one is
    full. *)
Lemma push_ok q msg : log_ok q -> short msg ->
  exists q', push_line q msg = Some q' /\ log_ok q' /\ log_path q' = log_path q /\ log_name q' = log_name q /\
    (((length (cur_lines q) < 20)%nat /\ cur_lines q' = cur_lines q ++ [msg] /\ other_lines q' = other_lines q) \/
     (length (cur_lines q) = 20%nat /\ cur_lines q' = [msg] /\ other_lines q' = cur_lines q)).
Proof.
  destruct q as [bufs cur wi c path name].
  intros (b0 & b1 & n0 & n1 & Hbufs & Hcnt & H0 & H1 & Hcur) Hm. cbn [log_msg_queue cnt cur_buf_index write_index] in *. subst bufs c.
  assert (Hl : forall b n, buffer_ok b n -> length (take (Z.to_nat n) b) = Z.to_nat n).
  { intros b n (Hl & Hn & _). rewrite length_take. lia. }
  assert (Hempty : forall b n, buffer_ok b n -> buffer_ok b 0) by (intros b n (? & _ & ?); split; [done|split; [lia|done]]).
  destruct Hcur as [[-> ->]|[-> ->]].
  - destruct (decide (n0 < 20)) as [Hlt|Hge].
    + rewrite (push_room _ _ n0 _ b0) by done. eexists. split; [done|].
      destruct (buffer_append b0 n0 msg H0 Hlt Hm) as (_ & Hb & Ht). split; [|split; [done|split; [done|left]]].
      * exists (<[Z.to_nat n0 := msg]> b0), b1, (n0 + 1), n1. do 4 (split; [done|]). by left.
      * lines_simpl. rewrite Hl by done. destruct H0 as (_ & ? & _). split; [lia|done].
    + rewrite (push_full _ _ n0 _ _ b1) by (done || lia || eauto). eexists. split; [done|].
      destruct (buffer_append b1 0 msg (Hempty _ _ H1) ltac:(lia) Hm) as (_ & Hb & Ht).
      split; [|split; [done|split; [done|right]]].
      * exists b0, (<[0%nat := msg]> b1), n0, 1. do 4 (split; [done|]). by right.
      * lines_simpl. rewrite Hl by done. destruct H0 as (_ & ? & _). split; [lia|done].
  - destruct (decide (n1 < 20)) as [Hlt|Hge].
    + rewrite (push_room _ _ n1 _ b1) by done. eexists. split; [done|].
      destruct (buffer_append b1 n1 msg H1 Hlt Hm) as (_ & Hb & Ht). split; [|split; [done|split; [done|left]]].
      * exists b0, (<[Z.to_nat n1 := msg]> b1), n0, (n1 + 1). do 4 (split; [done|]). by right.
      * lines_simpl. rewrite Hl by done. destruct H1 as (_ & ? & _). split; [lia|done].
    + rewrite (push_full _ _ n1 _ _ b0) by (done || lia || eauto). eexists. split; [done|].
      destruct (buffer_append b0 0 msg (Hempty _ _ H0) ltac:(lia) Hm) as (_ & Hb & Ht).
      split; [|split; [done|split; [done|right]]].
      * exists (<[0%nat := msg]> b0), b1, 1, n1. do 4 (split; [done|]). by left.
      * lines_simpl. rewrite Hl by done. destruct H1 as (_ & ? & _). split; [lia|done].
Qed.

Lemma read_lines_short buf n : forall i, Forall short buf -> (i + n <= length buf)%nat ->
  read_lines buf (Z.of_nat i) n = Some (take n (drop i buf)).
Proof.
  induction n as [|n IH]; intros i Hf Hl; cbn [read_lines]; [done|].
  destruct (lookup_lt_is_Some_2 buf i) as [msg Hm]; [lia|]. rewrite arr_get_lookup, Hm. cbn [mbind option_bind].
  pose proof (proj1 (Forall_lookup _ _) Hf i msg Hm) as Hs. unfold short in Hs.
  destruct (Z.leb_spec MAX_LOG_MSG_LEN (strlen msg)); [lia|].
  replace (Z.of_nat i + 1) with (Z.of_nat (S i)) by lia. rewrite IH by (done || lia). cbn [mbind option_bind].
  by rewrite (drop_S _ msg i Hm).
Qed.

(** The writer waits for the other buffer, or writes all its lines. *)
Lemma write_ok st : log_ok (g_log st) -> g_fd st = true ->
  (other_lines (g_log st) = [] /\ write_buffer st = Blocked) \/
  exists q', write_buffer st = Returns (LogState q' true (written st ++ other_lines (g_log st)) (g_was_charging st) (g_stop_charging_time st)) /\
    log_ok q' /\ log_path q' = log_path (g_log st) /\ log_name q' = log_name (g_log st) /\
    other_lines q' = [] /\ cur_lines q' = cur_lines (g_log st).
Proof.
  destruct st as [[bufs cur wi c path name] fd wr ch ti]. cbn [g_log g_fd written g_was_charging g_stop_charging_time].
  intros (b0 & b1 & n0 & n1 & Hbufs & Hcnt & H0 & H1 & Hcur) ->.
  cbn [log_msg_queue cnt cur_buf_index write_index log_path log_name] in *. subst bufs c.
  assert (Hempty : forall b n, buffer_ok b n -> buffer_ok b 0) by (intros b n (? & _ & ?); split; [done|split; [lia|done]]).
  assert (Hread : forall b n, buffer_ok b n -> read_lines b 0 (Z.to_nat n) = Some (take (Z.to_nat n) b)).
  { intros b n (Hl & Hn & Hf). apply (read_lines_short b (Z.to_nat n) 0 Hf). lia. }
  unfold write_buffer. cbn [g_log g_fd cnt cur_buf_index log_msg_queue log_path log_name written g_was_charging g_stop_charging_time write_index negb].
  destruct Hcur as [[-> ->]|[-> ->]].
  - change (arr_get [n0; n1] (1 - 0)) with (Some n1). change (arr_get [b0; b1] (1 - 0)) with (Some b1). cbn [mbind option_bind].
    rewrite (Hread b1 n1 H1). change (arr_set [n0; n1] (1 - 0) 0) with (Some [n0; 0]).
    destruct (Z.eqb_spec n1 0) as [->|Hn]; [left; by lines_simpl|right]. eexists. split; [done|].
    split; [exists b0, b1, n0, 0; do 2 (split; [done|]); split; [done|]; split; [by eapply Hempty|by left]|].
    do 2 (split; [done|]). by lines_simpl.
  - change (arr_get [n0; n1] (1 - 1)) with (Some n0). change (arr_get [b0; b1] (1 - 1)) with (Some b0). cbn [mbind option_bind].
    rewrite (Hread b0 n0 H0). change (arr_set [n0; n1] (1 - 1) 0) with (Some [0; n1]).
    destruct (Z.eqb_spec n0 0) as [->|Hn]; [left; by lines_simpl|right]. eexists. split; [done|].
    split; [exists b0, b1, 0, n1; do 2 (split; [done|]); split; [by eapply Hempty|]; split; [done|by right]|].
    do 2 (split; [done|]). by lines_simpl.
Qed.

(** ** Runs *)

(** The lines made so far that are in the file or in a buffer. *)
Definition kept (st : log_state) : list string := written st ++ other_lines (g_log st) ++ cur_lines (g_log st).

Definition running (st : log_state) : Prop :=
  log_ok (g_log st) /\ g_fd st = true /\ is_Some (log_path (g_log st)) /\ is_Some (log_name (g_log st)).

(** A step adds its line, and drops the other buffer when both are full. *)
Lemma log_step_keeps arg e st k : running st -> log_flag arg = true -> opens e ->
  exists st', log_step arg e st = Returns st' /\ running st' /\
    kept st' `sublist_of` kept st ++ option_list (line_of e) /\
    forall es, timely k (e :: es) -> other_lines (g_log st) = [] \/ (length (cur_lines (g_log st)) <= k)%nat ->
      kept st' = kept st ++ option_list (line_of e) /\
      exists k', timely k' es /\ (other_lines (g_log st') = [] \/ (length (cur_lines (g_log st')) <= k')%nat).
Proof.
  intros (Hok & Hfd & Hp & Hn) Hflag Ho. destruct e as [now frame time_str|found a|]; cbn [log_step line_of option_list].
  - set (msg := (read_can_msg_log frame time_str EmptyString 77).2).
    unfold dump_turn. rewrite Hflag.
    assert (Ht : forall st1, st1 = track_charging true now st -> g_log st1 = g_log st /\ g_fd st1 = g_fd st /\ written st1 = written st).
    { intros st1 ->. unfold track_charging. cbn [andb negb]. by destruct (negb (g_was_charging st)). }
    set (st1 := track_charging true now st) in *. destruct (Ht st1 eq_refl) as (Hg & Hf & Hw).
    cbn zeta. fold msg. rewrite Hg. cbn [double_buffer_push].
    destruct (push_ok (g_log st) msg Hok) as (q' & -> & Hok' & Hpath & Hname & Hcase);
      [by apply line_short|]. cbn [mbind option_bind from_option]. unfold id.
    eexists. split; [done|]. split; [unfold running; cbn [g_log g_fd]; split_and!; [done|congruence|by rewrite Hpath|by rewrite Hname]|].
    unfold kept. cbn [g_log written]. rewrite Hw.
    destruct Hcase as [(Hlt & -> & ->)|(Hl & -> & ->)].
    + rewrite !(assoc_L (++)). split; [done|]. intros es [Hk Ht'] Hinv. split; [done|]. exists (S k). split; [done|].
      destruct Hinv as [?|?]; [by left|right]. rewrite length_app. cbn [length]. lia.
    + split.
      * rewrite <- !(assoc_L (++)). apply sublist_app; [done|]. by apply sublist_inserts_l.
      * intros es [Hk Ht'] Hinv. destruct Hinv as [->|?]; [|lia]. split; [by rewrite !(assoc_L (++)), app_nil_r|].
        exists (S k). split; [done|]. right. cbn [length]. lia.
  - rewrite app_nil_r. eexists. split; [done|]. unfold check_file. destruct found; [split; [done|split; [done|]]|].
    + intros es Ht Hinv. split; [done|]. by exists k.
    + assert (Hopen : open_file (log_path (g_log st)) (log_name (g_log st)) a = true).
      { destruct Hp as [p ->], Hn as [n ->]. destruct Ho as [?|[Hf Hd]]; [done|]. unfold open_file. rewrite Hf.
        destruct Hd as [-> | ->]; [done|]. by destruct (is_dir a). }
      rewrite Hopen. split; [done|]. split; [done|]. intros es Ht Hinv. split; [done|]. by exists k.
  - rewrite app_nil_r. destruct (write_ok st Hok Hfd) as [[Hother ->]|(q' & -> & Hok' & Hpath & Hname & Hother & Hcur)].
    + exists st. split; [done|]. split; [done|]. split; [done|]. intros es Ht _. split; [done|]. exists 0%nat. split; [done|by left].
    + eexists. split; [done|]. split; [unfold running; cbn [g_log g_fd]; split_and!; [done|congruence|by rewrite Hpath|by rewrite Hname]|].
      assert (Heq : kept (LogState q' true (written st ++ other_lines (g_log st)) (g_was_charging st) (g_stop_charging_time st)) = kept st).
      { unfold kept. cbn [written g_log]. rewrite Hother, Hcur. cbn [app]. by rewrite <- (assoc_L (++)). }
      rewrite Heq. split; [done|]. intros es Ht _. split; [done|]. exists 0%nat. split; [done|by left].
Qed.

Lemma log_run_keeps arg es : log_flag arg = true -> Forall opens es -> forall st, running st ->
  exists st', log_run arg es st = Returns st' /\ running st' /\ kept st' `sublist_of` kept st ++ omap line_of es /\
    forall k, timely k es -> other_lines (g_log st) = [] \/ (length (cur_lines (g_log st)) <= k)%nat ->
      kept st' = kept st ++ omap line_of es.
Proof.
  intros Hflag Hall. induction Hall as [|e es He _ IH]; intros st Hst.
  - exists st. cbn. rewrite app_nil_r. done.
  - cbn [log_run].
    destruct (log_step_keeps arg e st 0 Hst Hflag He) as (st1 & Hstep & Hst1 & Hsub & _).
    rewrite Hstep. cbn [mbind outcome_bind]. destruct (IH st1 Hst1) as (st' & -> & Hst' & Hsub' & Heq').
    assert (Homap : omap line_of (e :: es) = option_list (line_of e) ++ omap line_of es) by (csimpl; by destruct (line_of e)).
    rewrite Homap. exists st'. split; [done|]. split; [done|]. rewrite (assoc_L (++)). split.
    + etransitivity; [exact Hsub'|]. by apply sublist_app.
    + intros k Ht Hinv. destruct (log_step_keeps arg e st k Hst Hflag He) as (st2 & Hstep2 & _ & _ & Heq).
      rewrite Hstep in Hstep2. injection Hstep2 as <-. destruct (Heq es Ht Hinv) as (Hk & k' & Ht' & Hinv').
      by rewrite (Heq' k' Ht' Hinv'), Hk.
Qed.

(** *** Hexadecimal *)

Lemma append_length (a b : string) : String.length (a ++ b) = (String.length a + String.length b)%nat.
Proof. induction a as [|c a IH]; [done|]. change (String c a ++ b)%string with (String c (a ++ b)). simpl. by rewrite IH. Qed.

Lemma append_inj (a b c d : string) : String.length a = String.length b -> (a ++ c = b ++ d)%string -> a = b /\ c = d.
Proof.
  revert b. induction a as [|x a IH]; intros [|y b] Hl Heq; try done.
  change (String x a ++ c)%string with (String x (a ++ c)) in Heq. change (String y b ++ d)%string with (String y (b ++ d)) in Heq.
  injection Heq as -> Heq. injection Hl as Hl. by destruct (IH b Hl Heq) as [-> ->].
Qed.

Lemma hex_length w n : String.length (hex w n) = w.
Proof. revert n. induction w as [|w IH]; intros n; [done|]. cbn [hex]. rewrite append_length, IH. simpl. lia. Qed.

Lemma hex_char_inj m n : 0 <= m < 16 -> 0 <= n < 16 -> hex_char m = hex_char n -> m = n.
Proof.
  intros Hm Hn Heq. apply (f_equal nat_of_ascii) in Heq. unfold hex_char in Heq.
  rewrite !nat_ascii_embedding in Heq by (destruct (Z.ltb_spec m 10), (Z.ltb_spec n 10); lia).
  destruct (Z.ltb_spec m 10), (Z.ltb_spec n 10); lia.
Qed.

Lemma hex_inj w m n : 0 <= m < 16 ^ Z.of_nat w -> 0 <= n < 16 ^ Z.of_nat w -> hex w m = hex w n -> m = n.
Proof.
  revert m n. induction w as [|w IH]; intros m n Hm Hn Heq; [simpl in *; lia|].
  rewrite Nat2Z.inj_succ, Z.pow_succ_r in Hm, Hn by lia. cbn [hex] in Heq.
  apply append_inj in Heq as [Hq Hr]; [|by rewrite !hex_length]. injection Hr as Hr.
  apply IH in Hq; [|split; [apply Z.div_pos; lia|apply Z.div_lt_upper_bound; lia]..].
  apply hex_char_inj in Hr; [|apply Z.mod_pos_bound; lia..].
  rewrite (Z.div_mod m 16), (Z.div_mod n 16) by lia. congruence.
Qed.

Definition byte (b : Z) : Prop := 0 <= b < 256.

Lemma hex_bytes_length bs : String.length (hex_bytes bs) = (3 * length bs - 1)%nat.
Proof.
  induction bs as [|b [|b' bs] IH]; [done|exact (hex_length 2 b)|].
  change (hex_bytes (b :: b' :: bs)) with (hex 2 b ++ " " ++ hex_bytes (b' :: bs))%string.
  rewrite !append_length, IH, hex_length. cbn [length]. change (String.length " ") with 1%nat. lia.
Qed.

Lemma hex_bytes_inj bs cs : length bs = length cs -> Forall byte bs -> Forall byte cs -> hex_bytes bs = hex_bytes cs -> bs = cs.
Proof.
  revert cs. induction bs as [|b bs IH]; intros [|c cs] Hl Hb Hc Heq; try done.
  apply Forall_cons in Hb as [Hb Hbs], Hc as [Hc Hcs]. injection Hl as Hl. unfold byte in Hb, Hc.
  destruct bs as [|b' bs], cs as [|c' cs]; try done.
  - f_equal. by apply (hex_inj 2).
  - change (hex_bytes (b :: b' :: bs)) with (hex 2 b ++ " " ++ hex_bytes (b' :: bs))%string in Heq.
    change (hex_bytes (c :: c' :: cs)) with (hex 2 c ++ " " ++ hex_bytes (c' :: cs))%string in Heq.
    apply append_inj in Heq as [Hbc Heq]; [|by rewrite !hex_length].
    apply (append_inj " " " ") in Heq as [_ Heq]; [|done]. f_equal; [by apply (hex_inj 2)|by apply IH].
Qed.

(** ** Properties *)

(** for a frame of eight bytes and a time of 26 characters, the line fits
    the buffers with its end of line, and shows the whole identifier and every
    byte: two frames with the same line are the same. *)
Theorem read_can_msg_log_faithful (f g : can_frame) (t u str : string) :
  String.length t = 26%nat -> String.length u = 26%nat ->
  length (frame_data f) = 8%nat -> length (frame_data g) = 8%nat ->
  Forall byte (frame_data f) -> Forall byte (frame_data g) -> 0 <= can_id f < 2 ^ 32 -> 0 <= can_id g < 2 ^ 32 ->
  (read_can_msg_log (Some f) t str 77).2 = ("(" ++ t ++ ")  " ++ log_msg f ++ newline)%string /\
  ((read_can_msg_log (Some f) t str 77).2 = (read_can_msg_log (Some g) u str 77).2 ->
    t = u /\ can_id f = can_id g /\ frame_data f = frame_data g).
Proof.
  intros Ht Hu Hlf Hlg Hbf Hbg Hf Hg.
  assert (Hmsg : forall h, length (frame_data h) = 8%nat -> 0 <= can_id h < 2 ^ 32 ->
    log_msg h = ("mcan1  " ++ hex 8 (can_id h) ++ "  [8]  " ++ hex_bytes (frame_data h))%string /\
    String.length (log_msg h) = 45%nat).
  { intros h Hl Hid. unfold log_msg. rewrite uint_id, take_ge by (done || lia).
    set (m := ("mcan1  " ++ _)%string). assert (Hm : String.length m = 45%nat).
    { unfold m. rewrite !append_length, hex_length, hex_bytes_length, Hl. done. }
    unfold snprintf. rewrite substring_short by lia. done. }
  assert (Hline : forall h s, length (frame_data h) = 8%nat -> 0 <= can_id h < 2 ^ 32 -> String.length s = 26%nat ->
    (read_can_msg_log (Some h) s str 77).2 = ("(" ++ s ++ ")  " ++ log_msg h ++ newline)%string).
  { intros h s Hl Hid Hs. cbn [read_can_msg_log snd]. unfold snprintf. apply substring_short.
    destruct (Hmsg h Hl Hid) as [_ Hm]. rewrite !append_length, Hm, Hs. done. }
  split; [by apply Hline|]. rewrite !Hline by done. intros Heq.
  apply (append_inj "(" "(") in Heq as [_ Heq]; [|done]. apply append_inj in Heq as [-> Heq]; [|congruence].
  apply (append_inj ")  " ")  ") in Heq as [_ Heq]; [|done].
  destruct (Hmsg f Hlf Hf) as [Ef Lf], (Hmsg g Hlg Hg) as [Eg Lg].
  apply append_inj in Heq as [Heq _]; [|congruence]. rewrite Ef, Eg in Heq.
  apply (append_inj "mcan1  " "mcan1  ") in Heq as [_ Heq]; [|done].
  apply append_inj in Heq as [Hid Heq]; [|by rewrite !hex_length]. apply (append_inj "  [8]  " "  [8]  ") in Heq as [_ Heq]; [|done].
  split; [done|]. split; [by apply (hex_inj 8)|]. apply hex_bytes_inj; [congruence|done..].
Qed.

Definition demo_frame : can_frame := CanFrame 0x8607FF80 8 [0; 1; 2; 3; 250; 251; 252; 255].
Definition demo_time : string := "2024-05-06 07:08:09.123456".

Lemma read_can_msg_log_faithful_witness :
  (read_can_msg_log (Some demo_frame) demo_time EmptyString 77).2 =
    ("(2024-05-06 07:08:09.123456)  mcan1  8607ff80  [8]  00 01 02 03 fa fb fc ff" ++ newline)%string.
Proof.
  apply (read_can_msg_log_faithful demo_frame demo_frame demo_time demo_time EmptyString);
    first [reflexivity|vm_compute; split; congruence|repeat constructor; vm_compute; congruence].
Defined.

(** The state [dy_candump] leaves at the start of the program when the file can
    be opened. *)
Definition log_start (path name : string) : log_state :=
  setup_log (dy_candump (Some path) (Some name) true (DumpAnswers (FsAnswer true false true) 3 true true true true)
    (LogState g_log_queue false [] false 0)).


(** [n] frames, the [i]-th with identifier [i]. *)
Definition demo_dumps (from n : nat) : list log_event :=
  (fun i => Dump 0 (Some (CanFrame (Z.of_nat i) 8 [0; 0; 0; 0; 0; 0; 0; 0])) demo_time) <$> seq from n.


(** C0: a writer that has no turn while a third buffer is begun loses the
    oldest one: of forty-one lines, the first twenty are nowhere. *)
Example log_loses_lines :
  match log_run (Need 3 true) (demo_dumps 0 41 ++ [WriteBuffer]) (log_start "/log" "can") with
  | Returns st => kept st = drop 20 (omap line_of (demo_dumps 0 41))
  | _ => False
  end.
Proof. vm_compute. reflexivity. Qed.
