(* ===== verification/SqliteDemo.v ===== *)
(** * A small database that satisfies the SQLite laws

    An instance of the interface of [Sqlite.v], used to show that the
    hypotheses of the database theorems can hold.  What the statements mean is
    a parameter: the rows of a query, and the effect of a modification, as
    functions of the statement text, its bindings and the content. *)

From S2P Require Import Prelude Sqlite.

Record demo_stmt := DemoStmt {
  d_sql : string;
  d_binds : gmap Z sql_value;
  d_run : option (list (list Z));   (* the rows left, once it was stepped *)
  d_row : list Z
}.

Record demo_db {C : Type} := DemoDb {
  d_stmts : gmap Z demo_stmt;
  d_content : C;
  d_changes : Z
}.
Arguments demo_db : clear implicits.
Arguments DemoDb {C}.

(** The meaning of the statement texts. *)
Class DemoSql (C : Type) := {
  demo_query : string -> gmap Z sql_value -> C -> option (list (list Z));
  demo_update : string -> gmap Z sql_value -> C -> option (C * Z);
  demo_exec : string -> C -> option C
}.

Section Demo.
Context {C : Type} `{DemoSql C}.

#[local] Abbreviation db_t := (demo_db C).

Definition set_stmt (db : db_t) (s : Z) (st : demo_stmt) : db_t :=
  DemoDb (<[s := st]> (d_stmts db)) (d_content db) (d_changes db).

Definition demo_prepare (db : db_t) (sql : string) : option Z * db_t :=
  let s := fresh ({[0]} ∪ dom (d_stmts db)) in
  if decide (0 < s < 2 ^ 64) then (Some s, set_stmt db s (DemoStmt sql ∅ None [])) else (None, db).

Definition demo_rows (db : db_t) (st : demo_stmt) : option (list (list Z)) :=
  match d_run st with
  | Some l => Some l
  | None => demo_query (d_sql st) (d_binds st) (d_content db)
  end.

Definition demo_step (db : db_t) (s : Z) : step_code * db_t :=
  match d_stmts db !! s with
  | None => (SQLITE_FAILED, db)
  | Some st =>
    match demo_rows db st with
    | Some (r :: l) => (SQLITE_ROW, set_stmt db s (DemoStmt (d_sql st) (d_binds st) (Some l) r))
    | Some [] => (SQLITE_DONE, set_stmt db s (DemoStmt (d_sql st) (d_binds st) None []))
    | None =>
      match demo_update (d_sql st) (d_binds st) (d_content db) with
      | Some (c, n) => (SQLITE_DONE, DemoDb (d_stmts db) c n)
      | None => (SQLITE_FAILED, db)
      end
    end
  end.

Definition demo_reset (db : db_t) (s : Z) : bool * db_t :=
  match d_stmts db !! s with
  | None => (false, db)
  | Some st => (true, set_stmt db s (DemoStmt (d_sql st) (d_binds st) None []))
  end.

Definition demo_bind (db : db_t) (s i : Z) (v : sql_value) : bool * db_t :=
  match d_stmts db !! s with
  | Some st =>
    match d_run st with
    | None => (true, set_stmt db s (DemoStmt (d_sql st) (<[i := v]> (d_binds st)) None (d_row st)))
    | Some _ => (false, db)
    end
  | None => (false, db)
  end.

Definition demo_live (db : db_t) : gset Z := filter (fun s => 0 < s < 2 ^ 64) (dom (d_stmts db)).

Definition demo_run (db : db_t) (sql : string) : bool * db_t :=
  match demo_exec sql (d_content db) with
  | Some c => (true, DemoDb (d_stmts db) c (d_changes db))
  | None => (false, db)
  end.

#[export] Instance demo_sqlite : Sqlite db_t := {
  sqlite3_prepare_v2 := demo_prepare;
  sqlite3_step := demo_step;
  sqlite3_reset := demo_reset;
  sqlite3_stmt_busy db s := match d_stmts db !! s with Some st => bool_decide (is_Some (d_run st)) | None => false end;
  sqlite3_sql db s := match d_stmts db !! s with Some st => d_sql st | None => EmptyString end;
  sqlite3_finalize db s := (true, DemoDb (delete s (d_stmts db)) (d_content db) (d_changes db));
  sqlite3_changes := d_changes;
  sqlite3_last_insert_rowid _ := 1;
  sqlite3_bind := demo_bind;
  sqlite3_column_int64 db s i :=
    match d_stmts db !! s with Some st => default 0 (d_row st !! Z.to_nat i) | None => 0 end;
  sqlite3_exec := demo_run;
  sqlite3_errmsg _ := EmptyString;
  sqlite3_next_stmt db := head (elements (demo_live db));
  sqlite3_close db := (if decide (demo_live db = ∅) then CLOSE_OK else CLOSE_BUSY, db);
  stmt_bytes _ _ := replicate 8 0
}.

Lemma demo_live_spec db s : s ∈ demo_live db <-> 0 < s < 2 ^ 64 /\ is_Some (d_stmts db !! s).
Proof. unfold demo_live. rewrite elem_of_filter, elem_of_dom. done. Qed.

Lemma demo_set_same db s st st' : d_stmts db !! s = Some st -> d_sql st' = d_sql st ->
  same_stmts demo_live db (set_stmt db s st').
Proof.
  intros Hs Hsql. split.
  - unfold demo_live, set_stmt. cbn [d_stmts]. rewrite dom_insert_lookup_L; [done|by eexists].
  - intros q _. simpl. destruct (decide (q = s)) as [->|].
    + by rewrite lookup_insert_eq, Hs.
    + by rewrite lookup_insert_ne.
Qed.

Lemma demo_finalize db s : s ∈ demo_live db ->
  demo_live (sqlite3_finalize db s).2 = demo_live db ∖ {[s]} /\
  forall q, q ∈ demo_live db -> q <> s -> sqlite3_sql (sqlite3_finalize db s).2 q = sqlite3_sql db q.
Proof.
  intros Hs. split.
  - apply set_eq. intros q. rewrite elem_of_difference, elem_of_singleton, !demo_live_spec. simpl.
    rewrite lookup_delete_is_Some. naive_solver.
  - intros q _ Hne. simpl. by rewrite lookup_delete_ne.
Qed.

Definition demo_rows_left (db : db_t) (s : Z) : nat :=
  match d_stmts db !! s with Some st => length (default [] (demo_rows db st)) | None => O end.

#[export] Program Instance demo_laws : SqliteLaws db_t := {
  live := demo_live;
  rows_left := demo_rows_left
}.
Next Obligation. intros db s Hs. by apply demo_live_spec in Hs as [Hs _]. Qed.
Next Obligation. intros db s _. simpl. lia. Qed.
Next Obligation.
  intros db sql s db' Hp. simpl in Hp. unfold demo_prepare in Hp.
  destruct (decide _) as [Hr|]; [|done]. injection Hp as <- <-.
  pose proof (is_fresh ({[0]} ∪ dom (d_stmts db))) as Hf.
  set (s := fresh ({[0]} ∪ dom (d_stmts db))) in *. clearbody s.
  apply not_elem_of_union in Hf as [_ Hf]. split; [|split; [|split]].
  - rewrite demo_live_spec. rewrite elem_of_dom in Hf. tauto.
  - unfold demo_live, set_stmt. cbn [d_stmts]. rewrite dom_insert_L.
    apply set_eq. intros q. rewrite !elem_of_filter, !elem_of_union, elem_of_singleton, elem_of_filter.
    destruct (decide (q = s)) as [->|]; tauto.
  - simpl. by rewrite lookup_insert_eq.
  - intros q Hq%demo_live_spec. simpl. rewrite lookup_insert_ne; [done|].
    intros ->. apply Hf, elem_of_dom. tauto.
Qed.
Next Obligation.
  intros db sql db' Hp. simpl in Hp. unfold demo_prepare in Hp. destruct (decide _); [done|]. by injection Hp as <-.
Qed.
Next Obligation. intros db s Hs. by apply demo_finalize. Qed.
Next Obligation.
  intros db s _. simpl. unfold demo_step. destruct (d_stmts db !! s) as [st|] eqn:Hs; [|done].
  destruct (demo_rows db st) as [[|r l]|]; try (by eapply demo_set_same).
  by destruct (demo_update _ _ _) as [[c n]|].
Qed.
Next Obligation.
  intros db s db' _ Hstep. simpl in Hstep. unfold demo_step in Hstep.
  destruct (d_stmts db !! s) as [st|] eqn:Hs; [|done].
  destruct (demo_rows db st) as [[|r l]|] eqn:Hrows; try done.
  - injection Hstep as <-. unfold demo_rows_left. rewrite Hs, Hrows. cbn [set_stmt d_stmts].
    rewrite lookup_insert_eq. simpl. lia.
  - by destruct (demo_update _ _ _) as [[c n]|].
Qed.
Next Obligation.
  intros db s _. simpl. unfold demo_reset. destruct (d_stmts db !! s) as [st|] eqn:Hs; [|done].
  by eapply demo_set_same.
Qed.
Next Obligation.
  intros db s i v _. simpl. unfold demo_bind. destruct (d_stmts db !! s) as [st|] eqn:Hs; [|done].
  destruct (d_run st); [done|]. by eapply demo_set_same.
Qed.
Next Obligation. intros db sql. simpl. unfold demo_run. by destruct (demo_exec sql (d_content db)). Qed.
Next Obligation.
  intros db s Hs. simpl in Hs. apply elem_of_elements. by apply head_Some_elem_of.
Qed.
Next Obligation.
  intros db Hs. simpl in Hs.
  destruct (elements (demo_live db)) eqn:He; [|done]. by apply leibniz_equiv, elements_empty_inv.
Qed.
Next Obligation. intros db. simpl. destruct (decide (demo_live db = ∅)); split; done. Qed.
Next Obligation. done. Qed.

End Demo.
