(* ===== verification/PreparedStmt.v ===== *)
(** * Cache of prepared statements ([src/database/dao/prepared_stmt.c])

    One LRU cache of statements per connection, guarded by a mutex that
    [prepared_stmt_get] takes and [prepared_stmt_put] gives back.  The cache
    is the one of [Lru.v]; its copy function stores the address of the
    statement and its destructor finalizes it. *)

From S2P Require Import Prelude Utils Lru Sqlite SqliteDemo.

Definition MAX_MEM : Z := 20 * 1000.
Definition MAX_KEY_NUM : Z := 100.

(** The addresses of [copy] and [dtor]. *)
Definition copy_fn : Z := 1.
Definition dtor_fn : Z := 2.

Definition g_icd : UT_icd := Icd 8 None (Some copy_fn) (Some dtor_fn).

(** [ps_mutex]: [None] once destroyed, else whether it is held. *)
Record prepared_stmt_t {DB : Type} := PS {
  ps_conn : DB;
  ps_dsn : Z;
  ps_cache : option lru_cache_t;
  ps_mutex : option bool
}.
Arguments prepared_stmt_t : clear implicits.
Arguments PS {DB}.

Section PreparedStmt.
Context {DB : Type} `{Sqlite DB} (host : bool).

#[local] Abbreviation ps_t := (prepared_stmt_t DB).

Definition with_conn (st : ps_t) (db : DB) : ps_t := PS db (ps_dsn st) (ps_cache st) (ps_mutex st).
Definition with_cache (st : ps_t) (db : DB) (c : option lru_cache_t) : ps_t :=
  PS db (ps_dsn st) c (ps_mutex st).
Definition with_mutex (st : ps_t) (m : option bool) : ps_t :=
  PS (ps_conn st) (ps_dsn st) (ps_cache st) m.

(** A destroyed mutex may not be used; a mutex that is held blocks; one that
    is not held may not be unlocked. *)
Definition mutex_lock (st : ps_t) : outcome ps_t :=
  match ps_mutex st with
  | None => Undefined
  | Some true => Blocked
  | Some false => Returns (with_mutex st (Some true))
  end.

Definition mutex_unlock (st : ps_t) : outcome ps_t :=
  match ps_mutex st with
  | Some true => Returns (with_mutex st (Some false))
  | _ => Undefined
  end.

(** [*d = (int64_t)src] *)
Definition copy_pointer (f : Z) (dst : list Z) (src : source) : list Z :=
  take (length dst) (mem_bytes host 8 (uint64 (address src))) ++ drop 8 dst.

(** No [icd] of this cache has an [init]. *)
Definition no_init (f n : Z) : list Z := replicate (Z.to_nat n) 0.

Definition stmt_in (data : list Z) : Z := mem_value host (take 8 data).

(** The destructor on a released data block. *)
Definition run_dtor (db : DB) (r : option Z * list Z) : DB :=
  match r.1 with
  | Some _ => (sqlite3_finalize db (stmt_in r.2)).2
  | None => db
  end.

Definition clear_released (c : lru_cache_t) : lru_cache_t :=
  Cache (c_hash c) (c_list c) (max_key_num c) (max_mem c) (used_mem c) (list_nodes c) (hash_nodes c) [].

(** The destructors a cache operation calls do not touch the cache, so they
    run after it, in the order of their calls. *)
Definition run_dtors (db : DB) (c : option lru_cache_t) : DB * option lru_cache_t :=
  match c with
  | None => (db, None)
  | Some c => (foldr (fun r db => run_dtor db r) db (released c), Some (clear_released c))
  end.

Definition new_prepared_stmt (ps : option ps_t) (db : option DB) (dsn : Z) (o : list bool)
    : bool * option ps_t * list bool :=
  match db, ps with
  | Some db, Some ps =>
    let '(ok, o1) := malloc o in
    if negb ok then (false, Some (with_cache ps (ps_conn ps) None), o1) else
    let '(ret, cache) := new_lru_cache (Some (Cache ∅ [] 0 0 0 ∅ ∅ [])) MAX_KEY_NUM MAX_MEM in
    if negb ret then (false, Some (with_cache ps (ps_conn ps) None), o1) else
    (true, Some (PS db dsn cache (Some false)), o1)
  | _, _ => (false, ps, o)
  end.

Definition delete_prepared_stmt (ps : option ps_t) : outcome (option ps_t) :=
  match ps with
  | None => Returns None
  | Some st =>
    cache ← ub (delete_lru_cache (ps_cache st));
    let '(db, _) := run_dtors (ps_conn st) cache in
    Returns (Some (PS db (ps_dsn st) None None))
  end.

Definition new_pstmt (db : DB) (sql : string) : option Z * DB := sqlite3_prepare_v2 db sql.

Definition prepared_stmt_get (ps : option ps_t) (k : option string) (o : list bool)
    : outcome (option Z * option ps_t * list bool) :=
  match ps, k with
  | Some st, Some k =>
    st ← mutex_lock st;
    '(item, cache) ← ub (lru_cache_get (ps_cache st) (Some k));
    let st := with_cache st (ps_conn st) cache in
    match item with
    | None =>
      let '(pstmt, db) := new_pstmt (ps_conn st) k in
      let st := with_conn st db in
      match pstmt with
      | None => st ← mutex_unlock st; Returns (None, Some st, o)
      | Some pstmt =>
        '(ret, cache, o1) ← ub (lru_cache_put no_init copy_pointer (ps_cache st) (Some k) (Some g_icd)
                                 (Some (Source pstmt (stmt_bytes db pstmt))) o);
        let '(db, cache) := run_dtors (ps_conn st) cache in
        let st := with_cache st db cache in
        if negb ret then
          st ← mutex_unlock (with_conn st (sqlite3_finalize (ps_conn st) pstmt).2);
          Returns (None, Some st, o1)
        else Returns (Some pstmt, Some st, o1)
      end
    | Some item => Returns (Some (stmt_in (item_data item)), Some st, o)
    end
  | _, _ => Returns (None, ps, o)
  end.

Definition prepared_stmt_put (ps : option ps_t) (pstmt : option Z) : outcome (option ps_t) :=
  match ps, pstmt with
  | Some st, Some pstmt =>
    let st := with_conn st (sqlite3_reset (ps_conn st) pstmt).2 in
    st ← (if sqlite3_stmt_busy (ps_conn st) pstmt then
            cache ← ub (lru_cache_remove (ps_cache st) (Some (sqlite3_sql (ps_conn st) pstmt)));
            let '(db, cache) := run_dtors (ps_conn st) cache in
            Returns (with_cache st db cache)
          else Returns st);
    st ← mutex_unlock st;
    Returns (Some st)
  | _, _ => Returns ps
  end.

(** ** The invariant *)

Context `{!SqliteLaws DB}.

(** The statement an entry of the cache holds. *)
Definition stmt_of (e : string * cache_item_t) : Z := stmt_in (item_data e.2).

Definition entry_ok (db : DB) (e : string * cache_item_t) : Prop :=
  e.2 = Item g_icd (mem_bytes host 8 (stmt_of e)) /\ sqlite3_sql db (stmt_of e) = e.1.

(** The statements of the connection are those in the cache, each once and
    under its own text. *)
Record stmts_ok (db : DB) (es : list (string * cache_item_t)) : Prop := {
  so_entries : Forall (entry_ok db) es;
  so_nodup : NoDup (stmt_of <$> es);
  so_live : live db = list_to_set (stmt_of <$> es)
}.

Definition ps_ok (st : ps_t) (es : list (string * cache_item_t)) : Prop :=
  exists c rows, ps_cache st = Some c /\ lru_repr c rows /\ entries rows = es /\
    max_key_num c = MAX_KEY_NUM /\ max_mem c = MAX_MEM /\ released c = [] /\
    stmts_ok (ps_conn st) es.

Lemma length_copy_pointer f dst src : length (copy_pointer f dst src) = length dst.
Proof. unfold copy_pointer. rewrite length_app, length_take, length_drop, length_mem_bytes. lia. Qed.

Lemma length_no_init f n : length (no_init f n) = Z.to_nat n.
Proof. apply length_replicate. Qed.

Lemma stmt_in_bytes p : 0 <= p < 2 ^ 64 -> stmt_in (mem_bytes host 8 p) = p.
Proof.
  intros Hp. unfold stmt_in. rewrite take_ge by (by rewrite length_mem_bytes).
  rewrite mem_value_bytes. apply Z.mod_small. change (256 ^ Z.of_nat 8) with (2 ^ 64). lia.
Qed.

(** The entry [prepared_stmt_get] adds. *)
Definition new_entry (k : string) (p : Z) : string * cache_item_t := (k, Item g_icd (mem_bytes host 8 p)).

Lemma copied_pointer p bs : 0 <= p < 2 ^ 64 ->
  copied no_init copy_pointer g_icd (Source p bs) = mem_bytes host 8 p.
Proof.
  intros Hp. unfold copied, g_icd. cbn [copy]. unfold copy_pointer, init_bytes. cbn [init sz address].
  rewrite uint_id by done. change (replicate (Z.to_nat 8) 0) with (replicate 8 0).
  rewrite length_replicate, take_ge by (by rewrite length_mem_bytes). simpl. apply app_nil_r.
Qed.

Lemma stmt_of_new k p : 0 <= p < 2 ^ 64 -> stmt_of (new_entry k p) = p.
Proof. apply stmt_in_bytes. Qed.

Lemma stmts_perm db es es' : stmts_ok db es -> es ≡ₚ es' -> stmts_ok db es'.
Proof.
  intros [He Hn Hl] HP. split; [by rewrite <- HP|by rewrite <- HP|]. rewrite Hl.
  apply list_to_set_perm_L. by rewrite HP.
Qed.

Lemma stmts_same db db' es : stmts_ok db es -> same_stmts live db db' -> stmts_ok db' es.
Proof.
  intros [He Hn Hl] [Hl' Hs]. split; [|done|by rewrite Hl'].
  apply Forall_forall. intros e Hin. apply (proj1 (Forall_forall _ _) He) in Hin as H1.
  destruct H1 as [H1 H2]. split; [done|]. rewrite Hs; [done|]. rewrite Hl.
  apply elem_of_list_to_set, list_elem_of_fmap. by exists e.
Qed.

Lemma stmts_finalize db es e es' : stmts_ok db es -> es ≡ₚ e :: es' ->
  stmts_ok (sqlite3_finalize db (stmt_of e)).2 es'.
Proof.
  intros Hok HP. apply (stmts_perm _ _ _ Hok) in HP as [He Hn Hl].
  apply Forall_cons in He as [_ He]. csimpl in Hn. apply NoDup_cons in Hn as [Hne Hn].
  csimpl in Hl. destruct (finalize_live db (stmt_of e)) as [Hl' Hs]; [rewrite Hl; set_solver|].
  split; [|done|].
  - apply Forall_forall. intros e' Hin. apply (proj1 (Forall_forall _ _) He) in Hin as H1.
    destruct H1 as [H1 H2]. split; [done|].
    assert (stmt_of e' ∈ stmt_of <$> es') by (apply list_elem_of_fmap; by exists e').
    rewrite Hs; [done|rewrite Hl; set_solver|by intros Heq; rewrite Heq in *].
  - rewrite Hl', Hl. simpl. rewrite difference_union_distr_l_L, difference_diag_L, union_empty_l_L.
    apply difference_disjoint_L. set_solver.
Qed.

Lemma stmts_prepare db es k p db' : stmts_ok db es -> sqlite3_prepare_v2 db k = (Some p, db') ->
  stmts_ok db' (new_entry k p :: es) /\ 0 <= p < 2 ^ 64.
Proof.
  intros [He Hn Hl] Hp. destruct (prepare_some db k p db' Hp) as (Hnew & Hl' & Hk & Hs).
  assert (Hr : 0 <= p < 2 ^ 64) by (pose proof (live_address db' p); rewrite Hl' in *; set_solver by lia).
  split; [|done]. split.
  - constructor; [split; [by rewrite stmt_of_new|by rewrite stmt_of_new]|].
    apply Forall_forall. intros e Hin. apply (proj1 (Forall_forall _ _) He) in Hin as H1.
    destruct H1 as [H1 H2]. split; [done|]. rewrite Hs; [done|]. rewrite Hl.
    apply elem_of_list_to_set, list_elem_of_fmap. by exists e.
  - csimpl. rewrite stmt_of_new by done. constructor; [|done]. rewrite Hl in Hnew. set_solver.
  - csimpl. rewrite stmt_of_new, Hl', Hl by done. done.
Qed.

Lemma dtor_entry db db' e : entry_ok db' e -> run_dtor db (dropped e.2) = (sqlite3_finalize db (stmt_of e)).2.
Proof. intros [He _]. unfold run_dtor, dropped, stmt_of in *. rewrite He. done. Qed.

Lemma repr_clear c rows : lru_repr c rows -> lru_repr (clear_released c) rows.
Proof. intros Hc. split; apply Hc. Qed.

(** The connections reached by preparing and finalizing statements. *)
Inductive admin (a : DB) : DB -> Prop :=
  | admin_refl : admin a a
  | admin_prepare b sql : admin a b -> admin a (sqlite3_prepare_v2 b sql).2
  | admin_finalize b s : admin a b -> s ∈ live b -> admin a (sqlite3_finalize b s).2.

Lemma stmt_of_live db es e : stmts_ok db es -> e ∈ es -> stmt_of e ∈ live db.
Proof.
  intros Hok Hin. rewrite (so_live _ _ Hok). apply elem_of_list_to_set, list_elem_of_fmap. by exists e.
Qed.

(** Eviction finalizes the statement of the entry that leaves, and no other. *)
Lemma evict_stmts a db es e mk mm : stmts_ok db (e :: es) -> admin a db ->
  let ev := spec_evict mk mm (Spec es []) in
  let db2 := foldr (fun r db => run_dtor db r) db (s_released ev) in
  stmts_ok db2 (e :: s_entries ev) /\ admin a db2.
Proof.
  intros Hok Ha ev. unfold ev, spec_evict. cbn [s_entries s_released].
  destruct ((_ <=? _) || _); [|done].
  destruct es as [|e' es _] using rev_ind; [done|].
  rewrite last_snoc, removelast_last. cbn [s_entries s_released foldr].
  assert (Hin : entry_ok db e') by (pose proof (so_entries _ _ Hok) as H1;
    apply (proj1 (Forall_forall _ _) H1); set_solver).
  rewrite (dtor_entry db db e' Hin).
  split; [|apply admin_finalize; [done|]; apply (stmt_of_live db (e :: es ++ [e'])); [done|set_solver]].
  apply (stmts_finalize _ (e :: es ++ [e'])); [done|].
  rewrite (Permutation_app_comm es [e']). simpl. constructor.
Qed.

(** *** The operations *)

Lemma get_spec st es k o : ps_ok st es -> ps_mutex st = Some false -> strlen k < 2 ^ 30 ->
  exists r st' o' es', prepared_stmt_get (Some st) (Some k) o = Returns (r, Some st', o') /\
    ps_ok st' es' /\ ps_dsn st' = ps_dsn st /\ admin (ps_conn st) (ps_conn st') /\
    match r with
    | Some p => ps_mutex st' = Some true /\ head es' = Some (new_entry k p) /\
        p ∈ live (ps_conn st') /\ sqlite3_sql (ps_conn st') p = k
    | None => ps_mutex st' = Some false
    end.
Proof.
  intros (c & rows & Hcache & Hc & He & Hmk & Hmm & Hrel & Hok) Hm Hk.
  unfold prepared_stmt_get, mutex_lock. rewrite Hm. cbn [mbind outcome_bind ps_cache with_mutex].
  rewrite Hcache.
  destruct (get_view no_init copy_pointer length_no_init length_copy_pointer c rows k Hc)
    as (c1 & rows1 & -> & Hc1 & [Hmk1 Hmm1] & Hrel1 & He1).
  cbn [ub mbind outcome_bind]. rewrite He in *.
  destruct (lookup_entry k es) as [it|] eqn:Hlk.
  - pose proof (without_perm k it es) as HP. rewrite <- He, entries_keys in HP. rewrite He in HP.
    specialize (HP (repr_key _ _ Hc) Hlk).
    pose proof (lookup_entry_elem _ _ _ Hlk) as Hin.
    destruct (proj1 (Forall_forall _ _) (so_entries _ _ Hok) _ Hin) as [Hit Hsql]. cbn [fst snd] in Hit, Hsql.
    eexists _, _, o, ((k, it) :: without k es). split; [done|]. cbn [with_cache with_mutex ps_conn ps_dsn ps_mutex].
    split; [|split; [done|split; [apply admin_refl|split; [done|]]]].
    + exists c1, rows1. split_and!; try done; try congruence.
      by apply (stmts_perm _ es).
    + change (stmt_in (item_data it)) with (stmt_of (k, it)). unfold new_entry.
      split; [by rewrite <- Hit|]. split; [|done]. rewrite (so_live _ _ Hok).
      apply elem_of_list_to_set, list_elem_of_fmap. by exists (k, it).
  - cbn [with_cache with_mutex ps_conn ps_dsn ps_mutex ps_cache]. unfold new_pstmt.
    destruct (sqlite3_prepare_v2 (ps_conn st) k) as [[p|] db] eqn:Hprep.
    2:{ cbn [mutex_unlock with_conn ps_mutex mbind outcome_bind].
        eexists _, _, o, es. split; [done|].
        split; [|split; [done|split; [|done]]];
          [|simpl; pose proof (admin_prepare _ _ k (admin_refl (ps_conn st))) as Ha; by rewrite Hprep in Ha].
        exists c1, rows1.
        split_and!; try done; try congruence. eapply stmts_same; [exact Hok|]. by eapply prepare_none. }
    destruct (stmts_prepare _ _ _ _ _ Hok Hprep) as [Hok1 Hp].
    cbn [with_conn with_cache with_mutex ps_cache ps_conn ps_dsn ps_mutex].
    assert (Hop : op_ok (OpPut k g_icd (Source p (stmt_bytes db p)))).
    { split; [done|]. split; [done|]. unfold readable. cbn [bytes].
      pose proof (live_bytes db p) as Hb. rewrite (so_live _ _ Hok1) in Hb. csimpl in Hb.
      rewrite stmt_of_new in Hb by done. specialize (Hb ltac:(set_solver)). unfold g_icd. simpl. lia. }
    rewrite <- He1 in Hlk.
    destruct (put_new_view no_init copy_pointer length_no_init length_copy_pointer c1 rows1 k g_icd _ o Hc1 Hop Hlk)
      as (c2 & rows2 & -> & Hc2 & [Hmk2 Hmm2] & Hrel2 & He2).
    cbn [ub mbind outcome_bind run_dtors]. rewrite copied_pointer in He2 by done.
    fold (new_entry k p) in He2.
    pose proof (admin_prepare _ _ k (admin_refl (ps_conn st))) as Hadm. rewrite Hprep in Hadm. cbn [snd] in Hadm.
    destruct (evict_stmts _ db es (new_entry k p) (max_key_num c1) (max_mem c1) Hok1 Hadm) as [Hok2 Hadm2].
    rewrite Hrel2, Hrel1, Hrel, He1. rewrite Hrel1, Hrel, He1 in He2.
    set (ev := spec_evict (max_key_num c1) (max_mem c1) (Spec es [])) in *.
    set (db2 := foldr (fun r db => run_dtor db r) db (s_released ev)) in *.
    assert (Hp2 : p ∈ live db2).
    { rewrite <- (stmt_of_new k p) by done. apply (stmt_of_live _ _ _ Hok2). set_solver. }
    cbn [with_cache ps_conn ps_dsn ps_mutex ps_cache with_conn with_mutex].
    destruct (mallocs 5 o) as [[] o1]; cbn [fst snd negb] in *.
    + eexists _, _, o1, (new_entry k p :: s_entries ev). split; [done|].
      split; [|split; [done|split; [done|split; [done|split; [done|]]]]].
      * exists (clear_released c2), rows2. split_and!; try done; try (simpl; congruence).
        by apply repr_clear.
      * cbn [ps_conn]. destruct Hok2 as [H1 _ H3]. apply Forall_cons in H1 as [[_ H1] _].
        rewrite stmt_of_new in H1 by done. done.
    + cbn [mutex_unlock with_cache with_conn with_mutex ps_mutex mbind outcome_bind ps_conn].
      eexists _, _, o1, (s_entries ev). split; [done|].
      split; [|split; [done|split; [by apply admin_finalize|done]]].
      exists (clear_released c2), rows2. split_and!; try done; try (simpl; congruence).
      * by apply repr_clear.
      * pose proof (stmts_finalize _ _ _ _ Hok2 (Permutation_refl _)) as Hf.
        rewrite stmt_of_new in Hf by done. exact Hf.
Qed.

Lemma lookup_entry_in e es : NoDup es.*1 -> e ∈ es -> lookup_entry e.1 es = Some e.2.
Proof.
  induction es as [|e' es IH]; csimpl; [set_solver|]. intros [Hn Hnd]%NoDup_cons Hin.
  destruct (decide (e'.1 = e.1)) as [Heq|Hne].
  - apply elem_of_cons in Hin as [->|Hin]; [done|]. exfalso. apply Hn. rewrite Heq.
    apply list_elem_of_fmap. by exists e.
  - apply elem_of_cons in Hin as [->|Hin]; [done|]. by apply IH.
Qed.

(** A text that is in the cache costs no preparation and no allocation. *)
Lemma get_hit st es e o : ps_ok st es -> ps_mutex st = Some false -> e ∈ es ->
  exists st', prepared_stmt_get (Some st) (Some e.1) o = Returns (Some (stmt_of e), Some st', o) /\
    ps_ok st' (e :: without e.1 es) /\ ps_mutex st' = Some true /\ ps_conn st' = ps_conn st.
Proof.
  intros (c & rows & Hcache & Hc & He & Hmk & Hmm & Hrel & Hok) Hm Hin.
  unfold prepared_stmt_get, mutex_lock. rewrite Hm. cbn [mbind outcome_bind ps_cache with_mutex].
  rewrite Hcache.
  destruct (get_view no_init copy_pointer length_no_init length_copy_pointer c rows e.1 Hc)
    as (c1 & rows1 & -> & Hc1 & [Hmk1 Hmm1] & Hrel1 & He1).
  cbn [ub mbind outcome_bind]. rewrite He in *.
  assert (Hnd : NoDup es.*1) by (rewrite <- He, entries_keys; apply (repr_key _ _ Hc)).
  pose proof (lookup_entry_in e es Hnd Hin) as Hlk. rewrite Hlk in He1 |- *.
  eexists. split; [done|]. split; [|done]. exists c1, rows1.
  split_and!; try done; try congruence; [by rewrite He1; destruct e|].
  apply (stmts_perm _ es); [done|]. rewrite (without_perm e.1 e.2 es Hnd Hlk) at 1. by destruct e.
Qed.

(** Giving back a statement of the cache: it is reset, a statement that stays
    busy leaves the cache, and the mutex is free again. *)
Lemma put_spec st es p : ps_ok st es -> ps_mutex st = Some true -> p ∈ live (ps_conn st) ->
  exists st' es', prepared_stmt_put (Some st) (Some p) = Returns (Some st') /\ ps_ok st' es' /\
    ps_mutex st' = Some false /\ ps_dsn st' = ps_dsn st /\
    let db := (sqlite3_reset (ps_conn st) p).2 in
    if sqlite3_stmt_busy db p
    then es' = without (sqlite3_sql (ps_conn st) p) es /\ ps_conn st' = (sqlite3_finalize db p).2
    else es' = es /\ ps_conn st' = db.
Proof.
  intros (c & rows & Hcache & Hc & He & Hmk & Hmm & Hrel & Hok) Hm Hp.
  pose proof (reset_same (ps_conn st) p Hp) as Hreset.
  unfold prepared_stmt_put. cbn [with_conn ps_conn ps_cache ps_mutex ps_dsn].
  set (db := (sqlite3_reset (ps_conn st) p).2) in *.
  pose proof (stmts_same _ _ _ Hok Hreset) as Hok1.
  destruct (sqlite3_stmt_busy db p).
  - rewrite Hcache. destruct Hreset as [Hl Hs]. rewrite Hs by done.
    assert (Hin : exists e, e ∈ es /\ p = stmt_of e).
    { rewrite (so_live _ _ Hok) in Hp. apply elem_of_list_to_set, list_elem_of_fmap in Hp as (e & -> & ?).
      by exists e. }
    destruct Hin as (e & Hin & ->).
    destruct (proj1 (Forall_forall _ _) (so_entries _ _ Hok) _ Hin) as [Hit Hsql]. rewrite Hsql.
    assert (Hnd : NoDup es.*1) by (rewrite <- He, entries_keys; apply (repr_key _ _ Hc)).
    destruct (remove_view no_init copy_pointer length_no_init length_copy_pointer c rows e.1 Hc)
      as (c1 & rows1 & -> & Hc1 & [Hmk1 Hmm1] & Hrem).
    rewrite He, (lookup_entry_in e es Hnd Hin) in Hrem. destruct Hrem as [Hrel1 He1].
    cbn [ub mbind outcome_bind run_dtors]. rewrite Hrel1, Hrel. cbn [foldr].
    rewrite (dtor_entry db (ps_conn st) e) by (by split).
    unfold mutex_unlock, with_cache, with_conn, with_mutex. cbn [ps_mutex ps_dsn ps_conn ps_cache]. rewrite Hm.
    cbn [mbind outcome_bind]. eexists _, (without e.1 es). split; [done|].
    split; [|split; [done|split; [done|split; [done|done]]]].
    exists (clear_released c1), rows1. split_and!; try done; try (simpl; congruence); [by apply repr_clear|].
    cbn [ps_conn]. apply (stmts_finalize _ es); [done|]. 
    pose proof (without_perm e.1 e.2 es Hnd (lookup_entry_in e es Hnd Hin)) as HP.
    by destruct e.
  - cbn [mbind outcome_bind]. unfold mutex_unlock. cbn [with_conn with_mutex ps_mutex]. rewrite Hm. cbn [mbind outcome_bind].
    eexists _, es. split; [done|]. split; [|done]. by exists c, rows.
Qed.

(** Work on the statements of the connection in between keeps the invariant. *)
Lemma conn_same st es db : ps_ok st es -> same_stmts live (ps_conn st) db -> ps_ok (with_conn st db) es.
Proof.
  intros (c & rows & Hcache & Hc & He & Hmk & Hmm & Hrel & Hok) Hs.
  exists c, rows. split_and!; try done. by eapply stmts_same.
Qed.

Lemma new_spec ps db dsn o : live db = ∅ ->
  let '(ok, ps', o') := new_prepared_stmt (Some ps) (Some db) dsn o in
  if ok then exists st, ps' = Some st /\ ps_ok st [] /\ ps_mutex st = Some false /\ ps_conn st = db /\ ps_dsn st = dsn
  else (malloc o).1 = false.
Proof.
  intros Hl. unfold new_prepared_stmt. destruct (malloc o) as [[] o1]; cbn [negb]; [|done].
  cbn [new_lru_cache]. change ((MAX_KEY_NUM <=? 0) || (MAX_MEM <=? 0)) with false. cbn [negb].
  eexists. split; [done|]. split; [|done]. eexists _, []. split; [done|].
  split; [apply empty_cache_repr; unfold MAX_KEY_NUM, MAX_MEM; lia|].
  do 4 (split; [done|]). split; [constructor|constructor|exact Hl].
Qed.


Lemma dtors_all es : forall db, stmts_ok db es ->
  stmts_ok (fold_left (fun db r => run_dtor db r) ((fun e => dropped e.2) <$> es) db) [].
Proof.
  induction es as [|e es IH]; intros db Hok; csimpl; [done|]. apply IH.
  pose proof (so_entries _ _ Hok) as He. apply Forall_cons in He as [He _].
  rewrite (dtor_entry db db e He). by apply (stmts_finalize _ (e :: es)).
Qed.

(** Deleting the cache finalizes every statement of the connection. *)
Lemma delete_spec st es : ps_ok st es ->
  exists db, delete_prepared_stmt (Some st) = Returns (Some (PS db (ps_dsn st) None None)) /\ live db = ∅.
Proof.
  intros (c & rows & Hcache & Hc & He & _ & _ & Hrel & Hok). unfold delete_prepared_stmt. rewrite Hcache.
  destruct (delete_view c rows Hc) as (c' & -> & _ & _ & _ & _ & Hr & _). cbn [ub mbind outcome_bind run_dtors].
  eexists. split; [done|]. rewrite Hr, Hrel, He, app_nil_r.
  rewrite fold_left_rev_right.
  apply (so_live _ _ (dtors_all es _ Hok)).
Qed.

End PreparedStmt.

(** ** Properties *)

(** [prepared_stmt_get] and [prepared_stmt_put] are a pair.  When the mutex is
    free, [prepared_stmt_get] returns: either no statement, and the mutex is
    free, or a live statement of the text asked for, and any other caller
    blocks until [prepared_stmt_put] gives it back, whatever was done with the
    statements in between.  At every point the live statements of the
    connection are exactly those in the cache, each under its own text. *)
Theorem prepared_stmt_get_put {DB} `{SqliteLaws DB} host st es k o :
  ps_ok host st es -> ps_mutex st = Some false -> strlen k < 2 ^ 30 ->
  exists r st1 o1 es1, prepared_stmt_get host (Some st) (Some k) o = Returns (r, Some st1, o1) /\
    ps_ok host st1 es1 /\
    match r with
    | None => ps_mutex st1 = Some false
    | Some p => p ∈ live (ps_conn st1) /\ sqlite3_sql (ps_conn st1) p = k /\
      (forall k2 o2, prepared_stmt_get host (Some st1) (Some k2) o2 = Blocked) /\
      forall db, same_stmts live (ps_conn st1) db ->
        exists st2 es2, prepared_stmt_put host (Some (with_conn st1 db)) (Some p) = Returns (Some st2) /\
          ps_ok host st2 es2 /\ ps_mutex st2 = Some false
    end.
Proof.
  intros Hok Hm Hk. destruct (get_spec host st es k o Hok Hm Hk)
    as (r & st1 & o1 & es1 & Hget & Hok1 & _ & _ & Hr).
  exists r, st1, o1, es1. split; [done|]. split; [done|]. destruct r as [p|]; [|done].
  destruct Hr as (Hm1 & _ & Hp & Hsql). split; [done|]. split; [done|]. split.
  - intros k2 o2. unfold prepared_stmt_get, mutex_lock. by rewrite Hm1.
  - intros db Hs. destruct (put_spec host (with_conn st1 db) es1 p)
      as (st2 & es2 & Hput & Hok2 & Hm2 & _); [by apply conn_same|done| |by exists st2, es2].
    cbn [with_conn ps_conn]. by rewrite (proj1 Hs).
Qed.

(** A database without content, for the examples: the text ["u"] changes
    three rows, any other is a query with two rows. *)
#[export] Instance demo_sql : DemoSql () := {
  demo_query sql _ _ := if String.eqb sql "u" then None else Some [[7]; [8]];
  demo_update _ _ _ := Some ((), 3);
  demo_exec _ c := Some c
}.
Definition demo_conn : demo_db () := DemoDb ∅ () 0.
Definition demo_ps : prepared_stmt_t (demo_db ()) :=
  PS demo_conn 0 (Some (Cache ∅ [] MAX_KEY_NUM MAX_MEM 0 ∅ ∅ [])) (Some false).

Lemma demo_ps_ok host : ps_ok host demo_ps [].
Proof.
  assert (Hl : live demo_conn = ∅) by reflexivity.
  pose proof (new_spec host demo_ps demo_conn 0 [] Hl) as Hn.
  destruct Hn as (st & [= <-] & Hok & _). exact Hok.
Qed.

Lemma prepared_stmt_get_put_witness :
  exists r st1 o1 es1, prepared_stmt_get true (Some demo_ps) (Some "select 1"%string) [] =
      Returns (r, Some st1, o1) /\ ps_ok true st1 es1 /\ r = Some 1.
Proof.
  destruct (prepared_stmt_get_put true demo_ps [] "select 1"%string [] (demo_ps_ok true) eq_refl)
    as (r & st1 & o1 & es1 & Hget & Hok & _); [vm_compute; reflexivity|].
  exists r, st1, o1, es1. split; [exact Hget|]. split; [exact Hok|].
  vm_compute in Hget. injection Hget as <- _ _. reflexivity.
Defined.

(** A second use of a text returns the statement prepared for the first one:
    nothing is prepared and nothing is allocated. *)
Theorem prepared_stmt_reused {DB} `{SqliteLaws DB} host st es k o p st1 o1 st2 o2 :
  ps_ok host st es -> ps_mutex st = Some false -> strlen k < 2 ^ 30 ->
  prepared_stmt_get host (Some st) (Some k) o = Returns (Some p, Some st1, o1) ->
  prepared_stmt_put host (Some st1) (Some p) = Returns (Some st2) ->
  sqlite3_stmt_busy (sqlite3_reset (ps_conn st1) p).2 p = false ->
  exists st3, prepared_stmt_get host (Some st2) (Some k) o2 = Returns (Some p, Some st3, o2) /\
    ps_conn st3 = ps_conn st2.
Proof.
  intros Hok Hm Hk Hget Hput Hbusy. destruct (get_spec host st es k o Hok Hm Hk)
    as (r & st1' & o1' & es1 & Hget' & Hok1 & _ & _ & Hr).
  rewrite Hget in Hget'. injection Hget' as <- <- <-. destruct Hr as (Hm1 & Hhead & Hp & Hsql).
  destruct (put_spec host st1 es1 p Hok1 Hm1 Hp) as (st2' & es2 & Hput' & Hok2 & Hm2 & _ & Hcase).
  rewrite Hput in Hput'. injection Hput' as <-. cbv zeta in Hcase. rewrite Hbusy in Hcase. destruct Hcase as [-> _].
  pose proof (live_address _ _ Hp) as Hr.
  destruct (get_hit host st2 es1 (new_entry host k p) o2 Hok2 Hm2) as (st3 & Hget3 & _ & _ & Hc).
  { apply list_elem_of_lookup. exists 0%nat. by destruct es1; [|injection Hhead as ->]. }
  exists st3. cbn [new_entry fst] in Hget3. rewrite stmt_of_new in Hget3 by lia. done.
Qed.

Definition got_ps : prepared_stmt_t (demo_db ()) :=
  match prepared_stmt_get true (Some demo_ps) (Some "a"%string) [] with
  | Returns (_, Some st, _) => st | _ => demo_ps end.
Definition put_ps : prepared_stmt_t (demo_db ()) :=
  match prepared_stmt_put true (Some got_ps) (Some 1) with
  | Returns (Some st) => st | _ => demo_ps end.

Lemma prepared_stmt_reused_witness :
  prepared_stmt_get true (Some demo_ps) (Some "a"%string) [] = Returns (Some 1, Some got_ps, []) /\
  prepared_stmt_put true (Some got_ps) (Some 1) = Returns (Some put_ps) /\
  exists st3, prepared_stmt_get true (Some put_ps) (Some "a"%string) [] = Returns (Some 1, Some st3, []) /\
    ps_conn st3 = ps_conn put_ps.
Proof.
  assert (H1 : prepared_stmt_get true (Some demo_ps) (Some "a"%string) [] = Returns (Some 1, Some got_ps, []))
    by (vm_compute; reflexivity).
  assert (H2 : prepared_stmt_put true (Some got_ps) (Some 1) = Returns (Some put_ps))
    by (vm_compute; reflexivity).
  split; [exact H1|]. split; [exact H2|].
  apply (prepared_stmt_reused true demo_ps [] "a"%string [] 1 got_ps [] put_ps []
    (demo_ps_ok true) eq_refl); [vm_compute; reflexivity|exact H1|exact H2|vm_compute; reflexivity].
Defined.
