(* ===== verification/Template.v ===== *)
(** * Statement templates ([src/database/dao/template.c])

    Every data access takes a statement from the cache of its connection,
    binds, steps and gives it back.  A callback with its user argument is a
    function of the connection: a binder changes it, a reader computes new
    user data from the current row. *)

From Stdlib Require Import Ascii.
From S2P Require Import Prelude Utils Lru Sqlite SqliteDemo PreparedStmt.

(** ** Data ([dao_option.h]) *)

Inductive dao_type_e :=
  | DAO_TYPE_INT32 | DAO_TYPE_INT64 | DAO_TYPE_FLOAT32 | DAO_TYPE_FLOAT64 | DAO_TYPE_TEXT | DAO_TYPE_NULL.

(** The [void *userp] of an option: an integer, or the address of a string. *)
Inductive user_value := UInt (z : Z) | UText (s : string).

Record dao_option_t := DaoOption {
  userp : user_value;
  opt_sql_part : string;
  opt_type : dao_type_e
}.

(** [(double)z] for a format with [p] significant bits, to nearest, ties to
    even. *)
Definition round_bits (p z : Z) : Z :=
  let a := Z.abs z in
  if a <? 2 ^ p then z else
  let e := Z.log2 a + 1 - p in
  let q := a / 2 ^ e in
  let r := a mod 2 ^ e in
  let q' := if r <? 2 ^ (e - 1) then q else if 2 ^ (e - 1) <? r then q + 1
            else if Z.even q then q else q + 1 in
  Z.sgn z * q' * 2 ^ e.

(** [utstring_printf] with the text as its format and no argument: a
    conversion other than [%%] reads an argument that is not there. *)
Fixpoint printf_no_args (fmt : string) : option string :=
  match fmt with
  | EmptyString => Some EmptyString
  | String c rest =>
    if Ascii.eqb c "%"%char then
      match rest with
      | String c2 rest' =>
        if Ascii.eqb c2 "%"%char then String c <$> printf_no_args rest' else None
      | EmptyString => None
      end
    else String c <$> printf_no_args rest
  end.

Definition BEGIN_SQL : string := "BEGIN TRANSACTION".
Definition COMMIT_SQL : string := "COMMIT".
Definition ROLLBACK_SQL : string := "ROLLBACK".
Definition NESTED_MSG : string := "cannot start a transaction within a transaction".

Section Template.
Context {DB : Type} `{Sqlite DB} (host : bool).

#[local] Abbreviation ps_t := (prepared_stmt_t DB).

(** ** Transactions

    These and [dao_close] take a connection: a null one is only logged. *)

Definition dao_commit (db : DB) : DB := (sqlite3_exec db COMMIT_SQL).2.
Definition dao_rollback (db : DB) : DB := (sqlite3_exec db ROLLBACK_SQL).2.

Definition dao_begin (db : DB) : DB :=
  let '(ok, db1) := sqlite3_exec db BEGIN_SQL in
  if negb ok then
    if String.eqb NESTED_MSG (sqlite3_errmsg db1) then dao_commit db1 else db1
  else db1.

(** ** One statement *)

Definition stmt_bind_cb := DB -> Z -> DB.

Definition run_bind (cb : option stmt_bind_cb) (db : DB) (p : Z) : DB :=
  match cb with Some f => f db p | None => db end.

(** The common frame: the statement for [sql], the work on it, and the
    statement given back; [-1] when there is no statement. *)
Definition with_stmt {R : Type} (ps : option ps_t) (sql : string) (o : list bool)
    (work : DB -> Z -> outcome (Z * R * DB)) (none : R) : outcome (Z * R * option ps_t * list bool) :=
  '(pstmt, ps1, o1) ← prepared_stmt_get host ps (Some sql) o;
  match pstmt, ps1 with
  | Some p, Some st =>
    '(ret, r, db) ← work (ps_conn st) p;
    ps2 ← prepared_stmt_put host (Some (with_conn st db)) (Some p);
    Returns (ret, r, ps2, o1)
  | _, _ => Returns (-1, none, ps1, o1)
  end.

(** The work of the operations that step once; the row id is read back when
    the step is done. *)
Definition step_once (cb : option stmt_bind_cb) (db : DB) (p : Z) : outcome (Z * option Z * DB) :=
  let '(rc, db1) := sqlite3_step (run_bind cb db p) p in
  let change := sqlite3_changes db1 in
  match rc with
  | SQLITE_DONE => Returns (change, Some (int32 (sqlite3_last_insert_rowid db1)), db1)
  | _ => Returns (-1, None, db1)
  end.

(** [*pk], when it is written, is the second component. *)
Definition dao_template_create_pk_backfill (ps : option ps_t) (sql : option string)
    (cb : option stmt_bind_cb) (pk : bool) (o : list bool)
    : outcome (Z * option Z * option ps_t * list bool) :=
  match ps, sql with
  | Some _, Some k => if pk then with_stmt ps k o (step_once cb) None else Returns (-1, None, ps, o)
  | _, _ => Returns (-1, None, ps, o)
  end.

Definition dao_template_base (ps : option ps_t) (sql : option string) (cb : option stmt_bind_cb)
    (o : list bool) : outcome (Z * option ps_t * list bool) :=
  match ps, sql with
  | Some _, Some k => '(ret, _, ps', o') ← with_stmt ps k o (step_once cb) None; Returns (ret, ps', o')
  | _, _ => Returns (-1, ps, o)
  end.

Definition dao_template_create := dao_template_base.
Definition dao_template_delete := dao_template_base.
Definition dao_template_update := dao_template_base.

Definition dao_template_drop (ps : option ps_t) (sql : option string) (o : list bool)
    : outcome (bool * option ps_t * list bool) :=
  '(ret, ps', o') ← dao_template_base ps sql None o;
  Returns (if -1 =? ret then false else true, ps', o').

(** ** Rows *)

(** [while (SQLITE_ROW == sqlite3_step(pstmt))]: [fuel] bounds the rows. *)
Fixpoint step_rows {U : Type} (fuel : nat) (cb : DB -> Z -> U -> U) (db : DB) (p line : Z) (u : U)
    : outcome (Z * U * DB) :=
  match fuel with
  | O => Undefined
  | S fuel' =>
    let '(rc, db1) := sqlite3_step db p in
    match rc with
    | SQLITE_ROW => step_rows fuel' cb db1 p (int32 (line + 1)) (cb db1 p u)
    | _ => Returns (line, u, db1)
    end
  end.

Definition dao_template_select (fuel : nat) (ps : option ps_t) (sql : option string)
    (cb : option stmt_bind_cb) (userp : bool) (o : list bool) : outcome (Z * option ps_t * list bool) :=
  match ps, sql with
  | Some _, Some k =>
    if userp then
      '(ret, _, ps', o') ← with_stmt ps k o
        (fun db p => step_rows fuel (fun _ _ u => u) (run_bind cb db p) p 0 ()) ();
      Returns (ret, ps', o')
    else Returns (-1, ps, o)
  | _, _ => Returns (-1, ps, o)
  end.

(** [unmarshal]: the reader with its user data, [None] when one of them is
    null. *)
Definition dao_template_get {U : Type} (fuel : nat) (ps : option ps_t) (sql : option string)
    (bind_cb : option stmt_bind_cb) (unmarshal_cb : option (DB -> Z -> U -> U)) (up : option U)
    (o : list bool) : outcome (Z * option U * option ps_t * list bool) :=
  match ps, sql, unmarshal_cb, up with
  | Some _, Some k, Some f, Some u =>
    '(ret, u', ps', o') ← with_stmt ps k o
      (fun db p => step_rows fuel f (run_bind bind_cb db p) p 0 u) u;
    Returns (ret, Some u', ps', o')
  | _, _, _, _ => Returns (-1, up, ps, o)
  end.

(** ** Batches *)

(** The loop from [i] on, with [n] rows to go. *)
Fixpoint batch_loop (n : nat) (i : Z) (cb : option (DB -> Z -> Z -> DB)) (db : DB) (p line : Z)
    : Z * DB :=
  match n with
  | O => (line, db)
  | S n' =>
    let db1 := match cb with Some f => f db p i | None => db end in
    let '(rc, db2) := sqlite3_step db1 p in
    let line' := match rc with SQLITE_DONE => int32 (line + 1) | _ => line end in
    let '(_, db3) := sqlite3_reset db2 p in
    batch_loop n' (i + 1) cb db3 p line'
  end.

Definition dao_template_batch_base (ps : option ps_t) (sql : option string) (batch_size : Z)
    (cb : option (DB -> Z -> Z -> DB)) (o : list bool) : outcome (Z * option ps_t * list bool) :=
  match ps, sql with
  | Some _, Some k =>
    '(ret, _, ps', o') ← with_stmt ps k o
      (fun db p => let '(line, db1) := batch_loop (Z.to_nat batch_size) 0 cb (dao_begin db) p 0 in
                   Returns (line, (), dao_commit db1)) ();
    Returns (ret, ps', o')
  | _, _ => Returns (-1, ps, o)
  end.

Definition dao_template_batch_create := dao_template_batch_base.

(** ** Options *)

Fixpoint sql_of_parts (sql : string) (options : list dao_option_t) : option string :=
  match options with
  | [] => Some sql
  | p :: options' => part ← printf_no_args (opt_sql_part p); sql_of_parts (sql ++ part) options'
  end.

Fixpoint bind_options (i : Z) (options : list dao_option_t) (db : DB) (p : Z) : option DB :=
  match options with
  | [] => Some db
  | opt :: options' =>
    match opt_type opt, userp opt with
    | DAO_TYPE_INT32, UInt z => bind_options (i + 1) options' (sqlite3_bind db p i (VInt (int32 z))).2 p
    | DAO_TYPE_INT64, UInt z => bind_options (i + 1) options' (sqlite3_bind db p i (VInt (int64 z))).2 p
    | DAO_TYPE_FLOAT32, UInt z =>
      bind_options (i + 1) options' (sqlite3_bind db p i (VDouble (round_bits 24 (int64 z)))).2 p
    | DAO_TYPE_FLOAT64, UInt z =>
      bind_options (i + 1) options' (sqlite3_bind db p i (VDouble (round_bits 53 (int64 z)))).2 p
    | DAO_TYPE_TEXT, UText s => bind_options (i + 1) options' (sqlite3_bind db p i (VText s)).2 p
    | DAO_TYPE_NULL, _ => bind_options i options' db p
    | _, _ => None
    end
  end.

Definition dao_template_base_with_option {U : Type} (fuel : nat) (ps : option ps_t)
    (sql_part : option string) (options : option (list dao_option_t))
    (unmarshal_cb : option (DB -> Z -> U -> U)) (up : U) (o : list bool)
    : outcome (Z * U * option ps_t * list bool) :=
  match ps, sql_part, options with
  | Some _, Some sql_part, Some options =>
    sql ← ub (printf_no_args sql_part);
    sql ← ub (sql_of_parts sql options);
    with_stmt ps sql o
      (fun db p =>
         db1 ← ub (bind_options 1 options db p);
         '(line, u, db2) ← step_rows fuel (match unmarshal_cb with Some f => f | None => fun _ _ u => u end)
                             db1 p 0 up;
         Returns (if line =? 0 then sqlite3_changes db2 else line, u, db2)) up
  | _, _, _ => Returns (-1, up, ps, o)
  end.

Definition dao_template_get_with_option {U : Type} (fuel : nat) (ps : option ps_t)
    (sql : option string) (options : option (list dao_option_t))
    (unmarshal_cb : option (DB -> Z -> U -> U)) (up : U) (o : list bool)
    : outcome (Z * U * option ps_t * list bool) :=
  match ps, sql, options, unmarshal_cb with
  | Some _, Some _, Some _, Some _ => dao_template_base_with_option fuel ps sql options unmarshal_cb up o
  | _, _, _, _ => Returns (-1, up, ps, o)
  end.

Definition dao_template_delete_with_option (fuel : nat) (ps : option ps_t) (sql : option string)
    (options : option (list dao_option_t)) (o : list bool) : outcome (Z * option ps_t * list bool) :=
  match ps, sql, options with
  | Some _, Some _, Some _ =>
    '(ret, _, ps', o') ← dao_template_base_with_option fuel ps sql options None () o;
    Returns (ret, ps', o')
  | _, _, _ => Returns (-1, ps, o)
  end.

Definition dao_template_update_with_option := dao_template_delete_with_option.

(** ** Closing a connection *)

(** [while (SQLITE_BUSY == code)]: each turn finalizes one statement. *)
Fixpoint close_loop (fuel : nat) (code : close_code) (db : DB) : option DB :=
  match code, fuel with
  | CLOSE_OK, _ => Some db
  | CLOSE_BUSY, O => None
  | CLOSE_BUSY, S fuel' =>
    match sqlite3_next_stmt db with
    | None => Some db
    | Some s =>
      let '(ok, db1) := sqlite3_finalize db s in
      if ok then let '(code', db2) := sqlite3_close db1 in close_loop fuel' code' db2 else Some db1
    end
  end.

Definition dao_close (fuel : nat) (db : DB) : option DB :=
  let '(code, db1) := sqlite3_close db in close_loop fuel code db1.

(** ** The frame of every data access *)

Context `{!SqliteLaws DB}.

(** A connection on which no one holds a statement. *)
Definition ready (st : ps_t) (es : list (string * cache_item_t)) : Prop :=
  ps_ok host st es /\ ps_mutex st = Some false.

(** The connection after the statement [p] was given back on [db]. *)
Definition given_back (db : DB) (p : Z) : DB :=
  let db1 := (sqlite3_reset db p).2 in
  if sqlite3_stmt_busy db1 p then (sqlite3_finalize db1 p).2 else db1.

(** Either there was no statement, or the work was done on a statement of the
    text asked for, and the statement was given back. *)
Definition done_or_none {R : Type} (st st' : ps_t) (sql : string)
    (work : DB -> Z -> outcome (Z * R * DB)) (none : R) (ret : Z) (r : R) : Prop :=
  (ret = -1 /\ r = none /\ admin (ps_conn st) (ps_conn st')) \/
  exists db p db', admin (ps_conn st) db /\ p ∈ live db /\ sqlite3_sql db p = sql /\
    work db p = Returns (ret, r, db') /\ ps_conn st' = given_back db' p.

Lemma with_stmt_spec {R : Type} st es sql o (work : DB -> Z -> outcome (Z * R * DB)) none :
  ready st es -> strlen sql < 2 ^ 30 ->
  (forall db p, admin (ps_conn st) db -> p ∈ live db -> sqlite3_sql db p = sql ->
    exists ret r db', work db p = Returns (ret, r, db') /\ same_stmts live db db') ->
  exists ret r st' o' es', with_stmt (Some st) sql o work none = Returns (ret, r, Some st', o') /\
    ready st' es' /\ ps_dsn st' = ps_dsn st /\ done_or_none st st' sql work none ret r.
Proof.
  intros [Hok Hm] Hlen Hwork. unfold with_stmt.
  destruct (get_spec host st es sql o Hok Hm Hlen) as (r & st1 & o1 & es1 & -> & Hok1 & Hdsn & Hadm & Hr).
  cbn [mbind outcome_bind]. destruct r as [p|].
  - destruct Hr as (Hm1 & _ & Hp & Hsql). destruct (Hwork (ps_conn st1) p Hadm Hp Hsql) as (ret & r & db' & Hw & Hs).
    rewrite Hw. cbn [mbind outcome_bind].
    destruct (put_spec host (with_conn st1 db') es1 p) as (st2 & es2 & -> & Hok2 & Hm2 & Hdsn2 & Hconn).
    { by apply conn_same. }
    { done. }
    { cbn [with_conn ps_conn]. by rewrite (proj1 Hs). }
    cbn [mbind outcome_bind]. exists ret, r, st2, o1, es2. split; [done|]. split; [done|].
    split; [by rewrite Hdsn2|]. right. exists (ps_conn st1), p, db'. do 4 (split; [done|]).
    unfold given_back. cbn [with_conn ps_conn] in Hconn.
    destruct (sqlite3_stmt_busy (sqlite3_reset db' p).2 p); by destruct Hconn.
  - exists (-1), none, st1, o1, es1. do 3 (split; [done|]). by left.
Qed.

(** Binders only bind. *)
Definition bind_ok (cb : option stmt_bind_cb) : Prop :=
  forall f db p, cb = Some f -> p ∈ live db -> same_stmts live db (f db p).

Lemma run_bind_same cb db p : bind_ok cb -> p ∈ live db -> same_stmts live db (run_bind cb db p).
Proof. intros Hcb Hp. destruct cb as [f|]; [by apply (Hcb f)|done]. Qed.

Lemma same_live db db' (p : Z) : same_stmts live db db' -> p ∈ live db -> p ∈ live db'.
Proof. intros [Hl _]. by rewrite Hl. Qed.

Lemma step_once_ok cb : bind_ok cb -> forall db p, p ∈ live db ->
  exists ret r db', step_once cb db p = Returns (ret, r, db') /\ same_stmts live db db'.
Proof.
  intros Hcb db p Hp. pose proof (run_bind_same cb db p Hcb Hp) as Hb. unfold step_once.
  pose proof (step_same (run_bind cb db p) p (same_live _ _ _ Hb Hp)) as Hs.
  destruct (sqlite3_step (run_bind cb db p) p) as [[] db1]; eexists _, _, db1; (split; [done|]);
    by etrans.
Qed.

Lemma base_spec st es sql cb o : ready st es -> strlen sql < 2 ^ 30 -> bind_ok cb ->
  exists ret r st' o' es', dao_template_base (Some st) (Some sql) cb o = Returns (ret, Some st', o') /\
    ready st' es' /\ ps_dsn st' = ps_dsn st /\ done_or_none st st' sql (step_once cb) None ret r.
Proof.
  intros Hr Hl Hcb. unfold dao_template_base.
  destruct (with_stmt_spec st es sql o (step_once cb) None Hr Hl (fun db p _ Hp _ => step_once_ok cb Hcb db p Hp))
    as (ret & r & st' & o' & es' & -> & H1 & H2 & H3).
  cbn [mbind outcome_bind]. by exists ret, r, st', o', es'.
Qed.

(** The states of the connection after each row, and after the last step. *)
Inductive rows_run (db : DB) (p : Z) : list DB -> DB -> Prop :=
  | run_end db' : (sqlite3_step db p).2 = db' -> (sqlite3_step db p).1 <> SQLITE_ROW -> rows_run db p [] db'
  | run_row db1 dbs db' : sqlite3_step db p = (SQLITE_ROW, db1) -> rows_run db1 p dbs db' ->
      rows_run db p (db1 :: dbs) db'.

Lemma rows_run_exists n : forall db p, p ∈ live db -> (rows_left db p < n)%nat ->
  exists dbs db', rows_run db p dbs db' /\ same_stmts live db db' /\ (length dbs <= rows_left db p)%nat.
Proof.
  induction n as [|n IH]; intros db p Hp Hn; [lia|].
  pose proof (step_same db p Hp) as Hs. destruct (sqlite3_step db p) as [rc db1] eqn:Hstep.
  cbn [snd] in Hs. destruct rc.
  - pose proof (step_row db p db1 Hp Hstep) as Hr.
    destruct (IH db1 p (same_live _ _ _ Hs Hp) ltac:(lia)) as (dbs & db' & Hrun & Hs' & Hlen).
    exists (db1 :: dbs), db'. split; [by eapply run_row|]. split; [by etrans|]. simpl. lia.
  - exists [], db1. split; [apply run_end; by rewrite Hstep|]. split; [done|]. simpl. lia.
  - exists [], db1. split; [apply run_end; by rewrite Hstep|]. split; [done|]. simpl. lia.
Qed.

(** The loop counts the rows and reads each of them once, in order. *)
Lemma step_rows_run {U : Type} (cb : DB -> Z -> U -> U) db p dbs db' : rows_run db p dbs db' ->
  forall fuel line u, (length dbs < fuel)%nat -> 0 <= line -> line + Z.of_nat (length dbs) <= INT32_MAX ->
  step_rows fuel cb db p line u =
    Returns (line + Z.of_nat (length dbs), fold_left (fun u db => cb db p u) dbs u, db').
Proof.
  unfold INT32_MAX.
  induction 1 as [db p db' <- Hrc|db p db1 dbs db' Hstep _ IH]; intros fuel line u Hf Hl Hmax;
    (destruct fuel as [|fuel]; [lia|]); cbn [step_rows].
  - destruct (sqlite3_step db p) as [[] db1]; [done| |]; cbn [length]; by rewrite Z.add_0_r.
  - rewrite Hstep. cbn [length] in *. rewrite sint32_id by (unfold in_int32, INT32_MIN, INT32_MAX; lia).
    rewrite IH by lia. cbn [fold_left]. do 3 f_equal. lia.
Qed.

(** Enough fuel for the statement of text [sql], in the cache of [conn] or
    prepared anew, after binding. *)
Definition enough_fuel (fuel : nat) (conn : DB) (cb : option stmt_bind_cb) (sql : string) : Prop :=
  forall db p, admin conn db -> p ∈ live db -> sqlite3_sql db p = sql ->
    (rows_left (run_bind cb db p) p < fuel)%nat /\ Z.of_nat fuel <= INT32_MAX.

(** A reading loop as the work on a statement. *)
Lemma rows_work {U : Type} fuel conn cb sql (f : DB -> Z -> U -> U) u : bind_ok cb ->
  enough_fuel fuel conn cb sql -> forall db p, admin conn db -> p ∈ live db -> sqlite3_sql db p = sql ->
  exists dbs db', rows_run (run_bind cb db p) p dbs db' /\ same_stmts live db db' /\
    step_rows fuel f (run_bind cb db p) p 0 u =
      Returns (Z.of_nat (length dbs), fold_left (fun u db => f db p u) dbs u, db').
Proof.
  intros Hcb Hfuel db p Ha Hp Hsql. pose proof (run_bind_same cb db p Hcb Hp) as Hb.
  destruct (Hfuel db p Ha Hp Hsql) as [Hf Hmax].
  destruct (rows_run_exists _ _ _ (same_live _ _ _ Hb Hp) Hf) as (dbs & db' & Hrun & Hs & Hlen).
  exists dbs, db'. split; [done|]. split; [by etrans|].
  rewrite (step_rows_run f _ _ _ _ Hrun) by lia. done.
Qed.

(** What a query leaves behind: no statement and [-1], or one reading of each
    row in order and their number. *)
Definition read_or_none {U : Type} (st st' : ps_t) (sql : string) (cb : option stmt_bind_cb)
    (f : DB -> Z -> U -> U) (u : U) (ret : Z) (u' : U) : Prop :=
  (ret = -1 /\ u' = u /\ admin (ps_conn st) (ps_conn st')) \/
  exists db p dbs db', admin (ps_conn st) db /\ p ∈ live db /\ sqlite3_sql db p = sql /\
    rows_run (run_bind cb db p) p dbs db' /\ ret = Z.of_nat (length dbs) /\
    u' = fold_left (fun u db => f db p u) dbs u /\ ps_conn st' = given_back db' p.

Lemma get_rows {U : Type} fuel st es sql cb (f : DB -> Z -> U -> U) u o :
  ready st es -> strlen sql < 2 ^ 30 -> bind_ok cb -> enough_fuel fuel (ps_conn st) cb sql ->
  exists ret u' st' o' es', dao_template_get fuel (Some st) (Some sql) cb (Some f) (Some u) o =
      Returns (ret, Some u', Some st', o') /\
    ready st' es' /\ ps_dsn st' = ps_dsn st /\ read_or_none st st' sql cb f u ret u'.
Proof.
  intros Hr Hl Hcb Hfuel. unfold dao_template_get.
  destruct (with_stmt_spec st es sql o (fun db p => step_rows fuel f (run_bind cb db p) p 0 u) u Hr Hl)
    as (ret & u' & st' & o' & es' & -> & H1 & H2 & H3).
  { intros db p Ha Hp Hsql. destruct (rows_work fuel _ cb sql f u Hcb Hfuel db p Ha Hp Hsql) as (dbs & db' & _ & Hs & ->).
    by eexists _, _, db'. }
  cbn [mbind outcome_bind]. exists ret, u', st', o', es'. do 3 (split; [done|]).
  destruct H3 as [?|(db & p & db' & Ha & Hp & Hsql & Hw & Hc)]; [by left|]. right.
  destruct (rows_work fuel _ cb sql f u Hcb Hfuel db p Ha Hp Hsql) as (dbs & db1 & Hrun & _ & Hw').
  rewrite Hw in Hw'. injection Hw' as -> -> ->. by exists db, p, dbs, db1.
Qed.

(** [dao_template_select] is the query that reads nothing. *)
Lemma select_get fuel st sql cb o :
  dao_template_select fuel (Some st) (Some sql) cb true o =
  ('(ret, _, ps', o') ← dao_template_get fuel (Some st) (Some sql) cb (Some (fun _ _ u => u)) (Some ()) o;
   Returns (ret, ps', o')).
Proof.
  unfold dao_template_select, dao_template_get. destruct (with_stmt _ _ _ _ _) as [| |[[[? ?] ?] ?]]; done.
Qed.

Lemma select_rows fuel st es sql cb o :
  ready st es -> strlen sql < 2 ^ 30 -> bind_ok cb -> enough_fuel fuel (ps_conn st) cb sql ->
  exists ret st' o' es', dao_template_select fuel (Some st) (Some sql) cb true o = Returns (ret, Some st', o') /\
    ready st' es' /\ ps_dsn st' = ps_dsn st /\ read_or_none st st' sql cb (fun _ _ u => u) () ret ().
Proof.
  intros Hr Hl Hcb Hfuel. rewrite select_get.
  destruct (get_rows fuel st es sql cb (fun _ _ u => u) () o Hr Hl Hcb Hfuel)
    as (ret & [] & st' & o' & es' & -> & H1 & H2 & H3).
  cbn [mbind outcome_bind]. by exists ret, st', o', es'.
Qed.

(** *** Batches *)

(** The outcomes of the steps of a batch, in order. *)
Inductive batch_run (cb : option (DB -> Z -> Z -> DB)) (p : Z) : Z -> DB -> list bool -> DB -> Prop :=
  | batch_end i db : batch_run cb p i db [] db
  | batch_row i db rc db2 oks db' :
      sqlite3_step (match cb with Some f => f db p i | None => db end) p = (rc, db2) ->
      batch_run cb p (i + 1) (sqlite3_reset db2 p).2 oks db' ->
      batch_run cb p i db (match rc with SQLITE_DONE => true | _ => false end :: oks) db'.

Definition batch_cb_ok (cb : option (DB -> Z -> Z -> DB)) : Prop :=
  forall f db p i, cb = Some f -> p ∈ live db -> same_stmts live db (f db p i).

Definition count_true (l : list bool) : Z := Z.of_nat (length (List.filter id l)).

Lemma batch_loop_run cb p n : forall i db line, batch_cb_ok cb -> p ∈ live db ->
  0 <= line -> line + Z.of_nat n <= INT32_MAX ->
  exists oks db', batch_run cb p i db oks db' /\ length oks = n /\ same_stmts live db db' /\
    batch_loop n i cb db p line = (line + count_true oks, db').
Proof.
  unfold INT32_MAX.
  induction n as [|n IH]; intros i db line Hcb Hp Hl Hmax; cbn [batch_loop].
  { exists [], db. split; [constructor|]. split; [done|]. split; [done|]. f_equal.
    unfold count_true. simpl. lia. }
  set (db1 := match cb with Some f => f db p i | None => db end).
  assert (H1 : same_stmts live db db1) by (unfold db1; destruct cb as [f|]; [by apply (Hcb f)|done]).
  pose proof (step_same db1 p (same_live _ _ _ H1 Hp)) as H2.
  destruct (sqlite3_step db1 p) as [rc db2] eqn:Hstep. cbn [snd] in H2.
  pose proof (same_live _ _ _ H1 Hp) as Hp1. pose proof (same_live _ _ _ H2 Hp1) as Hp2.
  pose proof (reset_same db2 p Hp2) as H3. destruct (sqlite3_reset db2 p) as [b db3] eqn:Hreset.
  cbn [snd] in H3. set (line' := match rc with SQLITE_DONE => int32 (line + 1) | _ => line end).
  set (ok := match rc with SQLITE_DONE => true | _ => false end).
  assert (Hline : line' = line + count_true [ok]).
  { unfold line', ok, count_true. destruct rc; simpl; try lia.
    rewrite sint32_id; [lia|]. unfold in_int32, INT32_MIN, INT32_MAX. lia. }
  assert (Hok : 0 <= count_true [ok] <= 1) by (unfold count_true; destruct ok; simpl; lia).
  destruct (IH (i + 1) db3 line' Hcb (same_live _ _ _ H3 Hp2) ltac:(lia) ltac:(lia))
    as (oks & db' & Hrun & Hlen & Hs & ->).
  exists (ok :: oks), db'. split; [apply (batch_row cb p i db rc db2); [done|by rewrite Hreset]|].
  split; [simpl; lia|]. split; [etrans; [exact H1|]; etrans; [exact H2|]; by etrans|].
  f_equal. rewrite Hline. unfold count_true. destruct ok; simpl; lia.
Qed.

Lemma dao_commit_same db : same_stmts live db (dao_commit db).
Proof. apply exec_same. Qed.

Lemma dao_begin_same db : same_stmts live db (dao_begin db).
Proof.
  unfold dao_begin. pose proof (exec_same db BEGIN_SQL) as Hs.
  destruct (sqlite3_exec db BEGIN_SQL) as [[] db1]; cbn [negb snd] in *; [done|].
  destruct (String.eqb _ _); [|done]. etrans; [exact Hs|]. apply dao_commit_same.
Qed.

(** *** Options *)

Fixpoint no_percent (s : string) : bool :=
  match s with
  | EmptyString => true
  | String c s' => negb (Ascii.eqb c "%"%char) && no_percent s'
  end.

Lemma printf_plain s : no_percent s = true -> printf_no_args s = Some s.
Proof.
  induction s as [|c s IH]; simpl; [done|]. destruct (Ascii.eqb c "%"%char); [done|]. simpl.
  intros Hs. by rewrite IH.
Qed.

(** The value an option binds, if its type binds one. *)
Definition option_value (opt : dao_option_t) : option (list sql_value) :=
  match opt_type opt, userp opt with
  | DAO_TYPE_INT32, UInt z => Some [VInt (int32 z)]
  | DAO_TYPE_INT64, UInt z => Some [VInt (int64 z)]
  | DAO_TYPE_FLOAT32, UInt z => Some [VDouble (round_bits 24 (int64 z))]
  | DAO_TYPE_FLOAT64, UInt z => Some [VDouble (round_bits 53 (int64 z))]
  | DAO_TYPE_TEXT, UText s => Some [VText s]
  | DAO_TYPE_NULL, _ => Some []
  | _, _ => None
  end.

(** The values bound from position [i] on. *)
Fixpoint bind_all (i : Z) (vs : list sql_value) (db : DB) (p : Z) : DB :=
  match vs with
  | [] => db
  | v :: vs' => bind_all (i + 1) vs' (sqlite3_bind db p i v).2 p
  end.

Fixpoint values_of (options : list dao_option_t) : option (list sql_value) :=
  match options with
  | [] => Some []
  | opt :: options' => v ← option_value opt; vs ← values_of options'; Some (v ++ vs)
  end.

Lemma bind_options_all options : forall i db p vs, values_of options = Some vs ->
  bind_options i options db p = Some (bind_all i vs db p).
Proof.
  induction options as [|[u part ty] options IH]; intros i db p vs Hv; cbn [values_of] in Hv.
  { by injection Hv as <-. }
  apply bind_Some in Hv as (v & Hv & Hvs). apply bind_Some in Hvs as (vs' & Hvs & [= <-]).
  unfold option_value in Hv. cbn [bind_options]. cbn [opt_type userp] in *.
  destruct ty, u; try done; injection Hv as <-; cbn [app bind_all]; by apply IH.
Qed.

Lemma bind_all_same vs : forall i db p, p ∈ live db -> same_stmts live db (bind_all i vs db p).
Proof.
  induction vs as [|v vs IH]; intros i db p Hp; [done|]. cbn [bind_all].
  pose proof (bind_same db p i v Hp) as Hb. etrans; [exact Hb|]. apply IH. by eapply same_live.
Qed.

Fixpoint joined (sql : string) (options : list dao_option_t) : string :=
  match options with [] => sql | opt :: options' => joined (sql ++ opt_sql_part opt) options' end.

Lemma sql_of_plain options : forall sql, forallb (fun o => no_percent (opt_sql_part o)) options = true ->
  sql_of_parts sql options = Some (joined sql options).
Proof.
  induction options as [|opt options IH]; intros sql Hp; [done|]. simpl in Hp.
  apply andb_true_iff in Hp as [H1 H2]. cbn [sql_of_parts joined]. rewrite (printf_plain _ H1). simpl. by apply IH.
Qed.

(** *** Closing *)

Lemma close_loop_ok n : forall db, (size (live db) < n)%nat ->
  (forall db s, s ∈ live db -> (sqlite3_finalize db s).1 = true) ->
  exists db1, live db1 = ∅ /\
    (let '(code, db') := sqlite3_close db in close_loop n code db') = Some (sqlite3_close db1).2.
Proof.
  induction n as [|n IH]; intros db Hn Hfin; [lia|].
  destruct (decide (live db = ∅)) as [He|Hne].
  - exists db. split; [done|]. destruct (sqlite3_close db) as [[] db'] eqn:Hc; [done|].
    exfalso. assert (live db <> ∅); [|done]. apply close_busy. by rewrite Hc.
  - pose proof (close_same db (proj2 (close_busy db) Hne)) as Hs.
    pose proof (proj2 (close_busy db) Hne) as Hb.
    destruct (sqlite3_close db) as [code db'] eqn:Hc. cbn [fst snd] in *. subst code. cbn [close_loop].
    destruct (sqlite3_next_stmt db') as [s|] eqn:Hnext.
    2:{ exfalso. apply next_stmt_none in Hnext. rewrite (proj1 Hs) in Hnext. done. }
    apply next_stmt_live in Hnext. pose proof (finalize_live db' s Hnext) as [Hl _].
    pose proof (Hfin db' s Hnext) as Hok. destruct (sqlite3_finalize db' s) as [ok db1]. cbn [fst snd] in *.
    subst ok. apply IH; [|done]. rewrite Hl.
    pose proof (size_difference (live db') {[s]} ltac:(set_solver)) as Hsz.
    rewrite size_singleton in Hsz. rewrite (proj1 Hs) in *. 
    assert (size (live db) <> 0%nat) by (intros H0; apply Hne; by apply leibniz_equiv, size_empty_inv). lia.
Qed.

End Template.

(** ** Properties *)

(** An operation that steps once, on a connection no one holds a statement
    of: it returns, and no one holds a statement again.  It returns [-1] when
    there is no statement or the step is not done; otherwise the binder ran on
    a statement of the text asked for, the step is done, and the result is the
    number of changed rows. *)
Theorem dao_template_base_outcome {DB} `{SqliteLaws DB} host st es sql cb o :
  ready host st es -> strlen sql < 2 ^ 30 -> bind_ok cb ->
  exists ret st' o' es', dao_template_base host (Some st) (Some sql) cb o = Returns (ret, Some st', o') /\
    ready host st' es' /\ ps_dsn st' = ps_dsn st /\
    ((ret = -1 /\ admin (ps_conn st) (ps_conn st')) \/
     exists db p, admin (ps_conn st) db /\ p ∈ live db /\ sqlite3_sql db p = sql /\
       let '(rc, db1) := sqlite3_step (run_bind cb db p) p in
       ret = (match rc with SQLITE_DONE => sqlite3_changes db1 | _ => -1 end) /\
       ps_conn st' = given_back db1 p).
Proof.
  intros Hr Hl Hcb. destruct (base_spec host st es sql cb o Hr Hl Hcb)
    as (ret & r & st' & o' & es' & Hrun & Hr' & Hd & Hcase).
  exists ret, st', o', es'. do 3 (split; [done|]).
  destruct Hcase as [(-> & _ & Ha)|(db & p & db' & Ha & Hp & Hsql & Hw & Hc)]; [by left|].
  right. exists db, p. do 3 (split; [done|]). unfold step_once in Hw.
  destruct (sqlite3_step (run_bind cb db p) p) as [[] db1]; by injection Hw as <- _ ->.
Qed.

Definition demo_bind_one : option (stmt_bind_cb (DB := demo_db ())) :=
  Some (fun db p => (sqlite3_bind db p 1 (VInt 5)).2).

Lemma demo_bind_one_ok : bind_ok demo_bind_one.
Proof. intros f db p [= <-] Hp. exact (bind_same db p 1 (VInt 5) Hp). Qed.

Lemma demo_ready : ready true demo_ps [].
Proof. split; [apply demo_ps_ok|done]. Qed.

Lemma dao_template_base_outcome_witness :
  exists ret st' o' es', dao_template_base true (Some demo_ps) (Some "u"%string) demo_bind_one [] =
      Returns (ret, Some st', o') /\ ready true st' es' /\ ret = 3.
Proof.
  destruct (dao_template_base_outcome true demo_ps [] "u"%string demo_bind_one [] demo_ready)
    as (ret & st' & o' & es' & Hrun & Hr & _); [vm_compute; reflexivity|apply demo_bind_one_ok|].
  exists ret, st', o', es'. split; [exact Hrun|]. split; [exact Hr|].
  vm_compute in Hrun. injection Hrun as <- _ _. reflexivity.
Defined.

(** A query, on a connection no one holds a statement of, with fuel for its
    rows: it ends, no one holds a statement again, and unless there was no
    statement, the reader saw every row once and in order and the result is
    their number.  A step that fails ends the rows like the last one. *)
Theorem dao_template_get_rows {DB U} `{SqliteLaws DB} host fuel st es sql cb (f : DB -> Z -> U -> U) u o :
  ready host st es -> strlen sql < 2 ^ 30 -> bind_ok cb -> enough_fuel fuel (ps_conn st) cb sql ->
  exists ret u' st' o' es', dao_template_get host fuel (Some st) (Some sql) cb (Some f) (Some u) o =
      Returns (ret, Some u', Some st', o') /\
    ready host st' es' /\
    ((ret = -1 /\ u' = u) \/
     exists db p dbs db', p ∈ live db /\ sqlite3_sql db p = sql /\
       rows_run (run_bind cb db p) p dbs db' /\ ret = Z.of_nat (length dbs) /\
       u' = fold_left (fun u db => f db p u) dbs u).
Proof.
  intros Hr Hl Hcb Hf. destruct (get_rows host fuel st es sql cb f u o Hr Hl Hcb Hf)
    as (ret & u' & st' & o' & es' & Hrun & Hr' & _ & Hcase).
  exists ret, u', st', o', es'. do 2 (split; [done|]). destruct Hcase as [(? & ? & _)|Hcase]; [by left|].
  destruct Hcase as (db & p & dbs & db' & _ & ? & ? & ? & ? & ? & _). right. by exists db, p, dbs, db'.
Qed.

(** In the example every statement that was not stepped has two rows. *)
Lemma demo_idle db : admin demo_conn db -> forall p st, d_stmts db !! p = Some st -> d_run st = None.
Proof.
  induction 1 as [|db sql _ IH|db s _ IH]; intros p st Hst.
  - done.
  - simpl in Hst. unfold demo_prepare in Hst. destruct (decide _); [|by apply (IH p)].
    simpl in Hst. apply lookup_insert_Some in Hst as [[_ <-]|[_ Hst]]; [done|by apply (IH p)].
  - simpl in Hst. apply lookup_delete_Some in Hst as [_ Hst]. by apply (IH p).
Qed.

Lemma demo_fuel sql : enough_fuel 3 demo_conn None sql.
Proof.
  intros db p Ha Hp _. split; [|vm_compute; congruence]. cbn [run_bind rows_left demo_laws].
  unfold demo_rows_left. destruct (d_stmts db !! p) as [st|] eqn:Hst; [|lia].
  unfold demo_rows. rewrite (demo_idle db Ha p st Hst). simpl. destruct (String.eqb _ _); simpl; lia.
Qed.

(** A reader that collects the first column. *)
Definition collect (db : demo_db ()) (p : Z) (l : list Z) : list Z := l ++ [sqlite3_column_int db p 0].

Lemma dao_template_get_rows_witness :
  exists ret u' st' o' es', dao_template_get true 3 (Some demo_ps) (Some "q"%string) None (Some collect) (Some []) [] =
      Returns (ret, Some u', Some st', o') /\ ready true st' es' /\ ret = 2 /\ u' = [7; 8].
Proof.
  destruct (dao_template_get_rows true 3 demo_ps [] "q"%string None collect [] [] demo_ready)
    as (ret & u' & st' & o' & es' & Hrun & Hr & _);
    [vm_compute; reflexivity|intros f db p [=]|apply demo_fuel|].
  exists ret, u', st', o', es'. split; [exact Hrun|]. split; [exact Hr|].
  vm_compute in Hrun. injection Hrun as <- <- _ _. split; reflexivity.
Defined.

(** A batch: the rows are bound with their index and stepped in order inside
    one transaction, a row that fails does not stop the others, and the
    result is the number of rows that were done. *)
Theorem dao_template_batch_counts {DB} `{SqliteLaws DB} host st es sql n cb o :
  ready host st es -> strlen sql < 2 ^ 30 -> batch_cb_ok cb -> 0 <= n <= INT32_MAX ->
  exists ret st' o' es', dao_template_batch_create host (Some st) (Some sql) n cb o =
      Returns (ret, Some st', o') /\ ready host st' es' /\
    (ret = -1 \/
     exists db p oks db', p ∈ live db /\ sqlite3_sql db p = sql /\
       batch_run cb p 0 (dao_begin db) oks db' /\ Z.of_nat (length oks) = n /\
       ret = count_true oks /\ 0 <= ret <= n /\ ps_conn st' = given_back (dao_commit db') p).
Proof.
  intros Hr Hl Hcb Hn. unfold dao_template_batch_create, dao_template_batch_base.
  set (work := fun db p => let '(line, db1) := batch_loop (Z.to_nat n) 0 cb (dao_begin db) p 0 in
                           Returns (line, (), dao_commit db1)).
  assert (Hwork : forall db p, p ∈ live db -> exists oks db', batch_run cb p 0 (dao_begin db) oks db' /\
    length oks = Z.to_nat n /\ same_stmts live db (dao_commit db') /\
    work db p = Returns (count_true oks, (), dao_commit db')).
  { intros db p Hp. pose proof (dao_begin_same db) as Hb.
    destruct (batch_loop_run cb p (Z.to_nat n) 0 (dao_begin db) 0 Hcb (same_live _ _ _ Hb Hp)
      ltac:(lia) ltac:(lia)) as (oks & db' & Hrun & Hlen & Hs & Heq).
    exists oks, db'. split; [done|]. split; [done|].
    split; [etrans; [exact Hb|]; etrans; [exact Hs|]; apply dao_commit_same|]. unfold work. by rewrite Heq. }
  destruct (with_stmt_spec host st es sql o work () Hr Hl)
    as (ret & [] & st' & o' & es' & -> & Hr' & _ & Hcase).
  { intros db p _ Hp _. destruct (Hwork db p Hp) as (oks & db' & _ & _ & Hs & ->). by eexists _, _, _. }
  cbn [mbind outcome_bind]. exists ret, st', o', es'. split; [done|]. split; [done|].
  destruct Hcase as [(-> & _)|(db & p & db1 & _ & Hp & Hsql & Hw & Hc)]; [by left|]. right.
  destruct (Hwork db p Hp) as (oks & db' & Hrun & Hlen & _ & Hw'). rewrite Hw in Hw'.
  injection Hw' as -> ->. exists db, p, oks, db'. split_and!; try done; unfold count_true; try lia.
  pose proof (List.filter_length_le id oks). lia.
Qed.

Lemma dao_template_batch_counts_witness :
  exists ret st' o' es', dao_template_batch_create true (Some demo_ps) (Some "u"%string) 3 None [] =
      Returns (ret, Some st', o') /\ ready true st' es' /\ ret = 3.
Proof.
  destruct (dao_template_batch_counts true demo_ps [] "u"%string 3 None [] demo_ready)
    as (ret & st' & o' & es' & Hrun & Hr & _);
    [vm_compute; reflexivity|intros f db p i [=]|vm_compute; split; congruence|].
  exists ret, st', o', es'. split; [exact Hrun|]. split; [exact Hr|].
  vm_compute in Hrun. injection Hrun as <- _ _. reflexivity.
Defined.

(** A statement built from options of matching types: the text is the joined
    parts, each option that carries a value is bound at the next position (an
    option without a value takes none), the rows are read once each in order,
    and the result is their number, or the number of changed rows when there
    is none. *)
Theorem dao_template_with_option_outcome {DB U} `{SqliteLaws DB} host fuel st es part options vs f (u : U) o :
  ready host st es -> no_percent part = true ->
  forallb (fun o => no_percent (opt_sql_part o)) options = true -> values_of options = Some vs ->
  strlen (joined part options) < 2 ^ 30 ->
  enough_fuel fuel (ps_conn st) (Some (fun db p => bind_all 1 vs db p)) (joined part options) ->
  exists ret u' st' o' es',
    dao_template_get_with_option host fuel (Some st) (Some part) (Some options) (Some f) u o =
      Returns (ret, u', Some st', o') /\ ready host st' es' /\
    ((ret = -1 /\ u' = u) \/
     exists db p dbs db', p ∈ live db /\ sqlite3_sql db p = joined part options /\
       rows_run (bind_all 1 vs db p) p dbs db' /\
       ret = (if Z.of_nat (length dbs) =? 0 then sqlite3_changes db' else Z.of_nat (length dbs)) /\
       u' = fold_left (fun u db => f db p u) dbs u).
Proof.
  intros Hr Hpart Hparts Hvs Hl Hfuel. unfold dao_template_get_with_option, dao_template_base_with_option.
  rewrite (printf_plain _ Hpart). cbn [ub mbind outcome_bind]. rewrite (sql_of_plain _ _ Hparts).
  cbn [ub mbind outcome_bind].
  assert (Hcb : bind_ok (Some (fun db p => bind_all 1 vs db p)))
    by (intros g db p [= <-] Hp; by apply bind_all_same).
  match goal with |- context [with_stmt host (Some st) ?sql o ?w u] => set (work := w) end.
  assert (Hwork : forall db p, admin (ps_conn st) db -> p ∈ live db -> sqlite3_sql db p = joined part options ->
    exists dbs db', rows_run (bind_all 1 vs db p) p dbs db' /\ same_stmts live db db' /\
      work db p = Returns (if Z.of_nat (length dbs) =? 0 then sqlite3_changes db' else Z.of_nat (length dbs),
        fold_left (fun u db => f db p u) dbs u, db')).
  { intros db p Ha Hp Hsql.
    destruct (rows_work fuel _ _ _ f u Hcb Hfuel db p Ha Hp Hsql) as (dbs & db' & Hrun & Hs & Hrows).
    exists dbs, db'. split; [done|]. split; [done|]. unfold work.
    rewrite (bind_options_all _ _ _ _ _ Hvs). cbn [ub mbind outcome_bind].
    cbn [run_bind] in Hrows. by rewrite Hrows. }
  destruct (with_stmt_spec host st es (joined part options) o work u Hr Hl)
    as (ret & u' & st' & o' & es' & Hrun & Hr' & _ & Hcase).
  { intros db p Ha Hp Hsql. destruct (Hwork db p Ha Hp Hsql) as (dbs & db' & _ & Hs & ->). by eexists _, _, _. }
  exists ret, u', st', o', es'. split; [done|]. split; [done|].
  destruct Hcase as [(-> & -> & _)|(db & p & db1 & Ha & Hp & Hsql & Hw & _)]; [by left|]. right.
  destruct (Hwork db p Ha Hp Hsql) as (dbs & db' & Hrun' & _ & Hw'). rewrite Hw in Hw'.
  injection Hw' as -> -> ->. by exists db, p, dbs, db'.
Qed.

Definition demo_options : list dao_option_t :=
  [DaoOption (UInt 7) " a=?" DAO_TYPE_INT32; DaoOption (UInt 0) " and 1" DAO_TYPE_NULL;
   DaoOption (UText "x") " and b=?" DAO_TYPE_TEXT].

Lemma demo_fuel_all vs sql : enough_fuel 3 demo_conn (Some (fun db p => bind_all 1 vs db p)) sql.
Proof.
  intros db p Ha Hp _. split; [|vm_compute; congruence]. cbn [run_bind].
  assert (Hidle : forall i st, d_stmts (bind_all i vs db p) !! p = Some st -> d_run st = None).
  { pose proof (demo_idle db Ha p) as Hi. clear Ha Hp. revert db Hi.
    induction vs as [|v vs IH]; intros db Hi i st Hst; [by apply Hi|]. cbn [bind_all] in Hst.
    eapply IH; [|exact Hst]. intros st' Hst'. simpl in Hst'. unfold demo_bind in Hst'.
    destruct (d_stmts db !! p) as [st0|] eqn:H0; [|simpl in Hst'; congruence].
    pose proof (Hi st0 eq_refl) as Hr. rewrite Hr in Hst'.
    simpl in Hst'. rewrite lookup_insert_eq in Hst'. by injection Hst' as <-. }
  cbn [rows_left demo_laws]. unfold demo_rows_left.
  destruct (d_stmts (bind_all 1 vs db p) !! p) as [st|] eqn:Hst; [|lia].
  unfold demo_rows. rewrite (Hidle 1 st Hst). simpl. destruct (String.eqb _ _); simpl; lia.
Qed.

Lemma dao_template_with_option_outcome_witness :
  exists ret u' st' o' es',
    dao_template_get_with_option true 3 (Some demo_ps) (Some "q where"%string) (Some demo_options) (Some collect) [] [] =
      Returns (ret, u', Some st', o') /\ ready true st' es' /\ ret = 2 /\ u' = [7; 8].
Proof.
  destruct (dao_template_with_option_outcome true 3 demo_ps [] "q where"%string demo_options
    [VInt 7; VText "x"] collect [] [] demo_ready)
    as (ret & u' & st' & o' & es' & Hrun & Hr & _);
    [reflexivity|reflexivity|reflexivity|vm_compute; reflexivity|apply demo_fuel_all|].
  exists ret, u', st', o', es'. split; [exact Hrun|]. split; [exact Hr|].
  vm_compute in Hrun. injection Hrun as <- <- _ _. split; reflexivity.
Defined.

(** [dao_close] closes the connection after it finalized every statement that
    was still alive, as long as no finalization reports an error (with one, it
    stops and leaves the connection open). *)
Theorem dao_close_closes {DB} `{SqliteLaws DB} (db : DB) fuel :
  (size (live db) < fuel)%nat -> (forall db s, s ∈ live db -> (sqlite3_finalize db s).1 = true) ->
  exists db1, live db1 = ∅ /\ (sqlite3_close db1).1 = CLOSE_OK /\
    dao_close fuel db = Some (sqlite3_close db1).2.
Proof.
  intros Hf Hfin. destruct (close_loop_ok fuel db Hf Hfin) as (db1 & He & Hrun).
  exists db1. split; [done|]. split; [|exact Hrun].
  destruct (sqlite3_close db1) as [[] db'] eqn:Hc; [done|]. exfalso.
  assert (live db1 <> ∅); [|done]. apply close_busy. by rewrite Hc.
Qed.

Lemma dao_close_closes_witness :
  exists db1, live db1 = ∅ /\ dao_close 3 (ps_conn got_ps) = Some (sqlite3_close db1).2.
Proof.
  destruct (dao_close_closes (ps_conn got_ps) 3) as (db1 & He & _ & Hrun);
    [vm_compute; repeat constructor|intros db s _; reflexivity|].
  exists db1. split; [exact He|exact Hrun].
Defined.
