(* ===== verification/SqlStore.v ===== *)
(** * What the statements mean

    The data access objects rely on more than the interface of [Sqlite.v]:
    on what their SQL texts do.  A statement is a query, with the rows it
    yields, or a change of the stored data, as functions of the store and the
    values bound.  The laws say how binding and stepping implement this for a
    connection that is the only user of its database; a step or a binding may
    still fail. *)

From S2P Require Import Prelude Utils Lru Sqlite SqliteDemo PreparedStmt Template.

Inductive meaning (S : Type) :=
  | Query (rows : S -> gmap Z sql_value -> list (list Z))
  | Change (effect : S -> gmap Z sql_value -> S * Z).
Arguments Query {S}.
Arguments Change {S}.

Class SqlStore (DB S : Type) `{SqliteLaws DB} := {
  store : DB -> S;
  meaning_of : string -> option (meaning S);
  params : string -> Z;                       (* the parameters of a text *)
  binds : DB -> Z -> gmap Z sql_value;
  cursor : DB -> Z -> option (list (list Z)); (* rows to come, once stepped *)
  row : DB -> Z -> list Z;

  params_nonneg sql : 0 <= params sql;
  prepare_store db sql :
    store (sqlite3_prepare_v2 db sql).2 = store db /\
    (forall s, s ∈ live db -> cursor (sqlite3_prepare_v2 db sql).2 s = cursor db s) /\
    (forall s, (sqlite3_prepare_v2 db sql).1 = Some s -> cursor (sqlite3_prepare_v2 db sql).2 s = None);
  finalize_store db s : s ∈ live db ->
    store (sqlite3_finalize db s).2 = store db /\
    forall q, q ∈ live db -> q <> s -> cursor (sqlite3_finalize db s).2 q = cursor db q;
  reset_store db s : s ∈ live db ->
    store (sqlite3_reset db s).2 = store db /\ cursor (sqlite3_reset db s).2 s = None /\
    forall q, q ∈ live db -> q <> s -> cursor (sqlite3_reset db s).2 q = cursor db q;
  bind_store db s i v : s ∈ live db ->
    store (sqlite3_bind db s i v).2 = store db /\
    (forall q, q ∈ live db -> cursor (sqlite3_bind db s i v).2 q = cursor db q) /\
    ((sqlite3_bind db s i v).1 = true -> binds (sqlite3_bind db s i v).2 s = <[i := v]> (binds db s));
  step_others db s : s ∈ live db ->
    forall q, q ∈ live db -> q <> s -> cursor (sqlite3_step db s).2 q = cursor db q;
  step_query db s rows : s ∈ live db -> meaning_of (sqlite3_sql db s) = Some (Query rows) ->
    let pending := default (rows (store db) (binds db s)) (cursor db s) in
    store (sqlite3_step db s).2 = store db /\ rows_left db s = length pending /\
    match (sqlite3_step db s).1 with
    | SQLITE_ROW => exists rest, pending = row (sqlite3_step db s).2 s :: rest /\
                      cursor (sqlite3_step db s).2 s = Some rest
    | SQLITE_DONE => pending = []
    | SQLITE_FAILED => True
    end;
  step_change db s effect : s ∈ live db -> meaning_of (sqlite3_sql db s) = Some (Change effect) ->
    cursor db s = None ->
    match (sqlite3_step db s).1 with
    | SQLITE_ROW => False
    | SQLITE_DONE => (store (sqlite3_step db s).2, sqlite3_changes (sqlite3_step db s).2) =
                       effect (store db) (binds db s)
    | SQLITE_FAILED => store (sqlite3_step db s).2 = store db
    end;
  column_row db s i : sqlite3_column_int64 db s i = default 0 (row db s !! Z.to_nat i)
}.

(** ** Runs of a statement *)

Section Store.
Context {DB S : Type} `{SqlStore DB S} (host : bool).

#[local] Abbreviation ps_t := (prepared_stmt_t DB).

(** A database that reports no error: bindings of parameters and steps work. *)
Record no_errors : Prop := {
  bind_works db s i v : s ∈ live db -> cursor db s = None -> 1 <= i <= params (sqlite3_sql db s) ->
    (sqlite3_bind db s i v).1 = true;
  step_works db s : s ∈ live db -> meaning_of (sqlite3_sql db s) <> None ->
    (sqlite3_step db s).1 <> SQLITE_FAILED
}.

(** No statement is in the middle of its rows. *)
Definition idle (db : DB) : Prop := forall s, s ∈ live db -> cursor db s = None.

Definition quiet (st : ps_t) (es : list (string * cache_item_t)) : Prop :=
  ready host st es /\ idle (ps_conn st).

(** The bindings [bind_all] makes. *)
Fixpoint bound (i : Z) (vs : list sql_value) (m : gmap Z sql_value) : gmap Z sql_value :=
  match vs with
  | [] => m
  | v :: vs' => bound (i + 1) vs' (<[i := v]> m)
  end.

Lemma bound_one v m : bound 1 [v] m !! 1 = Some v.
Proof. apply lookup_insert_eq. Qed.

Lemma bound_two v w m : bound 1 [v; w] m !! 1 = Some v /\ bound 1 [v; w] m !! 2 = Some w.
Proof. cbn [bound]. split; [rewrite lookup_insert_ne by done|]; apply lookup_insert_eq. Qed.

Lemma admin_store a db : admin a db -> idle a -> store db = store a /\ idle db.
Proof.
  induction 1 as [|b sql Hab IH|b s Hab IH Hs]; intros Ha; [done| |].
  - destruct (IH Ha) as [Hst Hid]. destruct (prepare_store b sql) as (Hst' & Hc & Hn).
    split; [congruence|]. intros q Hq.
    destruct (sqlite3_prepare_v2 b sql) as [[p|] b'] eqn:Hp; cbn [fst snd] in *.
    + destruct (prepare_some _ _ _ _ Hp) as (_ & Hl & _). rewrite Hl in Hq.
      apply elem_of_union in Hq as [->%elem_of_singleton|Hq]; [by apply Hn|]. rewrite Hc by done. by apply Hid.
    + destruct (prepare_none _ _ _ Hp) as [Hl _]. rewrite Hl in Hq. rewrite Hc by done. by apply Hid.
  - destruct (IH Ha) as [Hst Hid]. destruct (finalize_store b s Hs) as [Hst' Hc].
    split; [congruence|]. intros q Hq. destruct (finalize_live b s Hs) as [Hl _]. rewrite Hl in Hq.
    apply elem_of_difference in Hq as [Hq Hne]. rewrite Hc; [by apply Hid|done|set_solver].
Qed.

(** [db] differs from [a] in the statement [p] at most. *)
Definition others_idle (db : DB) (p : Z) : Prop :=
  forall q, q ∈ live db -> q <> p -> cursor db q = None.

Lemma given_back_store db p : p ∈ live db -> others_idle db p ->
  store (given_back db p) = store db /\ idle (given_back db p).
Proof.
  intros Hp Ho. unfold given_back. destruct (reset_store db p Hp) as (Hst & Hc & Hcs).
  pose proof (reset_same db p Hp) as Hs. set (db1 := (sqlite3_reset db p).2) in *.
  assert (Hid : idle db1).
  { intros q Hq. rewrite (proj1 Hs) in Hq. destruct (decide (q = p)) as [->|]; [done|].
    rewrite Hcs by done. by apply Ho. }
  destruct (sqlite3_stmt_busy db1 p); [|done].
  assert (Hp1 : p ∈ live db1) by (by rewrite (proj1 Hs)).
  destruct (admin_store db1 (sqlite3_finalize db1 p).2 (admin_finalize _ _ _ (admin_refl _) Hp1) Hid) as [E1 E2].
  split; [congruence|done].
Qed.

(** Binding the parameters of an idle statement. *)
Lemma bind_all_store (Hne : no_errors) vs : forall i db p, p ∈ live db -> cursor db p = None -> 1 <= i ->
  i + Z.of_nat (length vs) <= params (sqlite3_sql db p) + 1 ->
  let db' := bind_all i vs db p in
  store db' = store db /\ (forall q, q ∈ live db -> cursor db' q = cursor db q) /\
  binds db' p = bound i vs (binds db p).
Proof.
  induction vs as [|v vs IH]; intros i db p Hp Hc Hi Hn; cbn [bind_all bound length] in *; [done|].
  destruct (bind_store db p i v Hp) as (Hst & Hcs & Hb).
  pose proof (bind_same db p i v Hp) as Hs.
  specialize (Hb ltac:(apply Hne; [done|done|lia])).
  destruct (IH (i + 1) (sqlite3_bind db p i v).2 p) as (E1 & E2 & E3).
  - by rewrite (proj1 Hs).
  - by rewrite Hcs.
  - lia.
  - rewrite (proj2 Hs) by done. lia.
  - split; [congruence|]. split; [|by rewrite E3, Hb].
    intros q Hq. rewrite E2 by (by rewrite (proj1 Hs)). by apply Hcs.
Qed.

(** The rows a reading loop sees are the rows of the query. *)
Lemma rows_run_store (Hne : no_errors) rows db p dbs db' : rows_run db p dbs db' ->
  p ∈ live db -> meaning_of (sqlite3_sql db p) = Some (Query rows) -> others_idle db p ->
  store db' = store db /\ p ∈ live db' /\ others_idle db' p /\
  (fun d => row d p) <$> dbs = default (rows (store db) (binds db p)) (cursor db p).
Proof.
  induction 1 as [db p db' <- Hrc|db p db1 dbs db' Hstep _ IH]; intros Hp Hm Ho.
  - destruct (step_query db p rows Hp Hm) as (Hst & _ & Hcase).
    pose proof (step_same db p Hp) as Hs.
    split; [done|]. split; [by rewrite (proj1 Hs)|]. split.
    + intros q Hq Hqp. rewrite (proj1 Hs) in Hq. rewrite step_others by done. by apply Ho.
    + pose proof (step_works Hne db p Hp ltac:(congruence)) as Hnf.
      destruct (sqlite3_step db p).1; [done|by rewrite Hcase|done].
  - destruct (step_query db p rows Hp Hm) as (Hst & _ & Hcase).
    pose proof (step_same db p Hp) as Hs. pose proof (step_others db p Hp) as Hso.
    rewrite Hstep in *. cbn [fst snd] in *.
    destruct Hcase as (rest & Hpend & Hcur).
    destruct IH as (E1 & E2 & E3 & E4).
    + by rewrite (proj1 Hs).
    + by rewrite (proj2 Hs).
    + intros q Hq Hqp. rewrite (proj1 Hs) in Hq. rewrite Hso by done. by apply Ho.
    + split; [congruence|]. split; [done|]. split; [done|].
      csimpl. rewrite E4, Hcur. exact (eq_sym Hpend).
Qed.

(** ** Data accesses *)

(** The callback [cb] binds the values [vs] to the parameters from 1 on. *)
Definition binds_values (cb : option stmt_bind_cb) (vs : list sql_value) (sql : string) : Prop :=
  (forall db p, run_bind cb db p = bind_all 1 vs db p) /\ Z.of_nat (length vs) <= params sql.

Lemma binds_values_ok cb vs sql : binds_values cb vs sql -> bind_ok cb.
Proof. intros [Hcb _] f db p -> Hp. specialize (Hcb db p). cbn [run_bind] in Hcb. rewrite Hcb. by apply bind_all_same. Qed.

(** An idle statement, taken from a quiet connection and bound. *)
Lemma taken_store (Hne : no_errors) conn cb vs sql db p : idle conn -> binds_values cb vs sql ->
  admin conn db -> p ∈ live db -> sqlite3_sql db p = sql ->
  p ∈ live (run_bind cb db p) /\ sqlite3_sql (run_bind cb db p) p = sql /\
  store (run_bind cb db p) = store conn /\ idle (run_bind cb db p) /\
  exists m, binds (run_bind cb db p) p = bound 1 vs m.
Proof.
  intros Hid [Hcb Hn] Ha Hp Hsql. destruct (admin_store _ _ Ha Hid) as [Hst Hid1].
  rewrite Hcb. destruct (bind_all_store Hne vs 1 db p Hp (Hid1 p Hp) ltac:(lia)) as (E1 & E2 & E3);
    [rewrite Hsql; lia|].
  pose proof (bind_all_same vs 1 db p Hp) as Hs. destruct Hs as [Hl Hq].
  split; [by rewrite Hl|]. split; [by rewrite Hq|]. split; [congruence|]. split; [|by eexists].
  intros q Hq'. rewrite Hl in Hq'. rewrite E2 by done. by apply Hid1.
Qed.

Definition fuel_for (fuel : nat) (rows : S -> gmap Z sql_value -> list (list Z)) (vs : list sql_value) (s : S) : Prop :=
  (forall m, (length (rows s (bound 1 vs m)) < fuel)%nat) /\ Z.of_nat fuel <= INT32_MAX.

Lemma fuel_for_enough (Hne : no_errors) fuel conn cb vs sql rows : idle conn -> binds_values cb vs sql ->
  meaning_of sql = Some (Query rows) -> fuel_for fuel rows vs (store conn) -> enough_fuel fuel conn cb sql.
Proof.
  intros Hid Hb Hm [Hf Hmax] db p Ha Hp Hsql. split; [|done].
  destruct (taken_store Hne conn cb vs sql db p Hid Hb Ha Hp Hsql) as (Hp' & Hsql' & Hst & Hid' & m & Hbs).
  destruct (step_query (run_bind cb db p) p rows Hp') as (_ & -> & _); [congruence|].
  rewrite (Hid' p Hp'). cbn [default]. rewrite Hst, Hbs. apply Hf.
Qed.

(** A query reads every row of its meaning once, and changes nothing; or there
    is no statement. *)
Definition read_all {U : Type} (g : list Z -> U -> U) (rs : list (list Z)) (u : U) : U :=
  fold_left (fun u r => g r u) rs u.

Lemma get_store {U : Type} (Hne : no_errors) fuel st es sql cb vs rows (f : DB -> Z -> U -> U) g u o :
  quiet st es -> strlen sql < 2 ^ 30 -> meaning_of sql = Some (Query rows) -> binds_values cb vs sql ->
  fuel_for fuel rows vs (store (ps_conn st)) -> (forall db p u, f db p u = g (row db p) u) ->
  exists ret u' st' o' es', dao_template_get host fuel (Some st) (Some sql) cb (Some f) (Some u) o =
      Returns (ret, Some u', Some st', o') /\ quiet st' es' /\ ps_dsn st' = ps_dsn st /\
    store (ps_conn st') = store (ps_conn st) /\
    ((ret = -1 /\ u' = u) \/ exists m, let rs := rows (store (ps_conn st)) (bound 1 vs m) in
       ret = Z.of_nat (length rs) /\ u' = read_all g rs u).
Proof.
  intros [Hr Hid] Hl Hm Hb Hfuel Hf.
  destruct (get_rows host fuel st es sql cb f u o Hr Hl (binds_values_ok _ _ _ Hb)
    (fuel_for_enough Hne _ _ _ _ _ _ Hid Hb Hm Hfuel)) as (ret & u' & st' & o' & es' & Hrun & Hr' & Hdsn & Hcase).
  exists ret, u', st', o', es'. split; [done|].
  destruct Hcase as [(-> & -> & Ha)|(db & p & dbs & db' & Ha & Hp & Hsql & Hrun' & -> & -> & Hconn)].
  - destruct (admin_store _ _ Ha Hid) as [Hst Hid']. split; [done|]. split; [done|]. split; [done|]. by left.
  - destruct (taken_store Hne _ cb vs sql db p Hid Hb Ha Hp Hsql) as (Hp' & Hsql' & Hst & Hid' & m & Hbs).
    destruct (rows_run_store Hne rows _ p dbs db' Hrun' Hp' ltac:(congruence)) as (E1 & E2 & E3 & E4);
      [intros q Hq _; by apply Hid'|].
    destruct (given_back_store db' p E2 E3) as [E5 E6]. rewrite <- Hconn in E5, E6.
    split; [done|]. split; [done|]. split; [congruence|]. right. exists m.
    rewrite (Hid' p Hp'), Hst, Hbs in E4. cbn [default] in E4. cbv zeta. cbn in E4. rewrite <- E4.
    rewrite length_fmap. split; [done|]. clear -Hf. revert u.
    unfold read_all. induction dbs as [|d dbs IH]; intros u; csimpl; [done|]. by rewrite IH, Hf.
Qed.

Lemma select_store (Hne : no_errors) fuel st es sql cb vs rows o :
  quiet st es -> strlen sql < 2 ^ 30 -> meaning_of sql = Some (Query rows) -> binds_values cb vs sql ->
  fuel_for fuel rows vs (store (ps_conn st)) ->
  exists ret st' o' es', dao_template_select host fuel (Some st) (Some sql) cb true o =
      Returns (ret, Some st', o') /\ quiet st' es' /\ ps_dsn st' = ps_dsn st /\
    store (ps_conn st') = store (ps_conn st) /\
    (ret = -1 \/ exists m, ret = Z.of_nat (length (rows (store (ps_conn st)) (bound 1 vs m)))).
Proof.
  intros Hq Hl Hm Hb Hfuel. rewrite select_get.
  destruct (get_store Hne fuel st es sql cb vs rows (fun _ _ u => u) (fun _ u => u) () o Hq Hl Hm Hb Hfuel)
    as (ret & [] & st' & o' & es' & -> & Hq' & Hdsn & Hst & Hcase); [done|].
  cbn [mbind outcome_bind]. exists ret, st', o', es'. do 4 (split; [done|]).
  destruct Hcase as [[? _]|(m & ? & _)]; [by left|right; by exists m].
Qed.

(** A modification has the effect of its meaning and returns its number of
    rows; or it returns -1 and nothing changes. *)
Lemma base_store (Hne : no_errors) st es sql cb vs effect o :
  quiet st es -> strlen sql < 2 ^ 30 -> meaning_of sql = Some (Change effect) -> binds_values cb vs sql ->
  exists ret st' o' es', dao_template_base host (Some st) (Some sql) cb o = Returns (ret, Some st', o') /\
    quiet st' es' /\ ps_dsn st' = ps_dsn st /\
    ((ret = -1 /\ store (ps_conn st') = store (ps_conn st)) \/
     exists m, (store (ps_conn st'), ret) = effect (store (ps_conn st)) (bound 1 vs m)).
Proof.
  intros [Hr Hid] Hl Hm Hb.
  destruct (base_spec host st es sql cb o Hr Hl (binds_values_ok _ _ _ Hb))
    as (ret & r & st' & o' & es' & Hrun & Hr' & Hdsn & Hcase).
  exists ret, st', o', es'. split; [done|].
  destruct Hcase as [(-> & _ & Ha)|(db & p & db' & Ha & Hp & Hsql & Hw & Hconn)].
  - destruct (admin_store _ _ Ha Hid) as [Hst Hid']. split; [done|]. split; [done|]. by left.
  - destruct (taken_store Hne _ cb vs sql db p Hid Hb Ha Hp Hsql) as (Hp' & Hsql' & Hst & Hid' & m & Hbs).
    unfold step_once in Hw. set (db1 := run_bind cb db p) in *.
    assert (Hm' : meaning_of (sqlite3_sql db1 p) = Some (Change effect)) by congruence.
    pose proof (step_change db1 p effect Hp' Hm' (Hid' p Hp')) as Hstep.
    assert (Hnf : (sqlite3_step db1 p).1 <> SQLITE_FAILED)
      by (apply (step_works Hne); [done|by rewrite Hm']).
    pose proof (step_same db1 p Hp') as [Hl2 _]. pose proof (step_others db1 p Hp') as Hso.
    destruct (sqlite3_step db1 p) as [rc db2]. cbn [fst snd] in *.
    destruct rc; [done| |done]. injection Hw as <- _ <-.
    destruct (given_back_store db2 p) as [E5 E6].
    { by rewrite Hl2. }
    { intros q Hq Hne'. rewrite Hl2 in Hq. rewrite Hso by done. by apply Hid'. }
    rewrite <- Hconn in E5, E6. split; [done|]. split; [done|]. right. exists m.
    rewrite <- Hst, <- Hbs, E5. done.
Qed.

End Store.

(** ** Connections by address

    Several objects hold a pointer to the same [prepared_stmt_t]: a pool maps
    addresses to connections, and an operation runs on the one its pointer
    designates. *)

Abbreviation pool_t DB := (gmap Z (prepared_stmt_t DB)).

Section Pool.
Context {DB : Type}.

Definition at_ps {A : Type} (pool : pool_t DB) (ptr : option Z)
    (f : option (prepared_stmt_t DB) -> outcome (A * option (prepared_stmt_t DB) * list bool))
    : outcome (A * pool_t DB * list bool) :=
  match ptr with
  | None => '(a, _, o) ← f None; Returns (a, pool, o)
  | Some q =>
    match pool !! q with
    | None => Undefined
    | Some st =>
      '(a, st', o) ← f (Some st);
      Returns (a, match st' with Some st' => <[q := st']> pool | None => pool end, o)
    end
  end.

End Pool.

(** ** Accesses through a pool *)

Section PoolStore.
Context {DB S : Type} `{SqlStore DB S} (host : bool).

#[local] Abbreviation ps_t := (prepared_stmt_t DB).

(** The connection at [q] is quiet, before with store [s] and after with
    store [s'], and the others are as they were. *)
Definition quiet_at (pool : pool_t DB) (q : Z) (s : S) : Prop :=
  exists st es, pool !! q = Some st /\ quiet (S := S) host st es /\ store (ps_conn st) = s.

Definition pool_step (pool pool' : pool_t DB) (q : Z) (s' : S) : Prop :=
  quiet_at pool' q s' /\ forall q', q' <> q -> pool' !! q' = pool !! q'.

Lemma pool_step_insert pool q (st' : ps_t) es' s' : quiet (S := S) host st' es' -> store (ps_conn st') = s' ->
  pool_step pool (<[q := st']> pool) q s'.
Proof.
  intros Hq Hs. split; [|intros q' Hne; by rewrite lookup_insert_ne].
  exists st', es'. by rewrite lookup_insert_eq.
Qed.

Lemma pool_step_trans a b c q s1 s2 : pool_step a b q s1 -> pool_step b c q s2 -> pool_step a c q s2.
Proof. intros [_ Ho1] [Hq Ho2]. split; [done|]. intros q' Hne. by rewrite Ho2, Ho1. Qed.

Lemma pool_get {U : Type} (Hne : no_errors) fuel pool q s sql cb vs rows (f : DB -> Z -> U -> U) g u o :
  quiet_at pool q s -> strlen sql < 2 ^ 30 -> meaning_of sql = Some (Query rows) -> binds_values cb vs sql ->
  fuel_for fuel rows vs s -> (forall db p u, f db p u = g (row db p) u) ->
  exists ret u' pool' o', at_ps pool (Some q) (fun ps => dao_template_get host fuel ps (Some sql) cb (Some f) (Some u) o) =
      Returns (ret, Some u', pool', o') /\ pool_step pool pool' q s /\
    ((ret = -1 /\ u' = u) \/ exists m, ret = Z.of_nat (length (rows s (bound 1 vs m))) /\
       u' = read_all g (rows s (bound 1 vs m)) u).
Proof.
  intros (st & es & Hst & Hq & <-) Hl Hm Hb Hfuel Hf. unfold at_ps. rewrite Hst.
  destruct (get_store host Hne fuel st es sql cb vs rows f g u o Hq Hl Hm Hb Hfuel Hf)
    as (ret & u' & st' & o' & es' & -> & Hq' & _ & Hs & Hcase).
  cbn [mbind outcome_bind]. exists ret, u', (<[q := st']> pool), o'.
  split; [done|]. split; [by eapply pool_step_insert|done].
Qed.

Lemma pool_select (Hne : no_errors) fuel pool q s sql cb vs rows o :
  quiet_at pool q s -> strlen sql < 2 ^ 30 -> meaning_of sql = Some (Query rows) -> binds_values cb vs sql ->
  fuel_for fuel rows vs s ->
  exists ret pool' o', at_ps pool (Some q) (fun ps => dao_template_select host fuel ps (Some sql) cb true o) =
      Returns (ret, pool', o') /\ pool_step pool pool' q s /\
    (ret = -1 \/ exists m, ret = Z.of_nat (length (rows s (bound 1 vs m)))).
Proof.
  intros (st & es & Hst & Hq & <-) Hl Hm Hb Hfuel. unfold at_ps. rewrite Hst.
  destruct (select_store host Hne fuel st es sql cb vs rows o Hq Hl Hm Hb Hfuel)
    as (ret & st' & o' & es' & -> & Hq' & _ & Hs & Hcase).
  cbn [mbind outcome_bind]. exists ret, (<[q := st']> pool), o'.
  split; [done|]. split; [by eapply pool_step_insert|done].
Qed.

Lemma pool_change (Hne : no_errors) pool q s sql cb vs effect o :
  quiet_at pool q s -> strlen sql < 2 ^ 30 -> meaning_of sql = Some (Change effect) -> binds_values cb vs sql ->
  exists ret pool' o' s', at_ps pool (Some q) (fun ps => dao_template_base host ps (Some sql) cb o) =
      Returns (ret, pool', o') /\ pool_step pool pool' q s' /\
    ((ret = -1 /\ s' = s) \/ exists m, (s', ret) = effect s (bound 1 vs m)).
Proof.
  intros (st & es & Hst & Hq & <-) Hl Hm Hb. unfold at_ps. rewrite Hst.
  destruct (base_store host Hne st es sql cb vs effect o Hq Hl Hm Hb)
    as (ret & st' & o' & es' & -> & Hq' & _ & Hcase).
  cbn [mbind outcome_bind]. exists ret, (<[q := st']> pool), o', (store (ps_conn st')).
  split; [done|]. split; [by eapply pool_step_insert|done].
Qed.

End PoolStore.

(** ** The demonstration database *)

Section DemoStore.
Context {S : Type} (mean : string -> option (meaning S)) (exec : string -> S -> option S).

Definition mean_query (sql : string) (b : gmap Z sql_value) (c : S) : option (list (list Z)) :=
  match mean sql with Some (Query q) => Some (q c b) | _ => None end.
Definition mean_update (sql : string) (b : gmap Z sql_value) (c : S) : option (S * Z) :=
  match mean sql with Some (Change f) => Some (f c b) | _ => None end.

#[local] Instance demo_store_sql : DemoSql S := {
  demo_query := mean_query; demo_update := mean_update; demo_exec := exec }.

Definition stmt_field {A : Type} (f : demo_stmt -> A) (d : A) (db : demo_db S) (s : Z) : A :=
  match d_stmts db !! s with Some st => f st | None => d end.

Lemma field_set {A : Type} (f : demo_stmt -> A) d db s st q :
  stmt_field f d (set_stmt db s st) q = if decide (q = s) then f st else stmt_field f d db q.
Proof.
  unfold stmt_field, set_stmt. cbn [d_stmts]. destruct (decide (q = s)) as [->|].
  - by rewrite lookup_insert_eq.
  - by rewrite lookup_insert_ne.
Qed.

#[local] Program Instance demo_store : SqlStore (demo_db S) S := {
  store := d_content;
  meaning_of := mean;
  params _ := 9;
  binds := stmt_field d_binds ∅;
  cursor := stmt_field d_run None;
  row := stmt_field d_row []
}.
Next Obligation. done. Qed.
Next Obligation.
  intros db sql. simpl. unfold demo_prepare. destruct (decide _); [|done].
  pose proof (is_fresh ({[0]} ∪ dom (d_stmts db))) as Hf. revert Hf.
  set (p := fresh ({[0]} ∪ dom (d_stmts db))). clearbody p. intros Hf. split; [done|].
  cbn [fst snd]. split.
  - intros s [_ Hs]%demo_live_spec. rewrite field_set. destruct (decide (s = p)) as [->|]; [|done].
    exfalso. apply Hf, elem_of_union. right. by apply elem_of_dom.
  - intros s [= <-]. rewrite field_set. by destruct (decide (p = p)).
Qed.
Next Obligation.
  intros db s _. split; [done|]. intros q _ Hne. unfold stmt_field. simpl. by rewrite lookup_delete_ne.
Qed.
Next Obligation.
  intros db s [_ [st Hs]]%demo_live_spec. simpl. unfold demo_reset. rewrite Hs. cbn [snd].
  split; [done|]. split; [rewrite field_set; by destruct (decide (s = s))|].
  intros q _ Hne. rewrite field_set. by destruct (decide (q = s)).
Qed.
Next Obligation.
  intros db s i v [_ [st Hs]]%demo_live_spec. simpl. unfold demo_bind. rewrite Hs.
  destruct (d_run st) eqn:Hr; [done|]. cbn [fst snd]. split; [done|]. split.
  - intros q _. rewrite field_set. destruct (decide (q = s)) as [->|]; [|done].
    unfold stmt_field. by rewrite Hs, Hr.
  - intros _. rewrite field_set. destruct (decide (s = s)); [|done]. unfold stmt_field. by rewrite Hs.
Qed.
Next Obligation.
  intros db s _ q _ Hne. simpl. unfold demo_step. destruct (d_stmts db !! s) as [st|]; [|done].
  destruct (demo_rows db st) as [[|r l]|]; cbn [snd].
  - rewrite field_set. by destruct (decide (q = s)).
  - rewrite field_set. by destruct (decide (q = s)).
  - by destruct (demo_update _ _ _) as [[]|].
Qed.
Next Obligation.
  intros db s rows [_ [st Hs]]%demo_live_spec Hm. simpl in *. rewrite Hs in Hm.
  unfold demo_rows_left, demo_step, demo_rows, stmt_field. rewrite Hs. cbn [demo_query demo_store_sql].
  unfold mean_query. rewrite Hm.
  set (l := default (rows (d_content db) (d_binds st)) (d_run st)).
  assert (Hl : match d_run st with Some l => Some l | None => Some (rows (d_content db) (d_binds st)) end = Some l)
    by (unfold l; destruct (d_run st); reflexivity).
  rewrite Hl. split; [by destruct l|]. split; [done|]. destruct l as [|r l']; [done|].
  exists l'. unfold set_stmt. cbn [snd d_stmts]. by rewrite lookup_insert_eq.
Qed.
Next Obligation.
  intros db s eff [_ [st Hs]]%demo_live_spec Hm Hc. simpl in *. rewrite Hs in Hm.
  unfold stmt_field in Hc. rewrite Hs in Hc.
  unfold demo_step, demo_rows. rewrite Hs, Hc. cbn [demo_query demo_update demo_store_sql].
  unfold mean_query, mean_update. rewrite Hm. destruct (eff (d_content db) (d_binds st)) as [c n] eqn:He.
  cbn [fst snd d_content d_changes]. unfold stmt_field. by rewrite Hs, He.
Qed.
Next Obligation.
  intros db s i. simpl. unfold stmt_field. by destruct (d_stmts db !! s).
Qed.

Lemma demo_no_errors : no_errors (DB := demo_db S) (S := S).
Proof.
  split.
  - intros db s i v [_ [st Hs]]%demo_live_spec Hc _. simpl in *. unfold stmt_field in Hc. rewrite Hs in Hc.
    unfold demo_bind. by rewrite Hs, Hc.
  - intros db s [_ [st Hs]]%demo_live_spec Hm. simpl in *. rewrite Hs in Hm.
    unfold demo_step. rewrite Hs. destruct (demo_rows db st) as [[|r l]|] eqn:Hr; [done|done|].
    unfold demo_rows in Hr. destruct (d_run st); [done|]. cbn [demo_query demo_update demo_store_sql] in *.
    unfold mean_query, mean_update in *. destruct (mean (d_sql st)) as [[q|f]|]; [done| |done].
    by destruct (f (d_content db) (d_binds st)).
Qed.

(** A fresh connection with an empty cache, alone in its pool. *)
Definition new_conn (c : S) : demo_db S := DemoDb ∅ c 0.
Definition new_ps (c : S) : prepared_stmt_t (demo_db S) :=
  PS (new_conn c) 0 (Some (Cache ∅ [] MAX_KEY_NUM MAX_MEM 0 ∅ ∅ [])) (Some false).

Definition new_pool (c : S) : pool_t (demo_db S) := {[1 := new_ps c]}.

Lemma new_ps_quiet host c : quiet (S := S) host (new_ps c) [].
Proof.
  assert (Hl : live (new_conn c) = ∅) by reflexivity.
  pose proof (new_spec host (new_ps c) (new_conn c) 0 [] Hl) as (st & [= <-] & Hok & _).
  split; [by split|]. intros q Hq. apply demo_live_spec in Hq as [_ [st Hst]]. done.
Qed.

Lemma new_pool_quiet host c : quiet_at host (new_pool c) 1 c.
Proof. exists (new_ps c), []. split; [apply lookup_singleton_eq|]. split; [apply new_ps_quiet|done]. Qed.

End DemoStore.
