(* ===== verification/Retention.v ===== *)
(** * Retention policies ([src/database/dao/retention_policy.c], [auto_delete.c])

    A policy keeps a table small: by number of lines, by age, or not at all.
    The deleter's timer runs every policy of its array.  A policy runs on the
    connection its pointer designates. *)

From Stdlib Require Import Sorted.
From S2P Require Import Prelude Utils Lru Sqlite SqliteDemo PreparedStmt Template SqlStore.

(** ** Data *)

(** [None]: a null string. *)
Record rp_by_timestamp_t := RpByTimestamp {
  ts_table_name : option string;
  ts_where_field : option string;
  ts_expire_s : Z;
  ts_ps : option Z
}.

Record rp_by_line_t := RpByLine {
  bl_table_name : option string;
  bl_max_num : Z;
  bl_percent : Z;
  bl_ps : option Z
}.

(** The [void *policy]. *)
Inductive policy_t := NullPolicy | LinePolicy (p : rp_by_line_t) | TimestampPolicy (p : rp_by_timestamp_t).

Inductive policy_func_t := by_line_fn | by_timestamp_fn | always_fn.

Record retention_policy_t := Retention {
  policy : policy_t;
  policy_func : option policy_func_t
}.

Definition RETENTION_POLICY_PERCENT_90 : Z := 90.
Definition RETENTION_POLICY_EXPIRE_90DAY : Z := 60 * 60 * 24 * 90.
Definition RETENTION_POLICY_EXPIRE_180DAY : Z := 60 * 60 * 24 * 180.
Definition RETENTION_POLICY_1000_LINE : Z := 1000.

(** [g_sql], with the texts for its [%s]; a null text is undefined. *)
Definition BY_TIMESTAMP_DELETE (table field : string) : string :=
  "delete from " ++ table ++ " where " ++ field ++ " < ?".
Definition BY_LINE_GET_NUM (table : string) : string := "select count(*) from " ++ table.
Definition BY_LINE_DELETE (table : string) : string :=
  "delete from " ++ table ++ " where id < (select id from " ++ table ++ " limit 1 offset ?)".

(** ** Constructors and destructors *)

Definition new_retention_policy_by_line (r : option retention_policy_t) (ps : option Z)
    (table : option string) (max_num percent : Z) (o : list bool)
    : bool * option retention_policy_t * list bool :=
  match r, ps, table with
  | Some _, Some _, Some _ =>
    if (percent <? 0) || (100 <? percent) then (false, r, o) else
    let '(ok, o1) := malloc o in
    if negb ok then (false, r, o1) else
    let '(ok, o2) := malloc o1 in
    if negb ok then (false, r, o2) else
    (true, Some (Retention (LinePolicy (RpByLine table max_num percent ps)) (Some by_line_fn)), o2)
  | _, _, _ => (false, r, o)
  end.

(** The check after the copy of [where_field] tests [table_name] again. *)
Definition new_retention_policy_by_timestamp (r : option retention_policy_t) (ps : option Z)
    (table_name where_field : option string) (expire_s : Z) (o : list bool)
    : bool * option retention_policy_t * list bool :=
  match r, ps, table_name, where_field with
  | Some _, Some _, Some _, Some _ =>
    let '(ok, o1) := malloc o in
    if negb ok then (false, r, o1) else
    let '(ok, o2) := malloc o1 in
    if negb ok then (false, r, o2) else
    let '(ok, o3) := malloc o2 in
    let field := if ok then where_field else None in
    (true, Some (Retention (TimestampPolicy (RpByTimestamp table_name field expire_s ps)) (Some by_timestamp_fn)), o3)
  | _, _, _, _ => (false, r, o)
  end.

Definition new_retention_policy_always (r : option retention_policy_t) : bool * option retention_policy_t :=
  match r with
  | Some _ => (true, Some (Retention NullPolicy (Some always_fn)))
  | None => (false, None)
  end.

(** The policy is freed with its strings. *)
Definition delete_retention_policy_by_line (r : option retention_policy_t) : option retention_policy_t :=
  (fun _ => Retention NullPolicy None) <$> r.
Definition delete_retention_policy_by_timestamp (r : option retention_policy_t) : option retention_policy_t :=
  (fun _ => Retention NullPolicy None) <$> r.
Definition delete_retention_policy_always (r : option retention_policy_t) : option retention_policy_t :=
  (fun r => Retention (policy r) None) <$> r.

Section Retention.
Context {DB : Type} `{Sqlite DB} (host : bool).

#[local] Abbreviation ps_t := (prepared_stmt_t DB).

(** ** By line *)

Definition get_line_num_unmarshal_cb (db : DB) (p : Z) (line_num : Z) : Z := sqlite3_column_int db p 0.

Definition get_line_num (fuel : nat) (pool : pool_t DB) (ps : option Z) (table : option string) (line_num : Z)
    (o : list bool) : outcome (Z * Z * pool_t DB * list bool) :=
  table ← ub table;
  '(ret, n, pool, o) ← at_ps pool ps (fun ps =>
    dao_template_get host fuel ps (Some (BY_LINE_GET_NUM table)) None (Some get_line_num_unmarshal_cb) (Some line_num) o);
  Returns (ret, default line_num n, pool, o).

Definition by_line_bind_cb (try_delete_num : Z) : stmt_bind_cb :=
  fun db p => (sqlite3_bind db p 1 (VInt (int32 try_delete_num))).2.

(** [max_num * percent / 100] in [int32_t]; an overflow is undefined. *)
Definition lines_kept (max_num percent : Z) : option Z :=
  if decide (in_int32 (max_num * percent)) then Some (Z.quot (max_num * percent) 100) else None.

Definition by_line (fuel : nat) (r : option retention_policy_t) (pool : pool_t DB) (o : list bool)
    : outcome (bool * pool_t DB * list bool) :=
  match r with
  | None => Returns (false, pool, o)
  | Some r =>
    match policy r with
    | LinePolicy rp =>
      '(ret, cur_line_num, pool, o) ← get_line_num fuel pool (bl_ps rp) (bl_table_name rp) 0 o;
      if ret <=? 0 then Returns (false, pool, o) else
      if cur_line_num <=? bl_max_num rp then Returns (true, pool, o) else
      table ← ub (bl_table_name rp);
      kept ← ub (lines_kept (bl_max_num rp) (bl_percent rp));
      try_delete_num ← ub (if decide (in_int32 (cur_line_num - kept)) then Some (cur_line_num - kept) else None);
      '(real_delete_num, pool, o) ← at_ps pool (bl_ps rp) (fun ps =>
        dao_template_delete host ps (Some (BY_LINE_DELETE table)) (Some (by_line_bind_cb try_delete_num)) o);
      if -1 =? real_delete_num then Returns (false, pool, o) else
      if negb (real_delete_num =? try_delete_num) then Returns (false, pool, o) else
      Returns (true, pool, o)
    | _ => Undefined
    end
  end.

(** ** By timestamp *)

Definition by_timestamp_bind_cb (when : Z) : stmt_bind_cb :=
  fun db p => (sqlite3_bind db p 1 (VInt when)).2.

(** [now]: [time(0)]. *)
Definition by_timestamp (now : Z) (r : option retention_policy_t) (pool : pool_t DB) (o : list bool)
    : outcome (bool * pool_t DB * list bool) :=
  match r with
  | None => Returns (false, pool, o)
  | Some r =>
    match policy r with
    | TimestampPolicy p =>
      table_name ← ub (ts_table_name p);
      where_field ← ub (ts_where_field p);
      when ← ub (if decide (in_int64 (now - ts_expire_s p)) then Some (now - ts_expire_s p) else None);
      '(real_delete_num, pool, o) ← at_ps pool (ts_ps p) (fun ps =>
        dao_template_delete host ps (Some (BY_TIMESTAMP_DELETE table_name where_field))
          (Some (by_timestamp_bind_cb when)) o);
      if -1 =? real_delete_num then Returns (false, pool, o) else Returns (true, pool, o)
    | _ => Undefined
    end
  end.

Definition always (r : option retention_policy_t) : bool := true.

(** ** The deleter ([auto_delete.c]) *)

(** [p->policy_func(p)] *)
Definition run_policy (fuel : nat) (now : Z) (p : retention_policy_t) (pool : pool_t DB) (o : list bool)
    : outcome (bool * pool_t DB * list bool) :=
  match policy_func p with
  | None => Undefined
  | Some by_line_fn => by_line fuel (Some p) pool o
  | Some by_timestamp_fn => by_timestamp now (Some p) pool o
  | Some always_fn => Returns (always (Some p), pool, o)
  end.

(** The results are only logged. *)
Fixpoint on_timer (fuel : nat) (now : Z) (rps : list retention_policy_t) (pool : pool_t DB) (o : list bool)
    : outcome (pool_t DB * list bool) :=
  match rps with
  | [] => Returns (pool, o)
  | p :: rps' =>
    '(_, pool, o) ← run_policy fuel now p pool o;
    on_timer fuel now rps' pool o
  end.

End Retention.

(** ** The tables the policies keep *)

(** What the texts of [by_line] do on the table [t] with the row ids [ids], in
    the order of the table. *)
Class LineTable {DB S : Type} `{SqlStore DB S} (t : string) (ids : S -> list Z) : Prop := {
  lt_short : strlen (BY_LINE_GET_NUM t) < 2 ^ 30 /\ strlen (BY_LINE_DELETE t) < 2 ^ 30;
  lt_params : 1 <= params (S := S) (BY_LINE_DELETE t);
  lt_count : exists q, meaning_of (S := S) (BY_LINE_GET_NUM t) = Some (Query q) /\
    forall s b, q s b = [[Z.of_nat (length (ids s))]];
  lt_delete : exists e, meaning_of (S := S) (BY_LINE_DELETE t) = Some (Change e) /\
    forall s b n, b !! 1 = Some (VInt n) -> 0 <= n ->
    match ids s !! Z.to_nat n with
    | Some x => ids (e s b).1 = List.filter (fun i => negb (i <? x)) (ids s) /\
                (e s b).2 = Z.of_nat (length (List.filter (fun i => i <? x) (ids s)))
    | None => ids (e s b).1 = ids s /\ (e s b).2 = 0
    end
}.

(** What the text of [by_timestamp] does on the column [f] of the table [t]. *)
Class TimestampTable {DB S : Type} `{SqlStore DB S} (t f : string) (stamps : S -> list Z) : Prop := {
  tt_short : strlen (BY_TIMESTAMP_DELETE t f) < 2 ^ 30;
  tt_params : 1 <= params (S := S) (BY_TIMESTAMP_DELETE t f);
  tt_delete : exists e, meaning_of (S := S) (BY_TIMESTAMP_DELETE t f) = Some (Change e) /\
    forall s b n, b !! 1 = Some (VInt n) ->
      stamps (e s b).1 = List.filter (fun x => negb (x <? n)) (stamps s) /\
      (e s b).2 = Z.of_nat (length (List.filter (fun x => x <? n) (stamps s)))
}.

(** On ascending ids, the ids before the one at [n] are the first [n]. *)
Lemma filter_below_sorted l : StronglySorted Z.lt l -> forall (n : nat) x, l !! n = Some x ->
  List.filter (fun i => i <? x) l = take n l /\ List.filter (fun i => negb (i <? x)) l = drop n l.
Proof.
  induction 1 as [|y l Hs IH Hall]; intros n x Hn; [done|]. simpl.
  destruct n as [|n]; simpl in Hn.
  - injection Hn as ->. rewrite Z.ltb_irrefl. simpl.
    clear IH Hs. induction Hall as [|z l Hz Hall IH]; [done|]. simpl.
    destruct IH as [E1 E2]. rewrite (proj2 (Z.ltb_ge z x)) by lia. simpl. split; [done|].
    injection E2 as E2. by rewrite E2.
  - destruct (IH n x Hn) as [E1 E2]. pose proof (proj1 (Forall_forall _ _) Hall x) as Hlt.
    specialize (Hlt ltac:(by eapply list_elem_of_lookup_2)).
    rewrite (proj2 (Z.ltb_lt y x)) by lia. simpl. by rewrite E1, E2.
Qed.

Section Keep.
Context {DB S : Type} `{SqlStore DB S} (host : bool).

Lemma one_value cb v sql : 1 <= params sql -> (forall db p, cb db p = (sqlite3_bind db p 1 v).2) ->
  binds_values (Some cb) [v] sql.
Proof. intros Hp Hcb. split; [intros db p; apply Hcb|simpl; lia]. Qed.

Lemma line_num_spec (Hne : no_errors (S := S)) t ids `{!LineTable t ids} fuel pool q s o :
  quiet_at host pool q s -> (2 <= fuel)%nat -> Z.of_nat fuel <= INT32_MAX ->
  Z.of_nat (length (ids s)) <= INT32_MAX ->
  exists ret n pool' o', get_line_num host fuel pool (Some q) (Some t) 0 o = Returns (ret, n, pool', o') /\
    pool_step host pool pool' q s /\ (ret = -1 \/ (ret = 1 /\ n = Z.of_nat (length (ids s)))).
Proof.
  intros Hq Hf Hmax Hlen. unfold get_line_num. cbn [ub mbind outcome_bind].
  destruct lt_count as (rows & Hm & Hrows). destruct lt_short as [Hl _].
  destruct (pool_get host Hne fuel pool q s _ None [] rows get_line_num_unmarshal_cb
    (fun r _ => int32 (default 0 (r !! O))) 0 o Hq Hl Hm) as (ret & u & pool' & o' & -> & Hstep & Hcase).
  - split; [done|apply params_nonneg].
  - split; [intros m; rewrite Hrows; simpl; lia|done].
  - intros db p u. unfold get_line_num_unmarshal_cb, sqlite3_column_int. by rewrite column_row.
  - cbn [mbind outcome_bind default]. exists ret, u, pool', o'. split; [done|]. split; [done|].
    destruct Hcase as [[? _]|(m & Hret & Hu)]; [by left|right]. rewrite Hrows in Hret, Hu.
    split; [done|]. rewrite Hu. unfold read_all. simpl. apply sint32_id. unfold in_int32, INT32_MIN. lia.
Qed.

(** The deletion of [by_line]: none when the offset is past the end. *)
Lemma line_delete_spec (Hne : no_errors (S := S)) t ids `{!LineTable t ids} pool q s n o :
  quiet_at host pool q s -> 0 <= n <= INT32_MAX -> StronglySorted Z.lt (ids s) ->
  exists ret pool' o' s', at_ps pool (Some q) (fun ps =>
      dao_template_delete host ps (Some (BY_LINE_DELETE t)) (Some (by_line_bind_cb n)) o) = Returns (ret, pool', o') /\
    pool_step host pool pool' q s' /\
    ((ret <> n \/ n = 0) /\ ids s' = ids s \/
     ret = n /\ n < Z.of_nat (length (ids s)) /\ ids s' = drop (Z.to_nat n) (ids s)).
Proof.
  intros Hq Hn Hsort. destruct lt_delete as (e & Hm & He). destruct lt_short as [_ Hl].
  destruct (pool_change host Hne pool q s _ (Some (by_line_bind_cb n)) [VInt n] e o Hq Hl Hm)
    as (ret & pool' & o' & s' & Hrun & Hstep & Hcase).
  { apply one_value; [apply lt_params|]. intros db p. unfold by_line_bind_cb.
    rewrite sint32_id; [done|]. unfold in_int32, INT32_MIN. lia. }
  exists ret, pool', o', s'. split; [exact Hrun|]. split; [done|].
  destruct Hcase as [[-> ->]|(m & Hc)]; [left; split; [left; lia|done]|].
  specialize (He s (bound 1 [VInt n] m) n (bound_one _ _) ltac:(lia)). rewrite <- Hc in He. cbn [fst snd] in He.
  destruct (ids s !! Z.to_nat n) as [x|] eqn:Hx.
  - destruct (filter_below_sorted _ Hsort _ _ Hx) as [Hb Hd]. rewrite Hb, Hd in He.
    pose proof (lookup_lt_Some _ _ _ Hx) as Hlt.
    destruct He as [-> ->]. right. rewrite length_take. split; [lia|]. split; [lia|done].
  - destruct He as [-> ->]. left. split; [lia|done].
Qed.

End Keep.

(** *** Properties *)

(** A run of the policy by line on a table whose ids ascend either fails and
    leaves the table as it was, or succeeds: a table of at most [max] lines is
    as it was, and of a longer one exactly the newest [max * percent / 100]
    lines are left, a number that is then positive (a policy that keeps none
    never succeeds). *)
Theorem by_line_keeps_newest {DB S} `{SqlStore DB S} host (t : string) (ids : S -> list Z) `{!LineTable t ids}
    fuel pool q s max percent f o :
  no_errors (DB := DB) (S := S) -> quiet_at host pool q s -> StronglySorted Z.lt (ids s) ->
  (2 <= fuel)%nat -> Z.of_nat fuel <= INT32_MAX -> Z.of_nat (length (ids s)) <= INT32_MAX ->
  0 <= max -> 0 <= percent <= 100 -> in_int32 (max * percent) ->
  let kept := max * percent / 100 in let len := Z.of_nat (length (ids s)) in
  exists ok pool' o' s',
    by_line host fuel (Some (Retention (LinePolicy (RpByLine (Some t) max percent (Some q))) f)) pool o =
      Returns (ok, pool', o') /\ pool_step host pool pool' q s' /\
    if ok then len <= max /\ ids s' = ids s \/
               max < len /\ 0 < kept /\ ids s' = drop (Z.to_nat (len - kept)) (ids s)
    else ids s' = ids s.
Proof.
  intros Hne Hq Hsort Hf Hfm Hlen Hmax Hper Hover kept len.
  assert (Hk : 0 <= kept <= max) by (unfold kept; split; [apply Z.div_pos; nia|apply Z.div_le_upper_bound; nia]).
  unfold by_line. cbn [policy bl_ps bl_table_name bl_max_num bl_percent].
  destruct (line_num_spec host Hne t ids fuel pool q s o Hq Hf Hfm Hlen)
    as (ret & n & pool1 & o1 & -> & Hstep & Hcase). cbn [mbind outcome_bind].
  destruct (Z.leb_spec ret 0) as [Hret|Hret]; [by exists false, pool1, o1, s|].
  destruct Hcase as [->|[-> ->]]; [lia|]. fold len.
  destruct (Z.leb_spec len max) as [Hle|Hgt]; [exists true, pool1, o1, s; by split_and!; [..|left]|].
  cbn [ub mbind outcome_bind]. unfold lines_kept. rewrite decide_True by done. cbn [ub mbind outcome_bind].
  rewrite Z.quot_div_nonneg by nia. fold kept.
  rewrite decide_True by (unfold in_int32, INT32_MIN, INT32_MAX in *; lia). cbn [ub mbind outcome_bind].
  destruct (line_delete_spec host Hne t ids pool1 q s (len - kept) o1) as (ret & pool2 & o2 & s' & -> & Hstep2 & Hdel).
  { apply Hstep. }
  { unfold INT32_MAX in *. lia. }
  { done. }
  pose proof (pool_step_trans host _ _ _ _ _ _ Hstep Hstep2) as Hstep3.
  cbn [mbind outcome_bind]. destruct (Z.eqb_spec (-1) ret) as [?|Hret1].
  { exists false, pool2, o2, s'. split; [done|]. split; [done|]. destruct Hdel as [[_ ?]|[? _]]; [done|lia]. }
  destruct (Z.eqb_spec ret (len - kept)) as [->|Hret2]; cbn [negb].
  - exists true, pool2, o2, s'. split; [done|]. split; [done|]. right. destruct Hdel as [[? _]|(_ & ? & ->)]; [lia|].
    split; [done|]. split; [lia|done].
  - exists false, pool2, o2, s'. split; [done|]. split; [done|]. destruct Hdel as [[_ ?]|[? _]]; [done|lia].
Qed.

(** Whether a run succeeded. *)
Definition returned {A B : Type} (r : outcome (bool * A * B)) : bool :=
  match r with Returns (b, _, _) => b | _ => false end.

(** A table of ids for the witness. *)
Definition line_delete (s : list Z) (b : gmap Z sql_value) : list Z * Z :=
  match b !! 1 with
  | Some (VInt n) =>
    match s !! Z.to_nat n with
    | Some x => (List.filter (fun i => negb (i <? x)) s, Z.of_nat (length (List.filter (fun i => i <? x) s)))
    | None => (s, 0)
    end
  | _ => (s, 0)
  end.

Definition line_mean (sql : string) : option (meaning (list Z)) :=
  if String.eqb sql (BY_LINE_GET_NUM "t") then Some (Query (fun s _ => [[Z.of_nat (length s)]]))
  else if String.eqb sql (BY_LINE_DELETE "t") then Some (Change line_delete) else None.

#[local] Instance line_sql : DemoSql (list Z) := demo_store_sql line_mean (fun _ c => Some c).
#[local] Instance line_store : SqlStore (demo_db (list Z)) (list Z) := demo_store line_mean (fun _ c => Some c).

#[local] Instance line_demo : LineTable (S := list Z) "t" (fun s => s).
Proof.
  split.
  - split; vm_compute; reflexivity.
  - discriminate.
  - eexists. split; reflexivity.
  - exists line_delete. split; [reflexivity|]. intros s b n Hb _. unfold line_delete. rewrite Hb.
    by destruct (s !! Z.to_nat n).
Qed.

Definition half_of_four : retention_policy_t :=
  Retention (LinePolicy (RpByLine (Some "t"%string) 4 50 (Some 1))) (Some by_line_fn).

Lemma by_line_keeps_newest_witness :
  exists pool' o' s', by_line true 2 (Some half_of_four) (new_pool [1; 2; 4; 7; 9]) [] = Returns (true, pool', o') /\
    pool_step true (new_pool [1; 2; 4; 7; 9]) pool' 1 s' /\ s' = [7; 9].
Proof.
  destruct (by_line_keeps_newest true "t" (fun s => s) 2 (new_pool [1; 2; 4; 7; 9]) 1 [1; 2; 4; 7; 9] 4 50
    (Some by_line_fn) []) as (ok & pool' & o' & s' & Hrun & Hstep & Hcase);
    [apply demo_no_errors|apply new_pool_quiet|repeat constructor|lia|unfold INT32_MAX; lia
    |unfold INT32_MAX; simpl; lia|lia|lia|unfold in_int32, INT32_MIN, INT32_MAX; lia|].
  assert (ok = true) as ->.
  { symmetry. exact (f_equal returned Hrun). }
  exists pool', o', s'. split; [exact Hrun|]. split; [exact Hstep|].
  destruct Hcase as [[Hle _]|(_ & _ & ->)]; [exfalso; simpl in Hle; lia|reflexivity].
Defined.

(** A run of the policy by age either fails and leaves the table as it was, or
    succeeds and leaves exactly the lines that have not expired. *)
Theorem by_timestamp_keeps_recent {DB S} `{SqlStore DB S} host (t f : string) (stamps : S -> list Z)
    `{!TimestampTable t f stamps} pool q s now expire fn o :
  no_errors (DB := DB) (S := S) -> quiet_at host pool q s -> in_int64 (now - expire) ->
  exists ok pool' o' s',
    by_timestamp host now (Some (Retention (TimestampPolicy (RpByTimestamp (Some t) (Some f) expire (Some q))) fn)) pool o =
      Returns (ok, pool', o') /\ pool_step host pool pool' q s' /\
    if ok then forall x, x ∈ stamps s' <-> x ∈ stamps s /\ now - expire <= x else stamps s' = stamps s.
Proof.
  intros Hne Hq Hin. destruct tt_delete as (e & Hm & He).
  unfold by_timestamp. cbn [policy ts_table_name ts_where_field ts_expire_s ts_ps ub mbind outcome_bind].
  rewrite decide_True by done. cbn [ub mbind outcome_bind].
  destruct (pool_change host Hne pool q s _ (Some (by_timestamp_bind_cb (now - expire))) [VInt (now - expire)] e o
    Hq tt_short Hm) as (ret & pool' & o' & s' & Hrun & Hstep & Hcase).
  { by apply one_value; [apply tt_params|]. }
  unfold dao_template_delete. rewrite Hrun. cbn [mbind outcome_bind].
  destruct (Z.eqb_spec (-1) ret) as [Hret|Hret].
  - exists false, pool', o', s'. split; [done|]. split; [done|].
    destruct Hcase as [[_ ->]|(m & Hc)]; [done|].
    specialize (He s (bound 1 [VInt (now - expire)] m) _ (bound_one _ _)).
    rewrite <- Hc in He. cbn [snd] in He. lia.
  - exists true, pool', o', s'. split; [done|]. split; [done|].
    destruct Hcase as [[? _]|(m & Hc)]; [lia|].
    specialize (He s (bound 1 [VInt (now - expire)] m) _ (bound_one _ _)).
    rewrite <- Hc in He. destruct He as [He _]. cbn [fst] in He. rewrite He. intros x.
    rewrite !list_elem_of_In, List.filter_In, negb_true_iff, Z.ltb_ge. done.
Qed.

(** A column of stamps for the witness. *)
Definition stamp_delete (s : list Z) (b : gmap Z sql_value) : list Z * Z :=
  match b !! 1 with
  | Some (VInt n) => (List.filter (fun x => negb (x <? n)) s, Z.of_nat (length (List.filter (fun x => x <? n) s)))
  | _ => (s, 0)
  end.

Definition stamp_mean (sql : string) : option (meaning (list Z)) :=
  if String.eqb sql (BY_TIMESTAMP_DELETE "t" "at") then Some (Change stamp_delete) else None.

Section Stamps.

#[local] Instance stamp_sql : DemoSql (list Z) := demo_store_sql stamp_mean (fun _ c => Some c).
#[local] Instance stamp_store : SqlStore (demo_db (list Z)) (list Z) := demo_store stamp_mean (fun _ c => Some c).

#[local] Instance stamp_demo : TimestampTable (S := list Z) "t" "at" (fun s => s).
Proof.
  split; [vm_compute; reflexivity|discriminate|]. exists stamp_delete. split; [reflexivity|].
  intros s b n Hb. unfold stamp_delete. by rewrite Hb.
Qed.

Definition expire_50 : retention_policy_t :=
  Retention (TimestampPolicy (RpByTimestamp (Some "t"%string) (Some "at"%string) 50 (Some 1))) (Some by_timestamp_fn).

Lemma by_timestamp_keeps_recent_witness :
  exists pool' o' s', by_timestamp true 100 (Some expire_50) (new_pool [10; 60; 49]) [] = Returns (true, pool', o') /\
    pool_step true (new_pool [10; 60; 49]) pool' 1 s' /\ forall x, x ∈ s' <-> x ∈ [10; 60; 49] /\ 50 <= x.
Proof.
  destruct (by_timestamp_keeps_recent true "t" "at" (fun s => s) (new_pool [10; 60; 49]) 1 [10; 60; 49] 100 50
    (Some by_timestamp_fn) []) as (ok & pool' & o' & s' & Hrun & Hstep & Hcase);
    [apply demo_no_errors|apply new_pool_quiet|unfold in_int64; lia|].
  assert (ok = true) as ->.
  { symmetry. exact (f_equal returned Hrun). }
  exists pool', o', s'. split; [exact Hrun|]. split; [exact Hstep|exact Hcase].
Defined.

End Stamps.

(** When the third allocation fails, [new_retention_policy_by_timestamp]
    reports success, and the policy it made has no column name: its run is
    undefined. *)
Theorem by_timestamp_unchecked_copy {DB} `{Sqlite DB} host (t f : string) r q expire o now pool o1 :
  exists r', new_retention_policy_by_timestamp (Some r) (Some q) (Some t) (Some f) expire
      (true :: true :: false :: o) = (true, Some r', o) /\
    run_policy (DB := DB) host 0 now r' pool o1 = Undefined.
Proof. eexists. split; reflexivity. Qed.
