(* ===== verification/RelayCnt.v ===== *)
(** * Relay counters ([src/database/dao/pcu_relay_cnt/pcu_relay_cnt.c])

    The table of the switching counts of the main relays: insertion of a relay
    that is not there yet, reading, updating and deletion by relay id. *)

From S2P Require Import Prelude Utils Lru Sqlite SqliteDemo PreparedStmt Template SqlStore Retention.

(** ** Data ([pcu_relay_cnt_model.h]) *)

(** The values of the enum, whose type is [unsigned int]. *)
Inductive pcu_do_branch_relay_e :=
  | DO_DC_INPUT1_POS | DO_DC_INPUT1_NEG | DO_DC_INPUT1_PRE
  | DO_DC_INPUT2_POS | DO_DC_INPUT2_NEG | DO_DC_INPUT2_PRE.

Definition relay_no (r : pcu_do_branch_relay_e) : Z :=
  match r with
  | DO_DC_INPUT1_POS => 427
  | DO_DC_INPUT1_NEG => 428
  | DO_DC_INPUT1_PRE => 411
  | DO_DC_INPUT2_POS => 455
  | DO_DC_INPUT2_NEG => 454
  | DO_DC_INPUT2_PRE => 412
  end.

(** [relay_id] is any value of the enum's type: nothing checks it. *)
Record pcu_relay_cnt_t := RelayCnt {
  id : Z;
  relay_id : Z;
  close_cnt : Z
}.

Record pcu_relay_cnt_dao_t := RelayDao {
  rp : retention_policy_t;
  dao_ps : option Z
}.

Definition CREATE : string := "insert into pcu_relay_cnt(relay_id,close_cnt) values(?,?)".
Definition SELECT : string := "select relay_id from pcu_relay_cnt where relay_id = ?".
Definition GET_BY_RELAY_ID : string := "select relay_id,close_cnt from pcu_relay_cnt where relay_id=?".
Definition UPDATE_BY_RELAY_ID : string := "update pcu_relay_cnt set close_cnt=? where relay_id=?".
Definition DELETE_BY_RELAY_ID : string := "delete from pcu_relay_cnt where relay_id=?".

Definition new_pcu_relay_cnt_dao (dao : option pcu_relay_cnt_dao_t) (ps : option Z)
    : bool * option pcu_relay_cnt_dao_t :=
  match dao, ps with
  | Some d, Some _ =>
    match new_retention_policy_always (Some (rp d)) with
    | (_, Some r) => (true, Some (RelayDao r ps))
    | (_, None) => (true, Some (RelayDao (rp d) ps))
    end
  | _, _ => (false, dao)
  end.

Definition delete_pcu_relay_cnt_dao (dao : option pcu_relay_cnt_dao_t) : option pcu_relay_cnt_dao_t :=
  match dao with
  | None => None
  | Some d =>
    match delete_retention_policy_always (Some (rp d)) with
    | Some r => Some (RelayDao r None)
    | None => None
    end
  end.

Section RelayDao.
Context {DB : Type} `{Sqlite DB} (host : bool).

(** ** Callbacks *)

Definition create_bind_cb (p : pcu_relay_cnt_t) : stmt_bind_cb := fun (db : DB) s =>
  let db := (sqlite3_bind db s 1 (VInt (relay_id p))).2 in
  (sqlite3_bind db s 2 (VInt (close_cnt p))).2.

Definition already_exit_in_table (p : pcu_relay_cnt_t) : stmt_bind_cb := fun (db : DB) s =>
  (sqlite3_bind db s 1 (VInt (relay_id p))).2.

(** The id travels through a [void *] and an [int64_t]. *)
Definition get_bind_cb (relay : Z) : stmt_bind_cb := fun (db : DB) s =>
  (sqlite3_bind db s 1 (VInt (uint32 (int64 relay)))).2.

Definition get_unmarshal_cb (db : DB) (s : Z) (res : pcu_relay_cnt_t) : pcu_relay_cnt_t :=
  RelayCnt (id res) (uint32 (sqlite3_column_int64 db s 0)) (sqlite3_column_int db s 1).

Definition update_bind_cb (relay : Z) (p : pcu_relay_cnt_t) : stmt_bind_cb := fun (db : DB) s =>
  let db := (sqlite3_bind db s 1 (VInt (close_cnt p))).2 in
  (sqlite3_bind db s 2 (VInt relay)).2.

(** Bound as an [int], where the others bind an [int64_t]. *)
Definition delete_bind_cb (relay : Z) : stmt_bind_cb := fun (db : DB) s =>
  (sqlite3_bind db s 1 (VInt (int32 relay))).2.

(** ** Operations *)

Definition pcu_relay_cnt_dao_create (fuel : nat) (dao : option pcu_relay_cnt_dao_t)
    (p : option pcu_relay_cnt_t) (pool : pool_t DB) (o : list bool) : outcome (Z * pool_t DB * list bool) :=
  match dao, p with
  | Some d, Some p =>
    '(ret, pool, o) ← at_ps pool (dao_ps d) (fun ps =>
      dao_template_select host fuel ps (Some SELECT) (Some (already_exit_in_table p)) true o);
    if ret <? 0 then Returns (ret, pool, o)
    else if ret =? 0 then
      at_ps pool (dao_ps d) (fun ps => dao_template_create host ps (Some CREATE) (Some (create_bind_cb p)) o)
    else Returns (0, pool, o)
  | _, _ => Returns (-1, pool, o)
  end.

Definition pcu_relay_cnt_dao_get_by_relay_id (fuel : nat) (dao : option pcu_relay_cnt_dao_t) (relay : Z)
    (res : option pcu_relay_cnt_t) (pool : pool_t DB) (o : list bool)
    : outcome (Z * option pcu_relay_cnt_t * pool_t DB * list bool) :=
  match dao, res with
  | Some d, Some _ =>
    at_ps pool (dao_ps d) (fun ps =>
      dao_template_get host fuel ps (Some GET_BY_RELAY_ID) (Some (get_bind_cb relay)) (Some get_unmarshal_cb) res o)
  | _, _ => Returns (-1, res, pool, o)
  end.

Definition pcu_relay_cnt_dao_update_by_relay_id (dao : option pcu_relay_cnt_dao_t) (relay : Z)
    (p : option pcu_relay_cnt_t) (pool : pool_t DB) (o : list bool) : outcome (Z * pool_t DB * list bool) :=
  match dao, p with
  | Some d, Some p =>
    at_ps pool (dao_ps d) (fun ps =>
      dao_template_update host ps (Some UPDATE_BY_RELAY_ID) (Some (update_bind_cb relay p)) o)
  | _, _ => Returns (-1, pool, o)
  end.

Definition pcu_relay_cnt_dao_delete_by_relay_id (dao : option pcu_relay_cnt_dao_t) (relay : Z)
    (pool : pool_t DB) (o : list bool) : outcome (Z * pool_t DB * list bool) :=
  match dao with
  | Some d =>
    at_ps pool (dao_ps d) (fun ps =>
      dao_template_delete host ps (Some DELETE_BY_RELAY_ID) (Some (delete_bind_cb relay)) o)
  | None => Returns (-1, pool, o)
  end.

End RelayDao.

(** ** The specification

    A table of counters is a list of relay ids with their counts, in the order
    of insertion.  An operation may fail, and then returns [-1] and changes
    nothing. *)

Definition relay_rows := list (Z * Z).

Definition has_relay (relay : Z) (r : Z * Z) : bool := r.1 =? relay.
Definition rows_with (relay : Z) (rs : relay_rows) : relay_rows := List.filter (has_relay relay) rs.

Inductive relay_op :=
  | OpCreate (relay cnt : Z)
  | OpUpdate (relay cnt : Z)
  | OpDelete (relay : Z).

Definition spec_op (op : relay_op) (rs : relay_rows) : relay_rows * Z :=
  match op with
  | OpCreate relay cnt =>
    match rows_with relay rs with [] => (rs ++ [(relay, cnt)], 1) | _ => (rs, 0) end
  | OpUpdate relay cnt =>
    ((fun r => if has_relay relay r then (relay, cnt) else r) <$> rs, Z.of_nat (length (rows_with relay rs)))
  | OpDelete relay =>
    (List.filter (fun r => negb (has_relay relay r)) rs, Z.of_nat (length (rows_with relay rs)))
  end.

(** What the texts do on the rows of the table. *)
Class RelaySql {DB S : Type} `{SqlStore DB S} (rows : S -> relay_rows) : Prop := {
  rs_params : 2 <= params (S := S) CREATE /\ 1 <= params (S := S) SELECT /\ 1 <= params (S := S) GET_BY_RELAY_ID /\
    2 <= params (S := S) UPDATE_BY_RELAY_ID /\ 1 <= params (S := S) DELETE_BY_RELAY_ID;
  rs_create : exists e, meaning_of (S := S) CREATE = Some (Change e) /\
    forall s b r c, b !! 1 = Some (VInt r) -> b !! 2 = Some (VInt c) ->
      rows (e s b).1 = rows s ++ [(r, c)] /\ (e s b).2 = 1;
  rs_select : exists q, meaning_of (S := S) SELECT = Some (Query q) /\
    forall s b r, b !! 1 = Some (VInt r) -> q s b = (fun x => [x.1]) <$> rows_with r (rows s);
  rs_get : exists q, meaning_of (S := S) GET_BY_RELAY_ID = Some (Query q) /\
    forall s b r, b !! 1 = Some (VInt r) -> q s b = (fun x => [x.1; x.2]) <$> rows_with r (rows s);
  rs_update : exists e, meaning_of (S := S) UPDATE_BY_RELAY_ID = Some (Change e) /\
    forall s b r c, b !! 1 = Some (VInt c) -> b !! 2 = Some (VInt r) ->
      (rows (e s b).1, (e s b).2) = spec_op (OpUpdate r c) (rows s);
  rs_delete : exists e, meaning_of (S := S) DELETE_BY_RELAY_ID = Some (Change e) /\
    forall s b r, b !! 1 = Some (VInt r) ->
      (rows (e s b).1, (e s b).2) = spec_op (OpDelete r) (rows s)
}.

(** One row per relay, with values the record can hold. *)
Definition row_fits (r : Z * Z) : Prop := 0 <= r.1 <= INT32_MAX /\ in_int32 r.2.
Definition table_ok (rs : relay_rows) : Prop := NoDup rs.*1 /\ Forall row_fits rs.

Definition op_fits (op : relay_op) : Prop :=
  match op with
  | OpCreate relay cnt | OpUpdate relay cnt => row_fits (relay, cnt)
  | OpDelete relay => 0 <= relay <= INT32_MAX
  end.

(** Operations in sequence, some of which failed. *)
Inductive spec_run : relay_rows -> list relay_op -> list Z -> relay_rows -> Prop :=
  | spec_end rs : spec_run rs [] [] rs
  | spec_done rs op rs1 ret ops rets rs' : spec_op op rs = (rs1, ret) -> spec_run rs1 ops rets rs' ->
      spec_run rs (op :: ops) (ret :: rets) rs'
  | spec_failed rs op ops rets rs' : spec_run rs ops rets rs' -> spec_run rs (op :: ops) (-1 :: rets) rs'.

Lemma rows_with_none relay rs : rows_with relay rs = [] <-> relay ∉ rs.*1.
Proof.
  induction rs as [|r rs IH]; [split; [intros _; apply not_elem_of_nil|done]|]. csimpl. unfold rows_with in *. simpl. unfold has_relay at 1.
  destruct (Z.eqb_spec r.1 relay) as [->|Hne]; [set_solver|]. rewrite IH. set_solver.
Qed.

Lemma update_keys relay cnt (rs : relay_rows) :
  ((fun r => if has_relay relay r then (relay, cnt) else r) <$> rs).*1 = rs.*1.
Proof.
  induction rs as [|r rs IH]; [done|]. csimpl. rewrite IH. unfold has_relay.
  by destruct (Z.eqb_spec r.1 relay) as [<-|].
Qed.

Lemma filter_sub {A : Type} (f : A -> bool) (l : list A) : List.filter f l `sublist_of` l.
Proof. induction l as [|x l IH]; simpl; [done|]. destruct (f x); [by constructor|by constructor]. Qed.

(** Every operation keeps the table. *)
Lemma spec_op_ok op rs : op_fits op -> table_ok rs -> table_ok (spec_op op rs).1.
Proof.
  intros Hop [Hnd Hall]. destruct op as [relay cnt|relay cnt|relay]; simpl in *.
  - destruct (rows_with relay rs) eqn:Hr; [|done]. apply rows_with_none in Hr. cbn [fst]. split.
    + rewrite fmap_app. apply NoDup_app. split; [done|]. split; [set_solver|apply NoDup_singleton].
    + apply Forall_app. split; [done|]. by constructor.
  - split; [by rewrite update_keys|]. apply Forall_fmap. eapply Forall_impl; [exact Hall|].
    intros r Hr. simpl. by destruct (has_relay relay r).
  - pose proof (filter_sub (fun r => negb (has_relay relay r)) rs) as Hsub. split.
    + apply (sublist_NoDup _ _ Hnd). by apply fmap_sublist.
    + apply Forall_forall. intros r Hr. apply (proj1 (Forall_forall _ _) Hall).
      eapply elem_of_submseteq; [exact Hr|by apply sublist_submseteq].
Qed.

Lemma spec_run_ok rs ops rets rs' : spec_run rs ops rets rs' -> Forall op_fits ops -> table_ok rs -> table_ok rs'.
Proof.
  induction 1 as [|rs op rs1 ret ops rets rs' Hop _ IH|rs op ops rets rs' _ IH];
    intros Hall Hok; [done|apply Forall_cons in Hall as [Hf Hall]..]; [|by apply IH].
  apply IH; [done|]. pose proof (spec_op_ok op rs Hf Hok) as Hs. by rewrite Hop in Hs.
Qed.

(** A relay has one row at most. *)
Lemma one_row relay rs : NoDup rs.*1 ->
  match rows_with relay rs with
  | [] => True
  | [(k, cnt)] => k = relay /\ (relay, cnt) ∈ rs
  | _ => False
  end.
Proof.
  induction rs as [|[k c] rs IH]; csimpl; [done|]. intros [Hn Hnd]%NoDup_cons. specialize (IH Hnd).
  unfold rows_with in *. simpl. unfold has_relay at 1. cbn [fst]. destruct (Z.eqb_spec k relay) as [->|Hne].
  - apply rows_with_none in Hn. unfold rows_with in Hn. rewrite Hn. split; [done|set_solver].
  - destruct (List.filter (has_relay relay) rs) as [|[k' c'] [|]]; [done| |done].
    destruct IH as [-> Hin]. split; [done|set_solver].
Qed.

Lemma spec_op_length op rs : (length (spec_op op rs).1 <= S (length rs))%nat.
Proof.
  destruct op as [relay cnt|relay cnt|relay]; simpl.
  - destruct (rows_with relay rs); simpl; [rewrite length_app; simpl; lia|lia].
  - rewrite length_fmap. lia.
  - pose proof (List.filter_length_le (fun r => negb (has_relay relay r)) rs). lia.
Qed.

(** ** The operations implement the specification *)

Section Refinement.
Context {DB S : Type} `{SqlStore DB S} (host : bool) (rows : S -> relay_rows) `{!RelaySql rows}.

Definition run_op (fuel : nat) (d : pcu_relay_cnt_dao_t) (op : relay_op) (pool : pool_t DB) (o : list bool)
    : outcome (Z * pool_t DB * list bool) :=
  match op with
  | OpCreate relay cnt => pcu_relay_cnt_dao_create host fuel (Some d) (Some (RelayCnt 0 relay cnt)) pool o
  | OpUpdate relay cnt =>
    pcu_relay_cnt_dao_update_by_relay_id host (Some d) relay (Some (RelayCnt 0 relay cnt)) pool o
  | OpDelete relay => pcu_relay_cnt_dao_delete_by_relay_id host (Some d) relay pool o
  end.

Fixpoint run_ops (fuel : nat) (d : pcu_relay_cnt_dao_t) (ops : list relay_op) (pool : pool_t DB) (o : list bool)
    : outcome (list Z * pool_t DB * list bool) :=
  match ops with
  | [] => Returns ([], pool, o)
  | op :: ops' =>
    '(ret, pool, o) ← run_op fuel d op pool o;
    '(rets, pool, o) ← run_ops fuel d ops' pool o;
    Returns (ret :: rets, pool, o)
  end.

(** What an access may do to the table at [q]. *)
Definition op_result (pool : pool_t DB) (q : Z) (s : S) (op : relay_op)
    (r : outcome (Z * pool_t DB * list bool)) : Prop :=
  exists ret pool' o' s', r = Returns (ret, pool', o') /\ pool_step host pool pool' q s' /\
    ((ret = -1 /\ rows s' = rows s) \/ spec_op op (rows s) = (rows s', ret)).

Lemma select_relay (Hne : no_errors (S := S)) fuel pool q s p o :
  quiet_at host pool q s -> (length (rows s) < fuel)%nat -> Z.of_nat fuel <= INT32_MAX ->
  exists ret pool' o', at_ps pool (Some q) (fun ps =>
      dao_template_select host fuel ps (Some SELECT) (Some (already_exit_in_table p)) true o) =
      Returns (ret, pool', o') /\ pool_step host pool pool' q s /\
    (ret = -1 \/ ret = Z.of_nat (length (rows_with (relay_id p) (rows s)))).
Proof.
  intros Hq Hf Hmax. destruct rs_select as (e & Hm & He). destruct rs_params as (_ & Hp & _).
  destruct (pool_select host Hne fuel pool q s SELECT (Some (already_exit_in_table p)) [VInt (relay_id p)] e o Hq)
    as (ret & pool' & o' & Hrun & Hstep & Hcase).
  - reflexivity.
  - done.
  - apply one_value; [lia|done].
  - split; [|done]. intros m. rewrite (He _ _ (relay_id p)) by apply bound_one. rewrite length_fmap.
    pose proof (List.filter_length_le (has_relay (relay_id p)) (rows s)). unfold rows_with. lia.
  - exists ret, pool', o'. split; [done|]. split; [done|]. destruct Hcase as [?|(m & Hc)]; [by left|right].
    by rewrite Hc, (He _ _ (relay_id p)), length_fmap by apply bound_one.
Qed.

(** A modification with the effect of [op]. *)
Lemma change_relay (Hne : no_errors (S := S)) pool q s sql cb vs e op o :
  quiet_at host pool q s -> strlen sql < 2 ^ 30 -> meaning_of sql = Some (Change e) -> binds_values cb vs sql ->
  (forall m, spec_op op (rows s) = (rows (e s (bound 1 vs m)).1, (e s (bound 1 vs m)).2)) ->
  op_result pool q s op (at_ps pool (Some q) (fun ps => dao_template_base host ps (Some sql) cb o)).
Proof.
  intros Hq Hl Hm Hb He.
  destruct (pool_change host Hne pool q s sql cb vs e o Hq Hl Hm Hb) as (ret & pool' & o' & s' & Hrun & Hstep & Hcase).
  exists ret, pool', o', s'. split; [done|]. split; [done|]. destruct Hcase as [[-> ->]|(m & Hc)]; [by left|right].
  by rewrite (He m), <- Hc.
Qed.

(** An update needs no fuel: it reads no row. *)
Lemma update_refines (Hne : no_errors (S := S)) d pool q s relay p o :
  dao_ps d = Some q -> quiet_at host pool q s ->
  op_result pool q s (OpUpdate relay (close_cnt p)) (pcu_relay_cnt_dao_update_by_relay_id host (Some d) relay (Some p) pool o).
Proof.
  intros Hd Hq. destruct rs_params as (_ & _ & _ & Hpu & _).
  unfold pcu_relay_cnt_dao_update_by_relay_id. rewrite Hd. destruct rs_update as (e & Hm & He).
  apply (change_relay Hne pool q s _ _ [VInt (close_cnt p); VInt relay] e); [done|reflexivity|done|split; [done|simpl; lia]|].
  intros m. symmetry. apply He; apply bound_two.
Qed.

Lemma run_op_refines (Hne : no_errors (S := S)) fuel d op pool q s o :
  dao_ps d = Some q -> quiet_at host pool q s -> op_fits op ->
  (length (rows s) < fuel)%nat -> Z.of_nat fuel <= INT32_MAX ->
  op_result pool q s op (run_op fuel d op pool o).
Proof.
  intros Hd Hq Hop Hf Hmax. destruct rs_params as (Hpc & _ & _ & _ & Hpd).
  destruct op as [relay cnt|relay cnt|relay]; cbn [run_op].
  - unfold pcu_relay_cnt_dao_create. rewrite Hd.
    destruct (select_relay Hne fuel pool q s (RelayCnt 0 relay cnt) o Hq Hf Hmax)
      as (ret & pool1 & o1 & -> & Hstep & Hret). cbn [mbind outcome_bind relay_id] in *.
    destruct (Z.ltb_spec ret 0) as [Hlt|Hge].
    { exists ret, pool1, o1, s. split; [done|]. split; [done|]. left. split; [lia|done]. }
    destruct Hret as [->|Hret]; [lia|]. destruct (Z.eqb_spec ret 0) as [H0'|Hn0].
    + destruct rs_create as (e & Hm & He).
      assert (Hnone : rows_with relay (rows s) = []) by (apply length_zero_iff_nil; lia).
      destruct (change_relay Hne pool1 q s CREATE (Some (create_bind_cb (RelayCnt 0 relay cnt)))
        [VInt relay; VInt cnt] e (OpCreate relay cnt) o1) as (ret2 & pool2 & o2 & s2 & Hrun & Hstep2 & Hcase).
      * apply Hstep.
      * reflexivity.
      * done.
      * split; [done|simpl; lia].
      * intros m. cbn [spec_op]. rewrite Hnone.
        destruct (He s (bound 1 [VInt relay; VInt cnt] m) relay cnt) as [-> ->]; [apply bound_two|apply bound_two|done].
      * exists ret2, pool2, o2, s2. split; [exact Hrun|]. split; [by eapply pool_step_trans|done].
    + exists 0, pool1, o1, s. split; [done|]. split; [done|]. right. simpl.
      destruct (rows_with relay (rows s)); [done|done].
  - by apply (update_refines Hne d pool q s relay (RelayCnt 0 relay cnt)).
  - unfold pcu_relay_cnt_dao_delete_by_relay_id. rewrite Hd. destruct rs_delete as (e & Hm & He).
    apply (change_relay Hne pool q s _ _ [VInt relay] e); [done|reflexivity|done| |].
    { apply one_value; [lia|]. intros db p. unfold delete_bind_cb. simpl in Hop.
      rewrite sint32_id; [done|]. unfold in_int32, INT32_MIN. lia. }
    intros m. symmetry. apply He, bound_one.
Qed.

Lemma run_ops_refine (Hne : no_errors (S := S)) fuel d q ops : dao_ps d = Some q -> Forall op_fits ops ->
  Z.of_nat fuel <= INT32_MAX -> forall pool s o, quiet_at host pool q s ->
  (length (rows s) + length ops < fuel)%nat ->
  exists rets pool' o' s', run_ops fuel d ops pool o = Returns (rets, pool', o') /\
    pool_step host pool pool' q s' /\ spec_run (rows s) ops rets (rows s').
Proof.
  intros Hd Hall Hmax. induction Hall as [|op ops Hop Hall IH]; intros pool s o Hq Hf; cbn [run_ops length] in *.
  - exists [], pool, o, s. split; [done|]. split; [by split|constructor].
  - destruct (run_op_refines Hne fuel d op pool q s o Hd Hq Hop ltac:(lia) Hmax)
      as (ret & pool1 & o1 & s1 & -> & Hstep & Hcase). cbn [mbind outcome_bind].
    destruct (IH pool1 s1 o1) as (rets & pool2 & o2 & s2 & -> & Hstep2 & Hrun); [apply Hstep| |].
    { destruct Hcase as [[_ ->]|Hc]; [lia|]. pose proof (spec_op_length op (rows s)) as Hlen.
      rewrite Hc in Hlen. cbn [fst] in Hlen. lia. }
    cbn [mbind outcome_bind]. exists (ret :: rets), pool2, o2, s2. split; [done|].
    split; [by eapply pool_step_trans|]. destruct Hcase as [[-> Heq]|Hc].
    + apply spec_failed. by rewrite <- Heq.
    + by eapply spec_done.
Qed.

End Refinement.

(** ** A table for the witnesses *)

Definition arg (b : gmap Z sql_value) (i : Z) : Z :=
  match b !! i with Some (VInt z) => z | _ => 0 end.

Definition relay_mean (sql : string) : option (meaning relay_rows) :=
  if String.eqb sql CREATE then Some (Change (fun s b => (s ++ [(arg b 1, arg b 2)], 1)))
  else if String.eqb sql SELECT then Some (Query (fun s b => (fun x => [x.1]) <$> rows_with (arg b 1) s))
  else if String.eqb sql GET_BY_RELAY_ID then Some (Query (fun s b => (fun x => [x.1; x.2]) <$> rows_with (arg b 1) s))
  else if String.eqb sql UPDATE_BY_RELAY_ID then Some (Change (fun s b => spec_op (OpUpdate (arg b 2) (arg b 1)) s))
  else if String.eqb sql DELETE_BY_RELAY_ID then Some (Change (fun s b => spec_op (OpDelete (arg b 1)) s))
  else None.

#[local] Instance relay_sql : DemoSql relay_rows := demo_store_sql relay_mean (fun _ c => Some c).
#[local] Instance relay_store : SqlStore (demo_db relay_rows) relay_rows := demo_store relay_mean (fun _ c => Some c).

#[local] Instance relay_demo : RelaySql (S := relay_rows) (fun s => s).
Proof.
  split.
  - by repeat split.
  - eexists. split; [reflexivity|]. intros s b r c H1 H2. unfold arg. by rewrite H1, H2.
  - eexists. split; [reflexivity|]. intros s b r H1. unfold arg. by rewrite H1.
  - eexists. split; [reflexivity|]. intros s b r H1. unfold arg. by rewrite H1.
  - eexists. split; [reflexivity|]. intros s b r c H1 H2. unfold arg. rewrite H1, H2. done.
  - eexists. split; [reflexivity|]. intros s b r H1. unfold arg. rewrite H1. done.
Qed.

Definition relay_dao : pcu_relay_cnt_dao_t := RelayDao (Retention NullPolicy (Some always_fn)) (Some 1).

(** ** Properties *)


Definition relay_script : list relay_op :=
  [OpCreate 427 5; OpCreate 427 6; OpCreate 428 1; OpUpdate 427 9; OpDelete 428; OpUpdate 411 1].

Definition returned_list {A B : Type} (r : outcome (list Z * A * B)) : list Z :=
  match r with Returns (l, _, _) => l | _ => [] end.


(** Reading a relay from such a table either fails with -1, or finds no row and
    leaves the result as it was, or finds the one row of that relay. *)
Theorem relay_cnt_get_reads {DB S} `{SqlStore DB S} host (rows : S -> relay_rows) `{!RelaySql rows}
    fuel d q relay res pool s o :
  no_errors (DB := DB) (S := S) -> dao_ps d = Some q -> quiet_at host pool q s ->
  table_ok (rows s) -> 0 <= relay <= INT32_MAX -> (length (rows s) < fuel)%nat -> Z.of_nat fuel <= INT32_MAX ->
  exists ret res' pool' o', pcu_relay_cnt_dao_get_by_relay_id host fuel (Some d) relay (Some res) pool o =
      Returns (ret, Some res', pool', o') /\ pool_step host pool pool' q s /\
    ((ret = -1 /\ res' = res) \/ (ret = 0 /\ res' = res /\ relay ∉ (rows s).*1) \/
     exists cnt, ret = 1 /\ (relay, cnt) ∈ rows s /\ res' = RelayCnt (id res) relay cnt).
Proof.
  intros Hne Hd Hq [Hnd Hall] Hrel Hf Hmax. unfold pcu_relay_cnt_dao_get_by_relay_id. rewrite Hd.
  destruct rs_get as (e & Hm & He). destruct rs_params as (_ & _ & Hp & _).
  assert (Hid : uint32 (int64 relay) = relay).
  { unfold INT32_MAX in Hrel. rewrite sint64_id by (unfold in_int64; lia). apply uint_id. lia. }
  destruct (pool_get host Hne fuel pool q s GET_BY_RELAY_ID (Some (get_bind_cb relay)) [VInt relay] e
    get_unmarshal_cb (fun r u => RelayCnt (id u) (uint32 (default 0 (r !! 0%nat))) (int32 (default 0 (r !! 1%nat)))) res o Hq)
    as (ret & res' & pool' & o' & Hrun & Hstep & Hcase).
  - reflexivity.
  - done.
  - apply one_value; [lia|]. intros db p. unfold get_bind_cb. by rewrite Hid.
  - split; [|done]. intros m. rewrite (He _ _ relay) by apply bound_one. rewrite length_fmap.
    pose proof (List.filter_length_le (has_relay relay) (rows s)). unfold rows_with. lia.
  - intros db p u. unfold get_unmarshal_cb, sqlite3_column_int. by rewrite !column_row.
  - exists ret, res', pool', o'. split; [exact Hrun|]. split; [done|].
    destruct Hcase as [?|(m & Hret & Hres)]; [by left|right].
    rewrite (He _ _ relay) in Hret, Hres by apply bound_one. rewrite length_fmap in Hret.
    pose proof (one_row relay (rows s) Hnd) as Hone.
    destruct (rows_with relay (rows s)) as [|[k cnt] [|]] eqn:Hw; [left| |done].
    + split; [done|]. split; [done|]. by apply rows_with_none.
    + right. destruct Hone as [-> Hin]. exists cnt. split; [done|]. split; [done|].
      destruct (proj1 (Forall_forall _ _) Hall _ Hin) as [Hk Hc]. cbn [fst snd] in Hk, Hc. unfold INT32_MAX in Hk.
      rewrite Hres. unfold read_all. simpl. rewrite uint_id, sint32_id by (done || lia). done.
Qed.

Lemma relay_cnt_get_reads_witness :
  exists res' pool' o', pcu_relay_cnt_dao_get_by_relay_id true 9 (Some relay_dao) 428 (Some (RelayCnt 3 0 0))
      (new_pool [(427, 9); (428, 7)]) [] = Returns (1, Some res', pool', o') /\ res' = RelayCnt 3 428 7.
Proof.
  destruct (relay_cnt_get_reads true (fun s : relay_rows => s) 9 relay_dao 1 428 (RelayCnt 3 0 0)
    (new_pool [(427, 9); (428, 7)]) [(427, 9); (428, 7)] [])
    as (ret & res' & pool' & o' & Hrun & _ & _);
    [apply demo_no_errors|reflexivity|apply new_pool_quiet|split; [repeat constructor; set_solver
    |repeat constructor; vm_compute; congruence]|unfold INT32_MAX; lia|simpl; lia|unfold INT32_MAX; lia|].
  assert (Hpair : (ret, Some res') = (1, Some (RelayCnt 3 428 7))).
  { symmetry. exact (f_equal (fun r => match r with Returns (x, _, _) => x | _ => (0, None) end) Hrun). }
  injection Hpair as -> ->. exists (RelayCnt 3 428 7), pool', o'. split; [exact Hrun|reflexivity].
Defined.
