(* ===== verification/Database.v ===== *)
(** * The database layer ([src/database]: [dal.c], [init.c], [dao/dao.c],
      [dao/create_database.c], [dao/sqlite_master], [dao/auto_delete.c],
      [dao/dsn.c], [model/table.c])

    The tables are created when the layer starts, from the list of the
    program's tables; the layer holds one connection per data source, the data
    access objects and the deleter, and closes the connections when it ends. *)

From S2P Require Import Prelude Utils Lru Sqlite SqliteDemo PreparedStmt Template SqlStore Retention RelayCnt.

(** ** Data sources and tables *)

Definition DSN_MAIN : Z := 0.
Definition DSN_END : Z := 1.

Definition dsn_map : list string := ["../../db/main.db"%string].

Definition dsn_to_string (dsn : Z) : option string := arr_get dsn_map dsn.

Record table_t := Table {
  table_name : string;
  dsn : Z;
  create_table_stmt : string
}.

Definition table_pcu_relay_cnt : table_t := Table "pcu_relay_cnt" DSN_MAIN
  ("CREATE TABLE IF NOT EXISTS pcu_relay_cnt (" ++
   "id INTEGER PRIMARY KEY AUTOINCREMENT," ++ "relay_id INTEGER," ++ "close_cnt INTEGER" ++ ");").

Definition tables_array : list table_t := [table_pcu_relay_cnt].

(** [head] and [len] are set unless one of the pointers is null. *)
Definition get_tables (head len : bool) : bool * option (list table_t * Z) :=
  if negb head || negb len then (false, None) else (true, Some (tables_array, 1)).

(** ** The system table ([sqlite_master_dao.c]) *)

Record sqlite_master_dao_t := MasterDao { sm_ps : option Z }.

Definition COUNT_BY_NAME : string := "select count(*) from sqlite_master where type='table' and name=?".

Definition new_sqlite_master_dao (dao : option sqlite_master_dao_t) (ps : option Z)
    : bool * option sqlite_master_dao_t :=
  match dao, ps with
  | Some _, Some _ => (true, Some (MasterDao ps))
  | _, _ => (false, dao)
  end.

Definition delete_sqlite_master_dao (dao : option sqlite_master_dao_t) : option sqlite_master_dao_t :=
  (fun _ => MasterDao None) <$> dao.

Section Database.
Context {DB : Type} `{Sqlite DB} (host : bool).

Definition count_by_name_bind_cb (name : string) : stmt_bind_cb := fun (db : DB) p =>
  (sqlite3_bind db p 1 (VText name)).2.

Definition count_by_name_unmarshal_cb (db : DB) (p : Z) (count : Z) : Z := sqlite3_column_int db p 0.

Definition sqlite_master_dao_count_by_name (fuel : nat) (dao : option sqlite_master_dao_t)
    (name : option string) (count : option Z) (pool : pool_t DB) (o : list bool)
    : outcome (Z * option Z * pool_t DB * list bool) :=
  match dao, name, count with
  | Some d, Some name, Some _ =>
    at_ps pool (sm_ps d) (fun ps =>
      dao_template_get host fuel ps (Some COUNT_BY_NAME) (Some (count_by_name_bind_cb name))
        (Some count_by_name_unmarshal_cb) count o)
  | _, _, _ => Returns (-1, count, pool, o)
  end.

(** ** Creation of the tables ([create_database.c]) *)

(** Work on the connection itself, without its mutex. *)
Definition on_conn {A : Type} (pool : pool_t DB) (ptr : option Z) (f : DB -> A * DB) : outcome (A * pool_t DB) :=
  q ← ub ptr;
  st ← ub (pool !! q);
  let '(a, db) := f (ps_conn st) in
  Returns (a, <[q := with_conn st db]> pool).

(** The transaction that creates a table. *)
Definition create_in_transaction (stmt : string) (db : DB) : bool * DB :=
  let db1 := dao_begin db in
  let '(ok, db2) := sqlite3_exec db1 stmt in
  if negb ok then (false, dao_rollback db2) else (true, dao_commit db2).

Definition create_table (fuel : nat) (dao : option sqlite_master_dao_t) (table : table_t)
    (pool : pool_t DB) (o : list bool) : outcome (bool * pool_t DB * list bool) :=
  '(line_num, count, pool, o) ←
    sqlite_master_dao_count_by_name fuel dao (Some (table_name table)) (Some 0) pool o;
  if negb (1 =? line_num) then Returns (false, pool, o) else
  if 0 <? default 0 count then Returns (true, pool, o) else
  d ← ub dao;
  '(ok, pool) ← on_conn pool (sm_ps d) (create_in_transaction (create_table_stmt table));
  Returns (ok, pool, o).

(** The loop over the tables from the [i]th on. *)
Fixpoint create_tables (fuel : nat) (d : sqlite_master_dao_t) (tables : list table_t)
    (pool : pool_t DB) (o : list bool) : outcome (pool_t DB * list bool) :=
  match tables with
  | [] => Returns (pool, o)
  | t :: tables' =>
    q ← ub (sm_ps d);
    st ← ub (pool !! q);
    '(pool, o) ← (if dsn t =? ps_dsn st then
                    '(_, pool, o) ← create_table fuel (Some d) t pool o; Returns (pool, o)
                  else Returns (pool, o));
    create_tables fuel d tables' pool o
  end.

(** [len] is the length of the array. *)
Definition create_database (fuel : nat) (dao : option sqlite_master_dao_t) (tables : option (list table_t))
    (len : Z) (pool : pool_t DB) (o : list bool) : outcome (bool * pool_t DB * list bool) :=
  match tables, dao with
  | Some tables, Some d =>
    if Z.of_nat (length tables) <? len then Undefined else
    '(pool, o) ← create_tables fuel d (take (Z.to_nat len) tables) pool o;
    Returns (true, pool, o)
  | _, _ => Returns (false, pool, o)
  end.

(** ** Data access objects and the deleter *)

Record dao_t := Dao { pcu_relay_cnt_dao : pcu_relay_cnt_dao_t }.

(** [pstmts]: the array is not null. *)
Definition new_dao (dao : option dao_t) (pstmts : bool) (loop : option Z) : bool * option dao_t :=
  match dao, pstmts, loop with
  | Some d, true, Some _ =>
    match new_pcu_relay_cnt_dao (Some (pcu_relay_cnt_dao d)) (Some DSN_MAIN) with
    | (_, Some d') => (true, Some (Dao d'))
    | (_, None) => (true, dao)
    end
  | _, _, _ => (false, dao)
  end.

Definition delete_dao (dao : option dao_t) : option dao_t :=
  match dao with
  | None => None
  | Some d => Dao <$> delete_pcu_relay_cnt_dao (Some (pcu_relay_cnt_dao d))
  end.

(** [timer]: the timer of the loop, with its period; its callback is
    [Retention.on_timer] on [rps]. *)
Record dao_deleter_t := Deleter {
  rps : option (list retention_policy_t);
  deleter_loop : option Z;
  timer : option Z
}.

Definition DAO_DELETER_TIMEOUT_10MIN : Z := 1000 * 60 * 10.

Definition new_dao_deleter (d : option dao_deleter_t) (loop : option Z)
    (rps : option (list retention_policy_t)) (timeout_ms : Z) : bool * option dao_deleter_t :=
  match d, loop, rps with
  | Some _, Some _, Some _ => (true, Some (Deleter rps loop (Some timeout_ms)))
  | _, _, _ => (false, d)
  end.

Definition delete_dao_deleter (d : option dao_deleter_t) : option dao_deleter_t :=
  (fun d => Deleter None None (timer d)) <$> d.

(** The array holds copies of the policies. *)
Definition new_retention_policy_array (dao : dao_t) : list retention_policy_t := [rp (pcu_relay_cnt_dao dao)].

(** ** The layer ([dal.c], [init.c])

    [pstmts] maps an index to its connection; an index that is not in it holds
    the zeroed structure of a connection that could not be opened, whose use
    hands SQLite a null connection: undefined. *)
Record dal_t := Dal {
  pstmts : pool_t DB;
  sqlite_master_dao_array : list sqlite_master_dao_t;
  dao : dao_t;
  deleter : dao_deleter_t;
  loop : option Z
}.

(** [open]: the connections [sqlite3_open] returns, [None] for an error. *)
Fixpoint init_pstmts (n : nat) (i : Z) (open : string -> option DB) (pool : pool_t DB) (o : list bool)
    : outcome (pool_t DB * list bool) :=
  match n with
  | O => Returns (pool, o)
  | S n' =>
    path ← ub (dsn_to_string i);
    match open path with
    | None => Returns (pool, o)
    | Some db =>
      let '(ret, st, o1) := new_prepared_stmt (Some (PS db 0 None None)) (Some db) i o in
      init_pstmts n' (i + 1) open
        (match st with Some st => if ret then <[i := st]> pool else pool | None => pool end) o1
    end
  end.

Definition init_sqlite_master_dao_array : list sqlite_master_dao_t :=
  (fun i => MasterDao (Some (Z.of_nat i))) <$> seq 0 (Z.to_nat DSN_END).

Fixpoint init_databases (fuel : nat) (daos : list sqlite_master_dao_t) (pool : pool_t DB) (o : list bool)
    : outcome (pool_t DB * list bool) :=
  match daos with
  | [] => Returns (pool, o)
  | d :: daos' =>
    let tables := (get_tables true true).2 in
    '(_, pool, o) ← create_database fuel (Some d) (fst <$> tables) (default 0 (snd <$> tables)) pool o;
    init_databases fuel daos' pool o
  end.

(** [hloop]: the loop [hloop_new] returns. *)
Definition new_dal (fuel : nat) (dal : option dal_t) (open : string -> option DB) (hloop : option Z)
    (o : list bool) : outcome (bool * option dal_t * list bool) :=
  match dal with
  | None => Returns (false, None, o)
  | Some d =>
    '(pool, o) ← init_pstmts (Z.to_nat DSN_END) 0 open (pstmts d) o;
    let daos := init_sqlite_master_dao_array in
    '(pool, o) ← init_databases fuel daos pool o;
    let dao' := default (dao d) (new_dao (Some (dao d)) true hloop).2 in
    let deleter' := default (deleter d) (new_dao_deleter (Some (deleter d)) hloop
                      (Some (new_retention_policy_array dao')) DAO_DELETER_TIMEOUT_10MIN).2 in
    Returns (true, Some (Dal pool daos dao' deleter' hloop), o)
  end.

(** [dao_close(db)] on the connection the structure at [i] had; [None] when
    the fuel ran out. *)
Fixpoint close_pstmts (n : nat) (i : Z) (fuel : nat) (pool : pool_t DB) (closed : list DB)
    : outcome (list DB) :=
  match n with
  | O => Returns closed
  | S n' =>
    match pool !! i with
    | None => close_pstmts n' (i + 1) fuel pool closed
    | Some st =>
      st' ← delete_prepared_stmt host (Some st);
      st' ← ub st';
      db ← ub (dao_close fuel (ps_conn st'));
      close_pstmts n' (i + 1) fuel (<[i := st']> pool) (closed ++ [db])
    end
  end.

(** Result: the layer, and the connections in the state [dao_close] left
    them. *)
Definition delete_dal (fuel : nat) (dal : option dal_t) : outcome (option dal_t * list DB) :=
  match dal with
  | None => Returns (None, [])
  | Some d =>
    closed ← close_pstmts (Z.to_nat DSN_END) 0 fuel (pstmts d) [];
    let deleter' := default (deleter d) (delete_dao_deleter (Some (deleter d))) in
    let dao' := default (dao d) (delete_dao (Some (dao d))) in
    Returns (Some (Dal ∅ ((fun _ => MasterDao None) <$> sqlite_master_dao_array d) dao' deleter' (loop d)), closed)
  end.

End Database.

(** ** What the schema statements do

    [tables]: the names in the schema; [saved]: those at the [BEGIN] of the
    open transaction. *)

Definition named (name : string) (names : list string) : list string := List.filter (String.eqb name) names.

Definition with_table (name : string) (names : list string) : list string :=
  if decide (name ∈ names) then names else names ++ [name].

Class Schema {DB S : Type} `{SqlStore DB S} (tables : S -> list string) (saved : S -> option (list string))
    (creates : table_t -> Prop) : Prop := {
  sc_params : 1 <= params (S := S) COUNT_BY_NAME;
  sc_count : exists q, meaning_of (S := S) COUNT_BY_NAME = Some (Query q) /\
    forall s b n, b !! 1 = Some (VText n) -> q s b = [[Z.of_nat (length (named n (tables s)))]];
  sc_idle (db : DB) sql : idle (S := S) db -> idle (S := S) (sqlite3_exec db sql).2;
  sc_failed (db : DB) sql : (sqlite3_exec db sql).1 = false ->
    tables (store (sqlite3_exec db sql).2) = tables (store db) /\
    saved (store (sqlite3_exec db sql).2) = saved (store db);
  sc_begin (db : DB) : (sqlite3_exec db BEGIN_SQL).1 = true ->
    tables (store (sqlite3_exec db BEGIN_SQL).2) = tables (store db) /\
    saved (store (sqlite3_exec db BEGIN_SQL).2) = Some (tables (store db));
  sc_commit (db : DB) : (sqlite3_exec db COMMIT_SQL).1 = true ->
    tables (store (sqlite3_exec db COMMIT_SQL).2) = tables (store db) /\
    saved (store (sqlite3_exec db COMMIT_SQL).2) = None;
  sc_rollback (db : DB) ts : saved (store db) = Some ts -> (sqlite3_exec db ROLLBACK_SQL).1 = true ->
    tables (store (sqlite3_exec db ROLLBACK_SQL).2) = ts /\
    saved (store (sqlite3_exec db ROLLBACK_SQL).2) = None;
  sc_create (db : DB) t : creates t -> (sqlite3_exec db (create_table_stmt t)).1 = true ->
    tables (store (sqlite3_exec db (create_table_stmt t)).2) = with_table (table_name t) (tables (store db)) /\
    saved (store (sqlite3_exec db (create_table_stmt t)).2) = saved (store db)
}.

(** Transactions begin when none is open, and end when one is. *)
Record tx_works {DB S : Type} `{SqlStore DB S} (saved : S -> option (list string)) : Prop := {
  begin_works (db : DB) : saved (store db) = None -> (sqlite3_exec db BEGIN_SQL).1 = true;
  commit_works (db : DB) : saved (store db) <> None -> (sqlite3_exec db COMMIT_SQL).1 = true;
  rollback_works (db : DB) : saved (store db) <> None -> (sqlite3_exec db ROLLBACK_SQL).1 = true
}.

Section Creation.
Context {DB S : Type} `{SqlStore DB S} (host : bool) (tables : S -> list string)
  (saved : S -> option (list string)) (creates : table_t -> Prop) `{!Schema tables saved creates}
  (Hne : no_errors (DB := DB) (S := S)) (Htx : tx_works (DB := DB) saved).

Lemma named_none name names : named name names = [] <-> name ∉ names.
Proof.
  unfold named. induction names as [|n names IH]; simpl; [split; [intros _; apply not_elem_of_nil|done]|].
  destruct (String.eqb_spec name n) as [->|Hn]; [set_solver|]. rewrite IH. set_solver.
Qed.

(** The whole transaction adds the table or nothing, and leaves none open. *)
Lemma create_in_transaction_spec t (db : DB) : creates t -> saved (store db) = None -> idle (S := S) db ->
  let r := create_in_transaction (create_table_stmt t) db in
  saved (store r.2) = None /\ idle (S := S) r.2 /\ same_stmts live db r.2 /\
  tables (store r.2) = if r.1 then with_table (table_name t) (tables (store db)) else tables (store db).
Proof.
  intros Ht Hsv Hid. unfold create_in_transaction, dao_begin.
  pose proof (begin_works saved Htx db Hsv) as Hb. pose proof (sc_idle db BEGIN_SQL Hid) as Hid1.
  destruct (sc_begin db Hb) as [Htb Hsv1]. pose proof (exec_same db BEGIN_SQL) as Hs1.
  destruct (sqlite3_exec db BEGIN_SQL) as [ok0 db1]. cbn [fst snd] in *. rewrite Hb. cbn [negb].
  pose proof (sc_failed db1 (create_table_stmt t)) as Hfail. pose proof (sc_create db1 t Ht) as Hok.
  pose proof (sc_idle db1 (create_table_stmt t) Hid1) as Hid2. pose proof (exec_same db1 (create_table_stmt t)) as Hs2.
  destruct (sqlite3_exec db1 (create_table_stmt t)) as [ok db2]. cbn [fst snd] in *.
  assert (Hs : same_stmts live db db2) by (by etrans).
  destruct ok; cbn [negb fst snd].
  - destruct (Hok eq_refl) as [Ht2 Hsv2]. unfold dao_commit.
    assert (Hopen : saved (store db2) <> None) by congruence.
    destruct (sc_commit db2 (commit_works saved Htx db2 Hopen)) as [Ht3 Hsv3].
    split; [done|]. split; [by apply sc_idle|]. split; [etrans; [exact Hs|]; apply exec_same|]. congruence.
  - destruct (Hfail eq_refl) as [Ht2 Hsv2]. unfold dao_rollback.
    assert (Hopen : saved (store db2) = Some (tables (store db))) by congruence.
    assert (Hopen' : saved (store db2) <> None) by congruence.
    destruct (sc_rollback db2 _ Hopen (rollback_works saved Htx db2 Hopen')) as [Ht3 Hsv3].
    split; [done|]. split; [by apply sc_idle|]. split; [etrans; [exact Hs|]; apply exec_same|]. congruence.
Qed.

Lemma on_conn_quiet {A : Type} pool q s (f : DB -> A * DB) : quiet_at host pool q s ->
  (forall db, idle (S := S) db -> store db = s -> same_stmts live db (f db).2 /\ idle (S := S) (f db).2) ->
  exists db pool', store db = s /\ idle (S := S) db /\ on_conn pool (Some q) f = Returns ((f db).1, pool') /\
    pool_step host pool pool' q (store (f db).2).
Proof.
  intros (st & es & Hst & [[Hok Hm] Hid] & <-) Hf. unfold on_conn. cbn [ub mbind outcome_bind]. rewrite Hst.
  cbn [ub mbind outcome_bind]. destruct (Hf (ps_conn st) Hid eq_refl) as [Hs Hid'].
  exists (ps_conn st), (<[q := with_conn st (f (ps_conn st)).2]> pool). split; [done|]. split; [done|].
  split; [by destruct (f (ps_conn st))|]. eapply (pool_step_insert host pool q _ es); [|done].
  split; [|done]. split; [by apply conn_same|done].
Qed.

Definition tables_fit (s : S) : Prop := Z.of_nat (length (tables s)) <= INT32_MAX.

Lemma create_table_spec fuel q t pool s o : quiet_at host pool q s -> creates t -> saved s = None ->
  tables_fit s -> (2 <= fuel)%nat -> Z.of_nat fuel <= INT32_MAX ->
  exists ok pool' o' s', create_table host fuel (Some (MasterDao (Some q))) t pool o = Returns (ok, pool', o') /\
    pool_step host pool pool' q s' /\ saved s' = None /\
    tables s' = if ok then with_table (table_name t) (tables s) else tables s.
Proof.
  intros Hq Ht Hsv Hfit Hf Hmax. unfold create_table, sqlite_master_dao_count_by_name. cbn [sm_ps].
  destruct sc_count as (e & Hm & He).
  destruct (pool_get host Hne fuel pool q s COUNT_BY_NAME (Some (count_by_name_bind_cb (table_name t)))
    [VText (table_name t)] e count_by_name_unmarshal_cb (fun r _ => int32 (default 0 (r !! 0%nat))) 0 o Hq)
    as (ret & u & pool1 & o1 & -> & Hstep & Hcase).
  - reflexivity.
  - done.
  - apply one_value; [apply sc_params|done].
  - split; [|done]. intros m. rewrite (He _ _ (table_name t)) by apply bound_one. simpl. lia.
  - intros db p u. unfold count_by_name_unmarshal_cb, sqlite3_column_int. by rewrite column_row.
  - cbn [mbind outcome_bind]. destruct Hcase as [[-> _]|(m & -> & Hu)].
    { exists false, pool1, o1, s. by split_and!. }
    rewrite (He _ _ (table_name t)) in Hu |- * by apply bound_one. cbn [length negb Z.of_nat Z.eqb].
    change (1 =? Z.pos (Pos.of_succ_nat 0)) with true. cbn [negb].
    assert (Hcount : u = Z.of_nat (length (named (table_name t) (tables s)))).
    { rewrite Hu. unfold read_all. simpl. apply sint32_id. unfold tables_fit, in_int32, INT32_MIN in *.
      pose proof (List.filter_length_le (String.eqb (table_name t)) (tables s)). unfold named. lia. }
    pose proof (named_none (table_name t) (tables s)) as Hnone. change (default 0 (Some u)) with u.
    unfold with_table.
    destruct (Z.ltb_spec 0 u) as [Hpos|Hzero].
    + exists true, pool1, o1, s. do 3 (split; [done|]). rewrite decide_True; [done|].
      destruct (decide (table_name t ∈ tables s)); [done|]. exfalso.
      rewrite (proj2 Hnone) in Hcount by done. simpl in Hcount. lia.
    + cbn [ub mbind outcome_bind sm_ps].
      destruct (on_conn_quiet pool1 q s (create_in_transaction (create_table_stmt t)))
        as (db & pool2 & Hst & Hid & -> & Hstep2).
      { apply Hstep. }
      { intros db Hid Hst. destruct (create_in_transaction_spec t db Ht) as (_ & ? & ? & _);
          [by rewrite Hst|done|done]. }
      assert (Hsvd : saved (store db) = None) by (by rewrite Hst).
      destruct (create_in_transaction_spec t db Ht Hsvd Hid) as (Hsv' & _ & _ & Htab).
      cbn [mbind outcome_bind]. eexists _, pool2, o1, _. split; [done|].
      split; [by eapply pool_step_trans|]. split; [done|]. by rewrite Htab, Hst.
Qed.

Lemma with_table_made name names : exists made, with_table name names = names ++ made /\
  (forall n, n ∈ made -> n = name) /\ (NoDup names -> NoDup (with_table name names)).
Proof.
  unfold with_table. destruct (decide (name ∈ names)) as [Hin|Hin].
  - exists []. rewrite app_nil_r. split; [done|]. split; [set_solver|done].
  - exists [name]. split; [done|]. split; [set_solver|]. intros Hnd. apply NoDup_app.
    split; [done|]. split; [set_solver|apply NoDup_singleton].
Qed.

(** What a list of tables may add to a schema. *)
Definition extends (ts : list table_t) (names names' : list string) : Prop :=
  exists made, names' = names ++ made /\ (forall n, n ∈ made -> exists t, t ∈ ts /\ table_name t = n) /\
    (NoDup names -> NoDup names').

Lemma extends_cons t ts a b d : (b = a \/ b = with_table (table_name t) a) -> extends ts b d -> extends (t :: ts) a d.
Proof.
  intros Hb (made & -> & Hin & Hnd).
  assert (Hb' : exists m, b = a ++ m /\ (forall n, n ∈ m -> n = table_name t) /\ (NoDup a -> NoDup b)).
  { destruct Hb as [->| ->]; [exists []; rewrite app_nil_r; split_and!; [done|set_solver|done]|apply with_table_made]. }
  destruct Hb' as (m & -> & Hm & Hndm). exists (m ++ made). split; [by rewrite app_assoc|]. split; [|tauto].
  intros n [Hn|Hn]%elem_of_app; [exists t; split; [set_solver|by rewrite (Hm n)]|].
  destruct (Hin n Hn) as (t' & ? & ?). exists t'. split; [set_solver|done].
Qed.

Lemma create_tables_spec fuel q ts : Forall creates ts -> (2 <= fuel)%nat -> Z.of_nat fuel <= INT32_MAX ->
  forall pool s o, quiet_at host pool q s -> saved s = None ->
  Z.of_nat (length (tables s) + length ts) <= INT32_MAX ->
  exists pool' o' s', create_tables host fuel (MasterDao (Some q)) ts pool o = Returns (pool', o') /\
    pool_step host pool pool' q s' /\ saved s' = None /\ extends ts (tables s) (tables s').
Proof.
  intros Hall Hf Hmax. induction Hall as [|t ts Ht Hall IH]; intros pool s o Hq Hsv Hfit; cbn [create_tables].
  - exists pool, o, s. split; [done|]. split; [by split|]. split; [done|]. exists [].
    rewrite app_nil_r. split; [done|]. split; [set_solver|done].
  - cbn [sm_ps ub mbind outcome_bind]. pose proof Hq as (st & _ & Hst & _). rewrite Hst. cbn [ub mbind outcome_bind].
    assert (Hstep : exists pool1 o1 s1, (if dsn t =? ps_dsn st then
        '(_, pool, o) ← create_table host fuel (Some (MasterDao (Some q))) t pool o; Returns (pool, o)
      else Returns (pool, o)) = Returns (pool1, o1) /\ pool_step host pool pool1 q s1 /\ saved s1 = None /\
      (tables s1 = tables s \/ tables s1 = with_table (table_name t) (tables s))).
    { destruct (dsn t =? ps_dsn st).
      - destruct (create_table_spec fuel q t pool s o Hq Ht Hsv) as (ok & pool1 & o1 & s1 & -> & H2 & H3 & H4);
          [unfold tables_fit; lia|done|done|].
        cbn [mbind outcome_bind]. exists pool1, o1, s1. do 3 (split; [done|]). destruct ok; tauto.
      - exists pool, o, s. split; [done|]. split; [by split|]. tauto. }
    destruct Hstep as (pool1 & o1 & s1 & -> & Hstep & Hsv1 & Htab). cbn [mbind outcome_bind].
    destruct (IH pool1 s1 o1) as (pool2 & o2 & s2 & -> & Hstep2 & Hsv2 & Hext); [apply Hstep|done| |].
    { destruct Htab as [->| ->]; simpl in Hfit; [lia|]. unfold with_table. destruct (decide _); [lia|].
      rewrite length_app. simpl. lia. }
    exists pool2, o2, s2. split; [done|]. split; [by eapply pool_step_trans|]. split; [done|].
    by apply (extends_cons t ts (tables s) (tables s1)).
Qed.

End Creation.

(** ** A schema for the witnesses *)

Record demo_schema := DemoSchema { d_tables : list string; d_saved : option (list string) }.

Definition schema_mean (sql : string) : option (meaning demo_schema) :=
  if String.eqb sql COUNT_BY_NAME
  then Some (Query (fun s b => match b !! 1 with
                               | Some (VText n) => [[Z.of_nat (length (named n (d_tables s)))]]
                               | _ => [[0]] end))
  else None.

Definition schema_exec (sql : string) (s : demo_schema) : option demo_schema :=
  if String.eqb sql BEGIN_SQL then
    match d_saved s with None => Some (DemoSchema (d_tables s) (Some (d_tables s))) | Some _ => None end
  else if String.eqb sql COMMIT_SQL then (fun _ => DemoSchema (d_tables s) None) <$> d_saved s
  else if String.eqb sql ROLLBACK_SQL then (fun ts => DemoSchema ts None) <$> d_saved s
  else if String.eqb sql (create_table_stmt table_pcu_relay_cnt)
  then Some (DemoSchema (with_table (table_name table_pcu_relay_cnt) (d_tables s)) (d_saved s))
  else None.

#[local] Instance schema_sql : DemoSql demo_schema := demo_store_sql schema_mean schema_exec.
#[local] Instance schema_store : SqlStore (demo_db demo_schema) demo_schema := demo_store schema_mean schema_exec.

Definition program_table (t : table_t) : Prop := t = table_pcu_relay_cnt.

Lemma schema_run (db : demo_db demo_schema) sql : sqlite3_exec db sql =
  match schema_exec sql (d_content db) with
  | Some c => (true, DemoDb (d_stmts db) c (d_changes db))
  | None => (false, db)
  end.
Proof. reflexivity. Qed.

#[local] Instance schema_demo : Schema (S := demo_schema) d_tables d_saved program_table.
Proof.
  split.
  - discriminate.
  - eexists. split; [reflexivity|]. intros s b n Hb. cbv beta. by rewrite Hb.
  - intros db sql Hid q Hq. rewrite schema_run in *. destruct (schema_exec sql (d_content db)); exact (Hid q Hq).
  - intros db sql. rewrite schema_run. by destruct (schema_exec sql (d_content db)).
  - intros db. rewrite schema_run. unfold schema_exec. simpl. by destruct (d_saved (d_content db)).
  - intros db. rewrite schema_run. unfold schema_exec. simpl. by destruct (d_saved (d_content db)).
  - intros db ts Hs. rewrite schema_run. unfold schema_exec. simpl in *. by rewrite Hs.
  - intros db t ->. by rewrite schema_run.
Qed.

Lemma schema_tx : tx_works (DB := demo_db demo_schema) (S := demo_schema) d_saved.
Proof.
  split; intros db; rewrite schema_run; unfold schema_exec; simpl; by destruct (d_saved (d_content db)).
Qed.

(** ** Properties *)

(** Creating a table returns true exactly with the table in the schema, added
    at the end if it was not there; it returns false with the schema as it was.
    No transaction is left open, and the connection is idle. *)
Theorem create_table_creates {DB S} `{SqlStore DB S} host (tables : S -> list string) saved creates
    `{!Schema tables saved creates} fuel q t pool s o :
  no_errors (DB := DB) (S := S) -> tx_works (DB := DB) saved -> quiet_at host pool q s -> creates t ->
  saved s = None -> tables_fit tables s -> (2 <= fuel)%nat -> Z.of_nat fuel <= INT32_MAX ->
  exists ok pool' o' s', create_table host fuel (Some (MasterDao (Some q))) t pool o = Returns (ok, pool', o') /\
    pool_step host pool pool' q s' /\ saved s' = None /\
    tables s' = if ok then with_table (table_name t) (tables s) else tables s.
Proof. intros Hne Htx. by apply (create_table_spec host tables saved creates Hne Htx). Qed.

Lemma create_table_creates_witness :
  exists pool' o' s', create_table true 2 (Some (MasterDao (Some 1))) table_pcu_relay_cnt
      (new_pool (DemoSchema ["other"%string] None)) [] = Returns (true, pool', o') /\
    d_tables s' = ["other"; "pcu_relay_cnt"]%string.
Proof.
  destruct (create_table_creates true d_tables d_saved program_table 2 1 table_pcu_relay_cnt
    (new_pool (DemoSchema ["other"%string] None)) (DemoSchema ["other"%string] None) [])
    as (ok & pool' & o' & s' & Hrun & _ & _ & Htab);
    [apply demo_no_errors|exact schema_tx|apply new_pool_quiet|reflexivity|reflexivity
    |unfold tables_fit, INT32_MAX; simpl; lia|lia|unfold INT32_MAX; lia|].
  assert (ok = true) as -> by (symmetry; exact (f_equal returned Hrun)).
  exists pool', o', s'. split; [exact Hrun|]. rewrite Htab. reflexivity.
Defined.

(** Once the main database is open, [new_dal] leaves a layer that is ready for
    use: its connection is idle with no transaction open; the schema has gained
    nothing but tables of the program, each at most once; the relay counters
    use that connection; and the deleter's timer, every ten minutes, keeps
    everything as it is. *)
Theorem new_dal_ready {DB S} `{SqlStore DB S} host (tables : S -> list string) saved creates
    `{!Schema tables saved creates} fuel d open hloop db o :
  no_errors (DB := DB) (S := S) -> tx_works (DB := DB) saved -> creates table_pcu_relay_cnt ->
  open "../../db/main.db"%string = Some db -> live db = ∅ -> saved (store db) = None ->
  Z.of_nat (length (tables (store db)) + 1) <= INT32_MAX -> (malloc o).1 = true ->
  (2 <= fuel)%nat -> Z.of_nat fuel <= INT32_MAX ->
  exists d' o' s', new_dal host fuel (Some d) open (Some hloop) o = Returns (true, Some d', o') /\
    quiet_at host (pstmts d') DSN_MAIN s' /\ saved s' = None /\
    extends [table_pcu_relay_cnt] (tables (store db)) (tables s') /\
    dao_ps (pcu_relay_cnt_dao (dao d')) = Some DSN_MAIN /\ timer (deleter d') = Some 600000 /\
    forall now o1, on_timer host fuel now (default [] (rps (deleter d'))) (pstmts d') o1 = Returns (pstmts d', o1).
Proof.
  intros Hne Htx Ht Hopen Hl Hsv Hfit Hal Hf Hmax. unfold new_dal. change (Z.to_nat DSN_END) with 1%nat.
  cbn [init_pstmts]. unfold dsn_to_string. change (arr_get dsn_map 0) with (Some "../../db/main.db"%string).
  cbn [ub mbind outcome_bind]. rewrite Hopen.
  pose proof (new_spec host (PS db 0 None None) db 0 o Hl) as Hnew.
  destruct (new_prepared_stmt (Some (PS db 0 None None)) (Some db) 0 o) as [[ok st] o1].
  destruct ok; [|congruence]. destruct Hnew as (st' & -> & Hok & Hm & Hconn & Hdsn).
  cbn [mbind outcome_bind]. set (pool := <[0 := st']> (pstmts d)).
  assert (Hq : quiet_at host pool 0 (store db)).
  { exists st', []. split; [apply lookup_insert_eq|]. split; [|by rewrite Hconn]. split; [by split|].
    intros q Hq. exfalso. rewrite Hconn, Hl in Hq. set_solver. }
  unfold init_sqlite_master_dao_array. change (Z.to_nat DSN_END) with 1%nat. cbn [seq fmap list_fmap Z.of_nat].
  cbn [init_databases create_database get_tables negb orb fst snd fmap option_fmap option_map].
  destruct (create_tables_spec host tables saved creates Hne Htx fuel 0 tables_array
    ltac:(by repeat constructor) Hf Hmax pool (store db) o1 Hq Hsv Hfit)
    as (pool2 & o2 & s2 & Hrun & Hstep & Hsv2 & Hext).
  change (take (Z.to_nat (default 0 (Some 1))) tables_array) with tables_array. change (Z.of_nat 0) with 0.
  change (Z.of_nat (length tables_array) <? default 0 (Some 1)) with false. rewrite Hrun.
  cbn [mbind outcome_bind]. eexists _, o2, s2. split; [done|]. cbn [pstmts dao deleter rps timer].
  split; [apply Hstep|]. split; [done|]. split; [done|]. by split_and!.
Qed.

Definition null_dal : dal_t (DB := demo_db demo_schema) :=
  Dal ∅ [] (Dao (RelayDao (Retention NullPolicy None) None)) (Deleter None None None) None.

Definition open_main (path : string) : option (demo_db demo_schema) := Some (new_conn (DemoSchema [] None)).

Lemma new_dal_ready_witness :
  exists d' o' s', new_dal true 2 (Some null_dal) open_main (Some 1) [] = Returns (true, Some d', o') /\
    quiet_at true (pstmts d') DSN_MAIN s' /\ extends [table_pcu_relay_cnt] [] (d_tables s').
Proof.
  destruct (new_dal_ready true d_tables d_saved program_table 2 null_dal open_main 1
    (new_conn (DemoSchema [] None)) []) as (d' & o' & s' & Hrun & Hq & _ & Hext & _);
    [apply demo_no_errors|exact schema_tx|reflexivity|reflexivity|reflexivity|reflexivity
    |unfold INT32_MAX; simpl; lia|reflexivity|lia|unfold INT32_MAX; lia|].
  exists d', o', s'. split; [exact Hrun|]. split; [exact Hq|exact Hext].
Defined.

(** [delete_dal] finalizes every statement of the layer's connection and closes
    it: the close succeeds, since no statement is left. *)
Theorem delete_dal_closes {DB S} `{SqlStore DB S} host fuel d s :
  quiet_at (S := S) host (pstmts d) DSN_MAIN s ->
  exists d' db, delete_dal host fuel (Some d) = Returns (Some d', [(sqlite3_close db).2]) /\
    live db = ∅ /\ (sqlite3_close db).1 = CLOSE_OK /\ pstmts d' = ∅ /\ rps (deleter d') = None /\
    dao_ps (pcu_relay_cnt_dao (dao d')) = None.
Proof.
  intros (st & es & Hst & [[Hok _] _] & _). unfold delete_dal. change (Z.to_nat DSN_END) with 1%nat.
  cbn [close_pstmts]. unfold DSN_MAIN in Hst. rewrite Hst.
  destruct (delete_spec host st es Hok) as (db & -> & Hl). cbn [ub mbind outcome_bind ps_conn].
  assert (Hc : (sqlite3_close db).1 = CLOSE_OK).
  { destruct (sqlite3_close db).1 eqn:Hc; [done|]. apply close_busy in Hc. done. }
  unfold dao_close. destruct (sqlite3_close db) as [code db'] eqn:Hclose. cbn [fst] in Hc. subst code.
  assert (Hloop : close_loop fuel CLOSE_OK db' = Some db') by (by destruct fuel).
  rewrite Hloop. cbn [ub mbind outcome_bind]. eexists _, db. rewrite Hclose. cbn [fst snd].
  split; [done|]. by split_and!.
Qed.

Lemma delete_dal_closes_witness :
  exists d' db, delete_dal true 5 (Some (Dal {[0 := new_ps (DemoSchema [] None)]} [] (dao null_dal)
      (deleter null_dal) None)) = Returns (Some d', [(sqlite3_close db).2]) /\ (sqlite3_close db).1 = CLOSE_OK.
Proof.
  destruct (delete_dal_closes true 5 (Dal {[0 := new_ps (DemoSchema [] None)]} [] (dao null_dal)
      (deleter null_dal) None) (DemoSchema [] None)) as (d' & db & Hrun & _ & Hc & _).
  { exists (new_ps (DemoSchema [] None)), []. split; [apply lookup_singleton_eq|]. split; [|reflexivity].
    apply new_ps_quiet. }
  exists d', db. split; [exact Hrun|exact Hc].
Defined.
