(* ===== verification/Config.v ===== *)
(** * Configuration tables ([src/config/config_manage.c])

    Two hash tables of JSON values, the defaults and the current values, each
    item with its file, its lock and the callbacks to call when it changes.
    The JSON library is a class of operations on a type [J] of JSON values; an
    item owns its value, so a copy is the value itself.

    The globals, the file system and the outcomes of allocations and writes
    are the state of a monad.  Its results are outcomes: a lock that is
    released without being held, or an item used after its table was cleared,
    is undefined behaviour; a lock that is not free blocks. *)

From Stdlib Require Import Ascii.
From S2P Require Import Prelude Utils Lru Sqlite.

(** ** The JSON library *)

Class Cjson (J : Type) := {
  cJSON_Compare : J -> J -> bool;          (* case sensitive *)
  cJSON_Print : J -> string;
  cJSON_PrintUnformatted : J -> string;
  cJSON_Parse : string -> option J
}.

(** ** Data *)

Definition CONFIG_PATH : string := "/home/zlgmcu/project/learnC++/src/config/config_path/current".
Definition DEFAULT_CONFIG_PATH : string := "/home/zlgmcu/project/learnC++/src/config/config_path/default".

Inductive config_type_e := CFG_DEFAULT | CFG_CURRENT.

#[export] Instance config_type_dec : EqDecision config_type_e.
Proof. solve_decision. Defined.

Definition config_dir (where_e : config_type_e) : string :=
  match where_e with CFG_DEFAULT => DEFAULT_CONFIG_PATH | CFG_CURRENT => CONFIG_PATH end.

(** [value_lock]: the number of readers, or [-1] for a writer.  [owners] is the
    doubly linked list of callbacks from its head on; a callback is its
    address. *)
Record config_manage_t {J : Type} := Item {
  path : string;
  name : string;
  value : option J;
  value_lock : Z;
  owners : list Z;
  owners_lock : bool
}.
Arguments config_manage_t : clear implicits.
Arguments Item {J}.

(** A table is empty when its pointer is null; [Dangling] is a pointer to an
    item that was freed. *)
Inductive table_t (J : Type) :=
  | Table (m : gmap string (config_manage_t J))
  | Dangling.
Arguments Table {J}.
Arguments Dangling {J}.

(** What becomes of a write: the file cannot be opened, or [n] bytes arrive
    and the flush to the disk works or not. *)
Inductive write_result := OpenFails | Written (n : nat) (synced : bool).

Record config_state {J : Type} := Config {
  g_config_manage : table_t J;
  g_default_config_manage : table_t J;
  files : gmap string string;
  allocs : list bool;
  writes : list write_result;   (* past its end, writes succeed *)
  calls : list (Z * J * J)      (* the callbacks called, with old and new value *)
}.
Arguments config_state : clear implicits.
Arguments Config {J}.

Section Config.
Context {J : Type} `{Cjson J}.

#[local] Abbreviation item_t := (config_manage_t J).
#[local] Abbreviation state_t := (config_state J).

(** ** The monad *)

Definition M (A : Type) : Type := state_t -> outcome (A * state_t).

Definition retM {A : Type} (a : A) : M A := fun s => Returns (a, s).

Definition bindM {A B : Type} (m : M A) (f : A -> M B) : M B := fun s =>
  match m s with
  | Undefined => Undefined
  | Blocked => Blocked
  | Returns (a, s') => f a s'
  end.

#[local] Notation "x <~ m ; k" := (bindM m (fun x => k))
  (at level 20, m at level 100, k at level 200, right associativity).
#[local] Notation "m ;~ k" := (bindM m (fun _ => k)) (at level 100, right associativity).

Definition undefined {A} : M A := fun _ => Undefined.

Definition alloc : M bool := fun s =>
  let '(ok, o) := malloc (allocs s) in
  Returns (ok, Config (g_config_manage s) (g_default_config_manage s) (files s) o (writes s) (calls s)).

Definition table_of (t : config_type_e) (s : state_t) : table_t J :=
  match t with CFG_DEFAULT => g_default_config_manage s | CFG_CURRENT => g_config_manage s end.

Definition with_table (t : config_type_e) (tab : table_t J) (s : state_t) : state_t :=
  match t with
  | CFG_DEFAULT => Config (g_config_manage s) tab (files s) (allocs s) (writes s) (calls s)
  | CFG_CURRENT => Config tab (g_default_config_manage s) (files s) (allocs s) (writes s) (calls s)
  end.

Definition get_table (t : config_type_e) : M (gmap string item_t) := fun s =>
  match table_of t s with Table m => Returns (m, s) | Dangling => Undefined end.

Definition put_table (t : config_type_e) (m : gmap string item_t) : M unit := fun s =>
  Returns ((), with_table t (Table m) s).

(** A pointer to an item of a table is its key. *)
Definition get_item (t : config_type_e) (k : string) : M item_t :=
  m <~ get_table t;
  match m !! k with Some it => retM it | None => undefined end.

Definition put_item (t : config_type_e) (k : string) (it : item_t) : M unit :=
  m <~ get_table t;
  put_table t (<[k := it]> m).

Definition set_value (it : item_t) (v : option J) : item_t :=
  Item (path it) (name it) v (value_lock it) (owners it) (owners_lock it).
Definition set_lock (it : item_t) (n : Z) : item_t :=
  Item (path it) (name it) (value it) n (owners it) (owners_lock it).
Definition set_owners (it : item_t) (l : list Z) : item_t :=
  Item (path it) (name it) (value it) (value_lock it) l (owners_lock it).
Definition set_owners_lock (it : item_t) (b : bool) : item_t :=
  Item (path it) (name it) (value it) (value_lock it) (owners it) b.

(** *** Locks *)

Definition rdlock (t : config_type_e) (k : string) : M unit :=
  it <~ get_item t k;
  if value_lock it <? 0 then (fun _ => Blocked) else put_item t k (set_lock it (value_lock it + 1)).

Definition wrlock (t : config_type_e) (k : string) : M unit :=
  it <~ get_item t k;
  if value_lock it =? 0 then put_item t k (set_lock it (-1)) else (fun _ => Blocked).

Definition rwunlock (t : config_type_e) (k : string) : M unit :=
  it <~ get_item t k;
  if value_lock it =? 0 then undefined
  else put_item t k (set_lock it (if value_lock it <? 0 then 0 else value_lock it - 1)).

Definition owners_acquire (t : config_type_e) (k : string) : M unit :=
  it <~ get_item t k;
  if owners_lock it then (fun _ => Blocked) else put_item t k (set_owners_lock it true).

Definition owners_release (t : config_type_e) (k : string) : M unit :=
  it <~ get_item t k;
  if owners_lock it then put_item t k (set_owners_lock it false) else undefined.

(** *** JSON values and files *)

(** A null pointer gives a null pointer; a copy may run out of memory. *)
Definition cJSON_Duplicate (j : option J) : M (option J) :=
  match j with
  | None => retM None
  | Some _ => ok <~ alloc; retM (if ok then j else None)
  end.

Definition compare_values (a b : option J) : bool :=
  match a, b with Some a, Some b => cJSON_Compare a b | _, _ => false end.

Definition fopen_write (p content : string) : M write_result := fun s =>
  let '(w, ws) := match writes s with [] => (Written (String.length content) true, []) | w :: ws => (w, ws) end in
  let fs := match w with OpenFails => files s | Written n _ => <[p := String.substring 0 n content]> (files s) end in
  Returns (w, Config (g_config_manage s) (g_default_config_manage s) fs (allocs s) ws (calls s)).

Definition write_memory_to_file (cjson_config : option J) (p : string) : M bool :=
  match cjson_config with
  | None => retM false
  | Some j =>
    ok <~ alloc;
    if negb ok then retM false else
    w <~ fopen_write p (cJSON_Print j);
    retM (match w with OpenFails => false | Written _ synced => synced end)
  end.

(** [tell]: the length of the file in [int32_t]; the text is read up to its
    first null byte. *)
Definition read_file_to_memory (target_file : string) : M (bool * option J) := fun s =>
  match files s !! target_file with
  | None => Returns ((false, None), s)
  | Some content =>
    if int32 (strlen content) <=? 0 then Returns ((false, None), s) else
    (ok <~ alloc; retM (if ok : bool then (true, cJSON_Parse (c_string content)) else (false, None))) s
  end.

(** ** Items *)

(** The three allocations, then the two locks; a failure frees the item. *)
Definition new_config_item (n : string) (config : option J) (where_e : config_type_e) : M (option item_t) :=
  ok <~ alloc; if negb ok then retM None else
  ok <~ alloc; if negb ok then retM None else
  v <~ cJSON_Duplicate config;
  match v with
  | None => retM None
  | Some _ =>
    ok <~ alloc; if negb ok then retM None else
    ok <~ alloc; if negb ok then retM None else
    ok <~ alloc; if negb ok then retM None else
    retM (Some (Item (config_dir where_e ++ "/" ++ n)%string n v 0 [] false))
  end.

Definition name_add_suffix (n : option string) : M (option string) :=
  match n with
  | None => retM None
  | Some n => ok <~ alloc; retM (if ok : bool then Some (n ++ ".json")%string else None)
  end.

Definition name_add_prefix (config_name : option string) : M (option string) :=
  match config_name with
  | None => retM None
  | Some n => ok <~ alloc; retM (if ok : bool then Some ("default_" ++ n)%string else None)
  end.

Definition find_config_item (t : config_type_e) (config_name : option string) : M (option string) :=
  match config_name with
  | None => retM None
  | Some k => m <~ get_table t; retM (match m !! k with Some _ => Some k | None => None end)
  end.

(** [HASH_FIND_STR] takes the length of the key first. *)
Definition hash_find (t : config_type_e) (key : option string) : M (option string) :=
  match key with
  | None => undefined
  | Some _ => find_config_item t key
  end.

(** [HASH_ADD_STR]: the key is the name of the item. *)
Definition hash_add (t : config_type_e) (it : item_t) : M unit :=
  m <~ get_table t;
  put_table t (<[name it := it]> m).

(** ** Callbacks *)

Definition log_calls (cbs : list Z) (old_value new_value : J) : M unit := fun s =>
  Returns ((), Config (g_config_manage s) (g_default_config_manage s) (files s) (allocs s) (writes s)
                 (calls s ++ ((fun cb => (cb, old_value, new_value)) <$> cbs))%list).

(** The callbacks are called in the order they were attached. *)
Definition notify_owner (config : string) (old_value new_value : option J) : M bool :=
  match old_value, new_value with
  | Some old_value, Some new_value =>
    s <~ find_config_item CFG_CURRENT (Some config);
    match s with
    | None => retM false
    | Some k =>
      owners_acquire CFG_CURRENT k;~
      it <~ get_item CFG_CURRENT k;
      log_calls (owners it) old_value new_value;~
      owners_release CFG_CURRENT k;~
      retM true
    end
  | _, _ => retM false
  end.

Definition config_attach (n : option string) (cb : option Z) : M bool :=
  match n, cb with
  | Some _, Some cb =>
    config_name <~ name_add_suffix n;
    s <~ hash_find CFG_CURRENT config_name;
    match s with
    | None => retM false
    | Some k =>
      ok <~ alloc;
      if negb ok then retM false else
      owners_acquire CFG_CURRENT k;~
      it <~ get_item CFG_CURRENT k;
      put_item CFG_CURRENT k (set_owners it (owners it ++ [cb])%list);~
      owners_release CFG_CURRENT k;~
      retM true
    end
  | _, _ => retM false
  end.

(** The position of the first owner with this callback. *)
Definition find_owner (t : config_type_e) (k : string) (cb : Z) : M (option nat) :=
  owners_acquire t k;~
  it <~ get_item t k;
  owners_release t k;~
  retM (fst <$> list_find (eq cb) (owners it)).

Definition config_detach (n : option string) (cb : option Z) : M bool :=
  match n, cb with
  | Some _, Some cb =>
    config_name <~ name_add_suffix n;
    s <~ hash_find CFG_CURRENT config_name;
    match s with
    | None => retM false
    | Some k =>
      finded_owner <~ find_owner CFG_CURRENT k cb;
      match finded_owner with
      | None => retM false
      | Some i =>
        owners_acquire CFG_CURRENT k;~
        it <~ get_item CFG_CURRENT k;
        put_item CFG_CURRENT k (set_owners it (delete i (owners it)));~
        owners_release CFG_CURRENT k;~
        retM true
      end
    end
  | _, _ => retM false
  end.

(** ** Reading and writing values *)

(** The value as a pointer-free copy, under the read lock. *)
Definition read_value (t : config_type_e) (k : string) : M (option J) :=
  rdlock t k;~
  it <~ get_item t k;
  config <~ cJSON_Duplicate (value it);
  rwunlock t k;~
  retM config.

(** Whether the value compares equal, under the read lock. *)
Definition same_value (t : config_type_e) (k : string) (config : option J) : M bool :=
  rdlock t k;~
  it <~ get_item t k;
  rwunlock t k;~
  retM (compare_values (value it) config).

(** The value is replaced and written to its file, under the write lock. *)
Definition store_value (t : config_type_e) (k : string) (new : M (option J)) : M unit :=
  wrlock t k;~
  v <~ new;
  it <~ get_item t k;
  put_item t k (set_value it v);~
  write_memory_to_file v (path it);~
  rwunlock t k.

Definition set_config (n : option string) (config : option J) : M bool :=
  match n, config with
  | Some _, Some _ =>
    config_name <~ name_add_suffix n;
    default_config_name <~ name_add_prefix config_name;
    s <~ find_config_item CFG_CURRENT config_name;
    default_s <~ find_config_item CFG_DEFAULT default_config_name;
    match s, default_s, config_name with
    | None, Some _, Some config_name =>
      item <~ new_config_item config_name config CFG_CURRENT;
      match item with
      | None => retM false
      | Some it =>
        hash_add CFG_CURRENT it;~
        write_memory_to_file (value it) (path it);~
        retM true
      end
    | Some k, Some _, Some config_name =>
      same <~ same_value CFG_CURRENT k config;
      if same : bool then retM true else
      it <~ get_item CFG_CURRENT k;
      notify_owner config_name (value it) config;~
      store_value CFG_CURRENT k (cJSON_Duplicate config);~
      retM true
    | _, _, _ => retM false
    end
  | _, _ => retM false
  end.

Definition get_config (n : option string) : M (option J) :=
  match n with
  | None => retM None
  | Some _ =>
    config_name <~ name_add_suffix n;
    s <~ find_config_item CFG_CURRENT config_name;
    match s with
    | None => retM None
    | Some k => read_value CFG_CURRENT k
    end
  end.

(** [char config_name[128]] *)
Definition config_name_buffer (text : string) : string := String.substring 0 127 text.

(** The tables own [config] from here on; it is freed when there is no such
    item. *)
Definition replace_object (n : option string) (config : option J) (config_type : config_type_e) : M bool :=
  match n, config with
  | Some n, Some _ =>
    let config_name := config_name_buffer
      (match config_type with CFG_DEFAULT => "default_" ++ n ++ ".json" | CFG_CURRENT => n ++ ".json" end)%string in
    s <~ find_config_item config_type (Some config_name);
    match s with
    | None => retM false
    | Some k => store_value config_type k (retM config);~ retM true
    end
  | _, _ => retM false
  end.

(** [cJSON_PrintUnformatted] of a null pointer is a null pointer. *)
Definition print_unformatted (config : option J) : M (option string) :=
  match config with
  | None => retM None
  | Some j => ok <~ alloc; retM (if ok : bool then Some (cJSON_PrintUnformatted j) else None)
  end.

Definition get_config_str (n : option string) : M (option string) :=
  config <~ get_config n;
  print_unformatted config.

Definition default_name_of (n : option string) : M (option string) :=
  default_name <~ name_add_prefix n;
  name_add_suffix default_name.

Definition set_default_config (n : option string) (config : option J) : M bool :=
  match n, config with
  | Some _, Some _ =>
    default_config_name <~ default_name_of n;
    s <~ find_config_item CFG_DEFAULT default_config_name;
    match s with
    | None =>
      match default_config_name with
      | None => ok <~ alloc; if ok : bool then undefined else retM false    (* strdup of a null pointer *)
      | Some dn =>
        item <~ new_config_item dn config CFG_DEFAULT;
        match item with
        | None => retM false
        | Some it =>
          hash_add CFG_DEFAULT it;~
          write_memory_to_file (value it) (path it);~
          set_config n config;~
          retM true
        end
      end
    | Some k =>
      same <~ same_value CFG_DEFAULT k config;
      if same : bool then
        cur_name <~ name_add_suffix n;
        cur_s <~ find_config_item CFG_CURRENT cur_name;
        (match cur_s with None => set_config n config | Some _ => retM true end);~
        rwunlock CFG_DEFAULT k;~
        retM true
      else
        store_value CFG_DEFAULT k (cJSON_Duplicate config);~
        set_config n config;~
        retM true
    end
  | _, _ => retM false
  end.

Definition get_default_config (n : option string) : M (option J) :=
  match n with
  | None => retM None
  | Some _ =>
    config_name <~ default_name_of n;
    s <~ find_config_item CFG_DEFAULT config_name;
    match s with
    | None => retM None
    | Some k => read_value CFG_DEFAULT k
    end
  end.

Definition get_default_config_str (n : option string) : M (option string) :=
  config <~ get_default_config n;
  print_unformatted config.

(** ** Loading and clearing *)

(** [path_flag]: the item belongs to the defaults. *)
Definition add_config_item (t : config_type_e) (config_name : string) (cjson_config : option J)
    (path_flag : bool) : M bool :=
  match cjson_config with
  | None => retM false
  | Some _ =>
    s <~ find_config_item t (Some config_name);
    match s with
    | None =>
      item <~ new_config_item config_name cjson_config (if path_flag then CFG_DEFAULT else CFG_CURRENT);
      match item with
      | None => retM false
      | Some it => hash_add t it;~ retM true
      end
    | Some k =>
      wrlock t k;~
      v <~ cJSON_Duplicate cjson_config;
      it <~ get_item t k;
      put_item t k (set_value it v);~
      rwunlock t k;~
      retM true
    end
  end.

(** [strstr]: whether [sub] occurs in [s]. *)
Fixpoint occurs (sub s : string) : bool :=
  String.prefix sub s || match s with EmptyString => false | String _ rest => occurs sub rest end.

(** One turn of the loop over the directory: an entry with the answer of
    [stat], [Some true] for a regular file.  [None] when the path could not be
    allocated: the loading is given up. *)
Definition load_entry (t : config_type_e) (dir : string) (entry : string * option bool) : M (option unit) :=
  let '(d_name, stat) := entry in
  if String.prefix "." d_name then retM (Some ()) else
  ok <~ alloc;
  if negb ok then retM None else
  let dest_path := (dir ++ "/" ++ d_name)%string in
  let flag := occurs "default" dest_path in
  match stat with
  | Some true =>
    r <~ read_file_to_memory dest_path;
    if fst r : bool then add_config_item t d_name (snd r) flag;~ retM (Some ()) else retM (Some ())
  | _ => retM (Some ())
  end.

Fixpoint load_entries (t : config_type_e) (dir : string) (entries : list (string * option bool)) : M Z :=
  match entries with
  | [] => retM 0
  | e :: entries' =>
    r <~ load_entry t dir e;
    match r with None => retM (-1) | Some _ => load_entries t dir entries' end
  end.

(** [readdir]: the entries of a directory, [None] when it cannot be opened. *)
Definition config_hash_init (readdir : string -> option (list (string * option bool))) (dir : string)
    (t : config_type_e) : M Z :=
  match readdir dir with
  | None => retM (-1)
  | Some entries => load_entries t dir entries
  end.

(** The directories were made before, by [make_dir_recursive]. *)
Definition config_manage_init (readdir : string -> option (list (string * option bool))) : M bool :=
  err <~ config_hash_init readdir DEFAULT_CONFIG_PATH CFG_DEFAULT;
  if negb (err =? 0) then retM false else
  err <~ config_hash_init readdir CONFIG_PATH CFG_CURRENT;
  retM (err =? 0).

(** The items are freed; the loop resets the pointer it was given, not the
    global. *)
Definition clear_hash_table (t : config_type_e) : M unit := fun s =>
  match table_of t s with
  | Dangling => Undefined
  | Table m => Returns ((), if decide (m = ∅) then s else with_table t Dangling s)
  end.

Definition config_manage_clear : M unit :=
  clear_hash_table CFG_CURRENT;~
  clear_hash_table CFG_DEFAULT.

(** ** Reasoning about runs *)

(** [m] returns from [s], with a result and a state that satisfy [Q]. *)
Definition wp {A : Type} (m : M A) (s : state_t) (Q : A -> state_t -> Prop) : Prop :=
  exists a s', m s = Returns (a, s') /\ Q a s'.

Lemma wp_ret {A : Type} (a : A) s (Q : A -> state_t -> Prop) : Q a s -> wp (retM a) s Q.
Proof. by exists a, s. Qed.

Lemma wp_bind {A B : Type} (m : M A) (f : A -> M B) s (P : A -> state_t -> Prop) Q :
  wp m s P -> (forall a s', P a s' -> wp (f a) s' Q) -> wp (bindM m f) s Q.
Proof.
  intros (a & s' & Hm & HP) Hf. destruct (Hf a s' HP) as (b & s2 & Hb & HQ).
  exists b, s2. split; [|done]. unfold bindM. by rewrite Hm.
Qed.

Lemma wp_mono {A : Type} (m : M A) s (P Q : A -> state_t -> Prop) :
  wp m s P -> (forall a s', P a s' -> Q a s') -> wp m s Q.
Proof. intros (a & s' & Hm & HP) HPQ. exists a, s'. auto. Qed.

(** No allocation and no write fails from here on. *)
Definition fine (s : state_t) : Prop := allocs s = [] /\ writes s = [].

(** Only the outcomes to come were used up. *)
Record io_same (s s' : state_t) : Prop := {
  ios_table t : table_of t s' = table_of t s;
  ios_files : files s' = files s;
  ios_calls : calls s' = calls s;
  ios_fine : fine s -> fine s'
}.

#[global] Instance io_same_preorder : PreOrder io_same.
Proof.
  split; [by split|]. intros a b c [] []. split; [intros t|..]; try congruence; auto.
Qed.

Lemma alloc_wp s : wp alloc s (fun ok s' => io_same s s' /\ (fine s -> ok = true)).
Proof.
  unfold wp, alloc. destruct (malloc (allocs s)) as [ok o] eqn:Ho. eexists ok, _. split; [done|].
  split; [split; [by intros []|done|done|]|]; unfold fine; cbn [allocs writes]; intros [Ha Hw]; rewrite Ha in Ho;
    injection Ho as <- <-; done.
Qed.

Lemma suffix_wp n s : wp (name_add_suffix (Some n)) s
  (fun r s' => io_same s s' /\ (r = None \/ r = Some (n ++ ".json")%string) /\ (fine s -> r <> None)).
Proof.
  eapply wp_bind; [apply alloc_wp|]. intros ok s1 [Hs Hok]. apply wp_ret. split; [done|].
  destruct ok; [split; [by right|done]|]. split; [by left|]. intros Hf. by specialize (Hok Hf).
Qed.

Lemma prefix_wp n s : wp (name_add_prefix (Some n)) s
  (fun r s' => io_same s s' /\ (r = None \/ r = Some ("default_" ++ n)%string) /\ (fine s -> r <> None)).
Proof.
  eapply wp_bind; [apply alloc_wp|]. intros ok s1 [Hs Hok]. apply wp_ret. split; [done|].
  destruct ok; [split; [by right|done]|]. split; [by left|]. intros Hf. by specialize (Hok Hf).
Qed.

Lemma get_table_wp t s m : table_of t s = Table m -> wp (get_table t) s (fun r s' => r = m /\ s' = s).
Proof. intros Ht. exists m, s. split; [|done]. unfold get_table. by rewrite Ht. Qed.

Lemma find_wp t s m k : table_of t s = Table m ->
  wp (find_config_item t (Some k)) s (fun r s' => s' = s /\ r = match m !! k with Some _ => Some k | None => None end).
Proof.
  intros Ht. eapply wp_bind; [by apply get_table_wp|]. intros ? ? [-> ->]. apply wp_ret. by destruct (m !! k).
Qed.

(** Access to an item that is there. *)
Definition item_in (t : config_type_e) (k : string) (s : state_t) (m : gmap string item_t) (it : item_t) : Prop :=
  table_of t s = Table m /\ m !! k = Some it.

Lemma get_item_wp t k s m it : item_in t k s m it -> wp (get_item t k) s (fun r s' => r = it /\ s' = s).
Proof.
  intros [Ht Hk]. eapply wp_bind; [by apply get_table_wp|]. intros ? ? [-> ->]. rewrite Hk. by apply wp_ret.
Qed.

Lemma with_table_same t m s : table_of t s = Table m -> with_table t (Table m) s = s.
Proof. intros Ht. destruct s, t; simpl in *; congruence. Qed.

Lemma with_table_twice t a b s : with_table t a (with_table t b s) = with_table t a s.
Proof. by destruct t. Qed.

Lemma table_with t a s : table_of t (with_table t a s) = a.
Proof. by destruct t. Qed.

Lemma put_item_wp t k s m it : table_of t s = Table m ->
  wp (put_item t k it) s (fun _ s' => s' = with_table t (Table (<[k := it]> m)) s).
Proof.
  intros Ht. eapply wp_bind; [by apply get_table_wp|]. intros ? ? [-> ->]. eexists _, _. split; [done|done].
Qed.

(** A step that changes one item. *)
Definition with_item (t : config_type_e) (k : string) (it : item_t) (m : gmap string item_t) (s : state_t) : state_t :=
  with_table t (Table (<[k := it]> m)) s.

Lemma put_item_with t k s m it : table_of t s = Table m ->
  wp (put_item t k it) s (fun _ s' => s' = with_item t k it m s).
Proof. apply put_item_wp. Qed.

Lemma with_item_in t k it m s : item_in t k (with_item t k it m s) (<[k := it]> m) it.
Proof. split; [apply table_with|apply lookup_insert_eq]. Qed.

Lemma with_item_same t k it m s : item_in t k s m it -> with_item t k it m s = s.
Proof. intros [Ht Hk]. unfold with_item. rewrite insert_id by done. by apply with_table_same. Qed.

Lemma with_item_twice t k a b m s : with_item t k a (<[k := b]> m) (with_item t k b m s) = with_item t k a m s.
Proof. unfold with_item. by rewrite insert_insert_eq, with_table_twice. Qed.

Lemma change_item_wp t k (f : item_t -> M unit) s m it it' :
  item_in t k s m it -> f it = put_item t k it' ->
  wp (it <~ get_item t k; f it) s (fun _ s' => s' = with_item t k it' m s).
Proof.
  intros Hin Hf. eapply wp_bind; [by apply (get_item_wp t k s m it)|]. intros ? ? [-> ->]. rewrite Hf.
  apply put_item_wp, Hin.
Qed.

(** *** Locks *)

Lemma set_lock_back it n : value_lock it = 0 -> set_lock (set_lock it n) 0 = it.
Proof. destruct it; simpl. by intros ->. Qed.

Lemma rdlock_wp t k s m it : item_in t k s m it -> value_lock it = 0 ->
  wp (rdlock t k) s (fun _ s' => s' = with_item t k (set_lock it 1) m s).
Proof. intros Hin Hl. apply (change_item_wp t k _ s m it); [done|]. by rewrite Hl. Qed.

Lemma wrlock_wp t k s m it : item_in t k s m it -> value_lock it = 0 ->
  wp (wrlock t k) s (fun _ s' => s' = with_item t k (set_lock it (-1)) m s).
Proof. intros Hin Hl. apply (change_item_wp t k _ s m it); [done|]. by rewrite Hl. Qed.

Lemma rwunlock_wp t k s m it : item_in t k s m it -> value_lock it = 1 \/ value_lock it = -1 ->
  wp (rwunlock t k) s (fun _ s' => s' = with_item t k (set_lock it 0) m s).
Proof. intros Hin Hl. apply (change_item_wp t k _ s m it); [done|]. by destruct Hl as [-> | ->]. Qed.

Lemma owners_acquire_wp t k s m it : item_in t k s m it -> owners_lock it = false ->
  wp (owners_acquire t k) s (fun _ s' => s' = with_item t k (set_owners_lock it true) m s).
Proof. intros Hin Hl. apply (change_item_wp t k _ s m it); [done|]. by rewrite Hl. Qed.

Lemma owners_release_wp t k s m it : item_in t k s m it -> owners_lock it = true ->
  wp (owners_release t k) s (fun _ s' => s' = with_item t k (set_owners_lock it false) m s).
Proof. intros Hin Hl. apply (change_item_wp t k _ s m it); [done|]. by rewrite Hl. Qed.

(** *** Values *)

Lemma duplicate_wp v s : wp (cJSON_Duplicate v) s
  (fun r s' => io_same s s' /\ (r = None \/ r = v) /\ (fine s -> r = v)).
Proof.
  destruct v as [j|]; [|apply wp_ret; split; [done|]; split; [by left|done]].
  eapply wp_bind; [apply alloc_wp|]. intros ok s1 [Hs Hok].
  apply wp_ret. split; [done|]. destruct ok; [split; [by right|done]|].
  split; [by left|]. intros Hf. by specialize (Hok Hf).
Qed.

Lemma io_same_item t k s s' m it : io_same s s' -> item_in t k s m it -> item_in t k s' m it.
Proof. intros Hs [Ht Hk]. split; [|done]. by rewrite (ios_table _ _ Hs). Qed.

Lemma io_with_table t tab a b : io_same a b -> io_same (with_table t tab a) (with_table t tab b).
Proof.
  intros Hs. pose proof (ios_table _ _ Hs CFG_CURRENT) as Hc. pose proof (ios_table _ _ Hs CFG_DEFAULT) as Hd.
  split; [intros t'; destruct t, t'; done|destruct t; apply Hs..].
Qed.

(** Work that leaves the tables alone, between two changes of an item. *)
Lemma io_between t k x y m s s1 : io_same (with_item t k x m s) s1 ->
  io_same (with_item t k y m s) (with_item t k y (<[k := x]> m) s1).
Proof. intros Hs. rewrite <- (with_item_twice t k y x m s). by apply io_with_table. Qed.

Lemma read_value_wp t k s m it : item_in t k s m it -> value_lock it = 0 ->
  wp (read_value t k) s (fun r s' => io_same s s' /\ (r = None \/ r = value it) /\ (fine s -> r = value it)).
Proof.
  intros Hin Hl. unfold read_value. eapply wp_bind; [by apply (rdlock_wp t k s m it)|]. intros _ ? ->.
  pose proof (with_item_in t k (set_lock it 1) m s) as Hin1.
  eapply wp_bind; [by apply (get_item_wp t k _ _ _ Hin1)|]. intros ? ? [-> ->].
  eapply wp_bind; [apply duplicate_wp|]. cbn [value set_lock]. intros r s2 (Hs & Hr & Hf).
  eapply wp_bind; [apply (rwunlock_wp t k s2 _ _ (io_same_item t k _ _ _ _ Hs Hin1)); by left|].
  intros _ ? ->. apply wp_ret. rewrite set_lock_back by done. split.
  - rewrite <- (with_item_same t k it m s Hin) at 1. by apply io_between.
  - split; [done|]. intros Hfine. apply Hf. by destruct t.
Qed.

Lemma same_value_wp t k s m it c : item_in t k s m it -> value_lock it = 0 ->
  wp (same_value t k c) s (fun r s' => r = compare_values (value it) c /\ s' = s).
Proof.
  intros Hin Hl. unfold same_value. eapply wp_bind; [by apply (rdlock_wp t k s m it)|]. intros _ ? ->.
  pose proof (with_item_in t k (set_lock it 1) m s) as Hin1.
  eapply wp_bind; [by apply (get_item_wp t k _ _ _ Hin1)|]. intros ? ? [-> ->].
  eapply wp_bind; [apply (rwunlock_wp t k _ _ _ Hin1); by left|]. intros _ ? ->. apply wp_ret.
  split; [done|]. rewrite with_item_twice, set_lock_back by done. by apply with_item_same.
Qed.

(** What a write of [v] to the file [p] may do: nothing, or a prefix of the
    text arrives; all of it when nothing fails. *)
Record io_write (p : string) (v : option J) (s s' : state_t) : Prop := {
  iow_table t : table_of t s' = table_of t s;
  iow_files : files s' = files s \/ exists j n, v = Some j /\
    files s' = <[p := String.substring 0 n (cJSON_Print j)]> (files s);
  iow_calls : calls s' = calls s;
  iow_fine : fine s -> fine s' /\ forall j, v = Some j -> files s' = <[p := cJSON_Print j]> (files s)
}.

Lemma substring_all s : String.substring 0 (String.length s) s = s.
Proof. induction s as [|c s IH]; [done|]. cbn. by rewrite IH. Qed.

Lemma write_wp v p s : wp (write_memory_to_file v p) s (fun _ s' => io_write p v s s').
Proof.
  destruct v as [j|]; [|apply wp_ret; split; [done|by left|done|done]].
  eapply wp_bind; [apply alloc_wp|]. intros ok s1 [Hs Hok]. destruct ok; cbn [negb].
  2:{ apply wp_ret. split; [apply Hs|left; apply Hs|apply Hs|]. intros Hf. by specialize (Hok Hf). }
  eapply (wp_bind _ _ _ (fun w s' => io_write p (Some j) s1 s')).
  - unfold wp, fopen_write. destruct (writes s1) as [|w ws] eqn:Hw; eexists _, _; (split; [done|]).
    + split; [by intros []|right; by exists j, (String.length (cJSON_Print j))|done|].
      intros Hf. split; [split; [apply Hf|done]|]. intros ? [= <-]. cbn [files]. by rewrite substring_all.
    + split; [by intros []| |done|].
      * destruct w as [|n synced]; [by left|right; by exists j, n].
      * intros [_ Hf]. by rewrite Hf in Hw.
  - intros w s2 [Ht Hfi Hc Hf]. apply wp_ret. destruct Hs as [Ht' Hfi' Hc' Hf']. split.
    + intros t. by rewrite Ht, Ht'.
    + by rewrite <- Hfi'.
    + congruence.
    + intros Hfine. rewrite <- Hfi'. by apply Hf, Hf'.
Qed.

(** Storing a value: the item has the new value and its file may have changed. *)
Record stored (t : config_type_e) (k p : string) (it : item_t) (v : option J) (m : gmap string item_t)
    (s s' : state_t) : Prop := {
  st_table t' : table_of t' s' = table_of t' (with_item t k (set_value it v) m s);
  st_files : files s' = files s \/ exists j n, v = Some j /\
    files s' = <[p := String.substring 0 n (cJSON_Print j)]> (files s);
  st_calls : calls s' = calls s;
  st_fine : fine s -> fine s' /\ forall j, v = Some j -> files s' = <[p := cJSON_Print j]> (files s)
}.

Lemma files_with t tab s : files (with_table t tab s) = files s.
Proof. by destruct t. Qed.
Lemma calls_with t tab s : calls (with_table t tab s) = calls s.
Proof. by destruct t. Qed.
Lemma fine_with t tab s : fine (with_table t tab s) <-> fine s.
Proof. by destruct t. Qed.
Lemma table_other t t' tab s : t' <> t -> table_of t' (with_table t tab s) = table_of t' s.
Proof. by destruct t, t'. Qed.

#[local] Ltac cfg_simpl := unfold with_item in *; rewrite ?files_with, ?calls_with, ?table_with in *.

Lemma store_value_wp t k (new : M (option J)) s m it (P : option J -> Prop) (v0 : option J) :
  item_in t k s m it -> value_lock it = 0 ->
  (forall s, wp new s (fun r s' => io_same s s' /\ P r /\ (fine s -> r = v0))) ->
  wp (store_value t k new) s (fun _ s' => exists v, P v /\ (fine s -> v = v0) /\ stored t k (path it) it v m s s').
Proof.
  intros Hin Hl Hnew. unfold store_value. eapply wp_bind; [by apply (wrlock_wp t k s m it)|]. intros _ ? ->.
  pose proof (with_item_in t k (set_lock it (-1)) m s) as Hin1.
  eapply wp_bind; [apply Hnew|]. intros v s2 (Hs & HP & Hv).
  pose proof (io_same_item t k _ _ _ _ Hs Hin1) as Hin2.
  eapply wp_bind; [by apply (get_item_wp t k _ _ _ Hin2)|]. intros ? ? [-> ->].
  eapply wp_bind; [apply put_item_wp, Hin2|]. intros _ ? ->.
  eapply wp_bind; [apply write_wp|]. intros b s3 Hw.
  set (it1 := set_value (set_lock it (-1)) v) in *. set (m1 := <[k := set_lock it (-1)]> m) in *.
  assert (Hin3 : item_in t k s3 (<[k := it1]> m1) it1).
  { split; [|apply lookup_insert_eq]. rewrite (iow_table _ _ _ _ Hw). apply table_with. }
  eapply wp_mono; [apply (rwunlock_wp t k _ _ _ Hin3); by right|]. intros _ ? ->.
  assert (Hback : set_lock it1 0 = set_value it v) by (destruct it; simpl in *; by rewrite Hl).
  rewrite Hback. exists v. split; [done|]. split; [intros Hf; apply Hv; by apply fine_with|].
  cbn [path set_lock it1 set_value] in Hw. destruct Hw as [Hwt Hwf Hwc Hwff]. destruct Hs as [Hst Hsf Hsc Hsff].
  cfg_simpl. split; cfg_simpl.
  - intros t'. unfold m1. rewrite !insert_insert_eq.
    destruct (decide (t' = t)) as [->|Hne]; [by rewrite !table_with|].
    by rewrite !(table_other t t'), Hwt, (table_other t t'), Hst, (table_other t t') by done.
  - by rewrite <- Hsf.
  - congruence.
  - intros Hf. destruct Hwff as [Hf3 Hw3]; [by apply fine_with, Hsff, fine_with|].
    split; [by apply fine_with|]. intros j Hj. rewrite <- Hsf. by apply Hw3.
Qed.

(** *** Items and callbacks *)

Definition fresh_item (t : config_type_e) (k : string) (j : J) : item_t :=
  Item (config_dir t ++ "/" ++ k)%string k (Some j) 0 [] false.

Lemma alloc_then_wp {A : Type} (f : M (option A)) s s0 (Q : option A -> state_t -> Prop) :
  io_same s0 s -> (forall s1, io_same s0 s1 -> (fine s -> fine s1) -> wp f s1 Q) ->
  (forall s1, io_same s0 s1 -> (fine s -> False) -> Q None s1) ->
  wp (ok <~ alloc; if negb ok then retM None else f) s Q.
Proof.
  intros Hs Hf Hn. eapply wp_bind; [apply alloc_wp|]. intros ok s1 [Hs1 Hok].
  assert (Hs2 : io_same s0 s1) by (by etrans). destruct ok; cbn [negb].
  - apply Hf; [done|apply Hs1].
  - apply wp_ret, Hn; [done|]. intros Hfine. by specialize (Hok Hfine).
Qed.

Lemma new_config_item_wp k j t s : wp (new_config_item k (Some j) t) s
  (fun r s' => io_same s s' /\ (r = None \/ r = Some (fresh_item t k j)) /\ (fine s -> r <> None)).
Proof.
  unfold new_config_item.
  do 2 (apply (alloc_then_wp _ _ s); [first [reflexivity|eassumption]| |intros; split_and!; [done|by left|tauto]]; intros).
  eapply wp_bind; [apply duplicate_wp|]. intros v s2 (Hs2 & Hv & Hf).
  assert (Hs : io_same s s2) by (by etrans).
  destruct v as [j'|]; [|apply wp_ret; split_and!; [done|by left|]; intros Hfine; by specialize (Hf ltac:(tauto))].
  destruct Hv as [?|[= ->]]; [done|].
  do 3 (eapply (alloc_then_wp _ _ s); [eassumption| |intros; split_and!; [done|by left|];
    intros ?; exfalso; pose proof (ios_fine _ _ Hs); tauto]; intros).
  apply wp_ret. split_and!; [done|by right|done].
Qed.

Lemma hash_add_wp t it s m : table_of t s = Table m ->
  wp (hash_add t it) s (fun _ s' => s' = with_item t (name it) it m s).
Proof.
  intros Ht. eapply wp_bind; [by apply get_table_wp|]. intros ? ? [-> ->]. eexists _, _. split; [done|done].
Qed.

Definition with_calls (l : list (Z * J * J)) (s : state_t) : state_t :=
  Config (g_config_manage s) (g_default_config_manage s) (files s) (allocs s) (writes s) l.

(** The calls a change makes. *)
Definition notified (it : item_t) (j : J) : list (Z * J * J) :=
  match value it with Some old => (fun cb => (cb, old, j)) <$> owners it | None => [] end.

Lemma set_owners_lock_back it : owners_lock it = false -> set_owners_lock (set_owners_lock it true) false = it.
Proof. destruct it; simpl. by intros ->. Qed.

Lemma notify_wp k s m it j : item_in CFG_CURRENT k s m it -> owners_lock it = false ->
  wp (notify_owner k (value it) (Some j)) s (fun _ s' => s' = with_calls (calls s ++ notified it j) s).
Proof.
  intros Hin Hl. unfold notify_owner, notified. destruct (value it) as [old|] eqn:Hv.
  2:{ apply wp_ret. rewrite app_nil_r. by destruct s. }
  pose proof Hin as [Ht Hk].
  eapply wp_bind; [by apply (find_wp CFG_CURRENT s m k)|]. intros ? ? [-> ->]. rewrite Hk.
  eapply wp_bind; [by apply (owners_acquire_wp CFG_CURRENT k s m it)|]. intros _ ? ->.
  pose proof (with_item_in CFG_CURRENT k (set_owners_lock it true) m s) as Hin1.
  eapply wp_bind; [by apply (get_item_wp CFG_CURRENT k _ _ _ Hin1)|]. intros ? ? [-> ->].
  eapply (wp_bind _ _ _ (fun _ s' => s' = with_calls (calls s ++ ((fun cb => (cb, old, j)) <$> owners it))
                                      (with_item CFG_CURRENT k (set_owners_lock it true) m s)));
    [by eexists _, _|]. intros _ ? ->.
  eapply wp_bind; [apply (owners_release_wp CFG_CURRENT k _ (<[k := set_owners_lock it true]> m)
    (set_owners_lock it true)); [by split; [|apply lookup_insert_eq]|done]|]. intros _ ? ->.
  apply wp_ret. rewrite set_owners_lock_back by done. unfold with_item. rewrite insert_insert_eq, insert_id by done.
  unfold with_calls, with_table. cbn. simpl in Ht. by rewrite <- Ht.
Qed.

(** ** The invariant *)

(** Outside the operations every item has its own name and file and no lock is
    held. *)
Definition item_ok (t : config_type_e) (k : string) (it : item_t) : Prop :=
  name it = k /\ path it = (config_dir t ++ "/" ++ k)%string /\ value_lock it = 0 /\ owners_lock it = false.

Definition items_ok (t : config_type_e) (m : gmap string item_t) : Prop := map_Forall (item_ok t) m.

Definition cfg_ok (s : state_t) (cur def : gmap string item_t) : Prop :=
  g_config_manage s = Table cur /\ g_default_config_manage s = Table def /\
  items_ok CFG_CURRENT cur /\ items_ok CFG_DEFAULT def.

Lemma cfg_io_same s s' cur def : io_same s s' -> cfg_ok s cur def -> cfg_ok s' cur def.
Proof.
  intros Hs (Hc & Hd & ? & ?). pose proof (ios_table _ _ Hs CFG_CURRENT) as E1.
  pose proof (ios_table _ _ Hs CFG_DEFAULT) as E2. simpl in *. split_and!; congruence || done.
Qed.

Lemma items_insert t m k it : items_ok t m -> item_ok t k it -> items_ok t (<[k := it]> m).
Proof. intros Hm Hit. by apply map_Forall_insert_2. Qed.

Lemma set_value_ok t k it v : item_ok t k it -> item_ok t k (set_value it v).
Proof. done. Qed.

Definition suffixed (n : string) : string := (n ++ ".json")%string.
Definition default_key (n : string) : string := ("default_" ++ suffixed n)%string.

(** What [set_config] does: it fails and changes no table, file or caller, or
    there is a default for the name, and the item is there with the value, or
    compared equal before. *)
Definition file_written (p : string) (v : option J) (s s' : state_t) : Prop :=
  files s' = files s \/ exists j n, v = Some j /\ files s' = <[p := String.substring 0 n (cJSON_Print j)]> (files s).

Definition config_path (n : string) : string := (CONFIG_PATH ++ "/" ++ suffixed n)%string.

Definition set_effect (n : string) (j : J) (cur def : gmap string item_t) (s : state_t) (b : bool) (s' : state_t) : Prop :=
  exists cur', cfg_ok s' cur' def /\ (fine s -> fine s') /\
  if b then
    is_Some (def !! default_key n) /\
    match cur !! suffixed n with
    | None => cur' = <[suffixed n := fresh_item CFG_CURRENT (suffixed n) j]> cur /\ calls s' = calls s /\
              file_written (config_path n) (Some j) s s' /\
              (fine s -> files s' = <[config_path n := cJSON_Print j]> (files s))
    | Some it =>
      if compare_values (value it) (Some j)
      then cur' = cur /\ calls s' = calls s /\ files s' = files s
      else exists v, (v = None \/ v = Some j) /\ cur' = <[suffixed n := set_value it v]> cur /\
        calls s' = calls s ++ notified it j /\ file_written (config_path n) v s s' /\
        (fine s -> v = Some j /\ files s' = <[config_path n := cJSON_Print j]> (files s))
    end
  else cur' = cur /\ calls s' = calls s /\ files s' = files s /\
       (fine s -> def !! default_key n = None).

Lemma stored_cfg k it v s s' cur def : item_in CFG_CURRENT k s cur it -> cfg_ok s cur def ->
  stored CFG_CURRENT k (path it) it v cur s s' -> cfg_ok s' (<[k := set_value it v]> cur) def.
Proof.
  intros [_ Hk] (_ & Hd & Hco & Hdo) Hst. pose proof (st_table _ _ _ _ _ _ _ _ Hst) as Ht.
  pose proof (Ht CFG_CURRENT) as E1. pose proof (Ht CFG_DEFAULT) as E2. simpl in E1, E2.
  split; [done|]. split; [congruence|]. split; [|done]. apply items_insert; [done|].
  by apply set_value_ok, (Hco k it Hk).
Qed.

(** The branch of an item that is there: compared, callers told, stored. *)
Lemma set_present_wp n j s s2 cur def it : io_same s s2 -> cfg_ok s2 cur def ->
  is_Some (def !! default_key n) -> cur !! suffixed n = Some it ->
  wp (same <~ same_value CFG_CURRENT (suffixed n) (Some j);
      if same : bool then retM true else
      it <~ get_item CFG_CURRENT (suffixed n);
      notify_owner (suffixed n) (value it) (Some j);~
      store_value CFG_CURRENT (suffixed n) (cJSON_Duplicate (Some j));~
      retM true) s2 (set_effect n j cur def s).
Proof.
  intros Hs2 Hok2 Hdef Hcur. pose proof Hok2 as (Hc & Hd & Hco & Hdo).
  assert (Hin : item_in CFG_CURRENT (suffixed n) s2 cur it) by done.
  pose proof (Hco _ _ Hcur) as (Hname & Hpath & Hlock & Howner).
  eapply wp_bind; [by apply (same_value_wp CFG_CURRENT _ s2 cur it)|]. intros same ? [-> ->].
  destruct (compare_values (value it) (Some j)) eqn:Hcmp.
  { apply wp_ret. exists cur. split; [done|]. split; [apply Hs2|]. split; [done|]. rewrite Hcur, Hcmp.
    split; [done|]. split; apply Hs2. }
  eapply wp_bind; [by apply (get_item_wp CFG_CURRENT _ s2 cur it)|]. intros ? ? [-> ->].
  eapply wp_bind; [by apply (notify_wp _ s2 cur it)|]. intros _ ? ->.
  set (s3 := with_calls (calls s2 ++ notified it j) s2).
  eapply wp_bind; [apply (store_value_wp CFG_CURRENT (suffixed n) _ s3 cur it (fun v => v = None \/ v = Some j) (Some j));
    [done|done|apply duplicate_wp]|].
  intros _ s4 (v & Hv & Hvf & Hst). apply wp_ret. exists (<[suffixed n := set_value it v]> cur).
  split; [apply (stored_cfg _ it v s3); done|].
  split; [intros Hf; apply (st_fine _ _ _ _ _ _ _ _ Hst); by apply (ios_fine _ _ Hs2)|].
  split; [done|]. rewrite Hcur, Hcmp.
  exists v. split; [done|]. split; [done|]. rewrite Hpath in Hst. destruct Hst as [_ Hfi Hca Hfw].
  split; [rewrite Hca; cbn; by rewrite (ios_calls _ _ Hs2)|].
  cbn in Hfi, Hfw. rewrite (ios_files _ _ Hs2) in Hfi, Hfw. split; [done|].
  intros Hf. assert (Hf3 : fine s3) by (by apply (ios_fine _ _ Hs2)). specialize (Hvf Hf3). split; [done|].
  by apply Hfw.
Qed.

(** The branch of an item that is not there: made, added and written. *)
Lemma set_absent_wp n j s s2 cur def : io_same s s2 -> cfg_ok s2 cur def ->
  is_Some (def !! default_key n) -> cur !! suffixed n = None ->
  wp (item <~ new_config_item (suffixed n) (Some j) CFG_CURRENT;
      match item with
      | None => retM false
      | Some it =>
        hash_add CFG_CURRENT it;~
        write_memory_to_file (value it) (path it);~
        retM true
      end) s2 (set_effect n j cur def s).
Proof.
  intros Hs2 Hok2 Hdef Hcur. pose proof Hok2 as (_ & _ & Hco & Hdo).
  eapply wp_bind; [apply new_config_item_wp|]. intros item s3 (Hs3 & Hitem & Hfi).
  assert (Hs3' : io_same s s3) by (by etrans). pose proof (cfg_io_same _ _ _ _ Hs3 Hok2) as (Hc3 & Hd3 & _ & _).
  destruct Hitem as [-> | ->].
  { apply wp_ret. exists cur. split; [done|]. split; [apply Hs3'|]. split; [done|].
    split; [apply Hs3'|]. split; [apply Hs3'|]. intros Hf. by specialize (Hfi (ios_fine _ _ Hs2 Hf)). }
  eapply wp_bind; [by apply (hash_add_wp CFG_CURRENT _ s3 cur)|]. intros _ ? ->.
  eapply wp_bind; [apply write_wp|]. intros b s4 Hw. apply wp_ret.
  exists (<[suffixed n := fresh_item CFG_CURRENT (suffixed n) j]> cur).
  pose proof (iow_table _ _ _ _ Hw CFG_CURRENT) as E1. pose proof (iow_table _ _ _ _ Hw CFG_DEFAULT) as E2.
  cbn in E1, E2. split.
  { split; [done|]. split; [congruence|]. split; [|done]. by apply items_insert. }
  split; [intros Hf; apply (iow_fine _ _ _ _ Hw); by apply Hs3'|].
  split; [done|]. rewrite Hcur. split; [done|]. destruct Hw as [_ Hwf Hwc Hwff]. cbn in *.
  rewrite (ios_files _ _ Hs3') in Hwf, Hwff. split; [rewrite Hwc; apply Hs3'|]. split; [done|].
  intros Hf. apply Hwff; [|done]. by apply Hs3'.
Qed.

Lemma set_config_wp n j s cur def : cfg_ok s cur def ->
  wp (set_config (Some n) (Some j)) s (set_effect n j cur def s).
Proof.
  intros Hok. unfold set_config. eapply wp_bind; [apply suffix_wp|]. intros kn s1 (Hs1 & Hkn & Hf1).
  eapply (wp_bind _ _ _ (fun dk s2 => io_same s s2 /\ (dk = None \/ kn <> None /\ dk = Some (default_key n)) /\
    (fine s -> dk <> None))).
  { destruct Hkn as [-> | ->].
    - apply wp_ret. split; [done|]. split; [by left|]. intros Hf. by specialize (Hf1 Hf).
    - eapply wp_mono; [apply prefix_wp|]. intros dk s2 (Hs2 & Hdk & Hf2). split; [by etrans|].
      split; [destruct Hdk; [by left|by right]|]. intros Hf. apply Hf2. by apply Hs1. }
  intros dk s2 (Hs2 & Hdk & Hf2). pose proof (cfg_io_same _ _ _ _ Hs2 Hok) as Hok2.
  pose proof Hok2 as (Hc & Hd & Hco & Hdo).
  assert (Hfail : (fine s -> def !! default_key n = None) -> wp (retM false) s2 (set_effect n j cur def s)).
  { intros Hfine. apply wp_ret. exists cur. split; [done|]. split; [apply Hs2|]. split; [done|].
    split; [apply Hs2|]. split; [apply Hs2|done]. }
  eapply (wp_bind _ _ _ (fun a s' => s' = s2 /\ a = match kn with Some k => match cur !! k with Some _ => Some k | None => None end | None => None end)).
  { destruct kn as [k|]; [by apply (find_wp CFG_CURRENT)|by apply wp_ret]. }
  intros a ? [-> ->].
  eapply (wp_bind _ _ _ (fun b s' => s' = s2 /\ b = match dk with Some k => match def !! k with Some _ => Some k | None => None end | None => None end)).
  { destruct dk as [k|]; [by apply (find_wp CFG_DEFAULT)|by apply wp_ret]. }
  intros b ? [-> ->].
  destruct Hdk as [-> |[Hkn' ->]].
  { assert (Hnf : fine s -> def !! default_key n = None) by (intros Hf; by specialize (Hf2 Hf)).
    destruct kn as [k|]; [|by apply Hfail]. destruct (cur !! k); by apply Hfail. }
  destruct Hkn as [-> | ->]; [done|]. fold (suffixed n). destruct (def !! default_key n) as [d|] eqn:Hdef.
  2:{ destruct (cur !! suffixed n); by apply Hfail. }
  destruct (cur !! suffixed n) as [it|] eqn:Hcur.
  - apply (set_present_wp n j s s2 cur def it); [done..|by eexists|done].
  - apply (set_absent_wp n j s s2 cur def); [done..|by eexists|done].
Qed.

Lemma get_config_wp n s cur def : cfg_ok s cur def ->
  wp (get_config (Some n)) s (fun r s' => io_same s s' /\
    (r = None \/ exists it, cur !! suffixed n = Some it /\ r = value it) /\
    (fine s -> r = match cur !! suffixed n with Some it => value it | None => None end)).
Proof.
  intros Hok. unfold get_config. eapply wp_bind; [apply suffix_wp|]. intros kn s1 (Hs1 & Hkn & Hf1).
  pose proof (cfg_io_same _ _ _ _ Hs1 Hok) as (Hc & _ & Hco & _).
  destruct Hkn as [-> | ->].
  { apply wp_ret. split; [done|]. split; [by left|]. intros Hf. by specialize (Hf1 Hf). }
  fold (suffixed n).
  eapply wp_bind; [by apply (find_wp CFG_CURRENT s1 cur)|]. intros ? ? [-> ->].
  destruct (cur !! suffixed n) as [it|] eqn:Hcur; [|apply wp_ret; split_and!; [done|by left|done]].
  destruct (Hco _ _ Hcur) as (_ & _ & Hlock & _).
  eapply wp_mono; [by apply (read_value_wp CFG_CURRENT _ s1 cur it)|]. intros r s2 (Hs2 & Hr & Hf2).
  split; [by etrans|]. split.
  - destruct Hr as [?|?]; [by left|right]. by exists it.
  - intros Hf. apply Hf2. by apply Hs1.
Qed.

(** *** Callbacks come and go *)

Lemma set_owners_ok t k it l : item_ok t k it -> item_ok t k (set_owners it l).
Proof. done. Qed.

(** A change of the owners of an item, under their lock. *)
Lemma change_owners_wp k s m it (l : list Z) (f : item_t -> list Z) : item_in CFG_CURRENT k s m it ->
  owners_lock it = false -> f (set_owners_lock it true) = l ->
  wp (owners_acquire CFG_CURRENT k;~
      it <~ get_item CFG_CURRENT k;
      put_item CFG_CURRENT k (set_owners it (f it));~
      owners_release CFG_CURRENT k;~
      retM true) s (fun b s' => b = true /\ s' = with_item CFG_CURRENT k (set_owners it l) m s).
Proof.
  intros Hin Hl Hf. eapply wp_bind; [by apply (owners_acquire_wp CFG_CURRENT k s m it)|]. intros _ ? ->.
  pose proof (with_item_in CFG_CURRENT k (set_owners_lock it true) m s) as Hin1.
  eapply wp_bind; [by apply (get_item_wp CFG_CURRENT k _ _ _ Hin1)|]. intros ? ? [-> ->]. rewrite Hf.
  eapply wp_bind; [apply put_item_with, Hin1|]. intros _ ? ->. rewrite with_item_twice.
  eapply wp_bind; [apply (owners_release_wp CFG_CURRENT k _ _ _ (with_item_in _ _ _ m s)); done|].
  intros _ ? ->. apply wp_ret. split; [done|]. rewrite with_item_twice.
  destruct it; simpl in *. by subst.
Qed.

Lemma cfg_owners s cur def k it l : cfg_ok s cur def -> cur !! k = Some it ->
  cfg_ok (with_item CFG_CURRENT k (set_owners it l) cur s) (<[k := set_owners it l]> cur) def.
Proof.
  intros (Hc & Hd & Hco & Hdo) Hk. split; [done|]. split; [done|]. split; [|done].
  apply items_insert; [done|]. by apply set_owners_ok, (Hco k it Hk).
Qed.

(** The frame of both: nothing changes, or the owners of the item do. *)
Definition owners_effect (n : string) (f : list Z -> list Z) (cur def : gmap string item_t) (b : bool) (s' : state_t) : Prop :=
  exists cur', cfg_ok s' cur' def /\
  if b then exists it, cur !! suffixed n = Some it /\ cur' = <[suffixed n := set_owners it (f (owners it))]> cur
  else cur' = cur.

Lemma config_attach_wp n cb s cur def : cfg_ok s cur def -> fine s ->
  wp (config_attach (Some n) (Some cb)) s (fun b s' =>
    owners_effect n (fun l => l ++ [cb]) cur def b s' /\ fine s' /\ files s' = files s /\ calls s' = calls s /\
    b = match cur !! suffixed n with Some _ => true | None => false end).
Proof.
  intros Hok Hfine. unfold config_attach. eapply wp_bind; [apply suffix_wp|]. intros kn s1 (Hs1 & Hkn & Hf1).
  destruct Hkn as [-> | ->]; [by specialize (Hf1 Hfine)|]. cbn [hash_find]. fold (suffixed n).
  pose proof (cfg_io_same _ _ _ _ Hs1 Hok) as Hok1. pose proof Hok1 as (Hc & Hd & Hco & Hdo).
  eapply wp_bind; [by apply (find_wp CFG_CURRENT s1 cur)|]. intros ? ? [-> ->].
  destruct (cur !! suffixed n) as [it|] eqn:Hcur.
  2:{ apply wp_ret. split; [by exists cur|]. split; [by apply Hs1|]. split; [apply Hs1|]. split; [apply Hs1|done]. }
  eapply wp_bind; [apply alloc_wp|]. intros ok s2 [Hs2 Hok2]. rewrite Hok2 by (by apply Hs1). cbn [negb].
  assert (Hs : io_same s s2) by (by etrans). pose proof (cfg_io_same _ _ _ _ Hs Hok) as Hok3.
  eapply wp_mono; [apply (change_owners_wp (suffixed n) s2 cur it (owners it ++ [cb]) (fun it => owners it ++ [cb]));
    [by split; [apply Hok3|]|by apply (Hco _ _ Hcur)|done]|].
  intros b s3 [-> ->]. split; [|split; [by apply fine_with, Hs|split; [apply Hs|split; [apply Hs|done]]]].
  exists (<[suffixed n := set_owners it (owners it ++ [cb])]> cur). split; [by apply cfg_owners|]. by exists it.
Qed.

(** The first owner with this callback goes. *)
Definition remove_owner (cb : Z) (l : list Z) : list Z :=
  match list_find (eq cb) l with Some (i, _) => delete i l | None => l end.

Lemma find_owner_wp k cb s m it : item_in CFG_CURRENT k s m it -> owners_lock it = false ->
  wp (find_owner CFG_CURRENT k cb) s (fun r s' => s' = s /\ r = fst <$> list_find (eq cb) (owners it)).
Proof.
  intros Hin Hl. unfold find_owner.
  eapply wp_bind; [by apply (owners_acquire_wp CFG_CURRENT k s m it)|]. intros _ ? ->.
  pose proof (with_item_in CFG_CURRENT k (set_owners_lock it true) m s) as Hin1.
  eapply wp_bind; [by apply (get_item_wp CFG_CURRENT k _ _ _ Hin1)|]. intros ? ? [-> ->].
  eapply wp_bind; [by apply (owners_release_wp CFG_CURRENT k _ _ _ Hin1)|]. intros _ ? ->.
  apply wp_ret. rewrite with_item_twice, set_owners_lock_back by done. split; [by apply with_item_same|done].
Qed.

Lemma config_detach_wp n cb s cur def : cfg_ok s cur def -> fine s ->
  wp (config_detach (Some n) (Some cb)) s (fun b s' =>
    owners_effect n (remove_owner cb) cur def b s' /\ files s' = files s /\ calls s' = calls s /\
    b = match cur !! suffixed n with Some it => bool_decide (cb ∈ owners it) | None => false end).
Proof.
  intros Hok Hfine. unfold config_detach. eapply wp_bind; [apply suffix_wp|]. intros kn s1 (Hs1 & Hkn & Hf1).
  destruct Hkn as [-> | ->]; [by specialize (Hf1 Hfine)|]. cbn [hash_find]. fold (suffixed n).
  pose proof (cfg_io_same _ _ _ _ Hs1 Hok) as Hok1. pose proof Hok1 as (Hc & Hd & Hco & Hdo).
  eapply wp_bind; [by apply (find_wp CFG_CURRENT s1 cur)|]. intros ? ? [-> ->].
  assert (Hfail : wp (retM false) s1 (fun b s' => owners_effect n (remove_owner cb) cur def b s' /\
    files s' = files s /\ calls s' = calls s /\ b = false)).
  { apply wp_ret. split; [by exists cur|]. split; [apply Hs1|]. split; [apply Hs1|done]. }
  destruct (cur !! suffixed n) as [it|] eqn:Hcur; [|done].
  assert (Hin : item_in CFG_CURRENT (suffixed n) s1 cur it) by done.
  destruct (Hco _ _ Hcur) as (_ & _ & _ & Howner).
  eapply wp_bind; [by apply (find_owner_wp _ cb s1 cur it)|]. intros ? ? [-> ->].
  destruct (list_find (eq cb) (owners it)) as [[i cb']|] eqn:Hfind; cbn [fmap option_fmap option_map fst].
  - apply list_find_Some in Hfind as Hi. destruct Hi as (Hi & <- & _).
    eapply wp_mono; [apply (change_owners_wp (suffixed n) s1 cur it (delete i (owners it)) (fun it => delete i (owners it)));
      done|].
    intros b s3 [-> ->]. split; [|split; [apply Hs1|split; [apply Hs1|]]].
    + exists (<[suffixed n := set_owners it (delete i (owners it))]> cur). split; [by apply cfg_owners|].
      exists it. split; [done|]. unfold remove_owner. by rewrite Hfind.
    + symmetry. apply bool_decide_eq_true. by eapply list_elem_of_lookup_2.
  - eapply wp_mono; [exact Hfail|]. intros b s' (H1' & H2' & H3' & ->). split_and!; try done.
    symmetry. apply bool_decide_eq_false. apply list_find_None in Hfind. intros Hcb.
    by apply (proj1 (Forall_forall _ _) Hfind cb Hcb).
Qed.

(** *** Defaults *)

Lemma default_name_wp n s : fine s ->
  wp (default_name_of (Some n)) s (fun r s' => io_same s s' /\ r = Some (default_key n)).
Proof.
  intros Hfine. eapply wp_bind; [apply prefix_wp|]. intros r s1 (Hs1 & Hr & Hf). specialize (Hf Hfine).
  destruct Hr as [?| ->]; [done|]. eapply wp_mono; [apply suffix_wp|]. intros r s2 (Hs2 & Hr & Hf2).
  specialize (Hf2 (ios_fine _ _ Hs1 Hfine)). destruct Hr as [?| ->]; [done|]. split; [by etrans|].
  unfold default_key, suffixed. by rewrite <- string_app_assoc.
Qed.

(** The item of the defaults is found, or not, without a change. *)
Lemma find_default_wp n s cur def : cfg_ok s cur def -> fine s ->
  wp (default_config_name <~ default_name_of (Some n);
      s <~ find_config_item CFG_DEFAULT default_config_name;
      retM (default_config_name, s)) s (fun r s' => io_same s s' /\ r = (Some (default_key n),
        match def !! default_key n with Some _ => Some (default_key n) | None => None end)).
Proof.
  intros Hok Hfine. eapply wp_bind; [by apply default_name_wp|]. intros r s1 [Hs1 ->].
  pose proof (cfg_io_same _ _ _ _ Hs1 Hok) as (_ & Hd & _).
  eapply wp_bind; [by apply (find_wp CFG_DEFAULT s1 def)|]. intros ? ? [-> ->]. by apply wp_ret.
Qed.

Lemma bindM_undefined {A B : Type} (m : M A) (f : A -> M B) s (Q : A -> state_t -> Prop) : wp m s Q ->
  (forall a s', Q a s' -> f a s' = Undefined) -> bindM m f s = Undefined.
Proof. intros (a & s' & Hm & HQ) Hf. unfold bindM. rewrite Hm. by apply Hf. Qed.

Lemma rwunlock_undefined t k s m it : item_in t k s m it -> value_lock it = 0 -> rwunlock t k s = Undefined.
Proof.
  intros Hin Hl. eapply bindM_undefined; [by apply (get_item_wp t k s m it)|]. intros ? ? [-> ->]. by rewrite Hl.
Qed.

(** *** Loading *)

(** A directory of good files: their names with the values their texts hold. *)
Definition good_file (t : config_type_e) (fs : gmap string string) (f : string * J) : Prop :=
  String.prefix "." f.1 = false /\ occurs "default" (config_dir t ++ "/" ++ f.1)%string = bool_decide (t = CFG_DEFAULT) /\
  exists content, fs !! (config_dir t ++ "/" ++ f.1)%string = Some content /\ 0 < int32 (strlen content) /\
    cJSON_Parse (c_string content) = Some f.2.

Definition entries_of (l : list (string * J)) : list (string * option bool) := (fun f => (f.1, Some true)) <$> l.

Definition loaded (t : config_type_e) (l : list (string * J)) (m : gmap string item_t) : gmap string item_t :=
  fold_left (fun m f => <[f.1 := fresh_item t f.1 f.2]> m) l m.

Lemma add_item_wp t k j s m : table_of t s = Table m -> m !! k = None -> fine s ->
  wp (add_config_item t k (Some j) (bool_decide (t = CFG_DEFAULT))) s
    (fun b s' => exists s1, io_same s s1 /\ s' = with_item t k (fresh_item t k j) m s1).
Proof.
  intros Ht Hk Hfine. unfold add_config_item. eapply wp_bind; [by apply (find_wp t s m)|]. intros ? ? [-> ->].
  rewrite Hk. assert (Hty : (if bool_decide (t = CFG_DEFAULT) then CFG_DEFAULT else CFG_CURRENT) = t) by (by destruct t).
  rewrite Hty. eapply wp_bind; [apply new_config_item_wp|]. intros item s1 (Hs1 & Hitem & Hf).
  destruct Hitem as [-> | ->]; [by specialize (Hf Hfine)|].
  eapply wp_bind; [apply (hash_add_wp t _ s1 m); by rewrite (ios_table _ _ Hs1)|]. intros _ ? ->.
  apply wp_ret. by exists s1.
Qed.

Lemma load_entry_wp t f s m : good_file t (files s) f -> table_of t s = Table m -> m !! f.1 = None -> fine s ->
  wp (load_entry t (config_dir t) (f.1, Some true)) s
    (fun r s' => r = Some () /\ exists s1, io_same s s1 /\ s' = with_item t f.1 (fresh_item t f.1 f.2) m s1).
Proof.
  intros (Hdot & Hocc & content & Hcont & Hlen & Hparse) Ht Hk Hfine. unfold load_entry. rewrite Hdot.
  eapply wp_bind; [apply alloc_wp|]. intros ok s1 [Hs1 Hok]. rewrite Hok by done. cbn [negb].
  eapply (wp_bind _ _ _ (fun r s' => io_same s s' /\ r = (true, Some f.2))).
  - unfold read_file_to_memory, wp. rewrite (ios_files _ _ Hs1), Hcont.
    destruct (Z.leb_spec (int32 (strlen content)) 0); [lia|].
    assert (Hw : wp (ok <~ alloc; retM (if ok : bool then (true, cJSON_Parse (c_string content)) else (false, None))) s1
              (fun r s' => io_same s s' /\ r = (true, Some f.2))); [|exact Hw].
    eapply wp_bind; [apply alloc_wp|]. intros ok' s2 [Hs2 Hok']. apply wp_ret.
    rewrite Hok' by (by apply Hs1). split; [by etrans|]. by rewrite Hparse.
  - intros r s2 [Hs2 ->]. cbn [fst snd]. rewrite Hocc.
    eapply wp_bind; [apply (add_item_wp t f.1 f.2 s2 m); [by rewrite (ios_table _ _ Hs2)|done|by apply Hs2]|].
    intros b ? (s3 & Hs3 & ->). apply wp_ret. split; [done|]. exists s3. split; [by etrans|done].
Qed.

(** The state after the loading of a table. *)
Definition load_result (t : config_type_e) (m : gmap string item_t) (s s' : state_t) : Prop :=
  table_of t s' = Table m /\ (forall t', t' <> t -> table_of t' s' = table_of t' s) /\ files s' = files s /\ fine s'.

Lemma load_entries_wp t l : forall s m, Forall (good_file t (files s)) l -> table_of t s = Table m -> NoDup l.*1 ->
  (forall k, k ∈ l.*1 -> m !! k = None) -> fine s ->
  wp (load_entries t (config_dir t) (entries_of l)) s (fun r s' => r = 0 /\ load_result t (loaded t l m) s s').
Proof.
  induction l as [|f l IH]; intros s m Hall Ht Hnd Hm Hfine; cbn [entries_of fmap list_fmap load_entries].
  { by apply wp_ret. }
  apply Forall_cons in Hall as [Hf Hall]. csimpl in Hnd. apply NoDup_cons in Hnd as [Hn Hnd].
  eapply wp_bind; [apply (load_entry_wp t f s m); [done|done|apply Hm; set_solver|done]|].
  intros r ? (-> & s1 & Hs1 & ->).
  eapply wp_mono; [apply (IH _ (<[f.1 := fresh_item t f.1 f.2]> m))|].
  - unfold with_item. rewrite files_with, (ios_files _ _ Hs1). done.
  - apply table_with.
  - done.
  - intros k Hk. rewrite lookup_insert_ne; [apply Hm; set_solver|]. intros Heq. by rewrite Heq in Hn.
  - apply fine_with. by apply Hs1.
  - intros r s2 (-> & Htab & Ho & Hfi & Hf2). split; [done|]. split; [done|]. split; [|split; [|done]].
    + intros t' Hne. rewrite Ho by done. unfold with_item. rewrite table_other by done. apply Hs1.
    + rewrite Hfi. unfold with_item. rewrite files_with. apply Hs1.
Qed.

Lemma loaded_other t l : forall m k, k ∉ l.*1 -> loaded t l m !! k = m !! k.
Proof.
  induction l as [|f l IH]; intros m k Hk; [done|]. csimpl in Hk. cbn [loaded fold_left].
  change (loaded t l (<[f.1 := fresh_item t f.1 f.2]> m) !! k = m !! k).
  rewrite IH by set_solver. apply lookup_insert_ne. set_solver.
Qed.

Lemma loaded_lookup t l k j : forall m, NoDup l.*1 -> (k, j) ∈ l -> loaded t l m !! k = Some (fresh_item t k j).
Proof.
  induction l as [|f l IH]; intros m Hnd Hin; [by apply not_elem_of_nil in Hin|].
  csimpl in Hnd. apply NoDup_cons in Hnd as [Hn Hnd]. cbn [loaded fold_left].
  change (loaded t l (<[f.1 := fresh_item t f.1 f.2]> m) !! k = Some (fresh_item t k j)).
  apply elem_of_cons in Hin as [<-|Hin]; [|by apply IH]. rewrite loaded_other by done. apply lookup_insert_eq.
Qed.

Lemma loaded_ok t l : forall m, items_ok t m -> items_ok t (loaded t l m).
Proof.
  induction l as [|f l IH]; intros m Hm; [done|]. apply IH. by apply items_insert.
Qed.

(** The two directories hold good files. *)
Definition good_dirs (readdir : string -> option (list (string * option bool))) (fs : gmap string string)
    (ld lc : list (string * J)) : Prop :=
  readdir DEFAULT_CONFIG_PATH = Some (entries_of ld) /\ Forall (good_file CFG_DEFAULT fs) ld /\ NoDup ld.*1 /\
  readdir CONFIG_PATH = Some (entries_of lc) /\ Forall (good_file CFG_CURRENT fs) lc /\ NoDup lc.*1.

(** The state of a program that has just started. *)
Definition started (fs : gmap string string) : state_t := Config (Table ∅) (Table ∅) fs [] [] [].

Lemma init_wp readdir fs ld lc : good_dirs readdir fs ld lc ->
  wp (config_manage_init readdir) (started fs) (fun b s => b = true /\ fine s /\ files s = fs /\
    cfg_ok s (loaded CFG_CURRENT lc ∅) (loaded CFG_DEFAULT ld ∅)).
Proof.
  intros (Hrd & Hgd & Hnd & Hrc & Hgc & Hnc). unfold config_manage_init, config_hash_init. rewrite Hrd, Hrc.
  eapply wp_bind; [by apply (load_entries_wp CFG_DEFAULT ld (started fs) ∅)|].
  intros r s1 (-> & Ht1 & Ho1 & Hf1 & Hfine1). cbn [Z.eqb negb].
  eapply wp_bind; [apply (load_entries_wp CFG_CURRENT lc s1 ∅); [by rewrite Hf1|by apply Ho1|done|done|done]|].
  intros r s2 (-> & Ht2 & Ho2 & Hf2 & Hfine2). apply wp_ret. split; [done|]. split; [done|].
  split; [by rewrite Hf2, Hf1|]. specialize (Ho2 CFG_DEFAULT ltac:(done)). cbn in Ht1, Ht2, Ho2.
  split; [done|]. split; [congruence|]. split; apply loaded_ok, map_Forall_empty.
Qed.

End Config.

(** ** JSON values for the witnesses *)

#[local] Instance bool_json : Cjson bool := {
  cJSON_Compare := Bool.eqb;
  cJSON_Print b := if b then "true" else "false";
  cJSON_PrintUnformatted b := if b then "true" else "false";
  cJSON_Parse s := if String.eqb s "true" then Some true else if String.eqb s "false" then Some false else None
}.

Definition with_default : config_state bool :=
  Config (Table {["pcu.json" := Item (CONFIG_PATH ++ "/pcu.json")%string "pcu.json" (Some false) 0 [7; 8] false]})
    (Table {["default_pcu.json" := fresh_item CFG_DEFAULT "default_pcu.json" false]}) ∅ [] [] [].

Definition demo_cur : gmap string (config_manage_t bool) :=
  {["pcu.json" := Item (CONFIG_PATH ++ "/pcu.json")%string "pcu.json" (Some false) 0 [7; 8] false]}.
Definition demo_def : gmap string (config_manage_t bool) :=
  {["default_pcu.json" := fresh_item CFG_DEFAULT "default_pcu.json" false]}.

Lemma with_default_ok : cfg_ok with_default demo_cur demo_def.
Proof.
  split; [reflexivity|]. split; [reflexivity|].
  split; apply map_Forall_singleton; repeat split; reflexivity.
Qed.

(** ** Properties *)

(** C9: From tables on which no lock is held, [set_config] returns and leaves such
    tables.  It returns false with every table, file and caller as it was, or
    true with a default for the name: an item that was not there is added; one
    that compares equal stays as it is; one that differs has its callbacks
    called once each, in the order they were attached, with the old and the new
    value, and gets the new value, or none when the copy runs out of memory.  The
    file of the item gets a prefix of its text, or nothing; all of it when no
    allocation and no write fails, and then false means there is no default. *)
Theorem set_config_changes {J} `{Cjson J} n j (s : config_state J) cur def : cfg_ok s cur def ->
  exists b s', set_config (Some n) (Some j) s = Returns (b, s') /\ set_effect n j cur def s b s'.
Proof. apply set_config_wp. Qed.

Lemma set_config_changes_witness :
  exists s', set_config (Some "pcu"%string) (Some true) with_default = Returns (true, s') /\
    calls s' = [(7, false, true); (8, false, true)] /\
    files s' !! (CONFIG_PATH ++ "/pcu.json")%string = Some "true"%string.
Proof.
  destruct (set_config_changes "pcu" true with_default demo_cur demo_def with_default_ok)
    as (b & s' & Hrun & cur' & _ & _ & Hb).
  destruct b.
  - exists s'. split; [exact Hrun|]. destruct Hb as [_ Hb].
    assert (Hcur : demo_cur !! suffixed "pcu" = Some (Item (CONFIG_PATH ++ "/pcu.json")%string "pcu.json" (Some false) 0 [7; 8] false))
      by reflexivity.
    rewrite Hcur in Hb. destruct Hb as (v & _ & _ & Hcalls & _ & Hfine).
    split; [exact Hcalls|]. destruct (Hfine (conj eq_refl eq_refl)) as [_ ->]. reflexivity.
  - destruct Hb as (_ & _ & _ & Hn). specialize (Hn (conj eq_refl eq_refl)). discriminate Hn.
Defined.

Lemma suffixed_inj n n' : suffixed n = suffixed n' -> n = n'.
Proof.
  unfold suffixed. revert n'. induction n as [|c n IH]; intros [|c' n'] Heq; [done|exfalso..|].
  - pose proof (f_equal String.length Heq) as Hl. change (5 = String.length (String c' n' ++ ".json"))%nat in Hl.
    rewrite length_string_app in Hl. simpl in Hl. lia.
  - pose proof (f_equal String.length Heq) as Hl. change (String.length (String c n ++ ".json") = 5)%nat in Hl.
    rewrite length_string_app in Hl. simpl in Hl. lia.
  - injection Heq as <- Heq. f_equal. by apply IH.
Qed.

Lemma set_effect_others {J} `{Cjson J} n n' j cur def (s : config_state J) b s' : n' <> n ->
  set_effect n j cur def s b s' -> exists cur', cfg_ok s' cur' def /\ cur' !! suffixed n' = cur !! suffixed n'.
Proof.
  intros Hne (cur' & Hok & _ & Hb). exists cur'. split; [done|].
  assert (Hk : suffixed n <> suffixed n') by (by intros Heq%suffixed_inj).
  destruct b; [|by destruct Hb as [-> _]]. destruct Hb as [_ Hb].
  destruct (cur !! suffixed n) as [it|].
  - destruct (compare_values _ _); [by destruct Hb as [-> _]|]. destruct Hb as (v & _ & -> & _).
    by apply lookup_insert_ne.
  - destruct Hb as [-> _]. by apply lookup_insert_ne.
Qed.

(** After a [set_config] that returned true, [get_config] returns the value, or
    one that compares equal to it, or nothing; nothing only when an allocation
    failed.  Every other name reads as before. *)
Theorem set_get_round_trip {J} `{Cjson J} n j (s s1 : config_state J) cur def : cfg_ok s cur def ->
  set_config (Some n) (Some j) s = Returns (true, s1) ->
  (exists r s2, get_config (Some n) s1 = Returns (r, s2) /\ (fine s -> r <> None) /\
     forall v, r = Some v -> v = j \/ cJSON_Compare v j = true) /\
  forall n', n' <> n -> fine s1 -> exists r s2, get_config (Some n') s1 = Returns (r, s2) /\
    r = match cur !! suffixed n' with Some it => value it | None => None end.
Proof.
  intros Hok Hset. destruct (set_config_wp n j s cur def Hok) as (b & s' & Hrun & Heff).
  rewrite Hset in Hrun. injection Hrun as <- <-. split.
  - destruct Heff as (cur' & Hok' & Hf1 & Hdef & Hb).
    destruct (get_config_wp n s1 cur' def Hok') as (r & s2 & Hget & _ & Hr & Hfr).
    exists r, s2. split; [done|].
    assert (Hcur' : exists it', cur' !! suffixed n = Some it' /\ (fine s -> fine s1 -> value it' <> None) /\
      forall v, value it' = Some v -> v = j \/ cJSON_Compare v j = true).
    { destruct (cur !! suffixed n) as [it|] eqn:Hcur.
      - destruct (compare_values (value it) (Some j)) eqn:Hcmp.
        + destruct Hb as (-> & _). exists it. split; [done|]. destruct (value it) as [v|]; [|done].
          split; [done|]. intros ? [= <-]. by right.
        + destruct Hb as (v & Hv & -> & _ & _ & Hfine). exists (set_value it v).
          split; [apply lookup_insert_eq|]. cbn [value set_value]. split.
          * intros Hf _. destruct (Hfine Hf) as [-> _]. done.
          * intros w ->. destruct Hv as [?|[= ->]]; [done|by left].
      - destruct Hb as (-> & _). exists (fresh_item CFG_CURRENT (suffixed n) j).
        split; [apply lookup_insert_eq|]. split; [done|]. intros v [= <-]. by left. }
    destruct Hcur' as (it' & Hit' & Hnn & Hv). rewrite Hit' in Hfr, Hr. split.
    + intros Hf. rewrite Hfr by (by apply Hf1). apply Hnn; [done|by apply Hf1].
    + intros v ->. destruct Hr as [?|(it2 & [= <-] & Hv2)]; [done|]. by apply Hv.
  - intros n' Hne Hfine. destruct (set_effect_others n n' j cur def s true s1 Hne Heff) as (cur' & Hok' & Hcur').
    destruct (get_config_wp n' s1 cur' def Hok') as (r & s2 & Hget & _ & _ & Hr).
    exists r, s2. split; [done|]. rewrite Hr by done. by rewrite Hcur'.
Qed.

Lemma set_get_round_trip_witness :
  exists s1 r s2, set_config (Some "pcu"%string) (Some true) with_default = Returns (true, s1) /\
    get_config (Some "pcu"%string) s1 = Returns (r, s2) /\ r = Some true.
Proof.
  destruct (set_config_wp "pcu" true with_default demo_cur demo_def with_default_ok) as (b & s1 & Hset & _).
  assert (b = true) as -> by (symmetry; exact (f_equal (fun r => match r with Returns (b, _) => b | _ => false end) Hset)).
  destruct (set_get_round_trip "pcu" true with_default s1 demo_cur demo_def with_default_ok Hset)
    as [(r & s2 & Hget & Hn & Hv) _].
  exists s1, r, s2. split; [exact Hset|]. split; [exact Hget|].
  destruct r as [v|]; [|exfalso; exact (Hn (conj eq_refl eq_refl) eq_refl)].
  destruct (Hv v eq_refl) as [->|Hcmp]; [reflexivity|]. destruct v; [reflexivity|discriminate Hcmp].
Defined.

(** C16: What is set survives a restart: when nothing fails and the value is new, a
    program that starts on the files left behind, among any other good files,
    reads the value back, provided the JSON library parses the text it
    printed. *)
Theorem config_survives_restart {J} `{Cjson J} n j (s : config_state J) cur def : cfg_ok s cur def -> fine s ->
  is_Some (def !! default_key n) ->
  match cur !! suffixed n with Some it => compare_values (value it) (Some j) = false | None => True end ->
  cJSON_Parse (c_string (cJSON_Print j)) = Some j ->
  exists s1, set_config (Some n) (Some j) s = Returns (true, s1) /\
    forall readdir ld lc, good_dirs readdir (files s1) ld lc -> suffixed n ∈ lc.*1 ->
    exists s2 s3, config_manage_init readdir (started (files s1)) = Returns (true, s2) /\
      get_config (Some n) s2 = Returns (Some j, s3).
Proof.
  intros Hok Hfine Hdef Hnew Hparse. destruct (set_config_wp n j s cur def Hok) as (b & s1 & Hrun & Heff).
  destruct Heff as (cur' & _ & _ & Hb). destruct b; [|destruct Hb as (_ & _ & _ & Hb); by rewrite Hb in Hdef].
  assert (Hfile : files s1 !! config_path n = Some (cJSON_Print j)).
  { destruct Hb as [_ Hb]. destruct (cur !! suffixed n) as [it|].
    - rewrite Hnew in Hb. destruct Hb as (v & _ & _ & _ & _ & Hf). destruct (Hf Hfine) as [_ ->]. apply lookup_insert_eq.
    - destruct Hb as (_ & _ & _ & Hf). rewrite (Hf Hfine). apply lookup_insert_eq. }
  exists s1. split; [done|]. intros readdir ld lc Hdirs Hin.
  destruct (init_wp readdir (files s1) ld lc Hdirs) as (b & s2 & Hinit & -> & Hfine2 & _ & Hok2).
  destruct (get_config_wp n s2 _ _ Hok2) as (r & s3 & Hget & _ & _ & Hr).
  exists s2, s3. split; [done|]. rewrite Hget, Hr by done.
  destruct Hdirs as (_ & _ & _ & _ & Hgood & Hnd).
  apply list_elem_of_fmap in Hin as ([k j'] & Hk & Hin). cbn [fst] in Hk. subst k.
  rewrite (loaded_lookup CFG_CURRENT lc (suffixed n) j') by done. cbn [value fresh_item].
  destruct (proj1 (Forall_forall _ _) Hgood _ Hin) as (_ & _ & content & Hc & _ & Hp). cbn [fst snd] in Hc, Hp.
  change (files s1 !! config_path n = Some content) in Hc. rewrite Hfile in Hc. injection Hc as <-.
  rewrite Hparse in Hp. by injection Hp as ->.
Qed.

Definition demo_readdir (dir : string) : option (list (string * option bool)) :=
  if String.eqb dir CONFIG_PATH then Some (entries_of [("pcu.json"%string, true)]) else Some (entries_of ([] : list (string * bool))).

Lemma config_survives_restart_witness :
  exists s1 s2 s3, set_config (Some "pcu"%string) (Some true) with_default = Returns (true, s1) /\
    config_manage_init demo_readdir (started (files s1)) = Returns (true, s2) /\
    get_config (Some "pcu"%string) s2 = Returns (Some true, s3).
Proof.
  destruct (config_survives_restart "pcu" true with_default demo_cur demo_def with_default_ok (conj eq_refl eq_refl))
    as (s1 & Hset & Hrest); [by eexists|reflexivity|reflexivity|].
  assert (Hfiles : files s1 !! (CONFIG_PATH ++ "/pcu.json")%string = Some "true"%string).
  { exact (f_equal (fun r => match r with Returns (_, s) => files s !! (CONFIG_PATH ++ "/pcu.json")%string | _ => None end)
      (eq_sym Hset)). }
  destruct (Hrest demo_readdir [] [("pcu.json"%string, true)]) as (s2 & s3 & Hinit & Hget).
  - split; [reflexivity|]. split; [constructor|]. split; [constructor|]. split; [reflexivity|].
    split; [|repeat constructor; apply not_elem_of_nil]. constructor; [|constructor].
    split; [reflexivity|]. split; [reflexivity|]. exists "true"%string.
    split; [exact Hfiles|]. split; reflexivity.
  - apply list_elem_of_here.
  - exists s1, s2, s3. split; [exact Hset|]. split; [exact Hinit|exact Hget].
Defined.

Lemma remove_owner_last cb l : cb ∉ l -> remove_owner cb (l ++ [cb]) = l.
Proof.
  intros Hn. unfold remove_owner.
  assert (Hf : list_find (eq cb) (l ++ [cb]) = Some (length l, cb)).
  { apply list_find_Some. split; [by apply list_lookup_middle|]. split; [done|]. intros i y Hi Hlt ->.
    rewrite lookup_app_l in Hi by lia. apply Hn. by eapply list_elem_of_lookup_2. }
  rewrite Hf. rewrite delete_middle. apply app_nil_r.
Qed.

(** A callback that is attached is the last to be called; detaching it again,
    when it was not there before, leaves the callers as they were. *)
Theorem attach_detach {J} `{Cjson J} n cb (s : config_state J) cur def it : cfg_ok s cur def -> fine s ->
  cur !! suffixed n = Some it -> cb ∉ owners it ->
  exists s1 s2, config_attach (Some n) (Some cb) s = Returns (true, s1) /\
    cfg_ok s1 (<[suffixed n := set_owners it (owners it ++ [cb])]> cur) def /\
    config_detach (Some n) (Some cb) s1 = Returns (true, s2) /\ cfg_ok s2 cur def.
Proof.
  intros Hok Hfine Hcur Hnin.
  destruct (config_attach_wp n cb s cur def Hok Hfine) as (b & s1 & Hatt & (cur' & Hok1 & Hb) & Hf1 & _ & _ & ->).
  rewrite Hcur in Hb, Hatt. destruct Hb as (it' & [= <-] & ->).
  destruct (config_detach_wp n cb s1 _ def Hok1 Hf1) as (b & s2 & Hdet & (cur2 & Hok2 & Hb) & _ & _ & ->).
  rewrite lookup_insert_eq in Hb, Hdet. cbn [owners set_owners] in Hb, Hdet.
  rewrite bool_decide_eq_true_2 in Hb, Hdet by set_solver. destruct Hb as (it' & [= <-] & ->).
  exists s1, s2. do 3 (split; [done|]). cbn [owners set_owners] in Hok2.
  rewrite remove_owner_last, insert_insert_eq in Hok2 by done. rewrite insert_id in Hok2; [done|]. by destruct it.
Qed.

Lemma attach_detach_witness :
  exists s1 s2, config_attach (Some "pcu"%string) (Some 9) with_default = Returns (true, s1) /\
    config_detach (Some "pcu"%string) (Some 9) s1 = Returns (true, s2) /\ cfg_ok s2 demo_cur demo_def.
Proof.
  destruct (attach_detach "pcu" 9 with_default demo_cur demo_def
    (Item (CONFIG_PATH ++ "/pcu.json")%string "pcu.json" (Some false) 0 [7; 8] false) with_default_ok (conj eq_refl eq_refl))
    as (s1 & s2 & Hatt & _ & Hdet & Hok2); [reflexivity|set_solver|].
  exists s1, s2. split; [exact Hatt|]. split; [exact Hdet|exact Hok2].
Defined.

Lemma set_default_equal {J} `{Cjson J} n j (s : config_state J) cur def it : cfg_ok s cur def -> fine s ->
  def !! default_key n = Some it -> compare_values (value it) (Some j) = true ->
  set_default_config (Some n) (Some j) s = Undefined.
Proof.
  intros Hok Hfine Hdef Hcmp. unfold set_default_config.
  eapply bindM_undefined; [by apply default_name_wp|]. intros dn s1 [Hs1 ->]. cbv beta.
  pose proof (cfg_io_same _ _ _ _ Hs1 Hok) as Hok1. pose proof Hok1 as (_ & Hd & _ & Hdo).
  eapply bindM_undefined; [by apply (find_wp CFG_DEFAULT s1 def)|]. intros ? ? [-> ->]. rewrite Hdef.
  destruct (Hdo _ _ Hdef) as (_ & _ & Hlock & _).
  eapply bindM_undefined; [by apply (same_value_wp CFG_DEFAULT _ s1 def it)|]. intros ? ? [-> ->]. rewrite Hcmp.
  eapply bindM_undefined; [apply suffix_wp|]. intros cn s2 (Hs2 & Hcn & _).
  assert (Hs12 : io_same s s2) by (by etrans). pose proof (cfg_io_same _ _ _ _ Hs12 Hok) as Hok2.
  eapply (bindM_undefined _ _ _ (fun _ s' => s' = s2)).
  { destruct cn as [cn|]; [|by apply wp_ret]. eapply wp_mono; [by apply (find_wp CFG_CURRENT s2 cur), Hok2|]. by intros ? ? [-> _]. }
  intros cs ? ->.
  eapply (bindM_undefined _ _ _ (fun _ s' => exists cur', cfg_ok s' cur' def)).
  { destruct cs; [apply wp_ret; by exists cur|]. eapply wp_mono; [by apply (set_config_wp n j s2 cur def)|].
    intros b s' (cur' & ? & _). by exists cur'. }
  intros b s3 (cur' & _ & Hd3 & _). unfold bindM at 1.
  by rewrite (rwunlock_undefined CFG_DEFAULT (default_key n) s3 def it).
Qed.

(** Setting a default that compares equal to the one that is there releases a
    lock that is not held: undefined behaviour. *)
Theorem set_default_same_unlocks {J} `{Cjson J} n j (s : config_state J) cur def it : cfg_ok s cur def -> fine s ->
  def !! default_key n = Some it -> compare_values (value it) (Some j) = true ->
  set_default_config (Some n) (Some j) s = Undefined.
Proof. apply set_default_equal. Qed.

Lemma set_default_same_unlocks_witness :
  set_default_config (Some "pcu"%string) (Some false) with_default = Undefined.
Proof.
  exact (set_default_same_unlocks "pcu" false with_default demo_cur demo_def
    (fresh_item CFG_DEFAULT "default_pcu.json" false) with_default_ok (conj eq_refl eq_refl) eq_refl eq_refl).
Defined.

(** After [config_manage_clear] on tables with items, the globals point to freed
    items: any later read is undefined. *)
Theorem config_clear_dangles {J} `{Cjson J} n (s : config_state J) cur def : cfg_ok s cur def -> fine s ->
  cur <> ∅ -> exists s1, config_manage_clear s = Returns ((), s1) /\ get_config (Some n) s1 = Undefined.
Proof.
  intros (Hc & Hd & _) Hfine Hne. unfold config_manage_clear, bindM, clear_hash_table, table_of at 1. rewrite Hc.
  rewrite decide_False by done. unfold with_table at 1. cbn. rewrite Hd.
  assert (Hget : forall s : config_state J, fine s -> g_config_manage s = Dangling -> get_config (Some n) s = Undefined).
  { intros s' Hf Hg. unfold get_config. eapply bindM_undefined; [apply suffix_wp|].
    intros kn s1 (Hs1 & Hkn & Hf1). destruct Hkn as [-> | ->]; [by specialize (Hf1 Hf)|].
    unfold find_config_item, get_table, bindM. pose proof (ios_table _ _ Hs1 CFG_CURRENT) as E1. cbn in E1 |- *.
    by rewrite E1, Hg. }
  destruct (decide (def = ∅)); eexists; (split; [done|]); by apply Hget.
Qed.

Lemma config_clear_dangles_witness :
  exists s1, config_manage_clear with_default = Returns ((), s1) /\ get_config (Some "pcu"%string) s1 = Undefined.
Proof.
  exact (config_clear_dangles "pcu" with_default demo_cur demo_def with_default_ok (conj eq_refl eq_refl)
    (map_non_empty_singleton _ _)).
Defined.
