(* ===== verification/MergeTemplate.v ===== *)
(** * Merging with a template ([src/config/config_cmp_key.c])

    [cJSON_MergeWithTemplate] copies a template and overwrites the copy with
    the values of another tree.  A tree is the structure of the JSON library;
    the library's functions on trees are a class with their documented
    behaviour.  Template and source are only read, and the copy is new memory,
    so the three trees share nothing and are values here. *)

From S2P Require Import Prelude Utils Lru Sqlite Config.

(** ** Trees ([cJSON.h]) *)

(** [D] is the type of the doubles; the siblings of an item are the list it is
    in. *)
#[local] Unset Elimination Schemes.
Inductive cJSON {D : Type} := Json {
  type : Z;
  valuestring : option string;
  valueint : Z;
  valuedouble : D;
  key : option string;
  child : list cJSON
}.
#[local] Set Elimination Schemes.
Arguments cJSON : clear implicits.
Arguments Json {D}.

Definition cJSON_False : Z := 1.
Definition cJSON_True : Z := 2.
Definition cJSON_NULL : Z := 4.
Definition cJSON_Number : Z := 8.
Definition cJSON_String : Z := 16.
Definition cJSON_Array : Z := 32.
Definition cJSON_Object : Z := 64.
Definition cJSON_Raw : Z := 128.

Section Trees.
Context {D : Type}.
#[local] Abbreviation tree := (cJSON D).
Implicit Types a b j : tree.

Lemma cJSON_ind (P : tree -> Prop) :
  (forall t vs vi vd k cs, Forall P cs -> P (Json t vs vi vd k cs)) -> forall j, P j.
Proof.
  intros H. fix IH 1. intros [t vs vi vd k cs]. apply H. induction cs; constructor; [apply IH|done].
Qed.

Definition set_type j (t : Z) : tree := Json t (valuestring j) (valueint j) (valuedouble j) (key j) (child j).
Definition set_int j (i : Z) : tree := Json (type j) (valuestring j) i (valuedouble j) (key j) (child j).
Definition set_double j (d : D) : tree := Json (type j) (valuestring j) (valueint j) d (key j) (child j).
Definition set_text j (s : string) : tree := Json (type j) (Some s) (valueint j) (valuedouble j) (key j) (child j).
Definition set_child j (cs : list tree) : tree := Json (type j) (valuestring j) (valueint j) (valuedouble j) (key j) cs.

(** The kind of an item is in the low byte of its type. *)
Definition kind j : Z := Z.land (type j) 255.

Definition kinds : list Z :=
  [cJSON_False; cJSON_True; cJSON_NULL; cJSON_Number; cJSON_String; cJSON_Array; cJSON_Object; cJSON_Raw].

(** A tree as the library builds it, with no flag set: the items of an object
    have distinct names, the others have none. *)
Fixpoint wf j : Prop :=
  type j ∈ kinds /\ (type j = cJSON_String -> is_Some (valuestring j)) /\
  (if type j =? cJSON_Object then Forall (fun c => is_Some (key c)) (child j) /\ NoDup (key <$> child j)
   else Forall (fun c => key c = None) (child j)) /\
  (fix all cs := match cs with [] => True | c :: cs' => wf c /\ all cs' end) (child j).

(** The items of an object have names, the others have none. *)
Definition named_items j : Prop :=
  if type j =? cJSON_Object then Forall (fun c => is_Some (key c)) (child j) else Forall (fun c => key c = None) (child j).

Lemma wf_named j : wf j -> named_items j.
Proof. unfold named_items. destruct j as [t vs vi vd k cs]. intros (_ & _ & Hn & _). simpl in *. destruct (t =? cJSON_Object); apply Hn. Qed.

Definition has_key (k : string) j : Prop := key j = Some k.
#[export] Instance has_key_dec k j : Decision (has_key k j).
Proof. unfold has_key. apply _. Defined.

(** The position of the first item of this name. *)
Definition position_of (k : string) (cs : list tree) : option nat := fst <$> list_find (has_key k) cs.

End Trees.

(** ** The library *)

(** A pointer to an item of an object is its position.  Calls that allocate
    take the outcomes of the allocations to come and succeed past their end. *)
Class CjsonTree (D : Type) := {
  cJSON_Duplicate : cJSON D -> bool -> list bool -> option (cJSON D) * list bool;
  cJSON_GetObjectItemCaseSensitive : cJSON D -> string -> option nat;
  cJSON_ReplaceItemViaPointer : cJSON D -> option nat -> cJSON D -> cJSON D;
  cJSON_SetNumberHelper : cJSON D -> D -> cJSON D;
  cJSON_SetValuestring : cJSON D -> option string -> list bool -> bool * cJSON D * list bool;
  cJSON_CreateObject : cJSON D;
  cJSON_AddNumberToObject : cJSON D -> string -> Z -> cJSON D;
  cJSON_AddBoolToObject : cJSON D -> string -> bool -> cJSON D;

  (** A copy is identical. *)
  duplicate_identical j o j' o' : wf j -> cJSON_Duplicate j true o = (Some j', o') -> j' = j;
  duplicate_enough j : wf j -> cJSON_Duplicate j true [] = (Some j, []);
  (** The first item of the name; an item of another kind has no named items. *)
  get_item_first j k : named_items j -> cJSON_GetObjectItemCaseSensitive j k = position_of k (child j);
  replace_item j i r : (i < length (child j))%nat ->
    cJSON_ReplaceItemViaPointer j (Some i) r = set_child j (<[i := r]> (child j));
  (** Only numbers change. *)
  set_number j d : exists i, cJSON_SetNumberHelper j d = set_int (set_double j d) i;
  (** Takes effect on strings only, and nowhere when memory runs out. *)
  set_valuestring j s o ok j' o' : cJSON_SetValuestring j (Some s) o = (ok, j', o') ->
    j' = (if ok then set_text j s else j) /\ (ok = true -> type j = cJSON_String);
  set_valuestring_enough j s : type j = cJSON_String ->
    cJSON_SetValuestring j (Some s) [] = (true, set_text j s, []);
  set_valuestring_other j s o : type j <> cJSON_String -> cJSON_SetValuestring j s o = (false, j, o)
}.

(** ** The merge *)

Section Merge.
Context {D : Type} `{CjsonTree D}.
#[local] Abbreviation tree := (cJSON D).
Implicit Types a b : tree.

(** What a call leaves: its result, the copy, the allocations to come. *)
#[local] Abbreviation result := (bool * tree * list bool)%type.

Definition item_at (j : tree) (i : option nat) : option tree := i ≫= fun i => child j !! i.

(** The merge of one child of the template, [merge] being the recursive
    call on it; [false] when a copy cannot be made. *)
Definition merge_child (merge : tree -> tree -> list bool -> result) (a_child b a1 : tree) (o : list bool) : result :=
  match key a_child with
  | None => (true, a1, o)
  | Some k =>
    let '(ok, a1, o) :=
      match item_at b (cJSON_GetObjectItemCaseSensitive b k) with
      | None => (true, a1, o)
      | Some b_child =>
        match cJSON_Duplicate b_child true o with
        | (None, o) => (false, a1, o)
        | (Some b_copy, o) =>
          (true, cJSON_ReplaceItemViaPointer a1 (cJSON_GetObjectItemCaseSensitive a1 k) b_copy, o)
        end
      end in
    if negb ok then (false, a1, o) else
    let i := cJSON_GetObjectItemCaseSensitive a1 k in
    match i, item_at a1 i, item_at b (cJSON_GetObjectItemCaseSensitive b k) with
    | Some n, Some a1_child, Some b1_child =>
      let '(_, a1_child, o) := merge b1_child a1_child o in
      (true, set_child a1 (<[n := a1_child]> (child a1)), o)
    | _, _, _ => (true, a1, o)
    end
  end.

(** The loop over the children of the template ends at the first copy that
    cannot be made. *)
Definition merge_children (merge : tree -> tree -> tree -> list bool -> result) (b : tree)
    : list tree -> tree -> list bool -> result :=
  fix each cs a1 o :=
    match cs with
    | [] => (true, a1, o)
    | a_child :: cs' =>
      let '(ok, a1, o) := merge_child (merge a_child) a_child b a1 o in
      if negb ok then (false, a1, o) else each cs' a1 o
    end.

(** The three lists in step, up to the end of the shortest. *)
Definition merge_items (merge : tree -> tree -> tree -> list bool -> result)
    : list tree -> list tree -> list tree -> list bool -> list tree * list bool :=
  fix pairs acs bcs a1cs o :=
    match acs, bcs, a1cs with
    | a_child :: acs', b_child :: bcs', a1_child :: a1cs' =>
      let '(_, r, o) := merge a_child b_child a1_child o in
      let '(rs, o) := pairs acs' bcs' a1cs' o in
      (r :: rs, o)
    | _, _, _ => (a1cs, o)
    end.

(** [case_sensitive] is passed on and never read. *)
Fixpoint MergeNode (case_sensitive : bool) (a b a1 : tree) (o : list bool) {struct a} : result :=
  match a with
  | Json _ _ _ _ _ a_children =>
    let t := kind a in
    if (t =? cJSON_False) || (t =? cJSON_True) || (t =? cJSON_NULL) then
      (true, set_type a1 (kind b), o)
    else if t =? cJSON_Number then
      let a1 := cJSON_SetNumberHelper a1 (valuedouble b) in
      (true, set_type (set_int a1 (valueint b)) cJSON_Number, o)
    else if (t =? cJSON_String) || (t =? cJSON_Raw) then
      let '(ok, a1, o) := cJSON_SetValuestring a1 (valuestring b) o in
      if negb ok then (false, a1, o) else (true, set_type a1 (kind b), o)
    else if t =? cJSON_Object then
      merge_children (MergeNode case_sensitive) b a_children a1 o
    else if t =? cJSON_Array then
      let '(cs, o) := merge_items (MergeNode case_sensitive) a_children (child b) (child a1) o in
      (true, set_child a1 cs, o)
    else (true, a1, o)
  end.

Definition is_valid_cjson_type (t : Z) : bool :=
  existsb (Z.eqb (Z.land t 255)) kinds.

(** The result of [MergeNode] is not looked at. *)
Definition cJSON_MergeWithTemplate (a b : option tree) (case_sensitive : bool) (o : list bool)
    : option tree * list bool :=
  match a, b with
  | Some a, Some b =>
    if negb (is_valid_cjson_type (type a)) || negb (is_valid_cjson_type (type b)) then (None, o) else
    match cJSON_Duplicate a true o with
    | (None, o) => (None, o)
    | (Some a1, o) =>
      let '(_, a1, o) := MergeNode case_sensitive a b a1 o in
      (Some a1, o)
    end
  | _, _ => (None, o)
  end.

End Merge.

(** ** The reference

    The template with the values of the source: an item of an object that the
    source has too is the source's, with all below it; the items of an array
    are merged in pairs. *)

Section Reference.
Context {D : Type}.
#[local] Abbreviation tree := (cJSON D).
Implicit Types a b : tree.

Definition item_of (j : tree) (k : string) : option tree := position_of k (child j) ≫= fun i => child j !! i.

Definition take_value (b c : tree) : tree := default c (key c ≫= item_of b).

Fixpoint merged (a b : tree) : tree :=
  match a with
  | Json t _ _ _ _ cs =>
    if t =? cJSON_Number then set_int (set_double a (valuedouble b)) (valueint b)
    else if t =? cJSON_String then match valuestring b with Some s => set_text a s | None => a end
    else if t =? cJSON_Raw then a
    else if t =? cJSON_Object then set_child a (take_value b <$> cs)
    else if t =? cJSON_Array then
      set_child a ((fix pairs acs bcs :=
        match acs, bcs with
        | ac :: acs', bc :: bcs' => merged ac bc :: pairs acs' bcs'
        | _, _ => acs
        end) cs (child b))
    else set_type a (type b)
  end.

(** Where the template has a number or a string, the source has one too. *)
Fixpoint fits (a b : tree) : Prop :=
  match a with
  | Json t _ _ _ _ cs =>
    ((t = cJSON_Number \/ t = cJSON_String) -> type b = t) /\
    (t = cJSON_Object ->
      (fix all cs := match cs with
       | [] => True
       | c :: cs' => match key c ≫= item_of b with Some bc => fits c bc | None => True end /\ all cs'
       end) cs) /\
    (t = cJSON_Array ->
      (fix pairs acs bcs := match acs, bcs with
       | ac :: acs', bc :: bcs' => fits ac bc /\ pairs acs' bcs'
       | _, _ => True
       end) cs (child b))
  end.

End Reference.

(** ** Lemmas *)

Section Lemmas.
Context {D : Type}.
#[local] Abbreviation tree := (cJSON D).
Implicit Types a b j c : tree.

Lemma kinds_split (t : Z) (P : Prop) : t ∈ kinds ->
  (t = cJSON_False \/ t = cJSON_True \/ t = cJSON_NULL -> P) -> (t = cJSON_Number -> P) -> (t = cJSON_String -> P) ->
  (t = cJSON_Raw -> P) -> (t = cJSON_Object -> P) -> (t = cJSON_Array -> P) -> P.
Proof.
  unfold kinds. intros Ht ??????.
  repeat match goal with H : _ ∈ _ :: _ |- _ => apply elem_of_cons in H as [->|H]; [by auto|] end.
  by apply elem_of_nil in Ht.
Qed.

Lemma wf_type j : wf j -> type j ∈ kinds.
Proof. destruct j. by intros [? _]. Qed.

Lemma wf_text j : wf j -> type j = cJSON_String -> is_Some (valuestring j).
Proof. destruct j. by intros (_ & ? & _). Qed.

(** The low byte of a type without flags is the type. *)
Lemma wf_kind j : wf j -> kind j = type j.
Proof.
  intros Hw%wf_type. unfold kind.
  apply (kinds_split (type j)); [done|..]; intros; destruct_or?; by match goal with H : type j = _ |- _ => rewrite H end.
Qed.

Lemma wf_valid j : wf j -> is_valid_cjson_type (type j) = true.
Proof.
  intros Hw. unfold is_valid_cjson_type. pose proof (wf_kind j Hw) as Hk. unfold kind in Hk. rewrite Hk.
  apply existsb_exists. exists (type j). split; [by apply list_elem_of_In, wf_type|apply Z.eqb_refl].
Qed.

Lemma wf_children j : wf j -> Forall wf (child j).
Proof.
  destruct j as [t vs vi vd k cs]. intros (_ & _ & _ & Hall). simpl in *. induction cs; constructor; [apply Hall|].
  apply IHcs, Hall.
Qed.

Lemma wf_object j : wf j -> type j = cJSON_Object ->
  Forall (fun c => is_Some (key c)) (child j) /\ NoDup (key <$> child j).
Proof. destruct j as [t vs vi vd k cs]. intros (_ & _ & Hn & _) Ht. simpl in *. by rewrite Ht in Hn. Qed.

Lemma wf_intro t vs vi vd k cs : t ∈ kinds -> (t = cJSON_String -> is_Some vs) ->
  (if t =? cJSON_Object then Forall (fun c => is_Some (key c)) cs /\ NoDup (key <$> cs)
   else Forall (fun c => key c = None) cs) -> Forall wf cs -> wf (Json t vs vi vd k cs).
Proof. intros ??? Hall. do 3 (split; [done|]). clear -Hall. simpl. induction Hall; auto. Qed.

(** Other children with the same names. *)
Lemma wf_set_child j cs : wf j -> key <$> cs = key <$> child j -> Forall wf cs -> wf (set_child j cs).
Proof.
  destruct j as [t vs vi vd k cs0]. intros (Ht & Hs & Hn & _) Hk Hall. simpl in *. apply (wf_intro t vs vi vd k cs); [done..| |done].
  assert (Hf : forall P : option string -> Prop, Forall (fun c => P (key c)) cs0 -> Forall (fun c => P (key c)) cs).
  { intros P HP. apply (proj2 (Forall_fmap key P cs0)) in HP. rewrite <- Hk in HP. exact (proj1 (Forall_fmap key P cs) HP). }
  destruct (t =? cJSON_Object); [|by apply (Hf (fun k => k = None))].
  split; [apply (Hf is_Some), Hn|]. rewrite Hk. apply Hn.
Qed.

Lemma position_of_cons k c (cs : list tree) :
  position_of k (c :: cs) = if decide (has_key k c) then Some 0%nat else S <$> position_of k cs.
Proof.
  unfold position_of. simpl. destruct (decide _); [done|]. by destruct (list_find _ cs) as [[]|].
Qed.

(** The names alone decide. *)
Lemma position_of_keys k (cs cs' : list tree) : key <$> cs = key <$> cs' -> position_of k cs = position_of k cs'.
Proof.
  revert cs'. induction cs as [|c cs IH]; intros [|c' cs'] Hk; try done. injection Hk as Hc Hk.
  rewrite !position_of_cons, (IH cs' Hk).
  destruct (decide (has_key k c)), (decide (has_key k c')); unfold has_key in *; congruence.
Qed.

Lemma position_of_lookup k (cs : list tree) i : position_of k cs = Some i -> exists c, cs !! i = Some c /\ key c = Some k.
Proof.
  unfold position_of. intros ([i' c] & Hf & ->)%fmap_Some. apply list_find_Some in Hf as (Hc & Hk & _).
  by exists c.
Qed.

(** With distinct names, the position of a name is where it is. *)
Lemma position_of_here k (xs : list tree) c ys :
  key c = Some k -> NoDup (key <$> xs ++ c :: ys) -> position_of k (xs ++ c :: ys) = Some (length xs).
Proof.
  intros Hc. induction xs as [|x xs IH]; csimpl; intros Hnd; rewrite position_of_cons.
  - by rewrite decide_True.
  - apply NoDup_cons in Hnd as [Hx Hnd]. rewrite IH by done. rewrite decide_False; [done|].
    intros Hk. apply Hx. rewrite Hk, <- Hc, fmap_app. set_solver.
Qed.

Lemma item_of_child j k c : item_of j k = Some c -> c ∈ child j /\ key c = Some k.
Proof.
  unfold item_of. intros (i & Hp & Hc)%bind_Some. apply position_of_lookup in Hp as (c' & Hc' & Hk).
  rewrite Hc in Hc'. injection Hc' as ->. split; [by eapply list_elem_of_lookup_2|done].
Qed.

Lemma take_value_key b c : key (take_value b c) = key c.
Proof.
  unfold take_value. destruct (key c) as [k|] eqn:Hk; [|done]. simpl.
  destruct (item_of b k) as [bc|] eqn:Hb; [exact (proj2 (item_of_child b k bc Hb))|done].
Qed.

Lemma fits_object a b : fits a b -> type a = cJSON_Object ->
  Forall (fun c => forall bc, key c ≫= item_of b = Some bc -> fits c bc) (child a).
Proof.
  destruct a as [t vs vi vd k cs]. intros (_ & Hf & _) Ht. specialize (Hf Ht). clear Ht. simpl.
  induction cs as [|c cs IH]; constructor; [|by apply IH, Hf].
  intros bc Hbc. destruct Hf as [Hf _]. by rewrite Hbc in Hf.
Qed.

Lemma Forall2_sides {A B : Type} (P S : A -> B -> Prop) (Q : A -> Prop) (R : B -> Prop) l k :
  Forall2 P l k -> Forall Q l -> Forall R k -> (forall x y, Q x -> R y -> P x y -> S x y) -> Forall2 S l k.
Proof. induction 1; intros HQ HR Hs; [constructor|]. apply Forall_cons in HQ as [??], HR as [??]. constructor; auto. Qed.

Lemma set_child_same j : set_child j (child j) = j.
Proof. by destruct j. Qed.

Lemma set_child_twice j cs cs' : set_child (set_child j cs) cs' = set_child j cs'.
Proof. done. Qed.

End Lemmas.

(** ** The merge follows the reference *)

Section Correct.
Context {D : Type} `{CjsonTree D}.
#[local] Abbreviation tree := (cJSON D).
Implicit Types a b c : tree.

(** Below a copy of the source, the merge changes nothing. *)
Definition keeps (merge : tree -> tree -> tree -> list bool -> bool * tree * list bool) (a b : tree) : Prop :=
  forall o, exists ok o', merge a b b o = (ok, b, o') /\ (o = [] -> o' = []).

Lemma get_item j k : named_items j -> item_at j (cJSON_GetObjectItemCaseSensitive j k) = item_of j k.
Proof. intros Hw. unfold item_at, item_of. by rewrite get_item_first. Qed.

Lemma duplicate_cases j o : wf j ->
  (exists o', cJSON_Duplicate j true o = (None, o') /\ o <> []) \/
  (exists o', cJSON_Duplicate j true o = (Some j, o') /\ (o = [] -> o' = [])).
Proof.
  intros Hw. destruct (cJSON_Duplicate j true o) as [[j'|] o'] eqn:Hd.
  - right. pose proof (duplicate_identical j o j' o' Hw Hd) as ->. exists o'. split; [done|].
    intros ->. rewrite duplicate_enough in Hd by done. by injection Hd.
  - left. exists o'. split; [done|]. intros ->. by rewrite duplicate_enough in Hd.
Qed.

(** One child of the template: the item of its name becomes the source's, or
    memory runs out and nothing changes. *)
Lemma merge_child_step merge a_child b a1 o k i c1 :
  wf b -> wf a1 -> key a_child = Some k -> position_of k (child a1) = Some i -> child a1 !! i = Some c1 ->
  (forall bc, item_of b k = Some bc -> keeps merge a_child bc) ->
  (exists o', merge_child (merge a_child) a_child b a1 o = (false, a1, o') /\ o <> []) \/
  (exists o', merge_child (merge a_child) a_child b a1 o =
      (true, set_child a1 (<[i := default c1 (item_of b k)]> (child a1)), o') /\ (o = [] -> o' = [])).
Proof.
  intros Hb Ha1 Hk Hi Hc1 Hkeep. unfold merge_child. rewrite Hk, get_item by (by apply wf_named).
  destruct (item_of b k) as [bc|] eqn:Hbc; cbn [default].
  - assert (Hwbc : wf bc) by (apply (proj1 (Forall_forall _ _) (wf_children b Hb)), (item_of_child b k), Hbc).
    destruct (duplicate_cases bc o Hwbc) as [(o' & -> & Ho)|(o' & -> & Ho)]; [left; by exists o'|right].
    assert (Hlt : (i < length (child a1))%nat) by by eapply lookup_lt_Some.
    cbn [negb]. rewrite (get_item_first a1) by (by apply wf_named); rewrite Hi, replace_item by done.
    assert (Hkeys : key <$> <[i := bc]> (child a1) = key <$> child a1).
    { apply position_of_lookup in Hi as (c & Hc & Hkc). apply item_of_child in Hbc as [_ Hkb].
      rewrite list_fmap_insert. apply list_insert_id. by rewrite list_lookup_fmap, Hc, Hkb, <- Hkc. }
    assert (Hw1 : wf (set_child a1 (<[i := bc]> (child a1)))).
    { apply wf_set_child; [done..|]. apply Forall_insert; [by apply wf_children|done]. }
    rewrite get_item_first by (by apply wf_named). cbn [child set_child].
    rewrite (position_of_keys k _ _ Hkeys), Hi. cbn [item_at mbind option_bind child set_child]. rewrite list_lookup_insert_eq by done.
    destruct (Hkeep bc eq_refl o') as (ok & o2 & -> & Ho2). exists o2. split; [|auto].
    cbn [child set_child]. rewrite set_child_twice, list_insert_insert_eq. done.
  - right. exists o. split; [|done]. cbn [negb]. rewrite get_item_first, Hi by (by apply wf_named).
    cbn [item_at mbind option_bind]. rewrite Hc1. by rewrite list_insert_id, set_child_same.
Qed.

Lemma item_of_none (j : tree) (k : string) : item_of j k = None -> position_of k (child j) = None.
Proof.
  unfold item_of. destruct (position_of k (child j)) as [i|] eqn:Hp; [|done].
  apply position_of_lookup in Hp as (c & Hc & _). cbn. by rewrite Hc.
Qed.

Lemma children_keep merge b cs : wf b -> Forall (fun c => is_Some (key c)) cs ->
  Forall (fun c => forall bc, key c ≫= item_of b = Some bc -> keeps merge c bc) cs ->
  forall o, exists ok o', merge_children merge b cs b o = (ok, b, o') /\ (o = [] -> o' = []).
Proof.
  intros Hb Hk Hall. induction Hall as [|c cs Hc _ IH]; intros o; [by exists true, o|]. cbn [merge_children].
  apply Forall_cons in Hk as [[k Hk] Hks]. specialize (IH Hks).
  assert (Hstep : exists ok o', merge_child (merge c) c b b o = (ok, b, o') /\ (o = [] -> o' = [])).
  { destruct (item_of b k) as [bc|] eqn:Hbc.
    - pose proof Hbc as Hpos. unfold item_of in Hpos. apply bind_Some in Hpos as (i & Hi & Hl).
      destruct (merge_child_step merge c b b o k i bc Hb Hb Hk Hi Hl) as [(o' & -> & Ho)|(o' & -> & Ho)].
      + intros bc' Hbc'. apply Hc. by rewrite Hk.
      + by exists false, o'.
      + exists true, o'. rewrite Hbc. cbn [default]. by rewrite list_insert_id, set_child_same.
    - exists true, o. unfold merge_child. rewrite Hk, get_item, Hbc by (by apply wf_named). cbn [negb].
      rewrite get_item_first by (by apply wf_named); by rewrite (item_of_none b k Hbc). }
  destruct Hstep as (ok & o' & -> & Ho). destruct ok; cbn [negb]; [|by exists false, o'].
  destruct (IH o') as (ok & o2 & -> & Ho2). exists ok, o2. split; [done|auto].
Qed.

Lemma items_keep merge acs bcs :
  Forall2 (keeps merge) (take (length bcs) acs) (take (length acs) bcs) ->
  forall o, exists o', merge_items merge acs bcs bcs o = (bcs, o') /\ (o = [] -> o' = []).
Proof.
  revert bcs. induction acs as [|a acs IH]; intros [|b bcs] Hall o; [by exists o..|].
  cbn [length take] in Hall. apply Forall2_cons in Hall as [Hk Hall]. cbn [merge_items].
  destruct (Hk o) as (ok & o1 & -> & Ho1). destruct (IH bcs Hall o1) as (o2 & -> & Ho2).
  exists o2. split; [done|auto].
Qed.

Lemma fits_array a b : fits a b -> type a = cJSON_Array ->
  Forall2 fits (take (length (child b)) (child a)) (take (length (child a)) (child b)).
Proof.
  destruct a as [t vs vi vd k cs]. intros (_ & _ & Hf) Ht. specialize (Hf Ht). clear Ht. simpl.
  revert Hf. generalize (child b). induction cs as [|c cs IH]; intros [|bc bcs]; [constructor..|].
  intros [Hc Hf]. cbn [length take]. constructor; [done|]. by apply IH.
Qed.

Lemma fits_scalar a b : fits a b -> type a = cJSON_Number \/ type a = cJSON_String -> type b = type a.
Proof. destruct a. by intros [Hf _]. Qed.

Lemma set_number_same b : type b = cJSON_Number ->
  set_type (set_int (cJSON_SetNumberHelper b (valuedouble b)) (valueint b)) cJSON_Number = b.
Proof. intros Ht. destruct (set_number b (valuedouble b)) as [i ->]. destruct b. simpl in *. by rewrite Ht. Qed.

Lemma set_type_same b : wf b -> set_type b (kind b) = b.
Proof. intros Hw. rewrite wf_kind by done. by destruct b. Qed.

(** The value of a string is set to itself. *)
Lemma set_text_keeps b o : wf b -> exists ok o', cJSON_SetValuestring b (valuestring b) o = (ok, b, o') /\ (o = [] -> o' = []).
Proof.
  intros Hw. destruct (decide (type b = cJSON_String)) as [Ht|Ht].
  - destruct (wf_text b Hw Ht) as [s Hs]. rewrite Hs.
    assert (Hsame : set_text b s = b) by (destruct b; simpl in *; by rewrite Hs).
    destruct (cJSON_SetValuestring b (Some s) o) as [[ok j'] o'] eqn:Hset.
    pose proof (set_valuestring b s o ok j' o' Hset) as [Hj _]. exists ok, o'. split.
    + rewrite Hj. destruct ok; by rewrite ?Hsame.
    + intros ->. rewrite set_valuestring_enough in Hset by done. by injection Hset.
  - exists false, o. split; [|done]. by apply set_valuestring_other.
Qed.

Lemma MergeNode_eq cs a b a1 o : wf a -> MergeNode cs a b a1 o =
  if (type a =? cJSON_False) || (type a =? cJSON_True) || (type a =? cJSON_NULL) then (true, set_type a1 (kind b), o)
  else if type a =? cJSON_Number then
    (true, set_type (set_int (cJSON_SetNumberHelper a1 (valuedouble b)) (valueint b)) cJSON_Number, o)
  else if (type a =? cJSON_String) || (type a =? cJSON_Raw) then
    let '(ok, a1, o) := cJSON_SetValuestring a1 (valuestring b) o in
    if negb ok then (false, a1, o) else (true, set_type a1 (kind b), o)
  else if type a =? cJSON_Object then merge_children (MergeNode cs) b (child a) a1 o
  else if type a =? cJSON_Array then
    let '(xs, o) := merge_items (MergeNode cs) (child a) (child b) (child a1) o in (true, set_child a1 xs, o)
  else (true, a1, o).
Proof. intros Hw%wf_kind. rewrite <- Hw. by destruct a. Qed.

Lemma MergeNode_keeps cs a b : wf a -> wf b -> fits a b -> keeps (MergeNode cs) a b.
Proof.
  revert b. induction a as [t vs vi vd k acs IH] using cJSON_ind. intros b Ha Hb Hf o.
  set (a := Json t vs vi vd k acs) in *. rewrite MergeNode_eq by done. change (type a) with t. change (child a) with acs.
  pose proof (wf_children a Ha) as Hwa. change (child a) with acs in Hwa.
  apply (kinds_split t _ (wf_type a Ha)); [intros [-> | [-> | ->]]|intros ->..]; simpl.
  1-3: exists true, o; by rewrite set_type_same.
  - exists true, o. rewrite set_number_same; [done|]. apply (fits_scalar a b Hf). by left.
  - destruct (set_text_keeps b o Hb) as (ok & o' & -> & Ho). destruct ok; cbn [negb]; [exists true|exists false]; exists o'; by rewrite ?set_type_same.
  - destruct (set_text_keeps b o Hb) as (ok & o' & -> & Ho). destruct ok; cbn [negb]; [exists true|exists false]; exists o'; by rewrite ?set_type_same.
  - apply children_keep; [done|by apply (wf_object a Ha)|].
    pose proof (fits_object a b Hf eq_refl) as Hfo. change (child a) with acs in Hfo.
    apply Forall_forall. intros c Hc bc Hbc.
    apply (proj1 (Forall_forall _ _) IH c Hc); [by apply (proj1 (Forall_forall _ _) Hwa)| |by apply (proj1 (Forall_forall _ _) Hfo)].
    apply bind_Some in Hbc as (kc & _ & Hbc). apply (proj1 (Forall_forall _ _) (wf_children b Hb)), (item_of_child b kc bc Hbc).
  - destruct (items_keep (MergeNode cs) acs (child b)) with (o := o) as (o' & -> & Ho).
    + pose proof (fits_array a b Hf eq_refl) as Hfa. change (child a) with acs in Hfa.
      apply (Forall2_sides _ _ _ _ _ _ Hfa (Forall_take _ _ _ (proj2 (Forall_and _ _) (conj IH Hwa))) (Forall_take _ _ _ (wf_children b Hb))).
      intros x y [HIH Hx] Hy Hxy. by apply HIH.
    + exists true, o'. by rewrite set_child_same.
Qed.

(** *** The top of the tree *)

Lemma take_value_wf b c : wf b -> wf c -> wf (take_value b c).
Proof.
  intros Hb Hc. unfold take_value. destruct (key c ≫= item_of b) as [bc|] eqn:Hbc; [|done].
  apply bind_Some in Hbc as (k & _ & Hbc). apply (proj1 (Forall_forall _ _) (wf_children b Hb)), (item_of_child b k bc Hbc).
Qed.

(** A copy of a child: taken, or memory ran out. *)
Lemma merge_child_top merge b c a1 xs ys o :
  wf b -> wf a1 -> type a1 = cJSON_Object -> child a1 = xs ++ c :: ys ->
  (forall bc, key c ≫= item_of b = Some bc -> keeps merge c bc) ->
  (exists o', merge_child (merge c) c b a1 o = (false, a1, o') /\ o <> []) \/
  (exists o', merge_child (merge c) c b a1 o = (true, set_child a1 (xs ++ take_value b c :: ys), o') /\ (o = [] -> o' = [])).
Proof.
  intros Hb Ha1 Ht Hcs Hkeep. destruct (wf_object a1 Ha1 Ht) as [Hnames Hnd]. rewrite Hcs in Hnames, Hnd.
  apply Forall_app in Hnames as [_ Hnames]. apply Forall_cons in Hnames as [[k Hk] _].
  pose proof (position_of_here k xs c ys Hk Hnd) as Hp. rewrite <- Hcs in Hp.
  destruct (merge_child_step merge c b a1 o k (length xs) c Hb Ha1 Hk Hp) as [?|(o' & Hm & Ho)].
  - rewrite Hcs. apply list_lookup_middle. done.
  - intros bc Hbc. apply Hkeep. by rewrite Hk.
  - by left.
  - right. exists o'. rewrite Hm, Hcs. split; [|done]. unfold take_value. rewrite Hk. cbn [mbind option_bind].
    by rewrite insert_app_r_alt, Nat.sub_diag by lia.
Qed.

Lemma merge_children_top merge b : wf b -> forall ys xs a1 o,
  wf a1 -> type a1 = cJSON_Object -> child a1 = xs ++ ys ->
  Forall (fun c => forall bc, key c ≫= item_of b = Some bc -> keeps merge c bc) ys ->
  exists ok n o', merge_children merge b ys a1 o =
      (ok, set_child a1 (xs ++ (take_value b <$> take n ys) ++ drop n ys), o') /\ (n <= length ys)%nat /\
    (o = [] -> n = length ys /\ o' = []).
Proof.
  intros Hb. induction ys as [|c ys IH]; intros xs a1 o Ha1 Ht Hcs Hall.
  - exists true, 0%nat, o. cbn. rewrite app_nil_r in *. rewrite <- Hcs, set_child_same. done.
  - apply Forall_cons in Hall as [Hc Hall]. cbn [merge_children].
    destruct (merge_child_top merge b c a1 xs ys o Hb Ha1 Ht Hcs Hc) as [(o' & -> & Ho)|(o1 & -> & Ho1)]; cbn [negb].
    + exists false, 0%nat, o'. split; [|split; [lia|done]]. cbn. rewrite <- Hcs. by rewrite set_child_same.
    + set (a2 := set_child a1 (xs ++ take_value b c :: ys)).
      assert (Hw2 : wf a2).
      { pose proof (wf_children a1 Ha1) as Hw. rewrite Hcs in Hw. apply Forall_app in Hw as [Hxs Hcys].
        apply Forall_cons in Hcys as [Hwc Hys]. apply wf_set_child; [done| |].
        - rewrite Hcs, !fmap_app, !fmap_cons. by rewrite take_value_key.
        - apply Forall_app. split; [done|]. apply Forall_cons. split; [by apply take_value_wf|done]. }
      destruct (IH (xs ++ [take_value b c])%list a2 o1 Hw2 Ht) as (ok & n & o2 & Hm & Hn & Ho2); [cbn; by rewrite <- app_assoc|done|].
      exists ok, (S n), o2. rewrite Hm. unfold a2. rewrite set_child_twice, <- app_assoc. split; [done|].
      split; [cbn; lia|]. intros Ho. destruct (Ho2 (Ho1 Ho)) as [-> ->]. done.
Qed.

Lemma keeps_below cs a b : wf a -> wf b -> fits a b -> type a = cJSON_Object ->
  Forall (fun c => forall bc, key c ≫= item_of b = Some bc -> keeps (MergeNode cs) c bc) (child a).
Proof.
  intros Ha Hb Hf Ht. apply Forall_forall. intros c Hc bc Hbc. apply MergeNode_keeps.
  - by apply (proj1 (Forall_forall _ _) (wf_children a Ha)).
  - apply bind_Some in Hbc as (k & _ & Hbc). apply (proj1 (Forall_forall _ _) (wf_children b Hb)), (item_of_child b k bc Hbc).
  - by apply (proj1 (Forall_forall _ _) (fits_object a b Hf Ht)).
Qed.

(** With memory for the copies, the merge is the reference. *)
Lemma MergeNode_top cs a b : wf a -> wf b -> fits a b -> exists ok, MergeNode cs a b a [] = (ok, merged a b, []).
Proof.
  revert b. induction a as [t vs vi vd k acs IH] using cJSON_ind. intros b Ha Hb Hf.
  set (a := Json t vs vi vd k acs) in *. rewrite MergeNode_eq by done. change (type a) with t. change (child a) with acs.
  pose proof (wf_children a Ha) as Hwa. change (child a) with acs in Hwa.
  apply (kinds_split t _ (wf_type a Ha)); [intros [Ht | [Ht | Ht]]|intros Ht..]; subst t; simpl.
  1-3: exists true; by rewrite wf_kind.
  - exists true. destruct (set_number a (valuedouble b)) as [i ->]. done.
  - pose proof (fits_scalar a b Hf (or_intror eq_refl)) as Htb. destruct (wf_text b Hb Htb) as [s Hs]. rewrite Hs.
    rewrite set_valuestring_enough by done. exists true. cbn [negb]. rewrite wf_kind by done. rewrite Htb. done.
  - rewrite set_valuestring_other by done. by exists false.
  - destruct (merge_children_top (MergeNode cs) b Hb acs [] a [] Ha eq_refl eq_refl (keeps_below cs a b Ha Hb Hf eq_refl))
      as (ok & n & o' & -> & _ & Ho). destruct (Ho eq_refl) as [-> ->]. exists ok. rewrite firstn_all, drop_all, app_nil_r. done.
  - exists true. pose proof (fits_array a b Hf eq_refl) as Hfa. pose proof (wf_children b Hb) as Hwb. change (child a) with acs in Hfa.
    assert (Hm : forall bcs, Forall wf bcs -> Forall2 fits (take (length bcs) acs) (take (length acs) bcs) ->
      merge_items (MergeNode cs) acs bcs acs [] =
        ((fix pairs acs bcs := match acs, bcs with
          | ac :: acs', bc :: bcs' => merged ac bc :: pairs acs' bcs' | _, _ => acs end) acs bcs, [])); [|by rewrite (Hm (child b))].
    clear -IH Hwa. induction acs as [|c acs IHacs]; intros [|bc bcs] Hw Hf; [done..|]. cbn [length take] in Hf.
    apply Forall2_cons in Hf as [Hc Hf]. apply Forall_cons in Hw as [Hbc Hw], IH as [IHc IH], Hwa as [Hwc Hwa].
    cbn [merge_items]. destruct (IHc bc Hwc Hbc Hc) as [ok ->]. by rewrite (IHacs IH Hwa bcs Hw Hf).
Qed.

End Correct.

(** ** A library on trees of integers *)

Definition demo_number (number : Z) : cJSON Z := Json cJSON_Number None number number None [].

Definition with_key (k : string) (j : cJSON Z) : cJSON Z :=
  Json (type j) (valuestring j) (valueint j) (valuedouble j) (Some k) (child j).

Definition demo_duplicate (j : cJSON Z) (recurse : bool) (o : list bool) : option (cJSON Z) * list bool :=
  let '(ok, o) := malloc o in
  (if ok then Some (if recurse then j else set_child j []) else None, o).

Definition demo_set_valuestring (j : cJSON Z) (s : option string) (o : list bool) : bool * cJSON Z * list bool :=
  if type j =? cJSON_String then
    match s with
    | Some s => let '(ok, o) := malloc o in (ok, if ok then set_text j s else j, o)
    | None => (false, j, o)
    end
  else (false, j, o).

#[export, program] Instance demo_cjson_tree : CjsonTree Z := {
  cJSON_Duplicate := demo_duplicate;
  cJSON_GetObjectItemCaseSensitive j k := position_of k (child j);
  cJSON_ReplaceItemViaPointer j i r := from_option (fun i => set_child j (<[i := r]> (child j))) j i;
  cJSON_SetNumberHelper j d := set_int (set_double j d) (Z.max INT32_MIN (Z.min INT32_MAX d));
  cJSON_SetValuestring := demo_set_valuestring;
  cJSON_CreateObject := Json cJSON_Object None 0 0 None [];
  cJSON_AddNumberToObject j k n := set_child j (child j ++ [with_key k (demo_number n)])%list;
  cJSON_AddBoolToObject j k v :=
    set_child j (child j ++ [Json (if v then cJSON_True else cJSON_False) None 0 0 (Some k) []])%list
}.
Next Obligation. unfold demo_duplicate. intros j o j' o' _ Hd. by destruct o as [|[] o]; inversion Hd. Qed.
Next Obligation. done. Qed.
Next Obligation. done. Qed.
Next Obligation. done. Qed.
Next Obligation. intros j d. by eexists. Qed.
Next Obligation.
  unfold demo_set_valuestring. intros j s o ok j' o'. destruct (Z.eqb_spec (type j) cJSON_String).
  - destruct (malloc o) as [b o2]. intros Hs. inversion Hs. by subst.
  - intros Hs. inversion Hs. by subst.
Qed.
Next Obligation. unfold demo_set_valuestring. intros j s Ht. by rewrite Ht. Qed.
Next Obligation. unfold demo_set_valuestring. intros j s o Ht. by destruct (Z.eqb_spec (type j) cJSON_String). Qed.

(** A template and the values of an older version: one item is new, one is
    gone, one has the same name. *)
Definition demo_template : cJSON Z :=
  cJSON_AddNumberToObject (cJSON_AddBoolToObject (cJSON_AddNumberToObject cJSON_CreateObject "pcu_id" 1) "spd_enable" true) "xxxx_id" 7.
Definition demo_values : cJSON Z :=
  cJSON_AddBoolToObject (cJSON_AddNumberToObject (cJSON_AddNumberToObject cJSON_CreateObject "work_altitude" 1000) "pcu_id" 42) "spd_enable" false.

Lemma demo_template_wf : wf demo_template /\ wf demo_values.
Proof.
  split; (split; [set_solver|split; [done|split; [split|]]]); cbn;
    repeat first [done|set_solver|constructor|split].
Qed.

Lemma demo_fits : fits demo_template demo_values.
Proof. cbn. repeat split; intros; try done; destruct_or?; done. Qed.

(** ** Properties *)

Section Properties.
Context {D : Type} `{CjsonTree D}.
Implicit Types a b : cJSON D.

(** for an object as template and a source with numbers and strings where
    the template has them, the merge returns the template's items in the
    template's order and under its names; each is the source's item of that
    name, where it has one, or the template's own.  Without memory for a copy
    the result is null, or the items from some position on are still the
    template's. *)
Theorem merge_takes_values a b case_sensitive o : wf a -> wf b -> fits a b -> type a = cJSON_Object ->
  match (cJSON_MergeWithTemplate (Some a) (Some b) case_sensitive o).1 with
  | None => o <> []
  | Some r =>
    type r = cJSON_Object /\ key <$> child r = key <$> child a /\
    exists n, (n <= length (child a))%nat /\ (o = [] -> n = length (child a)) /\
      child r = ((take_value b <$> take n (child a)) ++ drop n (child a))%list
  end.
Proof.
  intros Ha Hb Hf Ht. unfold cJSON_MergeWithTemplate. rewrite !wf_valid by done. cbn [negb orb].
  destruct (duplicate_cases a o Ha) as [(o' & -> & Ho)|(o1 & -> & Ho1)]; [done|].
  rewrite MergeNode_eq, Ht by done. cbn -[merge_children].
  destruct (merge_children_top (MergeNode case_sensitive) b Hb (child a) [] a o1 Ha Ht eq_refl (keeps_below case_sensitive a b Ha Hb Hf Ht))
    as (ok & n & o2 & -> & Hn & Ho2). cbn. split; [done|]. split.
  - rewrite fmap_app, <- list_fmap_compose. rewrite (list_fmap_ext _ key (take n (child a))) by (intros; apply take_value_key).
    by rewrite <- fmap_app, take_drop.
  - exists n. split; [done|]. split; [|done]. intros Ho. by apply Ho2, Ho1.
Qed.

(** with memory for the copies, the merge of any template with such a
    source is the reference merge, at every kind of template. *)
Theorem merge_is_reference a b case_sensitive : wf a -> wf b -> fits a b ->
  cJSON_MergeWithTemplate (Some a) (Some b) case_sensitive [] = (Some (merged a b), []).
Proof.
  intros Ha Hb Hf. unfold cJSON_MergeWithTemplate. rewrite !wf_valid by done. cbn [negb orb].
  rewrite duplicate_enough by done. by destruct (MergeNode_top case_sensitive a b Ha Hb Hf) as [ok ->].
Qed.

End Properties.

Lemma merge_takes_values_witness :
  wf demo_template /\ wf demo_values /\ fits demo_template demo_values /\
  match (cJSON_MergeWithTemplate (Some demo_template) (Some demo_values) true [true; true; false]).1 with
  | None => False
  | Some r => key <$> child r = [Some "pcu_id"; Some "spd_enable"; Some "xxxx_id"] /\ valueint <$> child r = [42; 0; 7]
  end.
Proof.
  destruct demo_template_wf as [Ha Hb]. split; [done|]. split; [done|]. split; [exact demo_fits|].
  pose proof (merge_takes_values demo_template demo_values true [true; true; false] Ha Hb demo_fits eq_refl) as Hm.
  vm_compute in Hm |- *. destruct Hm as (_ & Hk & _). by split.
Defined.

Lemma merge_is_reference_witness :
  wf demo_template /\ wf demo_values /\ fits demo_template demo_values /\
  valuedouble <$> child (merged demo_template demo_values) = [42; 0; 7] /\
  cJSON_MergeWithTemplate (Some demo_template) (Some demo_values) true [] = (Some (merged demo_template demo_values), []).
Proof.
  destruct demo_template_wf as [Ha Hb]. split; [done|]. split; [done|]. split; [exact demo_fits|]. split; [done|].
  exact (merge_is_reference demo_template demo_values true Ha Hb demo_fits).
Defined.
