(* ===== verification/ConfigTools.v ===== *)
(** * The pcu configuration and its keys ([src/src/config/config_cmp_key.c])

    [pcu_config_init] builds the defaults with the JSON library and sets them
    in the configuration tables; [traverse_all_keys_recursive] reports the path
    of every item.  The trees of [MergeTemplate] are the values of the tables
    of [Config] here. *)

From stdpp Require Import pretty.
From S2P Require Import Prelude Log Utils Lru Sqlite Config MergeTemplate.

(** ** The defaults *)

Section Pcu.
Context {D : Type} `{CjsonTree D} `{!Cjson (cJSON D)}.
#[local] Abbreviation tree := (cJSON D).
#[local] Abbreviation state_t := (config_state tree).
#[local] Notation "x <~ m ; k" := (bindM m (fun x => k))
  (at level 20, m at level 100, k at level 200, right associativity).

Definition PCU_CONFING_NAME : string := "pcu".

Definition pcu_numbers : list (string * Z) :=
  [("pcu_id", 1); ("branch_system", 2); ("ccu_num", 4); ("dc_dc_model", 1); ("meter_model", 1); ("device_control_mode", 1);
   ("dcdc_alarm_mode", 1); ("pdu_alarm_mode", 1); ("meter_alarm_mode", 1); ("high_vol_input_mode", 1)]%string.
Definition pcu_switches : list string := ["spd_enable"; "door_access_enable"; "waterlogging_enable"; "topple_enable"]%string.

Definition add_numbers (l : list (string * Z)) (j : tree) : tree := foldl (fun j p => cJSON_AddNumberToObject j p.1 p.2) j l.
Definition add_switches (l : list string) (j : tree) : tree := foldl (fun j k => cJSON_AddBoolToObject j k true) j l.

Definition pcu_config : tree :=
  add_numbers [("fan_start_temp", 40); ("work_altitude", 1000)]%string
    (add_switches pcu_switches (add_numbers pcu_numbers cJSON_CreateObject)).

Definition pcu_config_init : M bool :=
  ok <~ set_default_config (Some PCU_CONFING_NAME) (Some pcu_config);
  retM ok.

(** ** Setting a default *)

Lemma file_path_default n (j : tree) : path (fresh_item CFG_DEFAULT (default_key n) j) = (DEFAULT_CONFIG_PATH ++ "/" ++ default_key n)%string.
Proof. done. Qed.

(** What a [set_default_config] leaves that returned from [s]: the default is
    there and in its file, and the current value was set after it. *)
Definition default_set (n : string) (j : tree) (cur def def' : gmap string (config_manage_t tree)) (s s' : state_t) : Prop :=
  exists s1 b, cfg_ok s1 cur def' /\ fine s1 /\ calls s1 = calls s /\
  files s1 = <[(DEFAULT_CONFIG_PATH ++ "/" ++ default_key n)%string := cJSON_Print j]> (files s) /\ set_effect n j cur def' s1 b s'.

Lemma set_default_adds n j s cur def : cfg_ok s cur def -> fine s -> def !! default_key n = None ->
  wp (set_default_config (Some n) (Some j)) s (fun b s' => b = true /\
    default_set n j cur def (<[default_key n := fresh_item CFG_DEFAULT (default_key n) j]> def) s s').
Proof.
  intros Hok Hfine Hdef. unfold set_default_config. eapply wp_bind; [by apply default_name_wp|]. intros dn s1 [Hs1 ->].
  pose proof (cfg_io_same _ _ _ _ Hs1 Hok) as Hok1. pose proof (Hok1) as (_ & Hd1 & _).
  eapply wp_bind; [by apply (find_wp CFG_DEFAULT s1 def)|]. intros ? ? [-> ->]. rewrite Hdef.
  eapply wp_bind; [apply new_config_item_wp|]. intros item s2 (Hs2 & Hitem & Hfi). specialize (Hfi (ios_fine _ _ Hs1 Hfine)).
  destruct Hitem as [-> | ->]; [done|]. pose proof (cfg_io_same _ _ _ _ Hs2 Hok1) as (Hc2 & Hd2 & Hco & Hdo).
  eapply wp_bind; [by apply (hash_add_wp CFG_DEFAULT _ s2 def)|]. intros _ ? ->.
  eapply wp_bind; [apply write_wp|]. intros b s3 Hw.
  pose proof (iow_table _ _ _ _ Hw CFG_CURRENT) as E1. pose proof (iow_table _ _ _ _ Hw CFG_DEFAULT) as E2. cbn in E1, E2.
  set (def' := <[default_key n := fresh_item CFG_DEFAULT (default_key n) j]> def) in *.
  assert (Hok3 : cfg_ok s3 cur def').
  { split; [by rewrite E1|]. split; [by rewrite E2|]. split; [done|]. by apply items_insert. }
  destruct (iow_fine _ _ _ _ Hw) as [Hf3 Hw3]; [by apply (ios_fine _ _ Hs2), (ios_fine _ _ Hs1)|].
  eapply wp_bind; [by apply (set_config_wp n j s3 cur def')|]. intros b2 s4 Hse. apply wp_ret. split; [done|].
  exists s3, b2. split_and!; [done|done| | |done].
  - rewrite (iow_calls _ _ _ _ Hw). cbn. by rewrite (ios_calls _ _ Hs2), (ios_calls _ _ Hs1).
  - rewrite (Hw3 j eq_refl). cbn [files with_item with_table path fresh_item config_dir]. by rewrite (ios_files _ _ Hs2), (ios_files _ _ Hs1).
Qed.

Lemma set_default_changes n j s cur def it : cfg_ok s cur def -> fine s -> def !! default_key n = Some it ->
  compare_values (value it) (Some j) = false ->
  wp (set_default_config (Some n) (Some j)) s (fun b s' => b = true /\
    default_set n j cur def (<[default_key n := set_value it (Some j)]> def) s s').
Proof.
  intros Hok Hfine Hdef Hcmp. unfold set_default_config. eapply wp_bind; [by apply default_name_wp|]. intros dn s1 [Hs1 ->].
  pose proof (cfg_io_same _ _ _ _ Hs1 Hok) as Hok1. pose proof (Hok1) as (Hc1 & Hd1 & Hco & Hdo).
  eapply wp_bind; [by apply (find_wp CFG_DEFAULT s1 def)|]. intros ? ? [-> ->]. rewrite Hdef.
  destruct (Hdo _ _ Hdef) as (_ & Hpath & Hlock & _).
  eapply wp_bind; [by apply (same_value_wp CFG_DEFAULT _ s1 def it)|]. intros ? ? [-> ->]. rewrite Hcmp.
  eapply wp_bind; [apply (store_value_wp CFG_DEFAULT (default_key n) _ s1 def it (fun v => v = None \/ v = Some j) (Some j)); [done|done|apply duplicate_wp]|].
  intros _ s2 (v & _ & Hvf & Hst). specialize (Hvf (ios_fine _ _ Hs1 Hfine)). subst v. rewrite Hpath in Hst.
  pose proof (st_table _ _ _ _ _ _ _ _ Hst CFG_CURRENT) as E1. pose proof (st_table _ _ _ _ _ _ _ _ Hst CFG_DEFAULT) as E2. cbn in E1, E2.
  set (def' := <[default_key n := set_value it (Some j)]> def) in *.
  assert (Hok2 : cfg_ok s2 cur def').
  { split; [by rewrite E1|]. split; [by rewrite E2|]. split; [done|]. apply items_insert; [done|]. by apply set_value_ok, (Hdo _ _ Hdef). }
  destruct (st_fine _ _ _ _ _ _ _ _ Hst (ios_fine _ _ Hs1 Hfine)) as [Hf2 Hw2].
  eapply wp_bind; [by apply (set_config_wp n j s2 cur def')|]. intros b2 s3 Hse. apply wp_ret. split; [done|].
  exists s2, b2. split_and!; [done|done| | |done].
  - rewrite (st_calls _ _ _ _ _ _ _ _ Hst). apply Hs1.
  - rewrite (Hw2 j eq_refl), (ios_files _ _ Hs1). done.
Qed.

(** The current value after a default was set: it is the new one, or one that
    compares equal to it. *)
Lemma default_set_current n j cur def def' s s' : is_Some (def' !! default_key n) -> default_set n j cur def def' s s' ->
  exists cur' it, cfg_ok s' cur' def' /\ fine s' /\ cur' !! suffixed n = Some it /\ (value it = Some j \/ compare_values (value it) (Some j) = true).
Proof.
  intros Hdef (s1 & b & _ & Hf1 & _ & _ & cur' & Hok' & Hf' & Hb). specialize (Hf' Hf1). destruct b.
  - destruct Hb as [_ Hb]. destruct (cur !! suffixed n) as [it|] eqn:Hcur.
    + destruct (compare_values (value it) (Some j)) eqn:Hcmp.
      * destruct Hb as [-> _]. exists cur, it. split_and!; [done|done|done|by right].
      * destruct Hb as (v & _ & -> & _ & _ & Hv). destruct (Hv Hf1) as [-> _]. exists (<[suffixed n := set_value it (Some j)]> cur), (set_value it (Some j)).
        split_and!; [done|done|apply lookup_insert_eq|by left].
    + destruct Hb as [-> _]. eexists _, _. split_and!; [done|done|apply lookup_insert_eq|by left].
  - destruct Hb as (_ & _ & _ & Hn). specialize (Hn Hf1). rewrite Hn in Hdef. by destruct Hdef.
Qed.

(** ** Properties *)

(** with memory and a disk that works, and no default that compares
    equal, [pcu_config_init] returns true, and then the default is the one of
    the program, in its file too, and the current value is that or compares
    equal to it; but the next call, which finds the default it set before,
    releases a lock it does not hold, which is undefined. *)
Theorem pcu_config_init_outcome (s : state_t) cur def : cfg_ok s cur def -> fine s ->
  cJSON_Compare pcu_config pcu_config = true ->
  match def !! default_key PCU_CONFING_NAME with Some it => compare_values (value it) (Some pcu_config) = false | None => True end ->
  exists s' cur' def' dit it, pcu_config_init s = Returns (true, s') /\ cfg_ok s' cur' def' /\
    def' !! default_key PCU_CONFING_NAME = Some dit /\ value dit = Some pcu_config /\
    cur' !! suffixed PCU_CONFING_NAME = Some it /\ (value it = Some pcu_config \/ compare_values (value it) (Some pcu_config) = true) /\
    pcu_config_init s' = Undefined.
Proof.
  intros Hok Hfine Hrefl Hcmp.
  assert (Hset : exists def' dit, def' !! default_key PCU_CONFING_NAME = Some dit /\ value dit = Some pcu_config /\
    wp (set_default_config (Some PCU_CONFING_NAME) (Some pcu_config)) s (fun b s' => b = true /\ default_set PCU_CONFING_NAME pcu_config cur def def' s s')).
  { destruct (def !! default_key PCU_CONFING_NAME) as [it|] eqn:Hdef.
    - eexists _, (set_value it (Some pcu_config)). split; [apply lookup_insert_eq|]. split; [done|]. by apply set_default_changes.
    - eexists _, (fresh_item CFG_DEFAULT (default_key PCU_CONFING_NAME) pcu_config). split; [apply lookup_insert_eq|]. split; [done|]. by apply set_default_adds. }
  destruct Hset as (def' & dit & Hdit & Hval & b & s' & Hrun & -> & Hds).
  destruct (default_set_current _ _ _ _ _ _ _ ltac:(by eexists) Hds) as (cur' & it & Hok' & Hf' & Hit & Hv).
  exists s', cur', def', dit, it. unfold pcu_config_init at 1, bindM at 1. rewrite Hrun. split_and!; try done.
  unfold pcu_config_init, bindM. rewrite (set_default_equal PCU_CONFING_NAME pcu_config s' cur' def' dit); [done..|].
  by rewrite Hval.
Qed.

End Pcu.

(** ** The keys *)

Section Keys.
Context {D : Type}.
#[local] Abbreviation tree := (cJSON D).
#[local] Open Scope string_scope.
#[local] Open Scope Z_scope.

(** [%s.%s] in 256 bytes; [printf] writes (null) for a null pointer. *)
Definition current_key (parent : string) (c : tree) : string :=
  let k := default "(null)" (key c) in
  append_text 256 "" (if String.eqb parent "" then k else parent ++ "." ++ k).
Definition array_key (current : string) (idx : Z) : string := append_text 1256 "" (current ++ "[" ++ pretty idx ++ "]").

(** The keys that are reported, in order. *)
Fixpoint traverse_all_keys_recursive (object : tree) (parent : string) : list string :=
  match object with
  | Json t _ _ _ _ cs =>
    if Z.land t 255 =? cJSON_Object then
      (fix each cs := match cs with
       | [] => []
       | c :: cs' =>
         let current := current_key parent c in
         (current ::
          (if kind c =? cJSON_Object then traverse_all_keys_recursive c current
           else if kind c =? cJSON_Array then
             match c with Json _ _ _ _ _ items =>
               (fix each_item items idx := match items with
                | [] => []
                | item :: items' =>
                  ((if kind item =? cJSON_Object then traverse_all_keys_recursive item (array_key current idx) else []) ++ each_item items' (idx + 1)%Z)%list
                end) items 0%Z
             end
           else []) ++ each cs')%list
       end) cs
    else []
  end.

(** The reference: the members reached through objects, and through the
    objects in their arrays, each with its way from the root. *)
Inductive path_step := Member (k : string) | Element (idx : Z).

Fixpoint ways (j : tree) : list (list path_step) :=
  match j with
  | Json t _ _ _ _ cs =>
    if Z.land t 255 =? cJSON_Object then
      (fix each cs := match cs with
       | [] => []
       | c :: cs' =>
         let m := Member (default "(null)" (key c)) in
         (([m] ::
          (if kind c =? cJSON_Object then cons m <$> ways c
           else if kind c =? cJSON_Array then
             match c with Json _ _ _ _ _ items =>
               (fix each_item items idx := match items with
                | [] => []
                | item :: items' =>
                  ((if kind item =? cJSON_Object then (fun w => m :: Element idx :: w) <$> ways item else []) ++ each_item items' (idx + 1)%Z)%list
                end) items 0%Z
             end
           else [])) ++ each cs')%list
       end) cs
    else []
  end.

Definition render_step (p : string) (x : path_step) : string :=
  match x with
  | Member k => if String.eqb p "" then k else p ++ "." ++ k
  | Element idx => p ++ "[" ++ pretty idx ++ "]"
  end.
Definition render (p : string) (w : list path_step) : string := foldl render_step p w.

Lemma render_app p w w' : render p (w ++ w')%list = render (render p w) w'.
Proof. apply foldl_app. Qed.

Lemma render_step_length p x : (String.length p <= String.length (render_step p x))%nat.
Proof. destruct x as [k|idx]; cbn [render_step]; [destruct (String.eqb_spec p "") as [-> | ]; [cbn; lia|]|]; rewrite length_string_app; lia. Qed.

Lemma render_length w : forall p, (String.length p <= String.length (render p w))%nat.
Proof.
  induction w as [|x w IH]; intros p; [done|]. cbn [render foldl]. etrans; [apply (render_step_length p x)|apply IH].
Qed.
Definition all_fit (p : string) (l : list (list path_step)) : Prop := Forall (fun w => (String.length (render p w) < 256)%nat) l.

Lemma current_key_fits p c : (String.length (render p [Member (default "(null)" (key c))]) < 256)%nat ->
  current_key p c = render p [Member (default "(null)" (key c))].
Proof. intros Hl. unfold current_key. by rewrite append_fits. Qed.

(** The traversal of one tree is the rendering of its ways. *)
Definition keys_are_ways (j : tree) : Prop := forall p, all_fit p (ways j) -> traverse_all_keys_recursive j p = render p <$> ways j.

Lemma item_keys item current idx : keys_are_ways item -> all_fit (render_step current (Element idx)) (ways item) ->
  traverse_all_keys_recursive item (array_key current idx) = render (render_step current (Element idx)) <$> ways item.
Proof.
  intros Hk Hf. destruct (ways item) as [|w l] eqn:Hw.
  - specialize (Hk (array_key current idx)). rewrite Hw in Hk. apply Hk. constructor.
  - assert (E : array_key current idx = render_step current (Element idx)).
    { unfold array_key. rewrite append_fits; [done|]. apply Forall_cons_1 in Hf as [Hl _].
      pose proof (render_length w (render_step current (Element idx))). cbn [render_step] in *. cbn [String.length]. lia. }
    rewrite E. rewrite <- Hw in *. by apply Hk.
Qed.

Lemma all_fit_below p m l : all_fit p (cons m <$> l) -> all_fit (render_step p m) l.
Proof. unfold all_fit. by rewrite Forall_fmap. Qed.

Lemma render_below p m (l : list (list path_step)) : render p <$> (cons m <$> l) = render (render_step p m) <$> l.
Proof. rewrite <- list_fmap_compose. by apply list_fmap_ext. Qed.

Lemma all_keys_are_ways j : keys_are_ways j /\ Forall keys_are_ways (child j).
Proof.
  revert j. apply cJSON_ind. intros t vs vi vd k cs IH. split; [|by eapply Forall_impl; [exact IH|intros ? [? _]]].
  intros p Hl. cbn in Hl |- *. destruct (Z.land t 255 =? cJSON_Object); [|done].
  induction IH as [|c cs [Hc Hcc] _ IHcs]; [done|]. cbn -[render current_key array_key] in Hl |- *.
  apply Forall_cons_1 in Hl as [Hm Hl]. apply Forall_app in Hl as [Hl Hl2].
  rewrite fmap_app, current_key_fits by done. f_equal. f_equal; [|by apply IHcs]. clear IHcs Hl2.
  set (m := Member (default "(null)" (key c))) in *. change (render p [m]) with (render_step p m) in *. destruct (kind c =? cJSON_Object).
  - rewrite render_below. by apply Hc, all_fit_below.
  - destruct (kind c =? cJSON_Array); [|done]. destruct c as [t' vs' vi' vd' k' items]. cbn [child] in Hcc. clear Hc Hm.
    revert Hl. generalize 0. induction Hcc as [|item items Hi _ IHi]; intros idx Hl; [done|]. cbn -[render array_key] in Hl |- *. rewrite fmap_app.
    apply Forall_app in Hl as [Hl Hl2]. f_equal; [|by apply IHi]. clear IHi Hl2. destruct (kind item =? cJSON_Object); [|done].
    rewrite item_keys; [|done|by rewrite Forall_fmap in Hl]. rewrite <- list_fmap_compose. by apply list_fmap_ext.
Qed.

(** the keys reported for a tree are the ways to its members through
    objects and the objects in arrays, in order, each with dots and indices;
    when all of them fit in their buffer. *)
Theorem keys_reported j : Forall (fun w => (String.length (render "" w) < 256)%nat) (ways j) ->
  traverse_all_keys_recursive j "" = render "" <$> ways j.
Proof. apply all_keys_are_ways. Qed.

End Keys.

(** ** A small configuration *)

Definition demo_pcu_json : Cjson (cJSON Z) := {|
  cJSON_Compare a b := bool_decide (key <$> child a = key <$> child b) && bool_decide (valueint <$> child a = valueint <$> child b);
  cJSON_Print j := "{}";
  cJSON_PrintUnformatted j := "{}";
  cJSON_Parse s := None |}.

Definition empty_config : config_state (cJSON Z) := Config (Table ∅) (Table ∅) ∅ [] [] [].

Lemma empty_config_ok : cfg_ok empty_config ∅ ∅.
Proof. split; [reflexivity|]. split; [reflexivity|]. split; apply map_Forall_empty. Qed.

Lemma demo_compare_refl j : demo_pcu_json.(@cJSON_Compare _) j j = true.
Proof. cbn. by rewrite !bool_decide_eq_true_2. Qed.

Lemma pcu_config_init_outcome_witness : exists s', pcu_config_init (Cjson0 := demo_pcu_json) empty_config = Returns (true, s') /\
  pcu_config_init (Cjson0 := demo_pcu_json) s' = Undefined.
Proof.
  destruct (pcu_config_init_outcome (Cjson0 := demo_pcu_json) empty_config ∅ ∅ empty_config_ok (conj eq_refl eq_refl) (demo_compare_refl pcu_config) I)
    as (s' & cur' & def' & dit & it & Hr & _ & _ & _ & _ & _ & Hu).
  exists s'. exact (conj Hr Hu).
Defined.

Definition demo_nested_config : cJSON Z :=
  Json cJSON_Object None 0 0 None
    [Json cJSON_Object None 0 0 (Some "pcu") [Json cJSON_Number None 1 1 (Some "id") []];
     Json cJSON_Array None 0 0 (Some "meters") [Json cJSON_Number None 1 1 None []; Json cJSON_Object None 0 0 None [Json cJSON_Number None 2 2 (Some "unit") []]]]%string.

Lemma keys_reported_witness :
  traverse_all_keys_recursive demo_nested_config "" = ["pcu"; "pcu.id"; "meters"; "meters[1].unit"]%string.
Proof. rewrite (keys_reported demo_nested_config); [vm_compute; reflexivity|]. repeat (apply Forall_cons; split; [vm_compute; lia|]). apply Forall_nil. done. Defined.
