(* ===== verification/Fcgi.v ===== *)
(** * The web interface ([src/fcgi])

    The error codes and the printing of responses ([errors/api_code.c]), the
    dispatch of requests by method and path ([fcgi.c]), and the controller of
    the relay counters ([controller/relay_cnt.c]) with the counters themselves
    ([relay/relay.c]).  A request is the parameters and the body the FastCGI
    library hands over, a response the text printed for it.  The JSON library
    and its reflective printer are classes. *)

From Stdlib Require Import Ascii.
From stdpp Require Import pretty.
From S2P Require Import Prelude Utils Lru Sqlite SqliteDemo PreparedStmt Template SqlStore Retention RelayCnt.
From S2P Require Import Config MergeTemplate.

(** ** Error codes ([errors/api_code.h], [errors/api_code.c]) *)

Inductive api_code_e :=
  | API_ERR_OK | API_ERR_POINTER | API_ERR_DB | API_ERR_INTERNAL | API_ERR_METHOD | API_ERR_URI | API_ERR_JSON
  | API_ERR_NULL_DATA | API_ERR_TOKEN_INVALID | API_ERR_TOKEN_EXPIRED | API_ERR_PERMISSION
  | API_ERR_CONTENT_TYPE | API_ERR_CONTENT_LENGTH | API_ERR_BOUNDARY | API_ERR_FILE_NAME | API_ERR_JSON_TYPE
  | API_ERR_MISSING_FIELD | API_ERR_ARGS | API_ERR_FIELD_OVERFLOW | API_ERR_TOO_MANY_FIELDS
  | API_ERR_SYS_REBOOT_OR_APP_REBOOT | API_ERR_BUSY | API_ERR_UPGRADE_CREATE | API_ERR_CHARGING
  | API_ERR_APP_REBOOT | API_ERR_SYS_REBOOT | API_ERR_NOT_DEBUG_MODE | API_ERR_NOT_FAULT_INJECTION_MODE
  | API_ERR_DEVICE_OFFLINE | API_ERR_EXPORTING | API_ERR_NOT_RELEASE_MODE | API_ERR_FIELD_ROLES
  | API_ERR_FIELD_USERNAME | API_ERR_FIELD_PASSWORD | API_ERR_FIELD_ID | API_ERR_FIELD_LEVEL
  | API_ERR_FIELD_CCU_ID | API_ERR_FIELD_CONN_ID | API_ERR_FIELD_CODE | API_ERR_FIELD_NAME
  | API_ERR_FIELD_DCDC_ID | API_ERR_FIELD_IP_ADDR | API_ERR_FIELD_PDU_ID | API_ERR_FIELD_RELAY_ID
  | API_ERR_FIELD_RELAY_CONTROL | API_ERR_FIELD_HANDSHAKE_RELAY_ID | API_ERR_FIELD_DEVICE_INFO_TYPE
  | API_ERR_FIELD_TRANSACTION_ID | API_ERR_FIELD_DEVICE_ID | API_ERR_FIELD_FAULT | API_ERR_FIELD_DEVICE_TYPE
  | API_ERR_FIELD_TYPE | API_ERR_FIELD_TASK_ID | API_ERR_FIELD_FILE_PATH | API_ERR_FIELD_DATE | API_ERR_END.

#[export] Instance api_code_dec : EqDecision api_code_e.
Proof. solve_decision. Defined.

(** The codes in the order of the enum; a code is its position. *)
Definition api_codes : list api_code_e :=
  [API_ERR_OK; API_ERR_POINTER; API_ERR_DB; API_ERR_INTERNAL; API_ERR_METHOD; API_ERR_URI; API_ERR_JSON;
   API_ERR_NULL_DATA; API_ERR_TOKEN_INVALID; API_ERR_TOKEN_EXPIRED; API_ERR_PERMISSION; API_ERR_CONTENT_TYPE;
   API_ERR_CONTENT_LENGTH; API_ERR_BOUNDARY; API_ERR_FILE_NAME; API_ERR_JSON_TYPE; API_ERR_MISSING_FIELD;
   API_ERR_ARGS; API_ERR_FIELD_OVERFLOW; API_ERR_TOO_MANY_FIELDS; API_ERR_SYS_REBOOT_OR_APP_REBOOT;
   API_ERR_BUSY; API_ERR_UPGRADE_CREATE; API_ERR_CHARGING; API_ERR_APP_REBOOT; API_ERR_SYS_REBOOT;
   API_ERR_NOT_DEBUG_MODE; API_ERR_NOT_FAULT_INJECTION_MODE; API_ERR_DEVICE_OFFLINE; API_ERR_EXPORTING;
   API_ERR_NOT_RELEASE_MODE; API_ERR_FIELD_ROLES; API_ERR_FIELD_USERNAME; API_ERR_FIELD_PASSWORD;
   API_ERR_FIELD_ID; API_ERR_FIELD_LEVEL; API_ERR_FIELD_CCU_ID; API_ERR_FIELD_CONN_ID; API_ERR_FIELD_CODE;
   API_ERR_FIELD_NAME; API_ERR_FIELD_DCDC_ID; API_ERR_FIELD_IP_ADDR; API_ERR_FIELD_PDU_ID;
   API_ERR_FIELD_RELAY_ID; API_ERR_FIELD_RELAY_CONTROL; API_ERR_FIELD_HANDSHAKE_RELAY_ID;
   API_ERR_FIELD_DEVICE_INFO_TYPE; API_ERR_FIELD_TRANSACTION_ID; API_ERR_FIELD_DEVICE_ID; API_ERR_FIELD_FAULT;
   API_ERR_FIELD_DEVICE_TYPE; API_ERR_FIELD_TYPE; API_ERR_FIELD_TASK_ID; API_ERR_FIELD_FILE_PATH;
   API_ERR_FIELD_DATE]%list.

Definition code_no (c : api_code_e) : Z :=
  match list_find (eq c) api_codes with Some (i, _) => Z.of_nat i | None => Z.of_nat (length api_codes) end.

(** The table, [None] past its end. *)
Definition map (c : api_code_e) : option (Z * string) :=
  match c with
  | API_ERR_OK => Some (200, "success")
  | API_ERR_POINTER => Some (500, "pointer error")
  | API_ERR_DB => Some (500, "database error")
  | API_ERR_INTERNAL => Some (500, "internal error")
  | API_ERR_METHOD => Some (401, "method error")
  | API_ERR_URI => Some (401, "uri error")
  | API_ERR_JSON => Some (401, "json format error")
  | API_ERR_NULL_DATA => Some (401, "null data")
  | API_ERR_TOKEN_INVALID => Some (40002, "token invalid")
  | API_ERR_TOKEN_EXPIRED => Some (40001, "token expired")
  | API_ERR_PERMISSION => Some (40003, "permission denied")
  | API_ERR_CONTENT_TYPE => Some (401, "content_type error")
  | API_ERR_CONTENT_LENGTH => Some (401, "content_length error")
  | API_ERR_BOUNDARY => Some (401, "boundary error")
  | API_ERR_FILE_NAME => Some (401, "file_name error")
  | API_ERR_JSON_TYPE => Some (401, "json type error")
  | API_ERR_MISSING_FIELD => Some (401, "missing field")
  | API_ERR_ARGS => Some (401, "args error")
  | API_ERR_FIELD_OVERFLOW => Some (401, "value overflow")
  | API_ERR_TOO_MANY_FIELDS => Some (401, "too many fields")
  | API_ERR_SYS_REBOOT_OR_APP_REBOOT => Some (401, "sys_reboot or app_reboot error")
  | API_ERR_BUSY => Some (401, "upgrade task is busy")
  | API_ERR_UPGRADE_CREATE => Some (401, "failed create upgrade task")
  | API_ERR_CHARGING => Some (401, "charging")
  | API_ERR_APP_REBOOT => Some (200, "success and app reboot")
  | API_ERR_SYS_REBOOT => Some (200, "success and system reboot")
  | API_ERR_NOT_DEBUG_MODE => Some (401, "not currently in debug mode")
  | API_ERR_NOT_FAULT_INJECTION_MODE => Some (401, "not currently in fault injection mode")
  | API_ERR_DEVICE_OFFLINE => Some (401, "device offline")
  | API_ERR_EXPORTING => Some (401, "exporting other tasks")
  | API_ERR_NOT_RELEASE_MODE => Some (401, "not currently in release mode")
  | API_ERR_FIELD_ROLES => Some (401, "field roles error")
  | API_ERR_FIELD_USERNAME => Some (401, "field username error")
  | API_ERR_FIELD_PASSWORD => Some (401, "field password error")
  | API_ERR_FIELD_ID => Some (401, "field id error")
  | API_ERR_FIELD_LEVEL => Some (401, "field level error")
  | API_ERR_FIELD_CCU_ID => Some (401, "field ccu_id error")
  | API_ERR_FIELD_CONN_ID => Some (401, "field conn_id error")
  | API_ERR_FIELD_CODE => Some (401, "field code error")
  | API_ERR_FIELD_NAME => Some (401, "field name error")
  | API_ERR_FIELD_DCDC_ID => Some (401, "field dcdc_id error")
  | API_ERR_FIELD_IP_ADDR => Some (401, "field ip_addr error")
  | API_ERR_FIELD_PDU_ID => Some (401, "field pdu_id error")
  | API_ERR_FIELD_RELAY_ID => Some (401, "field relay_id error")
  | API_ERR_FIELD_RELAY_CONTROL => Some (401, "field relay_control error")
  | API_ERR_FIELD_HANDSHAKE_RELAY_ID => Some (401, "field handshake_relay_id error")
  | API_ERR_FIELD_DEVICE_INFO_TYPE => Some (401, "field device_info_type error")
  | API_ERR_FIELD_TRANSACTION_ID => Some (401, "field transaction_id error")
  | API_ERR_FIELD_DEVICE_ID => Some (401, "field device_id error")
  | API_ERR_FIELD_FAULT => Some (401, "field fault error")
  | API_ERR_FIELD_DEVICE_TYPE => Some (401, "field device_type error")
  | API_ERR_FIELD_TYPE => Some (401, "field type error")
  | API_ERR_FIELD_TASK_ID => Some (401, "field task_id error")
  | API_ERR_FIELD_FILE_PATH => Some (401, "field file_path error")
  | API_ERR_FIELD_DATE => Some (401, "field date error")
  | API_ERR_END => None
  end.

Definition unknown : string := "unknown error code".

Definition ERR_CJSONX_NONE : Z := 0.
Definition ERR_CJSONX_MEMORY : Z := -1.
Definition ERR_CJSONX_TYPE : Z := -2.
Definition ERR_CJSONX_MISSING_FIELD : Z := -3.
Definition ERR_CJSONX_FORMAT : Z := -4.
Definition ERR_CJSONX_ARGS : Z := -5.
Definition ERR_CJSONX_OVERFLOW : Z := -6.

Definition api_code_from_cjsonx (err : Z) : api_code_e :=
  if err =? ERR_CJSONX_NONE then API_ERR_OK
  else if err =? ERR_CJSONX_MEMORY then API_ERR_INTERNAL
  else if err =? ERR_CJSONX_TYPE then API_ERR_JSON_TYPE
  else if err =? ERR_CJSONX_MISSING_FIELD then API_ERR_MISSING_FIELD
  else if err =? ERR_CJSONX_FORMAT then API_ERR_JSON
  else if err =? ERR_CJSONX_ARGS then API_ERR_ARGS
  else if err =? ERR_CJSONX_OVERFLOW then API_ERR_FIELD_OVERFLOW
  else API_ERR_INTERNAL.

(** *** Responses *)

Definition CRLF : string := String (ascii_of_nat 13) (String (ascii_of_nat 10) EmptyString).
Definition LF : string := String (ascii_of_nat 10) EmptyString.
Definition quote : string := String (ascii_of_nat 34) EmptyString.
Definition quoted (s : string) : string := (quote ++ s ++ quote)%string.

Definition header : string := ("Content-Type: application/json" ++ CRLF ++ CRLF)%string.

(** The format of the three calls, [%d] and [%s] filled in. *)
Definition result_line (code : Z) (message data : string) : string :=
  ("{ " ++ quoted "code" ++ ": " ++ pretty code ++ ", " ++ quoted "message" ++ ": " ++ quoted message ++ ", " ++
   quoted "data" ++ ": " ++ data ++ " }" ++ LF)%string.

(** What is printed for a request that is not null. *)
Definition api_print (code : api_code_e) (data : option string) : string :=
  (header ++
   match map code with
   | None => result_line (code_no code) unknown "{}"
   | Some (n, message) =>
     match data with
     | None => result_line n message "{}"
     | Some data => result_line n message data
     end
   end)%string.

(** ** The libraries *)

Definition lower_ascii (c : ascii) : ascii :=
  let n := nat_of_ascii c in if ((65 <=? n) && (n <=? 90))%nat then ascii_of_nat (n + 32) else c.

Fixpoint lower (s : string) : string :=
  match s with EmptyString => EmptyString | String c s' => String (lower_ascii c) (lower s') end.

Definition nocase_key {D : Type} (k : string) (j : cJSON D) : bool :=
  match key j with Some k' => String.eqb (lower k') (lower k) | None => false end.

(** The first item of this name, without case. *)
Definition position_nocase {D : Type} (k : string) (cs : list (cJSON D)) : option nat :=
  fst <$> list_find (fun c => nocase_key k c) cs.

Fixpoint shaped {D : Type} (j : cJSON D) : Prop :=
  named_items j /\
  match j with
  | Json _ _ _ _ _ cs => (fix all cs := match cs with [] => True | c :: cs' => shaped c /\ all cs' end) cs
  end.

(** A position in [child] stands for a pointer to an item. *)
Class CjsonRead (D : Type) := {
  cJSON_Parse_tree : string -> option (cJSON D);
  cJSON_IsArray : option (cJSON D) -> bool;
  cJSON_GetArraySize : cJSON D -> Z;
  cJSON_GetArrayItem : cJSON D -> Z -> option nat;
  cJSON_GetObjectItem : cJSON D -> string -> option nat;

  parse_shaped s j : cJSON_Parse_tree s = Some j -> shaped j;
  is_array j : cJSON_IsArray j = match j with Some j => kind j =? cJSON_Array | None => false end;
  get_array_size j : cJSON_GetArraySize j = Z.of_nat (length (child j));
  get_array_item j (i : nat) : (i < length (child j))%nat -> cJSON_GetArrayItem j (Z.of_nat i) = Some i;
  get_object_item j k : named_items j -> cJSON_GetObjectItem j k = position_nocase k (child j)
}.

(** The printer of structures into a buffer of a given size: an error code and
    the text, here for the table that describes the response. *)
Class Cjsonx := {
  cjsonx_struct2str_preallocated : Z -> list pcu_relay_cnt_t -> Z -> Z * string
}.

(** ** Requests and state *)

(** [FCGX_GetStr] hands over the body, or reports an error. *)
Record FCGX_Request := Request {
  REQUEST_METHOD : option string;
  PATH_INFO : option string;
  in_ : option string
}.

(** [relay_arr] is [g_relay_cnt] of [relay.c]; [dao] the object of the relay
    counters in the data access objects of [init.c]. *)
Record web_t {DB : Type} := Web {
  relay_arr : list pcu_relay_cnt_t;
  pcu_relay_cnt_dao : pcu_relay_cnt_dao_t;
  web_pool : pool_t DB;
  web_allocs : list bool
}.
Arguments web_t : clear implicits.
Arguments Web {DB}.

Definition g_relay_cnt : list pcu_relay_cnt_t :=
  [RelayCnt 1 (relay_no DO_DC_INPUT1_POS) 20; RelayCnt 2 (relay_no DO_DC_INPUT1_NEG) 21;
   RelayCnt 3 (relay_no DO_DC_INPUT1_PRE) 22; RelayCnt 4 (relay_no DO_DC_INPUT2_POS) 23;
   RelayCnt 5 (relay_no DO_DC_INPUT2_NEG) 24; RelayCnt 6 (relay_no DO_DC_INPUT2_PRE) 25].

Section Web.
Context {DB D : Type} `{Sqlite DB} `{CjsonTree D} `{CjsonRead D} `{Cjsonx} (host : bool).
#[local] Abbreviation state := (web_t DB).
#[local] Abbreviation tree := (cJSON D).

Definition handler : Type := FCGX_Request -> state -> outcome (string * state).

Definition get_relay_cnt (w : state) : list pcu_relay_cnt_t := relay_arr w.

(** ** The controller of the relay counters *)

Definition query_relay_cnt : handler := fun _ w =>
  let response := take 6 (get_relay_cnt w) in
  let '(ret, json_str) := cjsonx_struct2str_preallocated 2048 response 6 in
  if negb (ret =? ERR_CJSONX_NONE) then Returns (api_print (api_code_from_cjsonx ret) None, w)
  else Returns (api_print API_ERR_OK (Some json_str), w).

(** [cJSON_GetObjectItem(item, k)->valueint]: a null pointer is read when
    there is no item. *)
Definition field_int (item : option tree) (k : string) : outcome Z :=
  match item ≫= (fun it => cJSON_GetObjectItem it k ≫= fun i => child it !! i) with
  | Some f => Returns (valueint f)
  | None => Undefined
  end.

Definition read_item (list_array : tree) (i : Z) : outcome pcu_relay_cnt_t :=
  let item := cJSON_GetArrayItem list_array i ≫= fun n => child list_array !! n in
  id ← field_int item "id";
  relay_id ← field_int item "relay_id";
  close_cnt ← field_int item "close_cnt";
  Returns (RelayCnt id (uint32 relay_id) close_cnt).

Fixpoint read_items (list_array : tree) (i : Z) (n : nat) : outcome (list pcu_relay_cnt_t) :=
  match n with
  | O => Returns []
  | S n' =>
    x ← read_item list_array i;
    xs ← read_items list_array (i + 1) n';
    Returns (x :: xs)
  end.

(** The counters are replaced one by one, each followed by an update of its
    row whose result is not looked at. *)
Fixpoint store_items (response : list pcu_relay_cnt_t) (i : nat) (w : state) : outcome state :=
  match response with
  | [] => Returns w
  | x :: xs =>
    '(_, pool, o) ← pcu_relay_cnt_dao_update_by_relay_id host (Some (pcu_relay_cnt_dao w)) (relay_id x) (Some x)
      (web_pool w) (web_allocs w);
    store_items xs (S i) (Web (<[i := x]> (relay_arr w)) (pcu_relay_cnt_dao w) pool o)
  end.

Definition item_named (j : tree) (k : string) : option tree := item_at j (cJSON_GetObjectItemCaseSensitive j k).

(** The text up to its first null byte, at most 2047 bytes of the body. *)
Definition set_relay_cnt : handler := fun req w =>
  match in_ req with
  | None => Returns (api_print API_ERR_JSON_TYPE (Some "Failed to read input"), w)
  | Some body =>
    let json_str := c_string (String.substring 0 2047 body) in
    match cJSON_Parse_tree json_str with
    | None => Returns (api_print API_ERR_JSON_TYPE (Some "Failed to parse JSON"), w)
    | Some root =>
      match item_named root "data" with
      | None => Returns (api_print API_ERR_JSON_TYPE (Some "Missing 'data' field in JSON"), w)
      | Some data_obj =>
        match item_named data_obj "list" with
        | Some list_array =>
          if negb (cJSON_IsArray (Some list_array)) then
            Returns (api_print API_ERR_JSON_TYPE (Some "Invalid 'list' field in JSON"), w)
          else if negb (cJSON_GetArraySize list_array =? 6) then
            Returns (api_print API_ERR_JSON_TYPE (Some "Relay count must be exactly 6 items"), w)
          else
            response ← read_items list_array 0 6;
            w ← store_items response 0 w;
            Returns (api_print API_ERR_OK (Some ("{" ++ quoted "status" ++ ": " ++ quoted "success" ++ "}")%string), w)
        | None => Returns (api_print API_ERR_JSON_TYPE (Some "Invalid 'list' field in JSON"), w)
        end
      end
    end
  end.

(** ** Dispatch ([fcgi.c]) *)

Inductive method_e := METHOD_ERR | METHOD_GET | METHOD_POST.

#[export] Instance method_dec : EqDecision method_e.
Proof. solve_decision. Defined.

Record api_router_t := Router { router_path : string; func : handler }.
Record api_router_group_t := Group { router : list api_router_t; group_method : method_e }.

Definition get_router : list api_router_t := [Router "/relay_cnt" query_relay_cnt].
Definition post_router : list api_router_t := [Router "/relay_cnt" set_relay_cnt].
Definition router_group : list api_router_group_t := [Group get_router METHOD_GET; Group post_router METHOD_POST].

Definition method_string_to_enum (str : option string) : method_e :=
  match str with
  | None => METHOD_ERR
  | Some s => if String.eqb s "GET" then METHOD_GET else if String.eqb s "POST" then METHOD_POST else METHOD_ERR
  end.

Fixpoint find_path (rs : list api_router_t) (path_info : string) : option api_router_t :=
  match rs with
  | [] => None
  | r :: rs' => if String.eqb (router_path r) path_info then Some r else find_path rs' path_info
  end.

(** The groups of the method in order, until one has the path. *)
Fixpoint find_in_groups (gs : list api_router_group_t) (method : method_e) (path_info : string) : option api_router_t :=
  match gs with
  | [] => None
  | g :: gs' =>
    if decide (method = group_method g) then
      match find_path (router g) path_info with
      | Some r => Some r
      | None => find_in_groups gs' method path_info
      end
    else find_in_groups gs' method path_info
  end.

Definition find_router (method : method_e) (path_info : string) : option api_router_t :=
  find_in_groups router_group method path_info.

(** One turn of the loop. *)
Definition serve (req : FCGX_Request) (w : state) : outcome (string * state) :=
  let method := method_string_to_enum (REQUEST_METHOD req) in
  if decide (method = METHOD_ERR) then Returns (api_print API_ERR_METHOD None, w)
  else
    match PATH_INFO req with
    | None => Returns (api_print API_ERR_URI None, w)
    | Some path_info =>
      match find_router method path_info with
      | None => Returns (api_print API_ERR_URI None, w)
      | Some r => func r req w
      end
    end.

(** The requests accepted until [FCGX_Accept_r] reports an error; the
    responses. *)
Fixpoint fcgi_main (reqs : list FCGX_Request) (w : state) : outcome (list string * state) :=
  match reqs with
  | [] => Returns ([], w)
  | req :: reqs' =>
    '(out, w) ← serve req w;
    '(outs, w) ← fcgi_main reqs' w;
    Returns (out :: outs, w)
  end.

End Web.

(** ** What a body describes *)

Section Body.
Context {D : Type}.
#[local] Abbreviation tree := (cJSON D).

Definition field (c : tree) (k : string) : option Z :=
  valueint <$> (position_nocase k (child c) ≫= fun i => child c !! i).

Definition counter (c : tree) : option pcu_relay_cnt_t :=
  id ← field c "id"; relay_id ← field c "relay_id"; close_cnt ← field c "close_cnt";
  Some (RelayCnt id (uint32 relay_id) close_cnt).

(** What becomes of a body: a refusal, the access to a field that is not there,
    or the six counters. *)
Inductive verdict := Refused (msg : string) | Crash | Accepted (xs : list pcu_relay_cnt_t).

Definition list_verdict (l : option tree) : verdict :=
  match l with
  | None => Refused "Invalid 'list' field in JSON"
  | Some l =>
    if negb (kind l =? cJSON_Array) then Refused "Invalid 'list' field in JSON"
    else if negb (Nat.eqb (length (child l)) 6) then Refused "Relay count must be exactly 6 items"
    else match mapM counter (child l) with Some xs => Accepted xs | None => Crash end
  end.

Definition verdict_of `{CjsonRead D} (body : option string) : verdict :=
  match body with
  | None => Refused "Failed to read input"
  | Some body =>
    match cJSON_Parse_tree (c_string (String.substring 0 2047 body)) with
    | None => Refused "Failed to parse JSON"
    | Some root =>
      match item_of root "data" with
      | None => Refused "Missing 'data' field in JSON"
      | Some data => list_verdict (item_of data "list")
      end
    end
  end.

Definition update_of (x : pcu_relay_cnt_t) : relay_op := OpUpdate (relay_id x) (close_cnt x).

Lemma shaped_named (j : tree) : shaped j -> named_items j.
Proof. by destruct j as [t vs vi vd k cs]; intros [Hn _]. Qed.

Lemma shaped_child (j c : tree) : shaped j -> c ∈ child j -> shaped c.
Proof.
  destruct j as [t vs vi vd k cs]. intros [_ Hall] Hc. cbn [child] in Hc. clear -Hall Hc.
  induction cs as [|c' cs IH]; [by apply elem_of_nil in Hc|]. destruct Hall as [Hc' Hall].
  apply elem_of_cons in Hc as [->|Hc]; [done|by apply IH].
Qed.

Lemma shaped_item (j c : tree) (k : string) : shaped j -> item_of j k = Some c -> shaped c.
Proof. intros Hj [Hc _]%item_of_child. by eapply shaped_child. Qed.

End Body.

(** ** Lemmas *)

Section Lemmas.
Context {DB D S : Type} `{SqlStore DB S} `{CjsonTree D} `{CjsonRead D} `{Cjsonx} (host : bool).
Context (rows : S -> relay_rows) `{!RelaySql rows}.
#[local] Abbreviation state := (web_t DB).
#[local] Abbreviation tree := (cJSON D).

Lemma item_named_of (j : tree) (k : string) : shaped j -> item_named j k = item_of j k.
Proof. intros Hj%shaped_named. unfold item_named. by apply get_item. Qed.

(** A field is read, or a null pointer is. *)
Lemma field_int_of (c : tree) (k : string) : shaped c ->
  field_int (Some c) k = match field c k with Some v => Returns v | None => Undefined end.
Proof.
  intros Hc%shaped_named. unfold field_int, field. cbn [mbind option_bind]. rewrite get_object_item by done.
  by destruct (position_nocase k (child c) ≫= _).
Qed.

Lemma read_item_of (l c : tree) (i : nat) : child l !! i = Some c -> shaped c ->
  read_item l (Z.of_nat i) = match counter c with Some x => Returns x | None => Undefined end.
Proof.
  intros Hc Hs. unfold read_item. rewrite get_array_item by by eapply lookup_lt_Some. cbn [mbind option_bind].
  rewrite Hc, !field_int_of by done. unfold counter.
  destruct (field c "id"); [|done]. destruct (field c "relay_id"); [|done]. by destruct (field c "close_cnt").
Qed.

(** All the items, in order. *)
Lemma read_items_of (l : tree) n i : (i + n)%nat = length (child l) -> Forall shaped (child l) ->
  read_items l (Z.of_nat i) n = match mapM counter (drop i (child l)) with Some xs => Returns xs | None => Undefined end.
Proof.
  revert i. induction n as [|n IH]; intros i Hi Hall; cbn [read_items].
  - by rewrite drop_ge by lia.
  - destruct (lookup_lt_is_Some_2 (child l) i) as [c Hc]; [lia|].
    rewrite (read_item_of l c i Hc) by by apply (proj1 (Forall_lookup _ _) Hall i).
    rewrite (drop_S _ c i Hc). cbn [mapM]. destruct (counter c) as [x|]; [|done]. cbn [mbind outcome_bind option_bind].
    replace (Z.of_nat i + 1) with (Z.of_nat (Datatypes.S i)) by lia. rewrite IH by (done || lia).
    by destruct (mapM counter (drop (Datatypes.S i) (child l))).
Qed.

(** Every counter is replaced and every row updated, or not, in order. *)
Lemma store_items_run (Hne : no_errors (S := S)) q xs : forall pre w s,
  dao_ps (pcu_relay_cnt_dao w) = Some q -> quiet_at host (web_pool w) q s ->
  take (length pre) (relay_arr w) = pre -> length (relay_arr w) = (length pre + length xs)%nat ->
  exists rets pool' o' s', store_items host xs (length pre) w =
      Returns (Web (pre ++ xs) (pcu_relay_cnt_dao w) pool' o') /\
    pool_step host (web_pool w) pool' q s' /\ spec_run (rows s) (update_of <$> xs) rets (rows s').
Proof.
  induction xs as [|x xs IH]; intros pre [arr d pool o] s Hd Hq Hpre Hlen; cbn [relay_arr pcu_relay_cnt_dao web_pool length] in *; cbn [store_items].
  - exists [], pool, o, s. rewrite app_nil_r. rewrite take_ge in Hpre by lia. subst arr. split; [done|]. split; [by split|constructor].
  - cbn [pcu_relay_cnt_dao web_pool web_allocs relay_arr].
    destruct (update_refines host rows Hne d pool q s (relay_id x) x o Hd Hq) as (ret & pool1 & o1 & s1 & -> & Hstep & Hcase).
    cbn [mbind outcome_bind].
    destruct (IH (pre ++ [x])%list (Web (<[length pre := x]> arr) d pool1 o1) s1) as (rets & pool2 & o2 & s2 & Hrun & Hstep2 & Hspec).
    + done.
    + apply Hstep.
    + cbn [relay_arr]. rewrite length_app. cbn [length]. rewrite <- Hpre at 3.
      rewrite Nat.add_1_r, take_S_r with (x := x); [|apply list_lookup_insert_eq; lia]. by rewrite take_insert_ge by lia.
    + cbn [relay_arr]. rewrite length_insert, length_app. cbn [length]. lia.
    + rewrite length_app, Nat.add_1_r in Hrun. exists (ret :: rets), pool2, o2, s2. rewrite Hrun, <- app_assoc.
      split; [done|]. split; [by eapply pool_step_trans|]. cbn [update_of fmap list_fmap].
      destruct Hcase as [[-> Heq]|Hc]; [apply spec_failed; by rewrite <- Heq|by eapply spec_done].
Qed.

Lemma mapM_length {A B : Type} (f : A -> option B) l k : mapM f l = Some k -> length k = length l.
Proof. intros Hm%mapM_Some. symmetry. by eapply Forall2_length. Qed.

(** The six items of an accepted list. *)
Lemma set_items_run (Hne : no_errors (S := S)) q xs w s :
  dao_ps (pcu_relay_cnt_dao w) = Some q -> quiet_at host (web_pool w) q s -> length (relay_arr w) = 6%nat -> length xs = 6%nat ->
  exists rets pool' o' s', store_items host xs 0 w = Returns (Web xs (pcu_relay_cnt_dao w) pool' o') /\
    pool_step host (web_pool w) pool' q s' /\ spec_run (rows s) (update_of <$> xs) rets (rows s').
Proof. intros Hd Hq Hw Hx. apply (store_items_run Hne q xs [] w s Hd Hq eq_refl). by rewrite Hx. Qed.

(** *** Requests that only read *)

Definition is_set (req : FCGX_Request) : bool :=
  match method_string_to_enum (REQUEST_METHOD req), PATH_INFO req with
  | METHOD_POST, Some p => String.eqb p "/relay_cnt"
  | _, _ => false
  end.

Definition counters_line (arr : list pcu_relay_cnt_t) : string :=
  let '(ret, json_str) := cjsonx_struct2str_preallocated 2048 (take 6 arr) 6 in
  if negb (ret =? ERR_CJSONX_NONE) then api_print (api_code_from_cjsonx ret) None
  else api_print API_ERR_OK (Some json_str).

Definition answer (arr : list pcu_relay_cnt_t) (req : FCGX_Request) : string :=
  match method_string_to_enum (REQUEST_METHOD req), PATH_INFO req with
  | METHOD_ERR, _ => api_print API_ERR_METHOD None
  | METHOD_GET, Some p => if String.eqb p "/relay_cnt" then counters_line arr else api_print API_ERR_URI None
  | _, _ => api_print API_ERR_URI None
  end.

Lemma find_router_of m p : find_router (DB := DB) (D := D) host m p =
  match m with
  | METHOD_ERR => None
  | METHOD_GET => if String.eqb p "/relay_cnt" then Some (Router "/relay_cnt" query_relay_cnt) else None
  | METHOD_POST => if String.eqb p "/relay_cnt" then Some (Router "/relay_cnt" (set_relay_cnt host)) else None
  end.
Proof.
  rewrite String.eqb_sym. unfold find_router, router_group, get_router, post_router.
  destruct m; cbn [find_in_groups group_method router find_path router_path].
  - by rewrite !decide_False.
  - rewrite decide_True, decide_False by done. by destruct (String.eqb _ _).
  - rewrite decide_False, decide_True by done. by destruct (String.eqb _ _).
Qed.

Lemma serve_read req (w : state) : is_set req = false ->
  serve (D := D) host req w = Returns (answer (relay_arr w) req, w).
Proof.
  unfold serve, is_set, answer. intros Hs.
  destruct (method_string_to_enum (REQUEST_METHOD req)).
  { by rewrite decide_True. }
  all: rewrite decide_False by done; destruct (PATH_INFO req) as [p|]; [rewrite find_router_of|done].
  - destruct (String.eqb p "/relay_cnt"); [|done]. cbn [func]. unfold query_relay_cnt, counters_line, get_relay_cnt.
    destruct (cjsonx_struct2str_preallocated _ _ _) as [ret str]. by destruct (ret =? ERR_CJSONX_NONE).
  - by rewrite Hs.
Qed.

Lemma serve_set req (w : state) : is_set req = true -> serve (D := D) host req w = set_relay_cnt host req w.
Proof.
  unfold serve, is_set. intros Hs. destruct (method_string_to_enum (REQUEST_METHOD req)); [done..|].
  destruct (PATH_INFO req) as [p|]; [|done]. rewrite decide_False by done. by rewrite find_router_of, Hs.
Qed.

Lemma fcgi_main_reads reqs (w : state) : Forall (fun r => is_set r = false) reqs ->
  fcgi_main (D := D) host reqs w = Returns (answer (relay_arr w) <$> reqs, w).
Proof.
  induction 1 as [|r reqs Hr _ IH]; [done|]. cbn [fcgi_main]. rewrite serve_read by done.
  cbn [mbind outcome_bind]. by rewrite IH.
Qed.

Lemma fcgi_main_app reqs1 reqs2 (w : state) : fcgi_main (D := D) host (reqs1 ++ reqs2) w =
  ('(outs1, w) ← fcgi_main (D := D) host reqs1 w; '(outs2, w) ← fcgi_main (D := D) host reqs2 w; Returns ((outs1 ++ outs2)%list, w)).
Proof.
  revert w. induction reqs1 as [|r reqs1 IH]; intros w; cbn [app fcgi_main].
  - cbn [mbind outcome_bind]. by destruct (fcgi_main host reqs2 w) as [| |[]].
  - destruct (serve host r w) as [| |[out w1]]; cbn [mbind outcome_bind]; [done..|]. rewrite IH.
    destruct (fcgi_main host reqs1 w1) as [| |[outs1 w2]]; cbn [mbind outcome_bind]; [done..|].
    by destruct (fcgi_main host reqs2 w2) as [| |[]].
Qed.

End Lemmas.

(** ** Properties *)

Definition success_line : string :=
  api_print API_ERR_OK (Some ("{" ++ quoted "status" ++ ": " ++ quoted "success" ++ "}")%string).

Section Properties.
Context {DB D S : Type} `{SqlStore DB S} `{CjsonTree D} `{CjsonRead D} `{Cjsonx} (host : bool).
Context (rows : S -> relay_rows) `{!RelaySql rows}.

Lemma set_relay_cnt_of_verdict req (w : web_t DB) :
  set_relay_cnt host req w =
  match verdict_of (D := D) (in_ req) with
  | Refused msg => Returns (api_print API_ERR_JSON_TYPE (Some msg), w)
  | Crash => Undefined
  | Accepted xs => w ← store_items host xs 0 w; Returns (success_line, w)
  end.
Proof.
  unfold set_relay_cnt, verdict_of. destruct (in_ req) as [body|]; [|done].
  destruct (cJSON_Parse_tree _) as [root|] eqn:Hp; [|done]. apply parse_shaped in Hp as Hroot.
  rewrite item_named_of by done. destruct (item_of root "data") as [data|] eqn:Hdata; [|done].
  pose proof (shaped_item root data "data" Hroot Hdata) as Hsd. rewrite item_named_of by done.
  unfold list_verdict. destruct (item_of data "list") as [l|] eqn:Hl; [|done].
  rewrite is_array, get_array_size. destruct (kind l =? cJSON_Array); [|done]. cbn [negb].
  destruct (Nat.eqb_spec (length (child l)) 6) as [Hlen|Hlen]; cbn [negb].
  - rewrite Hlen. rewrite (read_items_of l 6 0) by
      ((by rewrite Hlen) || (apply Forall_forall; intros c Hc; apply (shaped_child l); [by eapply shaped_item|done])).
    rewrite drop_0. by destruct (mapM counter (child l)) as [xs|].
  - by destruct (Z.eqb_spec (Z.of_nat (length (child l))) 6); [lia|].
Qed.

Lemma verdict_length body xs : verdict_of (D := D) body = Accepted xs -> length xs = 6%nat.
Proof.
  unfold verdict_of, list_verdict. destruct body as [body|]; [|done]. destruct (cJSON_Parse_tree _) as [root|]; [|done].
  destruct (item_of root "data") as [data|]; [|done]. destruct (item_of data "list") as [l|]; [|done].
  destruct (kind l =? cJSON_Array); [|done]. cbn [negb].
  destruct (Nat.eqb_spec (length (child l)) 6) as [Hlen|]; [|done]. cbn [negb].
  destruct (mapM counter (child l)) as [ys|] eqn:Hm; [|done]. intros [= ->]. by rewrite (mapM_length _ _ _ Hm).
Qed.

(** what [set_relay_cnt] does with any body: one that cannot be read or
    parsed, or has no list of six items, is refused with its message and
    changes nothing; an item without one of its three fields is a null pointer
    read; otherwise the six counters are replaced, every row of the table is
    updated in order or that update fails, and the answer is success either
    way. *)
Theorem set_relay_cnt_outcome (req : FCGX_Request) (w : web_t DB) q s :
  no_errors (DB := DB) (S := S) -> dao_ps (pcu_relay_cnt_dao w) = Some q -> quiet_at host (web_pool w) q s ->
  length (relay_arr w) = 6%nat ->
  match verdict_of (D := D) (in_ req) with
  | Refused msg => set_relay_cnt host req w = Returns (api_print API_ERR_JSON_TYPE (Some msg), w)
  | Crash => set_relay_cnt host req w = Undefined
  | Accepted xs => exists rets pool' o' s',
      set_relay_cnt host req w = Returns (success_line, Web xs (pcu_relay_cnt_dao w) pool' o') /\
      pool_step host (web_pool w) pool' q s' /\ spec_run (rows s) (update_of <$> xs) rets (rows s')
  end.
Proof.
  intros Hne Hd Hq Hw. rewrite set_relay_cnt_of_verdict.
  destruct (verdict_of (in_ req)) as [msg| |xs] eqn:Hv; [done..|].
  destruct (set_items_run host rows Hne q xs w s Hd Hq Hw (verdict_length _ _ Hv)) as (rets & pool' & o' & s' & -> & Hstep & Hspec).
  by exists rets, pool', o', s'.
Qed.


End Properties.

(** ** Witnesses *)

#[local] Existing Instance relay_sql.
#[local] Existing Instance relay_store.
#[local] Existing Instance relay_demo.

Definition demo_item (k : string) (n : Z) : cJSON Z := with_key k (demo_number n).
Definition demo_object (cs : list (cJSON Z)) : cJSON Z := Json cJSON_Object None 0 0 None cs.
Definition demo_counter (i : Z) : cJSON Z :=
  demo_object [demo_item "id" i; demo_item "relay_id" (400 + i); demo_item "close_cnt" (10 * i)].
Definition demo_body : cJSON Z :=
  demo_object [with_key "data" (demo_object [with_key "list" (Json cJSON_Array None 0 0 None (demo_counter <$> [1; 2; 3; 4; 5; 6]))])].

(** A parser of one text. *)
Definition demo_parse (s : string) : option (cJSON Z) := if String.eqb s "six counters" then Some demo_body else None.
Definition demo_is_array (j : option (cJSON Z)) : bool :=
  match j with Some j => kind j =? cJSON_Array | None => false end.
Definition demo_array_item (j : cJSON Z) (i : Z) : option nat :=
  if (0 <=? i) && (i <? Z.of_nat (length (child j))) then Some (Z.to_nat i) else None.

Lemma demo_body_shaped : shaped demo_body.
Proof. repeat first [done | progress unfold named_items | progress cbn | constructor]. Qed.

Lemma demo_parse_shaped s j : demo_parse s = Some j -> shaped j.
Proof. unfold demo_parse. destruct (String.eqb s _); intros Hj; [injection Hj as <-; apply demo_body_shaped|done]. Qed.

Lemma demo_array_item_some (j : cJSON Z) (i : nat) : (i < length (child j))%nat -> demo_array_item j (Z.of_nat i) = Some i.
Proof.
  intros Hi. unfold demo_array_item. destruct (Z.leb_spec 0 (Z.of_nat i)); [|lia].
  destruct (Z.ltb_spec (Z.of_nat i) (Z.of_nat (length (child j)))); [|lia]. simpl. by rewrite Nat2Z.id.
Qed.

#[local] Instance demo_read : CjsonRead Z := {
  cJSON_Parse_tree := demo_parse;
  cJSON_IsArray := demo_is_array;
  cJSON_GetArraySize j := Z.of_nat (length (child j));
  cJSON_GetArrayItem := demo_array_item;
  cJSON_GetObjectItem j k := position_nocase k (child j);
  parse_shaped := demo_parse_shaped;
  is_array _ := eq_refl;
  get_array_size _ := eq_refl;
  get_array_item := demo_array_item_some;
  get_object_item _ _ _ := eq_refl
}.

#[local] Instance demo_cjsonx : Cjsonx := {
  cjsonx_struct2str_preallocated _ l _ := (0, pretty (foldr Z.add 0 (close_cnt <$> l))) }.

Definition demo_web : web_t (demo_db relay_rows) := Web g_relay_cnt relay_dao (new_pool [(401, 0); (405, 0)]) [].
Definition demo_get : FCGX_Request := Request (Some "GET") (Some "/relay_cnt") None.
Definition demo_post : FCGX_Request := Request (Some "POST") (Some "/relay_cnt") (Some "six counters").
Definition demo_xs : list pcu_relay_cnt_t := (fun i => RelayCnt i (400 + i) (10 * i)) <$> [1; 2; 3; 4; 5; 6].

Lemma set_relay_cnt_outcome_witness :
  exists rets pool' o' s', set_relay_cnt (D := Z) true demo_post demo_web = Returns (success_line, Web demo_xs relay_dao pool' o') /\
    spec_run [(401, 0); (405, 0)] (update_of <$> demo_xs) rets s'.
Proof.
  assert (Hv : verdict_of (D := Z) (in_ demo_post) = Accepted demo_xs) by reflexivity.
  pose proof (set_relay_cnt_outcome (D := Z) true (fun s : relay_rows => s) demo_post demo_web 1 [(401, 0); (405, 0)]
    (demo_no_errors _ _) eq_refl (new_pool_quiet _ _ true _) eq_refl) as Hout.
  rewrite Hv in Hout. destruct Hout as (rets & pool' & o' & s' & Hrun & _ & Hspec).
  exists rets, pool', o', s'. split; [exact Hrun|exact Hspec].
Defined.

