(* ===== verification/Json.v ===== *)
(** * JSON documents ([src/include/rapidjson/document.h])

    The values of the JSON library the OCPP client is written with, its tests
    and its accessors.  An accessor used on a value of another type, and an
    access to a member or an element that is not there, ends the program by an
    assertion, or is undefined when assertions are compiled out: it is
    [Undefined] here.  Names and strings carry no null characters. *)

From Stdlib Require Import Ascii.
From stdpp Require Import countable.
From S2P Require Import Prelude Sqlite.

(** ** Values *)

(** A number of a document is an integer of the 64-bit types or a double, here
    its 64 bits. *)
Inductive number := NInt (n : Z) | NDouble (bits : Z).

(** The members of an object are in order, and a name may occur again. *)
#[local] Unset Elimination Schemes.
Inductive value :=
  | Null
  | Bool (b : bool)
  | Number (n : number)
  | Str (s : string)
  | Arr (l : list value)
  | Obj (l : list (string * value)).
#[local] Set Elimination Schemes.

Section Induction.
Context (P : value -> Prop).
Context (f_null : P Null) (f_bool : forall b, P (Bool b)) (f_number : forall n, P (Number n)) (f_str : forall s, P (Str s)).
Context (f_arr : forall l, Forall P l -> P (Arr l)) (f_obj : forall l, Forall (fun m => P m.2) l -> P (Obj l)).

Fixpoint value_ind (v : value) : P v :=
  match v with
  | Null => f_null
  | Bool b => f_bool b
  | Number n => f_number n
  | Str s => f_str s
  | Arr l => f_arr l ((fix each l : Forall P l :=
      match l with [] => Forall_nil_2 _ | x :: l' => Forall_cons_2 _ _ _ (value_ind x) (each l') end) l)
  | Obj l => f_obj l ((fix each l : Forall (fun m => P m.2) l :=
      match l with [] => Forall_nil_2 _ | m :: l' => Forall_cons_2 _ _ _ (value_ind m.2) (each l') end) l)
  end.

End Induction.

(** ** Types *)

Inductive Type_ := kNullType | kFalseType | kTrueType | kObjectType | kArrayType | kStringType | kNumberType.

#[global] Instance Type_eq_dec : EqDecision Type_.
Proof. solve_decision. Defined.

Definition GetType (v : value) : Type_ :=
  match v with
  | Null => kNullType
  | Bool b => if b then kTrueType else kFalseType
  | Number _ => kNumberType
  | Str _ => kStringType
  | Arr _ => kArrayType
  | Obj _ => kObjectType
  end.

Definition IsBool (v : value) : bool := match v with Bool _ => true | _ => false end.
Definition IsArray (v : value) : bool := match v with Arr _ => true | _ => false end.
Definition IsObject (v : value) : bool := match v with Obj _ => true | _ => false end.
Definition IsString (v : value) : bool := match v with Str _ => true | _ => false end.

Definition UINT32_MAX : Z := 4294967295.

Definition IsInt (v : value) : bool :=
  match v with Number (NInt n) => (INT32_MIN <=? n) && (n <=? INT32_MAX) | _ => false end.
Definition IsUint (v : value) : bool :=
  match v with Number (NInt n) => (0 <=? n) && (n <=? UINT32_MAX) | _ => false end.
Definition IsDouble (v : value) : bool := match v with Number (NDouble _) => true | _ => false end.

(** ** Accessors *)

Definition GetBool (v : value) : outcome bool := match v with Bool b => Returns b | _ => Undefined end.
Definition GetString (v : value) : outcome string := match v with Str s => Returns s | _ => Undefined end.
Definition GetInt (v : value) : outcome Z :=
  match v with Number (NInt n) => if IsInt v then Returns n else Undefined | _ => Undefined end.
Definition GetUint (v : value) : outcome Z :=
  match v with Number (NInt n) => if IsUint v then Returns n else Undefined | _ => Undefined end.

(** The integer types convert to a double on reading, which the program does
    for doubles only. *)
Definition GetDouble (v : value) : outcome Z := match v with Number (NDouble d) => Returns d | _ => Undefined end.

(** The comparison of doubles: a NaN differs from everything, the two zeros
    are equal. *)
Definition is_nan (bits : Z) : bool := 2047 * 2 ^ 52 <? bits mod 2 ^ 63.
Definition double_eqb (a b : Z) : bool :=
  negb (is_nan a) && negb (is_nan b) && ((a =? b) || ((a mod 2 ^ 63 =? 0) && (b mod 2 ^ 63 =? 0))).

(** [asserts]: whether the assertions of the library are compiled in; without
    them the size of a null value, whose memory is zero, is zero. *)
Definition Size (asserts : bool) (v : value) : outcome Z :=
  match v with
  | Arr l => Returns (Z.of_nat (length l))
  | Null => if asserts then Undefined else Returns 0
  | _ => Undefined
  end.

(** An element of an array, inside its bounds. *)
Definition element (v : value) (i : nat) : outcome value :=
  match v with Arr l => match l !! i with Some x => Returns x | None => Undefined end | _ => Undefined end.

(** *** Members *)

(** The first member of a name. *)
Fixpoint find_member (k : string) (l : list (string * value)) : option value :=
  match l with
  | [] => None
  | (n, v) :: l' => if String.eqb k n then Some v else find_member k l'
  end.

Definition has_member (k : string) (l : list (string * value)) : bool :=
  match find_member k l with Some _ => true | None => false end.

(** An assignment through the reference to a member. *)
Fixpoint set_member (k : string) (x : value) (l : list (string * value)) : list (string * value) :=
  match l with
  | [] => []
  | (n, v) :: l' => if String.eqb k n then (n, x) :: l' else (n, v) :: set_member k x l'
  end.

Definition HasMember (v : value) (k : string) : outcome bool :=
  match v with Obj l => Returns (has_member k l) | _ => Undefined end.

(** [v[k]]. *)
Definition member (v : value) (k : string) : outcome value :=
  match v with
  | Obj l => match find_member k l with Some x => Returns x | None => Undefined end
  | _ => Undefined
  end.

(** A member that is there and passes a test. *)
Definition member_if (test : value -> bool) (v : value) (k : string) : outcome (option value) :=
  has ← HasMember v k;
  if (has : bool) then x ← member v k; Returns (if test x then Some x else None) else Returns None.

Definition string_or (default : string) (v : option value) : string := match v with Some (Str s) => s | _ => default end.

(** ** Lemmas *)

Lemma find_set_same k x l : is_Some (find_member k l) -> find_member k (set_member k x l) = Some x.
Proof.
  induction l as [|[n v] l IH]; cbn [find_member set_member]; intros [y Hy]; [done|].
  destruct (String.eqb k n) eqn:Hk; cbn [find_member]; rewrite Hk; [done|]. by apply IH; eexists.
Qed.

Lemma find_set_other k k' x l : k <> k' -> find_member k' (set_member k x l) = find_member k' l.
Proof.
  intros Hne. induction l as [|[n v] l IH]; cbn [find_member set_member]; [done|].
  destruct (String.eqb_spec k n) as [->|Hk]; cbn [find_member]; [by destruct (String.eqb_spec k' n) as [->|]|].
  by rewrite IH.
Qed.

Lemma find_app k l1 l2 : find_member k (l1 ++ l2) = match find_member k l1 with Some v => Some v | None => find_member k l2 end.
Proof. induction l1 as [|[n v] l1 IH]; cbn [find_member app]; [done|]. by destruct (String.eqb k n). Qed.

Lemma find_elem k v l : find_member k l = Some v -> (k, v) ∈ l.
Proof.
  induction l as [|[n w] l IH]; cbn [find_member]; [done|]. destruct (String.eqb_spec k n) as [->|Hk].
  - intros [= ->]. apply elem_of_cons. by left.
  - intros Hf. apply elem_of_cons. right. by apply IH.
Qed.

Lemma find_none k l : find_member k l = None <-> k ∉ l.*1.
Proof.
  induction l as [|[n w] l IH]; cbn [find_member fmap list_fmap]; [split; [intros _ H; by apply elem_of_nil in H|done]|].
  rewrite not_elem_of_cons. destruct (String.eqb_spec k n) as [->|Hk]; [split; [done|by intros []]|]. rewrite IH. naive_solver.
Qed.

Lemma elem_find k v l : NoDup l.*1 -> (k, v) ∈ l -> find_member k l = Some v.
Proof.
  induction l as [|[n w] l IH]; csimpl; intros Hd Hin; [by apply elem_of_nil in Hin|]. apply NoDup_cons in Hd as [Hn Hd].
  apply elem_of_cons in Hin as [[= <- <-]|Hin]; [by rewrite String.eqb_refl|].
  destruct (String.eqb_spec k n) as [->|Hk]; [|by apply IH]. destruct Hn. apply list_elem_of_fmap. by exists (n, v).
Qed.

Lemma set_names k x l : (set_member k x l).*1 = l.*1.
Proof. induction l as [|[n v] l IH]; csimpl; [done|]. destruct (String.eqb k n); csimpl; by rewrite ?IH. Qed.

Lemma set_find_same k v l : find_member k l = Some v -> set_member k v l = l.
Proof.
  induction l as [|[n w] l IH]; cbn [find_member set_member]; [done|]. destruct (String.eqb k n); [by intros [= ->]|]. intros Hf. by rewrite IH.
Qed.

(** ** A printer and a parser

    A pair that satisfies the law that a printed document is read back; the
    theorems that assume the law are instantiated with it.  It prints the
    binary digits of a code of the document. *)

Fixpoint tree_of (v : value) : gen_tree (string + Z) :=
  match v with
  | Null => GenNode 0 []
  | Bool b => GenNode (if b then 1 else 2) []
  | Number (NInt z) => GenNode 3 [GenLeaf (inr z)]
  | Number (NDouble z) => GenNode 4 [GenLeaf (inr z)]
  | Str s => GenNode 5 [GenLeaf (inl s)]
  | Arr l => GenNode 6 (map tree_of l)
  | Obj l => GenNode 7 (map (fun m => GenNode 8 [GenLeaf (inl m.1); tree_of m.2]) l)
  end.

Fixpoint of_tree (t : gen_tree (string + Z)) : value :=
  match t with
  | GenNode 1 _ => Bool true
  | GenNode 2 _ => Bool false
  | GenNode 3 [GenLeaf (inr z)] => Number (NInt z)
  | GenNode 4 [GenLeaf (inr z)] => Number (NDouble z)
  | GenNode 5 [GenLeaf (inl s)] => Str s
  | GenNode 6 l => Arr (map of_tree l)
  | GenNode 7 l => Obj (map (fun t => match t with GenNode _ [GenLeaf (inl k); t'] => (k, of_tree t') | _ => (EmptyString, Null) end) l)
  | _ => Null
  end.

Lemma of_tree_of : forall v, of_tree (tree_of v) = v.
Proof.
  refine (value_ind _ _ _ _ _ _ _); try done.
  - by intros [].
  - by intros [].
  - intros l IH. cbn [tree_of of_tree]. f_equal. induction IH as [|v l Hv _ IH]; cbn [map]; [done|]. by rewrite Hv, IH.
  - intros l IH. cbn [tree_of of_tree]. f_equal. induction IH as [|[k v] l Hv _ IH]; cbn [map fst snd] in *; [done|]. by rewrite Hv, IH.
Qed.

Fixpoint digits (p : positive) : string :=
  match p with xH => EmptyString | xO p' => String "0" (digits p') | xI p' => String "1" (digits p') end.

Fixpoint of_digits (s : string) : positive :=
  match s with
  | EmptyString => xH
  | String c s' => if Ascii.eqb c "0" then xO (of_digits s') else xI (of_digits s')
  end.

Lemma of_digits_of p : of_digits (digits p) = p.
Proof. induction p as [p IH|p IH|]; cbn; by rewrite ?IH. Qed.

Definition demo_pretty (v : value) : string := String "#" (digits (encode (tree_of v))).
Definition demo_parse (s : string) : option value :=
  match s with String _ s' => option_map of_tree (decode (of_digits s')) | EmptyString => None end.

Lemma demo_parse_pretty v : IsObject v = true -> demo_parse (demo_pretty v) = Some v.
Proof. intros _. unfold demo_parse, demo_pretty. rewrite of_digits_of, decode_encode. cbn [option_map]. by rewrite of_tree_of. Qed.

Lemma demo_pretty_text v : demo_pretty v <> EmptyString.
Proof. done. Qed.
