(* ===== verification/OcppEnums.v ===== *)
(** * Enumerations and their names ([src/ocpp/common/BidirectionalMap.h],
      [EnumStrMappings.h], [src/ocpp/type], [SecurityDatatypes.h])

    The enumerations of OCPP with their integers, and the two-way maps between
    their values and the strings of the protocol. *)

From stdpp Require Import gmap strings.
From S2P Require Import Prelude.

(** ** Enumerations *)

Class CEnum (E : Type) := {
  to_int : E -> Z;
  enumerators : list E;
  to_int_inj e e' : to_int e = to_int e' -> e = e';
  enumerators_all e : In e enumerators
}.

Ltac enum_inj := intros [] []; done.
Ltac enum_all := intros []; cbn; tauto.

Inductive Reason :=
  | Reason_DeAuthorized | Reason_EmergencyStop | Reason_EVDisconnected | Reason_HardReset
  | Reason_Local | Reason_Other | Reason_PowerLoss | Reason_Reboot
  | Reason_Remote | Reason_SoftReset | Reason_UnlockCommand.
#[global] Instance Reason_enum : CEnum Reason := {|
  to_int e := match e with Reason_DeAuthorized => 0 | Reason_EmergencyStop => 1 | Reason_EVDisconnected => 2 | Reason_HardReset => 3 | Reason_Local => 4 | Reason_Other => 5 | Reason_PowerLoss => 6 | Reason_Reboot => 7 | Reason_Remote => 8 | Reason_SoftReset => 9 | Reason_UnlockCommand => 10 end;
  enumerators := [Reason_DeAuthorized; Reason_EmergencyStop; Reason_EVDisconnected; Reason_HardReset; Reason_Local; Reason_Other; Reason_PowerLoss; Reason_Reboot; Reason_Remote; Reason_SoftReset; Reason_UnlockCommand];
  to_int_inj := ltac:(enum_inj); enumerators_all := ltac:(enum_all) |}.

Inductive ChargePointStatus :=
  | ChargePointStatus_Available | ChargePointStatus_Preparing | ChargePointStatus_Charging | ChargePointStatus_SuspendedEVSE
  | ChargePointStatus_SuspendedEV | ChargePointStatus_Finishing | ChargePointStatus_Reserved | ChargePointStatus_Unavailable
  | ChargePointStatus_Faulted.
#[global] Instance ChargePointStatus_enum : CEnum ChargePointStatus := {|
  to_int e := match e with ChargePointStatus_Available => 0 | ChargePointStatus_Preparing => 1 | ChargePointStatus_Charging => 2 | ChargePointStatus_SuspendedEVSE => 3 | ChargePointStatus_SuspendedEV => 4 | ChargePointStatus_Finishing => 5 | ChargePointStatus_Reserved => 6 | ChargePointStatus_Unavailable => 7 | ChargePointStatus_Faulted => 8 end;
  enumerators := [ChargePointStatus_Available; ChargePointStatus_Preparing; ChargePointStatus_Charging; ChargePointStatus_SuspendedEVSE; ChargePointStatus_SuspendedEV; ChargePointStatus_Finishing; ChargePointStatus_Reserved; ChargePointStatus_Unavailable; ChargePointStatus_Faulted];
  to_int_inj := ltac:(enum_inj); enumerators_all := ltac:(enum_all) |}.

Inductive AuthorizationStatus :=
  | AuthorizationStatus_Accepted | AuthorizationStatus_Blocked | AuthorizationStatus_Expired | AuthorizationStatus_Invalid
  | AuthorizationStatus_ConcurrentTx | AuthorizationStatus_Other.
#[global] Instance AuthorizationStatus_enum : CEnum AuthorizationStatus := {|
  to_int e := match e with AuthorizationStatus_Accepted => 0 | AuthorizationStatus_Blocked => 1 | AuthorizationStatus_Expired => 2 | AuthorizationStatus_Invalid => 3 | AuthorizationStatus_ConcurrentTx => 4 | AuthorizationStatus_Other => 5 end;
  enumerators := [AuthorizationStatus_Accepted; AuthorizationStatus_Blocked; AuthorizationStatus_Expired; AuthorizationStatus_Invalid; AuthorizationStatus_ConcurrentTx; AuthorizationStatus_Other];
  to_int_inj := ltac:(enum_inj); enumerators_all := ltac:(enum_all) |}.

Inductive AvailabilityStatus :=
  | AvailabilityStatus_Accepted | AvailabilityStatus_Rejected | AvailabilityStatus_Scheduled.
#[global] Instance AvailabilityStatus_enum : CEnum AvailabilityStatus := {|
  to_int e := match e with AvailabilityStatus_Accepted => 0 | AvailabilityStatus_Rejected => 1 | AvailabilityStatus_Scheduled => 2 end;
  enumerators := [AvailabilityStatus_Accepted; AvailabilityStatus_Rejected; AvailabilityStatus_Scheduled];
  to_int_inj := ltac:(enum_inj); enumerators_all := ltac:(enum_all) |}.

Inductive CancelReservationStatus :=
  | CancelReservationStatus_Accepted | CancelReservationStatus_Rejected.
#[global] Instance CancelReservationStatus_enum : CEnum CancelReservationStatus := {|
  to_int e := match e with CancelReservationStatus_Accepted => 0 | CancelReservationStatus_Rejected => 1 end;
  enumerators := [CancelReservationStatus_Accepted; CancelReservationStatus_Rejected];
  to_int_inj := ltac:(enum_inj); enumerators_all := ltac:(enum_all) |}.

Inductive ChargingProfileStatus :=
  | ChargingProfileStatus_Accepted | ChargingProfileStatus_Rejected | ChargingProfileStatus_NotSupported.
#[global] Instance ChargingProfileStatus_enum : CEnum ChargingProfileStatus := {|
  to_int e := match e with ChargingProfileStatus_Accepted => 0 | ChargingProfileStatus_Rejected => 1 | ChargingProfileStatus_NotSupported => 2 end;
  enumerators := [ChargingProfileStatus_Accepted; ChargingProfileStatus_Rejected; ChargingProfileStatus_NotSupported];
  to_int_inj := ltac:(enum_inj); enumerators_all := ltac:(enum_all) |}.

Inductive ClearCacheStatus :=
  | ClearCacheStatus_Accepted | ClearCacheStatus_Rejected.
#[global] Instance ClearCacheStatus_enum : CEnum ClearCacheStatus := {|
  to_int e := match e with ClearCacheStatus_Accepted => 0 | ClearCacheStatus_Rejected => 1 end;
  enumerators := [ClearCacheStatus_Accepted; ClearCacheStatus_Rejected];
  to_int_inj := ltac:(enum_inj); enumerators_all := ltac:(enum_all) |}.

Inductive ClearChargingProfileStatus :=
  | ClearChargingProfileStatus_Accepted | ClearChargingProfileStatus_Unknown.
#[global] Instance ClearChargingProfileStatus_enum : CEnum ClearChargingProfileStatus := {|
  to_int e := match e with ClearChargingProfileStatus_Accepted => 0 | ClearChargingProfileStatus_Unknown => 1 end;
  enumerators := [ClearChargingProfileStatus_Accepted; ClearChargingProfileStatus_Unknown];
  to_int_inj := ltac:(enum_inj); enumerators_all := ltac:(enum_all) |}.

Inductive ConfigurationStatus :=
  | ConfigurationStatus_Accepted | ConfigurationStatus_Rejected | ConfigurationStatus_RebootRequired | ConfigurationStatus_NotSupported.
#[global] Instance ConfigurationStatus_enum : CEnum ConfigurationStatus := {|
  to_int e := match e with ConfigurationStatus_Accepted => 0 | ConfigurationStatus_Rejected => 1 | ConfigurationStatus_RebootRequired => 2 | ConfigurationStatus_NotSupported => 3 end;
  enumerators := [ConfigurationStatus_Accepted; ConfigurationStatus_Rejected; ConfigurationStatus_RebootRequired; ConfigurationStatus_NotSupported];
  to_int_inj := ltac:(enum_inj); enumerators_all := ltac:(enum_all) |}.

Inductive DataTransferStatus :=
  | DataTransferStatus_Accepted | DataTransferStatus_Rejected | DataTransferStatus_UnknownMessageId | DataTransferStatus_UnknownVendorId.
#[global] Instance DataTransferStatus_enum : CEnum DataTransferStatus := {|
  to_int e := match e with DataTransferStatus_Accepted => 0 | DataTransferStatus_Rejected => 1 | DataTransferStatus_UnknownMessageId => 2 | DataTransferStatus_UnknownVendorId => 3 end;
  enumerators := [DataTransferStatus_Accepted; DataTransferStatus_Rejected; DataTransferStatus_UnknownMessageId; DataTransferStatus_UnknownVendorId];
  to_int_inj := ltac:(enum_inj); enumerators_all := ltac:(enum_all) |}.

Inductive DiagnosticsStatus :=
  | DiagnosticsStatus_Idle | DiagnosticsStatus_Uploaded | DiagnosticsStatus_UploadFailed | DiagnosticsStatus_Uploading.
#[global] Instance DiagnosticsStatus_enum : CEnum DiagnosticsStatus := {|
  to_int e := match e with DiagnosticsStatus_Idle => 0 | DiagnosticsStatus_Uploaded => 1 | DiagnosticsStatus_UploadFailed => 2 | DiagnosticsStatus_Uploading => 3 end;
  enumerators := [DiagnosticsStatus_Idle; DiagnosticsStatus_Uploaded; DiagnosticsStatus_UploadFailed; DiagnosticsStatus_Uploading];
  to_int_inj := ltac:(enum_inj); enumerators_all := ltac:(enum_all) |}.

Inductive FirmwareStatus :=
  | FirmwareStatus_Downloaded | FirmwareStatus_DownloadFailed | FirmwareStatus_Downloading | FirmwareStatus_Idle
  | FirmwareStatus_InstallationFailed | FirmwareStatus_Installing | FirmwareStatus_Installed.
#[global] Instance FirmwareStatus_enum : CEnum FirmwareStatus := {|
  to_int e := match e with FirmwareStatus_Downloaded => 0 | FirmwareStatus_DownloadFailed => 1 | FirmwareStatus_Downloading => 2 | FirmwareStatus_Idle => 3 | FirmwareStatus_InstallationFailed => 4 | FirmwareStatus_Installing => 5 | FirmwareStatus_Installed => 6 end;
  enumerators := [FirmwareStatus_Downloaded; FirmwareStatus_DownloadFailed; FirmwareStatus_Downloading; FirmwareStatus_Idle; FirmwareStatus_InstallationFailed; FirmwareStatus_Installing; FirmwareStatus_Installed];
  to_int_inj := ltac:(enum_inj); enumerators_all := ltac:(enum_all) |}.

Inductive GetCompositeScheduleStatus :=
  | GetCompositeScheduleStatus_Accepted | GetCompositeScheduleStatus_Rejected.
#[global] Instance GetCompositeScheduleStatus_enum : CEnum GetCompositeScheduleStatus := {|
  to_int e := match e with GetCompositeScheduleStatus_Accepted => 0 | GetCompositeScheduleStatus_Rejected => 1 end;
  enumerators := [GetCompositeScheduleStatus_Accepted; GetCompositeScheduleStatus_Rejected];
  to_int_inj := ltac:(enum_inj); enumerators_all := ltac:(enum_all) |}.

Inductive RegistrationStatus :=
  | RegistrationStatus_Accepted | RegistrationStatus_Pending | RegistrationStatus_Rejected.
#[global] Instance RegistrationStatus_enum : CEnum RegistrationStatus := {|
  to_int e := match e with RegistrationStatus_Accepted => 0 | RegistrationStatus_Pending => 1 | RegistrationStatus_Rejected => 2 end;
  enumerators := [RegistrationStatus_Accepted; RegistrationStatus_Pending; RegistrationStatus_Rejected];
  to_int_inj := ltac:(enum_inj); enumerators_all := ltac:(enum_all) |}.

Inductive RemoteStartStopStatus :=
  | RemoteStartStopStatus_Accepted | RemoteStartStopStatus_Rejected.
#[global] Instance RemoteStartStopStatus_enum : CEnum RemoteStartStopStatus := {|
  to_int e := match e with RemoteStartStopStatus_Accepted => 0 | RemoteStartStopStatus_Rejected => 1 end;
  enumerators := [RemoteStartStopStatus_Accepted; RemoteStartStopStatus_Rejected];
  to_int_inj := ltac:(enum_inj); enumerators_all := ltac:(enum_all) |}.

Inductive ReservationStatus :=
  | ReservationStatus_Accepted | ReservationStatus_Faulted | ReservationStatus_Occupied | ReservationStatus_Rejected
  | ReservationStatus_Unavailable.
#[global] Instance ReservationStatus_enum : CEnum ReservationStatus := {|
  to_int e := match e with ReservationStatus_Accepted => 0 | ReservationStatus_Faulted => 1 | ReservationStatus_Occupied => 2 | ReservationStatus_Rejected => 3 | ReservationStatus_Unavailable => 4 end;
  enumerators := [ReservationStatus_Accepted; ReservationStatus_Faulted; ReservationStatus_Occupied; ReservationStatus_Rejected; ReservationStatus_Unavailable];
  to_int_inj := ltac:(enum_inj); enumerators_all := ltac:(enum_all) |}.

Inductive ResetStatus :=
  | ResetStatus_Accepted | ResetStatus_Rejected.
#[global] Instance ResetStatus_enum : CEnum ResetStatus := {|
  to_int e := match e with ResetStatus_Accepted => 0 | ResetStatus_Rejected => 1 end;
  enumerators := [ResetStatus_Accepted; ResetStatus_Rejected];
  to_int_inj := ltac:(enum_inj); enumerators_all := ltac:(enum_all) |}.

Inductive TriggerMessageStatus :=
  | TriggerMessageStatus_Accepted | TriggerMessageStatus_Rejected | TriggerMessageStatus_NotImplemented.
#[global] Instance TriggerMessageStatus_enum : CEnum TriggerMessageStatus := {|
  to_int e := match e with TriggerMessageStatus_Accepted => 0 | TriggerMessageStatus_Rejected => 1 | TriggerMessageStatus_NotImplemented => 2 end;
  enumerators := [TriggerMessageStatus_Accepted; TriggerMessageStatus_Rejected; TriggerMessageStatus_NotImplemented];
  to_int_inj := ltac:(enum_inj); enumerators_all := ltac:(enum_all) |}.

Inductive UnlockStatus :=
  | UnlockStatus_Unlocked | UnlockStatus_UnlockFailed | UnlockStatus_NotSupported.
#[global] Instance UnlockStatus_enum : CEnum UnlockStatus := {|
  to_int e := match e with UnlockStatus_Unlocked => 0 | UnlockStatus_UnlockFailed => 1 | UnlockStatus_NotSupported => 2 end;
  enumerators := [UnlockStatus_Unlocked; UnlockStatus_UnlockFailed; UnlockStatus_NotSupported];
  to_int_inj := ltac:(enum_inj); enumerators_all := ltac:(enum_all) |}.

Inductive UpdateStatus :=
  | UpdateStatus_Accepted | UpdateStatus_Failed | UpdateStatus_NotSupported | UpdateStatus_VersionMismatch.
#[global] Instance UpdateStatus_enum : CEnum UpdateStatus := {|
  to_int e := match e with UpdateStatus_Accepted => 0 | UpdateStatus_Failed => 1 | UpdateStatus_NotSupported => 2 | UpdateStatus_VersionMismatch => 3 end;
  enumerators := [UpdateStatus_Accepted; UpdateStatus_Failed; UpdateStatus_NotSupported; UpdateStatus_VersionMismatch];
  to_int_inj := ltac:(enum_inj); enumerators_all := ltac:(enum_all) |}.

Inductive ResetType :=
  | ResetType_Hard | ResetType_Soft.
#[global] Instance ResetType_enum : CEnum ResetType := {|
  to_int e := match e with ResetType_Hard => 0 | ResetType_Soft => 1 end;
  enumerators := [ResetType_Hard; ResetType_Soft];
  to_int_inj := ltac:(enum_inj); enumerators_all := ltac:(enum_all) |}.

Inductive MessageTriggerType :=
  | MessageTriggerType_BootNotification | MessageTriggerType_DiagnosticsStatusNotification | MessageTriggerType_FirmwareStatusNotification | MessageTriggerType_Heartbeat
  | MessageTriggerType_MeterValues | MessageTriggerType_StatusNotification.
#[global] Instance MessageTriggerType_enum : CEnum MessageTriggerType := {|
  to_int e := match e with MessageTriggerType_BootNotification => 0 | MessageTriggerType_DiagnosticsStatusNotification => 1 | MessageTriggerType_FirmwareStatusNotification => 2 | MessageTriggerType_Heartbeat => 3 | MessageTriggerType_MeterValues => 4 | MessageTriggerType_StatusNotification => 5 end;
  enumerators := [MessageTriggerType_BootNotification; MessageTriggerType_DiagnosticsStatusNotification; MessageTriggerType_FirmwareStatusNotification; MessageTriggerType_Heartbeat; MessageTriggerType_MeterValues; MessageTriggerType_StatusNotification];
  to_int_inj := ltac:(enum_inj); enumerators_all := ltac:(enum_all) |}.

Inductive ChargePointErrorCode :=
  | ChargePointErrorCode_ConnectorLockFailure | ChargePointErrorCode_EVCommunicationError | ChargePointErrorCode_GroundFailure | ChargePointErrorCode_HighTemperature
  | ChargePointErrorCode_InternalError | ChargePointErrorCode_LocalListConflict | ChargePointErrorCode_NoError | ChargePointErrorCode_OtherError
  | ChargePointErrorCode_OverCurrentFailure | ChargePointErrorCode_OverVoltage | ChargePointErrorCode_PowerMeterFailure | ChargePointErrorCode_PowerSwitchFailure
  | ChargePointErrorCode_ReaderFailure | ChargePointErrorCode_ResetFailure | ChargePointErrorCode_UnderVoltage | ChargePointErrorCode_WeakSignal.
#[global] Instance ChargePointErrorCode_enum : CEnum ChargePointErrorCode := {|
  to_int e := match e with ChargePointErrorCode_ConnectorLockFailure => 0 | ChargePointErrorCode_EVCommunicationError => 1 | ChargePointErrorCode_GroundFailure => 2 | ChargePointErrorCode_HighTemperature => 3 | ChargePointErrorCode_InternalError => 4 | ChargePointErrorCode_LocalListConflict => 5 | ChargePointErrorCode_NoError => 6 | ChargePointErrorCode_OtherError => 7 | ChargePointErrorCode_OverCurrentFailure => 8 | ChargePointErrorCode_OverVoltage => 9 | ChargePointErrorCode_PowerMeterFailure => 10 | ChargePointErrorCode_PowerSwitchFailure => 11 | ChargePointErrorCode_ReaderFailure => 12 | ChargePointErrorCode_ResetFailure => 13 | ChargePointErrorCode_UnderVoltage => 14 | ChargePointErrorCode_WeakSignal => 15 end;
  enumerators := [ChargePointErrorCode_ConnectorLockFailure; ChargePointErrorCode_EVCommunicationError; ChargePointErrorCode_GroundFailure; ChargePointErrorCode_HighTemperature; ChargePointErrorCode_InternalError; ChargePointErrorCode_LocalListConflict; ChargePointErrorCode_NoError; ChargePointErrorCode_OtherError; ChargePointErrorCode_OverCurrentFailure; ChargePointErrorCode_OverVoltage; ChargePointErrorCode_PowerMeterFailure; ChargePointErrorCode_PowerSwitchFailure; ChargePointErrorCode_ReaderFailure; ChargePointErrorCode_ResetFailure; ChargePointErrorCode_UnderVoltage; ChargePointErrorCode_WeakSignal];
  to_int_inj := ltac:(enum_inj); enumerators_all := ltac:(enum_all) |}.

Inductive AvailabilityType :=
  | AvailabilityType_Inoperative | AvailabilityType_Operative.
#[global] Instance AvailabilityType_enum : CEnum AvailabilityType := {|
  to_int e := match e with AvailabilityType_Inoperative => 0 | AvailabilityType_Operative => 1 end;
  enumerators := [AvailabilityType_Inoperative; AvailabilityType_Operative];
  to_int_inj := ltac:(enum_inj); enumerators_all := ltac:(enum_all) |}.

Inductive CertificateUseEnumType :=
  | CertificateUseEnumType_CentralSystemRootCertificate | CertificateUseEnumType_ManufacturerRootCertificate.
#[global] Instance CertificateUseEnumType_enum : CEnum CertificateUseEnumType := {|
  to_int e := match e with CertificateUseEnumType_CentralSystemRootCertificate => 0 | CertificateUseEnumType_ManufacturerRootCertificate => 1 end;
  enumerators := [CertificateUseEnumType_CentralSystemRootCertificate; CertificateUseEnumType_ManufacturerRootCertificate];
  to_int_inj := ltac:(enum_inj); enumerators_all := ltac:(enum_all) |}.

Inductive SecurityEventCode :=
  | SecurityEventCode_FirmwareUpdated | SecurityEventCode_FailedToAuthenticateAtCentralSystem | SecurityEventCode_CentralSystemFailedToAuthenticate | SecurityEventCode_SettingSystemTime
  | SecurityEventCode_StartupOfTheDevice | SecurityEventCode_ResetOrReboot | SecurityEventCode_SecurityLogWasCleared | SecurityEventCode_ReconfigurationOfSecurityParameters
  | SecurityEventCode_MemoryExhaustion | SecurityEventCode_InvalidMessages | SecurityEventCode_AttemptedReplayAttacks | SecurityEventCode_TamperDetectionActivated
  | SecurityEventCode_InvalidFirmwareSignature | SecurityEventCode_InvalidFirmwareSigningCertificate | SecurityEventCode_InvalidCentralSystemCertificate | SecurityEventCode_InvalidChargePointCertificate
  | SecurityEventCode_InvalidTLSVersion | SecurityEventCode_InvalidTLSCipherSuite.
#[global] Instance SecurityEventCode_enum : CEnum SecurityEventCode := {|
  to_int e := match e with SecurityEventCode_FirmwareUpdated => 0 | SecurityEventCode_FailedToAuthenticateAtCentralSystem => 1 | SecurityEventCode_CentralSystemFailedToAuthenticate => 2 | SecurityEventCode_SettingSystemTime => 3 | SecurityEventCode_StartupOfTheDevice => 4 | SecurityEventCode_ResetOrReboot => 5 | SecurityEventCode_SecurityLogWasCleared => 6 | SecurityEventCode_ReconfigurationOfSecurityParameters => 7 | SecurityEventCode_MemoryExhaustion => 8 | SecurityEventCode_InvalidMessages => 9 | SecurityEventCode_AttemptedReplayAttacks => 10 | SecurityEventCode_TamperDetectionActivated => 11 | SecurityEventCode_InvalidFirmwareSignature => 12 | SecurityEventCode_InvalidFirmwareSigningCertificate => 13 | SecurityEventCode_InvalidCentralSystemCertificate => 14 | SecurityEventCode_InvalidChargePointCertificate => 15 | SecurityEventCode_InvalidTLSVersion => 16 | SecurityEventCode_InvalidTLSCipherSuite => 17 end;
  enumerators := [SecurityEventCode_FirmwareUpdated; SecurityEventCode_FailedToAuthenticateAtCentralSystem; SecurityEventCode_CentralSystemFailedToAuthenticate; SecurityEventCode_SettingSystemTime; SecurityEventCode_StartupOfTheDevice; SecurityEventCode_ResetOrReboot; SecurityEventCode_SecurityLogWasCleared; SecurityEventCode_ReconfigurationOfSecurityParameters; SecurityEventCode_MemoryExhaustion; SecurityEventCode_InvalidMessages; SecurityEventCode_AttemptedReplayAttacks; SecurityEventCode_TamperDetectionActivated; SecurityEventCode_InvalidFirmwareSignature; SecurityEventCode_InvalidFirmwareSigningCertificate; SecurityEventCode_InvalidCentralSystemCertificate; SecurityEventCode_InvalidChargePointCertificate; SecurityEventCode_InvalidTLSVersion; SecurityEventCode_InvalidTLSCipherSuite];
  to_int_inj := ltac:(enum_inj); enumerators_all := ltac:(enum_all) |}.

Inductive FirmwareStatusEnumType :=
  | FirmwareStatusEnumType_Downloaded | FirmwareStatusEnumType_DownloadFailed | FirmwareStatusEnumType_Downloading | FirmwareStatusEnumType_DownloadScheduled
  | FirmwareStatusEnumType_DownloadPaused | FirmwareStatusEnumType_Idle | FirmwareStatusEnumType_InstallationFailed | FirmwareStatusEnumType_Installing
  | FirmwareStatusEnumType_Installed | FirmwareStatusEnumType_InstallRebooting | FirmwareStatusEnumType_InstallScheduled | FirmwareStatusEnumType_InstallVerificationFailed
  | FirmwareStatusEnumType_InvalidSignature | FirmwareStatusEnumType_SignatureVerified.
#[global] Instance FirmwareStatusEnumType_enum : CEnum FirmwareStatusEnumType := {|
  to_int e := match e with FirmwareStatusEnumType_Downloaded => 0 | FirmwareStatusEnumType_DownloadFailed => 1 | FirmwareStatusEnumType_Downloading => 2 | FirmwareStatusEnumType_DownloadScheduled => 3 | FirmwareStatusEnumType_DownloadPaused => 4 | FirmwareStatusEnumType_Idle => 5 | FirmwareStatusEnumType_InstallationFailed => 6 | FirmwareStatusEnumType_Installing => 7 | FirmwareStatusEnumType_Installed => 8 | FirmwareStatusEnumType_InstallRebooting => 9 | FirmwareStatusEnumType_InstallScheduled => 10 | FirmwareStatusEnumType_InstallVerificationFailed => 11 | FirmwareStatusEnumType_InvalidSignature => 12 | FirmwareStatusEnumType_SignatureVerified => 13 end;
  enumerators := [FirmwareStatusEnumType_Downloaded; FirmwareStatusEnumType_DownloadFailed; FirmwareStatusEnumType_Downloading; FirmwareStatusEnumType_DownloadScheduled; FirmwareStatusEnumType_DownloadPaused; FirmwareStatusEnumType_Idle; FirmwareStatusEnumType_InstallationFailed; FirmwareStatusEnumType_Installing; FirmwareStatusEnumType_Installed; FirmwareStatusEnumType_InstallRebooting; FirmwareStatusEnumType_InstallScheduled; FirmwareStatusEnumType_InstallVerificationFailed; FirmwareStatusEnumType_InvalidSignature; FirmwareStatusEnumType_SignatureVerified];
  to_int_inj := ltac:(enum_inj); enumerators_all := ltac:(enum_all) |}.

Inductive CertificateSignedStatusEnumType :=
  | CertificateSignedStatusEnumType_Accepted | CertificateSignedStatusEnumType_Rejected.
#[global] Instance CertificateSignedStatusEnumType_enum : CEnum CertificateSignedStatusEnumType := {|
  to_int e := match e with CertificateSignedStatusEnumType_Accepted => 0 | CertificateSignedStatusEnumType_Rejected => 1 end;
  enumerators := [CertificateSignedStatusEnumType_Accepted; CertificateSignedStatusEnumType_Rejected];
  to_int_inj := ltac:(enum_inj); enumerators_all := ltac:(enum_all) |}.

Inductive DeleteCertificateStatusEnumType :=
  | DeleteCertificateStatusEnumType_Accepted | DeleteCertificateStatusEnumType_Failed | DeleteCertificateStatusEnumType_NotFound.
#[global] Instance DeleteCertificateStatusEnumType_enum : CEnum DeleteCertificateStatusEnumType := {|
  to_int e := match e with DeleteCertificateStatusEnumType_Accepted => 0 | DeleteCertificateStatusEnumType_Failed => 1 | DeleteCertificateStatusEnumType_NotFound => 2 end;
  enumerators := [DeleteCertificateStatusEnumType_Accepted; DeleteCertificateStatusEnumType_Failed; DeleteCertificateStatusEnumType_NotFound];
  to_int_inj := ltac:(enum_inj); enumerators_all := ltac:(enum_all) |}.

Inductive GetInstalledCertificateStatusEnumType :=
  | GetInstalledCertificateStatusEnumType_Accepted | GetInstalledCertificateStatusEnumType_NotFound.
#[global] Instance GetInstalledCertificateStatusEnumType_enum : CEnum GetInstalledCertificateStatusEnumType := {|
  to_int e := match e with GetInstalledCertificateStatusEnumType_Accepted => 0 | GetInstalledCertificateStatusEnumType_NotFound => 1 end;
  enumerators := [GetInstalledCertificateStatusEnumType_Accepted; GetInstalledCertificateStatusEnumType_NotFound];
  to_int_inj := ltac:(enum_inj); enumerators_all := ltac:(enum_all) |}.

Inductive HashAlgorithmEnumType :=
  | HashAlgorithmEnumType_SHA256 | HashAlgorithmEnumType_SHA384 | HashAlgorithmEnumType_SHA512.
#[global] Instance HashAlgorithmEnumType_enum : CEnum HashAlgorithmEnumType := {|
  to_int e := match e with HashAlgorithmEnumType_SHA256 => 0 | HashAlgorithmEnumType_SHA384 => 1 | HashAlgorithmEnumType_SHA512 => 2 end;
  enumerators := [HashAlgorithmEnumType_SHA256; HashAlgorithmEnumType_SHA384; HashAlgorithmEnumType_SHA512];
  to_int_inj := ltac:(enum_inj); enumerators_all := ltac:(enum_all) |}.

Inductive LogEnumType :=
  | LogEnumType_DiagnosticsLog | LogEnumType_SecurityLog.
#[global] Instance LogEnumType_enum : CEnum LogEnumType := {|
  to_int e := match e with LogEnumType_DiagnosticsLog => 0 | LogEnumType_SecurityLog => 1 end;
  enumerators := [LogEnumType_DiagnosticsLog; LogEnumType_SecurityLog];
  to_int_inj := ltac:(enum_inj); enumerators_all := ltac:(enum_all) |}.

Inductive LogStatusEnumType :=
  | LogStatusEnumType_Accepted | LogStatusEnumType_Rejected | LogStatusEnumType_AcceptedCanceled.
#[global] Instance LogStatusEnumType_enum : CEnum LogStatusEnumType := {|
  to_int e := match e with LogStatusEnumType_Accepted => 0 | LogStatusEnumType_Rejected => 1 | LogStatusEnumType_AcceptedCanceled => 2 end;
  enumerators := [LogStatusEnumType_Accepted; LogStatusEnumType_Rejected; LogStatusEnumType_AcceptedCanceled];
  to_int_inj := ltac:(enum_inj); enumerators_all := ltac:(enum_all) |}.

Inductive CertificateStatusEnumType :=
  | CertificateStatusEnumType_Accepted | CertificateStatusEnumType_Failed | CertificateStatusEnumType_Rejected.
#[global] Instance CertificateStatusEnumType_enum : CEnum CertificateStatusEnumType := {|
  to_int e := match e with CertificateStatusEnumType_Accepted => 0 | CertificateStatusEnumType_Failed => 1 | CertificateStatusEnumType_Rejected => 2 end;
  enumerators := [CertificateStatusEnumType_Accepted; CertificateStatusEnumType_Failed; CertificateStatusEnumType_Rejected];
  to_int_inj := ltac:(enum_inj); enumerators_all := ltac:(enum_all) |}.

Inductive UploadLogStatusEnumType :=
  | UploadLogStatusEnumType_BadMessage | UploadLogStatusEnumType_Idle | UploadLogStatusEnumType_NotSupportedOperation | UploadLogStatusEnumType_PermissionDenied
  | UploadLogStatusEnumType_Uploaded | UploadLogStatusEnumType_UploadFailure | UploadLogStatusEnumType_Uploading.
#[global] Instance UploadLogStatusEnumType_enum : CEnum UploadLogStatusEnumType := {|
  to_int e := match e with UploadLogStatusEnumType_BadMessage => 0 | UploadLogStatusEnumType_Idle => 1 | UploadLogStatusEnumType_NotSupportedOperation => 2 | UploadLogStatusEnumType_PermissionDenied => 3 | UploadLogStatusEnumType_Uploaded => 4 | UploadLogStatusEnumType_UploadFailure => 5 | UploadLogStatusEnumType_Uploading => 6 end;
  enumerators := [UploadLogStatusEnumType_BadMessage; UploadLogStatusEnumType_Idle; UploadLogStatusEnumType_NotSupportedOperation; UploadLogStatusEnumType_PermissionDenied; UploadLogStatusEnumType_Uploaded; UploadLogStatusEnumType_UploadFailure; UploadLogStatusEnumType_Uploading];
  to_int_inj := ltac:(enum_inj); enumerators_all := ltac:(enum_all) |}.

Inductive GenericStatusEnumType :=
  | GenericStatusEnumType_Accepted | GenericStatusEnumType_Rejected.
#[global] Instance GenericStatusEnumType_enum : CEnum GenericStatusEnumType := {|
  to_int e := match e with GenericStatusEnumType_Accepted => 0 | GenericStatusEnumType_Rejected => 1 end;
  enumerators := [GenericStatusEnumType_Accepted; GenericStatusEnumType_Rejected];
  to_int_inj := ltac:(enum_inj); enumerators_all := ltac:(enum_all) |}.

Inductive UpdateFirmwareStatusEnumType :=
  | UpdateFirmwareStatusEnumType_Accepted | UpdateFirmwareStatusEnumType_Rejected | UpdateFirmwareStatusEnumType_AcceptedCanceled | UpdateFirmwareStatusEnumType_InvalidCertificate
  | UpdateFirmwareStatusEnumType_RevokedCertificate.
#[global] Instance UpdateFirmwareStatusEnumType_enum : CEnum UpdateFirmwareStatusEnumType := {|
  to_int e := match e with UpdateFirmwareStatusEnumType_Accepted => 0 | UpdateFirmwareStatusEnumType_Rejected => 1 | UpdateFirmwareStatusEnumType_AcceptedCanceled => 2 | UpdateFirmwareStatusEnumType_InvalidCertificate => 3 | UpdateFirmwareStatusEnumType_RevokedCertificate => 4 end;
  enumerators := [UpdateFirmwareStatusEnumType_Accepted; UpdateFirmwareStatusEnumType_Rejected; UpdateFirmwareStatusEnumType_AcceptedCanceled; UpdateFirmwareStatusEnumType_InvalidCertificate; UpdateFirmwareStatusEnumType_RevokedCertificate];
  to_int_inj := ltac:(enum_inj); enumerators_all := ltac:(enum_all) |}.

Inductive MessageTriggerEnumType :=
  | MessageTriggerEnumType_BootNotification | MessageTriggerEnumType_LogStatusNotification | MessageTriggerEnumType_FirmwareStatusNotification | MessageTriggerEnumType_Heartbeat
  | MessageTriggerEnumType_MeterValues | MessageTriggerEnumType_SignChargePointCertificate | MessageTriggerEnumType_StatusNotification.
#[global] Instance MessageTriggerEnumType_enum : CEnum MessageTriggerEnumType := {|
  to_int e := match e with MessageTriggerEnumType_BootNotification => 0 | MessageTriggerEnumType_LogStatusNotification => 1 | MessageTriggerEnumType_FirmwareStatusNotification => 2 | MessageTriggerEnumType_Heartbeat => 3 | MessageTriggerEnumType_MeterValues => 4 | MessageTriggerEnumType_SignChargePointCertificate => 5 | MessageTriggerEnumType_StatusNotification => 6 end;
  enumerators := [MessageTriggerEnumType_BootNotification; MessageTriggerEnumType_LogStatusNotification; MessageTriggerEnumType_FirmwareStatusNotification; MessageTriggerEnumType_Heartbeat; MessageTriggerEnumType_MeterValues; MessageTriggerEnumType_SignChargePointCertificate; MessageTriggerEnumType_StatusNotification];
  to_int_inj := ltac:(enum_inj); enumerators_all := ltac:(enum_all) |}.

Inductive TriggerMessageStatusEnumType :=
  | TriggerMessageStatusEnumType_Accepted | TriggerMessageStatusEnumType_Rejected | TriggerMessageStatusEnumType_NotImplemented.
#[global] Instance TriggerMessageStatusEnumType_enum : CEnum TriggerMessageStatusEnumType := {|
  to_int e := match e with TriggerMessageStatusEnumType_Accepted => 0 | TriggerMessageStatusEnumType_Rejected => 1 | TriggerMessageStatusEnumType_NotImplemented => 2 end;
  enumerators := [TriggerMessageStatusEnumType_Accepted; TriggerMessageStatusEnumType_Rejected; TriggerMessageStatusEnumType_NotImplemented];
  to_int_inj := ltac:(enum_inj); enumerators_all := ltac:(enum_all) |}.

(** ** Two-way maps ([BidirectionalMap.h]) *)

Record BidirectionalMap (E : Type) := Maps { strToEnumMap : gmap string E; enumToStrMap : gmap Z string }.
Arguments Maps {E}.
Arguments strToEnumMap {E}.
Arguments enumToStrMap {E}.

Section BidirectionalMap.
Context {E : Type} `{CEnum E}.
Implicit Types m : BidirectionalMap E.

(** The constructor throws at a name or a value that is there already. *)
Fixpoint construct_from m (pairs : list (string * E)) : option (BidirectionalMap E) :=
  match pairs with
  | [] => Some m
  | (s, e) :: pairs' =>
    if bool_decide (is_Some (strToEnumMap m !! s)) then None
    else if bool_decide (is_Some (enumToStrMap m !! to_int e)) then None
    else construct_from (Maps (<[s := e]> (strToEnumMap m)) (<[to_int e := s]> (enumToStrMap m))) pairs'
  end.

Definition construct (pairs : list (string * E)) : option (BidirectionalMap E) := construct_from (Maps ∅ ∅) pairs.

(** [None]: the exception of the old interface. *)
Definition toEnum_or_throw m (str : string) : option E := strToEnumMap m !! str.
Definition toString_or_throw m (enumVal : E) : option string := enumToStrMap m !! to_int enumVal.

Definition toEnum m (str : string) (defaultValue : E) : E := default defaultValue (strToEnumMap m !! str).
Definition toString m (enumVal : E) (defaultValue : string) : string := default defaultValue (enumToStrMap m !! to_int enumVal).

Definition containsString m (str : string) : bool := bool_decide (is_Some (strToEnumMap m !! str)).
Definition containsEnum m (enumVal : E) : bool := bool_decide (is_Some (enumToStrMap m !! to_int enumVal)).

(** What the two maps hold is a list of pairs, each name and each value once. *)
Definition maps_hold m (pairs : list (string * E)) : Prop :=
  NoDup pairs.*1 /\ NoDup pairs.*2 /\
  (forall s e, strToEnumMap m !! s = Some e <-> (s, e) ∈ pairs) /\
  (forall s e, enumToStrMap m !! to_int e = Some s <-> (s, e) ∈ pairs).

Lemma hold_empty : maps_hold (Maps ∅ ∅) [].
Proof. split; [constructor|]. split; [constructor|]. split; intros s e; cbn; rewrite lookup_empty; (split; [done|intros Hx; by apply elem_of_nil in Hx]). Qed.

Lemma hold_name m l s : maps_hold m l -> (is_Some (strToEnumMap m !! s) <-> s ∈ l.*1).
Proof.
  intros (_ & _ & Hs & _). rewrite list_elem_of_fmap. split.
  - intros [e He]. exists (s, e). by rewrite <- Hs.
  - intros ([s' e] & -> & Hin). exists e. by apply Hs.
Qed.

Lemma hold_value m l e : maps_hold m l -> (is_Some (enumToStrMap m !! to_int e) <-> e ∈ l.*2).
Proof.
  intros (_ & _ & _ & He). rewrite list_elem_of_fmap. split.
  - intros [s Hs]. exists (s, e). by rewrite <- He.
  - intros ([s e'] & -> & Hin). exists s. by apply He.
Qed.

Lemma hold_insert m l s e : maps_hold m l -> s ∉ l.*1 -> e ∉ l.*2 ->
  maps_hold (Maps (<[s := e]> (strToEnumMap m)) (<[to_int e := s]> (enumToStrMap m))) (l ++ [(s, e)]).
Proof.
  intros (H1 & H2 & Hs & He) Hns Hne. unfold maps_hold. rewrite !fmap_app. csimpl. cbn [strToEnumMap enumToStrMap]. split; [|split; [|split]].
  - apply NoDup_app. split; [done|]. split; [|apply NoDup_singleton]. intros x Hx Hx'. by apply list_elem_of_singleton in Hx' as ->.
  - apply NoDup_app. split; [done|]. split; [|apply NoDup_singleton]. intros x Hx Hx'. by apply list_elem_of_singleton in Hx' as ->.
  - intros s' e'. rewrite elem_of_app, list_elem_of_singleton, lookup_insert_Some, Hs. split.
    + intros [[-> ->]|[_ Hin]]; [by right|by left].
    + intros [Hin|[= -> ->]]; [|by left]. right. split; [|done]. intros ->. apply Hns. apply list_elem_of_fmap. by exists (s', e').
  - intros s' e'. rewrite elem_of_app, list_elem_of_singleton, lookup_insert_Some, He. split.
    + intros [[Hx ->]|[_ Hin]]; [right|by left]. by apply to_int_inj in Hx as ->.
    + intros [Hin|[= -> ->]]; [|by left]. right. split; [|done]. intros Hx. apply to_int_inj in Hx as ->.
      apply Hne. apply list_elem_of_fmap. by exists (s', e').
Qed.

Lemma construct_from_spec l : forall m l0, maps_hold m l0 ->
  match construct_from m l with
  | Some m' => maps_hold m' (l0 ++ l)
  | None => ~ (NoDup (l0 ++ l).*1 /\ NoDup (l0 ++ l).*2)
  end.
Proof.
  induction l as [|[s e] l IH]; intros m l0 Hm; cbn [construct_from]; [by rewrite app_nil_r|]. rewrite !fmap_app. csimpl.
  case_bool_decide as Hs.
  { apply (hold_name m l0 s Hm) in Hs. intros [(_ & Hd & _)%NoDup_app _]. apply (Hd s Hs), elem_of_cons. by left. }
  case_bool_decide as He.
  { apply (hold_value m l0 e Hm) in He. intros [_ (_ & Hd & _)%NoDup_app]. apply (Hd e He), elem_of_cons. by left. }
  rewrite (hold_name m l0 s Hm) in Hs. rewrite (hold_value m l0 e Hm) in He.
  specialize (IH _ _ (hold_insert m l0 s e Hm Hs He)). rewrite <- app_assoc in IH. cbn [app] in IH.
  destruct (construct_from _ l); [done|]. intros Hn. apply IH. by rewrite !fmap_app.
Qed.

(** Every value of the enumeration has a name. *)
Definition complete_map (pairs : list (string * E)) : bool :=
  match construct pairs with Some m => forallb (containsEnum m) enumerators | None => false end.

(** a map is built, without an exception, exactly from a list without
    repeated names and values, and then translates back and forth: a value has
    a name exactly when the list gives it one, and the name leads back to it. *)
Theorem enum_round_trip (pairs : list (string * E)) :
  match construct pairs with
  | None => ~ (NoDup pairs.*1 /\ NoDup pairs.*2)
  | Some m =>
    NoDup pairs.*1 /\ NoDup pairs.*2 /\
    (forall s e, toEnum_or_throw m s = Some e <-> (s, e) ∈ pairs) /\
    (forall s e, toString_or_throw m e = Some s <-> (s, e) ∈ pairs) /\
    (forall e d d', containsEnum m e = true -> toEnum m (toString m e d) d' = e) /\
    (forall s d d', containsString m s = true -> toString m (toEnum m s d) d' = s)
  end.
Proof.
  pose proof (construct_from_spec pairs (Maps ∅ ∅) [] hold_empty) as Hc. unfold construct. destruct (construct_from _ pairs) as [m|]; [|done].
  cbn [app] in Hc. destruct Hc as (H1 & H2 & Hs & He). do 4 (split; [done|]). unfold toEnum, toString, containsEnum, containsString. split.
  - intros e d d' [s Hse]%bool_decide_eq_true. rewrite Hse. cbn. rewrite He, <- Hs in Hse. by rewrite Hse.
  - intros s d d' [e Hse]%bool_decide_eq_true. rewrite Hse. cbn. rewrite Hs, <- He in Hse. by rewrite Hse.
Qed.

End BidirectionalMap.

(** ** The maps ([EnumStrMappings.h]) *)

Definition reasonMap : list (string * Reason) :=
  [("DeAuthorized"%string, Reason_DeAuthorized);
   ("EmergencyStop"%string, Reason_EmergencyStop);
   ("EVDisconnected"%string, Reason_EVDisconnected);
   ("HardReset"%string, Reason_HardReset);
   ("Local"%string, Reason_Local);
   ("Other"%string, Reason_Other);
   ("PowerLoss"%string, Reason_PowerLoss);
   ("Reboot"%string, Reason_Reboot);
   ("Remote"%string, Reason_Remote);
   ("SoftReset"%string, Reason_SoftReset);
   ("UnlockCommand"%string, Reason_UnlockCommand)].

Definition chargePointStatusMap : list (string * ChargePointStatus) :=
  [("Available"%string, ChargePointStatus_Available);
   ("Preparing"%string, ChargePointStatus_Preparing);
   ("Charging"%string, ChargePointStatus_Charging);
   ("SuspendedEVSE"%string, ChargePointStatus_SuspendedEVSE);
   ("SuspendedEV"%string, ChargePointStatus_SuspendedEV);
   ("Finishing"%string, ChargePointStatus_Finishing);
   ("Reserved"%string, ChargePointStatus_Reserved);
   ("Unavailable"%string, ChargePointStatus_Unavailable);
   ("Faulted"%string, ChargePointStatus_Faulted)].

Definition authorizationStatusMap : list (string * AuthorizationStatus) :=
  [("Accepted"%string, AuthorizationStatus_Accepted);
   ("Blocked"%string, AuthorizationStatus_Blocked);
   ("Expired"%string, AuthorizationStatus_Expired);
   ("Invalid"%string, AuthorizationStatus_Invalid);
   ("ConcurrentTx"%string, AuthorizationStatus_ConcurrentTx);
   ("Other"%string, AuthorizationStatus_Other)].

Definition availabilityStatusMap : list (string * AvailabilityStatus) :=
  [("Accepted"%string, AvailabilityStatus_Accepted);
   ("Rejected"%string, AvailabilityStatus_Rejected);
   ("Scheduled"%string, AvailabilityStatus_Scheduled)].

Definition cancelReservationStatusMap : list (string * CancelReservationStatus) :=
  [("Accepted"%string, CancelReservationStatus_Accepted);
   ("Rejected"%string, CancelReservationStatus_Rejected)].

Definition chargingProfileStatusMap : list (string * ChargingProfileStatus) :=
  [("Accepted"%string, ChargingProfileStatus_Accepted);
   ("Rejected"%string, ChargingProfileStatus_Rejected);
   ("NotSupported"%string, ChargingProfileStatus_NotSupported)].

Definition clearCacheStatusMap : list (string * ClearCacheStatus) :=
  [("Accepted"%string, ClearCacheStatus_Accepted);
   ("Rejected"%string, ClearCacheStatus_Rejected)].

Definition clearChargingProfileStatusMap : list (string * ClearChargingProfileStatus) :=
  [("Accepted"%string, ClearChargingProfileStatus_Accepted);
   ("Unknown"%string, ClearChargingProfileStatus_Unknown)].

Definition configurationStatusMap : list (string * ConfigurationStatus) :=
  [("Accepted"%string, ConfigurationStatus_Accepted);
   ("Rejected"%string, ConfigurationStatus_Rejected);
   ("RebootRequired"%string, ConfigurationStatus_RebootRequired);
   ("NotSupported"%string, ConfigurationStatus_NotSupported)].

Definition dataTransferStatusMap : list (string * DataTransferStatus) :=
  [("Accepted"%string, DataTransferStatus_Accepted);
   ("Rejected"%string, DataTransferStatus_Rejected);
   ("UnknownMessageId"%string, DataTransferStatus_UnknownMessageId)].

Definition diagnosticsStatusMap : list (string * DiagnosticsStatus) :=
  [("Idle"%string, DiagnosticsStatus_Idle);
   ("Uploaded"%string, DiagnosticsStatus_Uploaded);
   ("UploadFailed"%string, DiagnosticsStatus_UploadFailed);
   ("Uploading"%string, DiagnosticsStatus_Uploading)].

Definition firmwareStatusMap : list (string * FirmwareStatus) :=
  [("Downloaded"%string, FirmwareStatus_Downloaded);
   ("DownloadFailed"%string, FirmwareStatus_DownloadFailed);
   ("Downloading"%string, FirmwareStatus_Downloading);
   ("Idle"%string, FirmwareStatus_Idle);
   ("InstallationFailed"%string, FirmwareStatus_InstallationFailed);
   ("Installing"%string, FirmwareStatus_Installing);
   ("Installed"%string, FirmwareStatus_Installed)].

Definition getCompositeScheduleStatusMap : list (string * GetCompositeScheduleStatus) :=
  [("Accepted"%string, GetCompositeScheduleStatus_Accepted);
   ("Rejected"%string, GetCompositeScheduleStatus_Rejected)].

Definition registrationStatusMap : list (string * RegistrationStatus) :=
  [("Accepted"%string, RegistrationStatus_Accepted);
   ("Pending"%string, RegistrationStatus_Pending);
   ("Rejected"%string, RegistrationStatus_Rejected)].

Definition remoteStartStopStatusMap : list (string * RemoteStartStopStatus) :=
  [("Accepted"%string, RemoteStartStopStatus_Accepted);
   ("Rejected"%string, RemoteStartStopStatus_Rejected)].

Definition reservationStatusMap : list (string * ReservationStatus) :=
  [("Accepted"%string, ReservationStatus_Accepted);
   ("Faulted"%string, ReservationStatus_Faulted);
   ("Occupied"%string, ReservationStatus_Occupied);
   ("Rejected"%string, ReservationStatus_Rejected)].

Definition resetStatusMap : list (string * ResetStatus) :=
  [("Accepted"%string, ResetStatus_Accepted);
   ("Rejected"%string, ResetStatus_Rejected)].

Definition triggerMessageStatusMap : list (string * TriggerMessageStatus) :=
  [("Accepted"%string, TriggerMessageStatus_Accepted);
   ("Rejected"%string, TriggerMessageStatus_Rejected);
   ("NotImplemented"%string, TriggerMessageStatus_NotImplemented)].

Definition unlockStatusMap : list (string * UnlockStatus) :=
  [("Unlocked"%string, UnlockStatus_Unlocked);
   ("UnlockFailed"%string, UnlockStatus_UnlockFailed);
   ("NotSupported"%string, UnlockStatus_NotSupported)].

Definition updateStatusMap : list (string * UpdateStatus) :=
  [("Accepted"%string, UpdateStatus_Accepted);
   ("Failed"%string, UpdateStatus_Failed);
   ("NotSupported"%string, UpdateStatus_NotSupported);
   ("VersionMismatch"%string, UpdateStatus_VersionMismatch)].

Definition resetTypeMap : list (string * ResetType) :=
  [("Hard"%string, ResetType_Hard);
   ("Soft"%string, ResetType_Soft)].

Definition messageTriggerTypeMap : list (string * MessageTriggerType) :=
  [("BootNotification"%string, MessageTriggerType_BootNotification);
   ("DiagnosticsStatusNotification"%string, MessageTriggerType_DiagnosticsStatusNotification);
   ("FirmwareStatusNotification"%string, MessageTriggerType_FirmwareStatusNotification);
   ("Heartbeat"%string, MessageTriggerType_Heartbeat);
   ("MeterValues"%string, MessageTriggerType_MeterValues);
   ("StatusNotification"%string, MessageTriggerType_StatusNotification)].

Definition chargePointErrorCodeMap : list (string * ChargePointErrorCode) :=
  [("ConnectorLockFailure"%string, ChargePointErrorCode_ConnectorLockFailure);
   ("EVCommunicationError"%string, ChargePointErrorCode_EVCommunicationError);
   ("GroundFailure"%string, ChargePointErrorCode_GroundFailure);
   ("HighTemperature"%string, ChargePointErrorCode_HighTemperature);
   ("InternalError"%string, ChargePointErrorCode_InternalError);
   ("LocalListConflict"%string, ChargePointErrorCode_LocalListConflict);
   ("NoError"%string, ChargePointErrorCode_NoError);
   ("OtherError"%string, ChargePointErrorCode_OtherError);
   ("OverCurrentFailure"%string, ChargePointErrorCode_OverCurrentFailure);
   ("OverVoltage"%string, ChargePointErrorCode_OverVoltage);
   ("PowerMeterFailure"%string, ChargePointErrorCode_PowerMeterFailure);
   ("PowerSwitchFailure"%string, ChargePointErrorCode_PowerSwitchFailure);
   ("ReaderFailure"%string, ChargePointErrorCode_ReaderFailure);
   ("ResetFailure"%string, ChargePointErrorCode_ResetFailure);
   ("UnderVoltage"%string, ChargePointErrorCode_UnderVoltage);
   ("WeakSignal"%string, ChargePointErrorCode_WeakSignal)].

Definition AvailabilityTypeMap : list (string * AvailabilityType) :=
  [("Inoperative"%string, AvailabilityType_Inoperative);
   ("Operative"%string, AvailabilityType_Operative)].

Definition certificateUseEnumTypeMap : list (string * CertificateUseEnumType) :=
  [("CentralSystemRootCertificate"%string, CertificateUseEnumType_CentralSystemRootCertificate);
   ("ManufacturerRootCertificate"%string, CertificateUseEnumType_ManufacturerRootCertificate)].

Definition securityEventCodeMap : list (string * SecurityEventCode) :=
  [("FirmwareUpdated"%string, SecurityEventCode_FirmwareUpdated);
   ("FailedToAuthenticateAtCentralSystem"%string, SecurityEventCode_FailedToAuthenticateAtCentralSystem);
   ("CentralSystemFailedToAuthenticate"%string, SecurityEventCode_CentralSystemFailedToAuthenticate);
   ("SettingSystemTime"%string, SecurityEventCode_SettingSystemTime);
   ("StartupOfTheDevice"%string, SecurityEventCode_StartupOfTheDevice);
   ("ResetOrReboot"%string, SecurityEventCode_ResetOrReboot);
   ("SecurityLogWasCleared"%string, SecurityEventCode_SecurityLogWasCleared);
   ("ReconfigurationOfSecurityParameters"%string, SecurityEventCode_ReconfigurationOfSecurityParameters);
   ("MemoryExhaustion"%string, SecurityEventCode_MemoryExhaustion);
   ("InvalidMessages"%string, SecurityEventCode_InvalidMessages);
   ("AttemptedReplayAttacks"%string, SecurityEventCode_AttemptedReplayAttacks);
   ("TamperDetectionActivated"%string, SecurityEventCode_TamperDetectionActivated);
   ("InvalidFirmwareSignature"%string, SecurityEventCode_InvalidFirmwareSignature);
   ("InvalidFirmwareSigningCertificate"%string, SecurityEventCode_InvalidFirmwareSigningCertificate);
   ("InvalidCentralSystemCertificate"%string, SecurityEventCode_InvalidCentralSystemCertificate);
   ("InvalidChargePointCertificate"%string, SecurityEventCode_InvalidChargePointCertificate);
   ("InvalidTLSVersion"%string, SecurityEventCode_InvalidTLSVersion);
   ("InvalidTLSCipherSuite"%string, SecurityEventCode_InvalidTLSCipherSuite)].

Definition firmwareStatusEnumTypeMap : list (string * FirmwareStatusEnumType) :=
  [("Downloaded"%string, FirmwareStatusEnumType_Downloaded);
   ("DownloadFailed"%string, FirmwareStatusEnumType_DownloadFailed);
   ("Downloading"%string, FirmwareStatusEnumType_Downloading);
   ("DownloadScheduled"%string, FirmwareStatusEnumType_DownloadScheduled);
   ("DownloadPaused"%string, FirmwareStatusEnumType_DownloadPaused);
   ("Idle"%string, FirmwareStatusEnumType_Idle);
   ("InstallationFailed"%string, FirmwareStatusEnumType_InstallationFailed);
   ("Installing"%string, FirmwareStatusEnumType_Installing);
   ("Installed"%string, FirmwareStatusEnumType_Installed);
   ("InstallRebooting"%string, FirmwareStatusEnumType_InstallRebooting);
   ("InstallScheduled"%string, FirmwareStatusEnumType_InstallScheduled);
   ("InstallVerificationFailed"%string, FirmwareStatusEnumType_InstallVerificationFailed);
   ("InvalidSignature"%string, FirmwareStatusEnumType_InvalidSignature);
   ("SignatureVerified"%string, FirmwareStatusEnumType_SignatureVerified)].

Definition certificateSignedStatusEnumTypeMap : list (string * CertificateSignedStatusEnumType) :=
  [("Accepted"%string, CertificateSignedStatusEnumType_Accepted);
   ("Rejected"%string, CertificateSignedStatusEnumType_Rejected)].

Definition deleteCertificateStatusEnumTypeMap : list (string * DeleteCertificateStatusEnumType) :=
  [("Accepted"%string, DeleteCertificateStatusEnumType_Accepted);
   ("Failed"%string, DeleteCertificateStatusEnumType_Failed)].

Definition getInstalledCertificateStatusEnumTypeMap : list (string * GetInstalledCertificateStatusEnumType) :=
  [("Accepted"%string, GetInstalledCertificateStatusEnumType_Accepted);
   ("NotFound"%string, GetInstalledCertificateStatusEnumType_NotFound)].

Definition hashAlgorithmEnumTypeMap : list (string * HashAlgorithmEnumType) :=
  [("SHA256"%string, HashAlgorithmEnumType_SHA256);
   ("SHA384"%string, HashAlgorithmEnumType_SHA384);
   ("SHA512"%string, HashAlgorithmEnumType_SHA512)].

Definition logEnumTypeMap : list (string * LogEnumType) :=
  [("DiagnosticsLog"%string, LogEnumType_DiagnosticsLog);
   ("SecurityLog"%string, LogEnumType_SecurityLog)].

Definition logStatusEnumTypeMap : list (string * LogStatusEnumType) :=
  [("Accepted"%string, LogStatusEnumType_Accepted);
   ("Rejected"%string, LogStatusEnumType_Rejected);
   ("AcceptedCanceled"%string, LogStatusEnumType_AcceptedCanceled)].

Definition certificateStatusEnumTypeMap : list (string * CertificateStatusEnumType) :=
  [("Accepted"%string, CertificateStatusEnumType_Accepted);
   ("Failed"%string, CertificateStatusEnumType_Failed);
   ("Rejected"%string, CertificateStatusEnumType_Rejected)].

Definition uploadLogStatusEnumTypeMap : list (string * UploadLogStatusEnumType) :=
  [("BadMessage"%string, UploadLogStatusEnumType_BadMessage);
   ("Idle"%string, UploadLogStatusEnumType_Idle);
   ("NotSupportedOperation"%string, UploadLogStatusEnumType_NotSupportedOperation);
   ("PermissionDenied"%string, UploadLogStatusEnumType_PermissionDenied);
   ("Uploaded"%string, UploadLogStatusEnumType_Uploaded);
   ("UploadFailure"%string, UploadLogStatusEnumType_UploadFailure);
   ("Uploading"%string, UploadLogStatusEnumType_Uploading)].

Definition genericStatusEnumTypeMap : list (string * GenericStatusEnumType) :=
  [("Accepted"%string, GenericStatusEnumType_Accepted);
   ("Rejected"%string, GenericStatusEnumType_Rejected)].

Definition updateFirmwareStatusEnumTypeMap : list (string * UpdateFirmwareStatusEnumType) :=
  [("Accepted"%string, UpdateFirmwareStatusEnumType_Accepted);
   ("Rejected"%string, UpdateFirmwareStatusEnumType_Rejected);
   ("AcceptedCanceled"%string, UpdateFirmwareStatusEnumType_AcceptedCanceled);
   ("InvalidCertificate"%string, UpdateFirmwareStatusEnumType_InvalidCertificate);
   ("RevokedCertificate"%string, UpdateFirmwareStatusEnumType_RevokedCertificate)].

Definition messageTriggerEnumTypeMap : list (string * MessageTriggerEnumType) :=
  [("BootNotification"%string, MessageTriggerEnumType_BootNotification);
   ("LogStatusNotification"%string, MessageTriggerEnumType_LogStatusNotification);
   ("FirmwareStatusNotification"%string, MessageTriggerEnumType_FirmwareStatusNotification);
   ("Heartbeat"%string, MessageTriggerEnumType_Heartbeat);
   ("MeterValues"%string, MessageTriggerEnumType_MeterValues);
   ("SignChargePointCertificate"%string, MessageTriggerEnumType_SignChargePointCertificate);
   ("StatusNotification"%string, MessageTriggerEnumType_StatusNotification)].

Definition triggerMessageStatusEnumTypeMap : list (string * TriggerMessageStatusEnumType) :=
  [("Accepted"%string, TriggerMessageStatusEnumType_Accepted);
   ("Rejected"%string, TriggerMessageStatusEnumType_Rejected);
   ("NotImplemented"%string, TriggerMessageStatusEnumType_NotImplemented)].

Definition map_table : list (string * bool) :=
  [("reasonMap"%string, complete_map reasonMap);
   ("chargePointStatusMap"%string, complete_map chargePointStatusMap);
   ("authorizationStatusMap"%string, complete_map authorizationStatusMap);
   ("availabilityStatusMap"%string, complete_map availabilityStatusMap);
   ("cancelReservationStatusMap"%string, complete_map cancelReservationStatusMap);
   ("chargingProfileStatusMap"%string, complete_map chargingProfileStatusMap);
   ("clearCacheStatusMap"%string, complete_map clearCacheStatusMap);
   ("clearChargingProfileStatusMap"%string, complete_map clearChargingProfileStatusMap);
   ("configurationStatusMap"%string, complete_map configurationStatusMap);
   ("dataTransferStatusMap"%string, complete_map dataTransferStatusMap);
   ("diagnosticsStatusMap"%string, complete_map diagnosticsStatusMap);
   ("firmwareStatusMap"%string, complete_map firmwareStatusMap);
   ("getCompositeScheduleStatusMap"%string, complete_map getCompositeScheduleStatusMap);
   ("registrationStatusMap"%string, complete_map registrationStatusMap);
   ("remoteStartStopStatusMap"%string, complete_map remoteStartStopStatusMap);
   ("reservationStatusMap"%string, complete_map reservationStatusMap);
   ("resetStatusMap"%string, complete_map resetStatusMap);
   ("triggerMessageStatusMap"%string, complete_map triggerMessageStatusMap);
   ("unlockStatusMap"%string, complete_map unlockStatusMap);
   ("updateStatusMap"%string, complete_map updateStatusMap);
   ("resetTypeMap"%string, complete_map resetTypeMap);
   ("messageTriggerTypeMap"%string, complete_map messageTriggerTypeMap);
   ("chargePointErrorCodeMap"%string, complete_map chargePointErrorCodeMap);
   ("AvailabilityTypeMap"%string, complete_map AvailabilityTypeMap);
   ("certificateUseEnumTypeMap"%string, complete_map certificateUseEnumTypeMap);
   ("securityEventCodeMap"%string, complete_map securityEventCodeMap);
   ("firmwareStatusEnumTypeMap"%string, complete_map firmwareStatusEnumTypeMap);
   ("certificateSignedStatusEnumTypeMap"%string, complete_map certificateSignedStatusEnumTypeMap);
   ("deleteCertificateStatusEnumTypeMap"%string, complete_map deleteCertificateStatusEnumTypeMap);
   ("getInstalledCertificateStatusEnumTypeMap"%string, complete_map getInstalledCertificateStatusEnumTypeMap);
   ("hashAlgorithmEnumTypeMap"%string, complete_map hashAlgorithmEnumTypeMap);
   ("logEnumTypeMap"%string, complete_map logEnumTypeMap);
   ("logStatusEnumTypeMap"%string, complete_map logStatusEnumTypeMap);
   ("certificateStatusEnumTypeMap"%string, complete_map certificateStatusEnumTypeMap);
   ("uploadLogStatusEnumTypeMap"%string, complete_map uploadLogStatusEnumTypeMap);
   ("genericStatusEnumTypeMap"%string, complete_map genericStatusEnumTypeMap);
   ("updateFirmwareStatusEnumTypeMap"%string, complete_map updateFirmwareStatusEnumTypeMap);
   ("messageTriggerEnumTypeMap"%string, complete_map messageTriggerEnumTypeMap);
   ("triggerMessageStatusEnumTypeMap"%string, complete_map triggerMessageStatusEnumTypeMap)].

(** the thirty-nine maps of the program are all built without an exception,
    and all but three have a name for every value; those three throw, or give
    their default, for a value that exists. *)
Theorem incomplete_maps : fst <$> List.filter (fun m => negb m.2) map_table =
  ["dataTransferStatusMap"; "reservationStatusMap"; "deleteCertificateStatusEnumTypeMap"]%string.
Proof. vm_compute. reflexivity. Qed.
