(* ===== verification/OcppConfig.v ===== *)
(** * The OCPP configuration ([src/ocpp/config])

    One JSON document with the settings of the OCPP client, read and written
    by dotted paths, completed from defaults and kept in a cache file, and
    callbacks that a thread pool runs for the paths that change.  Values are
    copied in and out, so a copy is the value itself.  The parser, the printer
    and the files are parameters or answers of the environment. *)

From Stdlib Require Import Ascii.
From S2P Require Import Prelude Utils Lru Sqlite Json.

(** ** Paths *)

(** The pieces of a key between its dots, as the loops of [find] and [substr]
    take them: there is always one, and it may be empty. *)
Fixpoint segments (key : string) : list string :=
  match key with
  | EmptyString => [EmptyString]
  | String c key' =>
    if Ascii.eqb c "." then EmptyString :: segments key'
    else match segments key' with
         | [] => [String c EmptyString]
         | s :: rest => String c s :: rest
         end
  end.

Definition joined (parentPath key : string) : string :=
  if String.eqb parentPath EmptyString then key else (parentPath ++ "." ++ key)%string.

(** ** Comparison and completion ([ConfigDefaults.cpp]) *)

Definition same_type (a b : value) : bool :=
  (IsBool a && IsBool b) || bool_decide (GetType a = GetType b).

(** The members of the defaults are looked for in the configuration, whose
    objects are taken for objects without a test. *)
Definition check_members (checkNode : value -> value -> outcome bool) (cfgNode : value) :
    list (string * value) -> bool -> outcome bool :=
  fix each (members : list (string * value)) (ok : bool) : outcome bool :=
    match members with
    | [] => Returns ok
    | (key, defVal) :: members' =>
      has ← HasMember cfgNode key;
      if negb has then each members' false
      else
        cfgVal ← member cfgNode key;
        let ok := if same_type cfgVal defVal then ok else false in
        if IsObject defVal then
          r ← checkNode defVal cfgVal;
          each members' (if (r : bool) then ok else false)
        else each members' ok
    end.

Fixpoint checkNode (defNode cfgNode : value) : outcome bool :=
  match defNode with
  | Obj members => check_members checkNode cfgNode members true
  | _ => Undefined
  end.

Definition AddMember (v : value) (key : string) (x : value) : outcome value :=
  match v with Obj l => Returns (Obj (l ++ [(key, x)])) | _ => Undefined end.

Definition assign_member (v : value) (key : string) (x : value) : outcome value :=
  match v with Obj l => if has_member key l then Returns (Obj (set_member key x l)) else Undefined | _ => Undefined end.

(** A member that is missing is added at the end; one of another type is
    overwritten. *)
Definition merge_members (mergeNode : value -> value -> outcome value) : list (string * value) -> value -> outcome value :=
  fix each (members : list (string * value)) (cfgNode : value) : outcome value :=
    match members with
    | [] => Returns cfgNode
    | (key, defVal) :: members' =>
      has ← HasMember cfgNode key;
      if negb has then cfgNode ← AddMember cfgNode key defVal; each members' cfgNode
      else
        cfgVal ← member cfgNode key;
        if negb (same_type cfgVal defVal) then cfgNode ← assign_member cfgNode key defVal; each members' cfgNode
        else if IsObject defVal then
          v ← mergeNode defVal cfgVal;
          cfgNode ← assign_member cfgNode key v;
          each members' cfgNode
        else each members' cfgNode
    end.

Fixpoint mergeNode (defNode cfgNode : value) : outcome value :=
  match defNode with
  | Obj members => merge_members mergeNode members cfgNode
  | _ => Undefined
  end.

(** [def]: the parsed defaults. *)
Definition validateAndMergeConfig (def config : value) : outcome (bool * value) :=
  if negb (IsObject config) then Returns (false, config)
  else if negb (IsObject def) then Returns (false, config)
  else
    _ ← checkNode def config;
    config ← mergeNode def config;
    Returns (true, config).

(** The value at a path, by the first member of each name. *)
Fixpoint walk (current : value) (keys : list string) : option value :=
  match keys with
  | [] => Some current
  | k :: keys' =>
    match current with
    | Obj l => match find_member k l with Some v => walk v keys' | None => None end
    | _ => None
    end
  end.

Definition CompareJsonTypeByPath (keyPath : string) (doc target : value) : bool :=
  if String.eqb keyPath EmptyString then IsObject target
  else match walk doc (segments keyPath) with
       | None => false
       | Some current => same_type target current
       end.

(** The document of the default settings. *)
Definition DEFAULT_CONFIG_JSON : value := Obj [
  ("ChargePoint"%string, Obj [
    ("CallRequestTimeout"%string, Number (NInt 30));
    ("ChargePointIdentifier"%string, Str "DeYeL430");
    ("ChargePointSerialNumber"%string, Str "SN123456");
    ("ClientCertificateRequestEcCurve"%string, Str "P-256");
    ("ClientCertificateRequestHashType"%string, Str "SHA256");
    ("ClientCertificateRequestKeyType"%string, Str "RSA");
    ("ClientCertificateRequestRsaKeyLength"%string, Number (NInt 2048));
    ("ClientCertificateRequestSubjectCountry"%string, Str "CN");
    ("ClientCertificateRequestSubjectEmail"%string, Str "it@deye.com.cn");
    ("ClientCertificateRequestSubjectLocation"%string, Str "Ningbo");
    ("ClientCertificateRequestSubjectOrganizationUnit"%string, Str "OrganizationUnit");
    ("ClientCertificateRequestSubjectState"%string, Str "State");
    ("ConnectionTimeout"%string, Number (NInt 3000));
    ("ConnectionUrl"%string, Str "ws://172.30.1.88:8080/steve/websocket/CentralSystemService");
    ("DatabasePath"%string, Str "/usr/local/app/ocpp/chargepoint.db");
    ("FirmwareVersion"%string, Str "v1.0");
    ("FirmwareSavePath"%string, Str "/tmp");
    ("SecurityLogSavePath"%string, Str "/usr/local/app/ocpp");
    ("Iccid"%string, Str "111");
    ("Imsi"%string, Str "111");
    ("JsonSchemasPath"%string, Str "/usr/local/app/ocpp/schema/json");
    ("MeterSerialNumber"%string, Str "MeterSN123");
    ("MeterType"%string, Str "MainMeterType");
    ("Model"%string, Str "YourModel");
    ("Vendor"%string, Str "DeYe");
    ("Protocol"%string, Str "ocpp1.6");
    ("OcppSoftwareVersion"%string, Str "OCPP1.6_g00000");
    ("RetryInterval"%string, Number (NInt 2000));
    ("TransactionMessageAttempts"%string, Number (NInt 3));
    ("LocalListVersion"%string, Number (NInt 0));
    ("SecurityProfile"%string, Number (NInt 1));
    ("Tlsv12CipherList"%string, Str "ECDHE-ECDSA-AES256-GCM-SHA384:ECDHE-RSA-AES256-GCM-SHA384");
    ("Tlsv13CipherList"%string, Str "TLS_AES_128_GCM_SHA256:TLS_AES_256_GCM_SHA384");
    ("TlsServerCertificateCa"%string, Str "/usr/local/app/ocpp/open-ocpp_ca.crt");
    ("TlsClientCertificate"%string, Str "/usr/local/app/ocpp/open-ocpp_charge-point.crt");
    ("TlsClientCertificatePrivateKey"%string, Str "/usr/local/app/ocpp/open-ocpp_charge-point.key");
    ("TlsClientCertificatePrivateKeyPassphrase"%string, Str "");
    ("InternalCertificateManagementEnabled"%string, Bool false);
    ("TlsAllowSelfSignedCertificates"%string, Bool true);
    ("TlsAllowExpiredCertificates"%string, Bool false);
    ("TlsAcceptNonTrustedCertificates"%string, Bool false);
    ("TlsSkipServerNameCheck"%string, Bool false);
    ("SecurityEventNotificationEnabled"%string, Bool true);
    ("SecurityLogMaxEntriesCount"%string, Number (NInt 2000));
    ("AuthentCacheMaxEntriesCount"%string, Number (NInt 1000))]);
  ("OCPP1_6"%string, Obj [
    ("AllowOfflineTxForUnknownId"%string, Bool false);
    ("AuthorizationCacheEnabled"%string, Bool false);
    ("AuthorizeRemoteTxRequests"%string, Bool true);
    ("ClockAlignedDataInterval"%string, Number (NInt 3600));
    ("ConnectorPhaseRotation"%string, Str "NotApplicable");
    ("GetConfigurationMaxKeys"%string, Number (NInt 150));
    ("HeartbeatInterval"%string, Number (NInt 15));
    ("LocalAuthListEnabled"%string, Bool false);
    ("LocalAuthListMaxLength"%string, Number (NInt 500));
    ("LocalAuthorizeOffline"%string, Bool false);
    ("LocalPreAuthorize"%string, Bool false);
    ("MeterValueSampleInterval"%string, Number (NInt 60));
    ("MeterValuesAlignedData"%string, Str "Energy.Active.Import.Register");
    ("MeterValuesAlignedDataMaxLength"%string, Number (NInt 64));
    ("MeterValuesSampledData"%string, Str "Energy.Active.Import.Register");
    ("MeterValuesSampledDataMaxLength"%string, Number (NInt 64));
    ("NumberOfConnectors"%string, Number (NInt 8));
    ("ReserveConnectorZeroSupported"%string, Bool false);
    ("ResetRetries"%string, Number (NInt 2));
    ("SendLocalListMaxLength"%string, Number (NInt 0));
    ("StopTransactionOnEVSideDisconnect"%string, Bool true);
    ("StopTransactionOnInvalidId"%string, Bool false);
    ("StopTxnAlignedData"%string, Str "Energy.Active.Import.Register");
    ("StopTxnAlignedDataMaxLength"%string, Number (NInt 64));
    ("StopTxnSampledData"%string, Str "Energy.Active.Import.Register");
    ("StopTxnSampledDataMaxLength"%string, Number (NInt 64));
    ("SupportedFeatureProfiles"%string, Str "Core,FirmwareManagement,LocalAuthListManagement,Reservation,RemoteTrigger");
    ("SupportedFeatureProfilesMaxLength"%string, Number (NInt 128));
    ("TransactionMessageAttempts"%string, Number (NInt 0));
    ("TransactionMessageRetryInterval"%string, Number (NInt 60));
    ("WebSocketPingInterval"%string, Number (NInt 30));
    ("ConnectionTimeOut"%string, Number (NInt 180));
    ("AdditionalRootCertificateCheck"%string, Bool false);
    ("AuthorizationKey"%string, Str "123123");
    ("CertificateSignedMaxChainSize"%string, Number (NInt 10000));
    ("CertificateStoreMaxLength"%string, Number (NInt 50));
    ("CpoName"%string, Str "DeYe OCPP1_6");
    ("SupportedFileTransferProtocols"%string, Str "FTP,FTPS,HTTP,HTTPS");
    ("UnlockConnectorOnEVSideDisconnect"%string, Bool true)])].

(** ** Names *)

Fixpoint distinct (names : list string) : bool :=
  match names with [] => true | n :: names' => negb (existsb (String.eqb n) names') && distinct names' end.

Lemma distinct_NoDup names : distinct names = true -> NoDup names.
Proof.
  induction names as [|n names IH]; cbn [distinct]; intros Hd; [constructor|]. apply andb_true_iff in Hd as [Hn%negb_true_iff Hd].
  apply NoDup_cons. split; [|by apply IH]. intros Hin. assert (Ht : existsb (String.eqb n) names = true).
  { apply existsb_exists. exists n. split; [by apply list_elem_of_In|apply String.eqb_refl]. }
  congruence.
Qed.

(** The names of every object are distinct. *)
Fixpoint distinct_names (v : value) : bool :=
  match v with
  | Obj l =>
    distinct l.*1 &&
    (fix each (l : list (string * value)) : bool := match l with [] => true | m :: l' => distinct_names m.2 && each l' end) l
  | _ => true
  end.

Lemma distinct_object l : distinct_names (Obj l) = true -> NoDup l.*1 /\ forall k x, find_member k l = Some x -> distinct_names x = true.
Proof.
  cbn [distinct_names]. intros [Hd%distinct_NoDup Ha]%andb_true_iff. split; [done|]. clear Hd.
  induction l as [|[n v] l IH]; intros k x; cbn [find_member]; [done|]. apply andb_true_iff in Ha as [Hv Ha].
  destruct (String.eqb k n); [by intros [= <-]|by apply IH].
Qed.

Lemma same_type_refl v : same_type v v = true.
Proof. unfold same_type. rewrite bool_decide_true by done. by destruct (IsBool v). Qed.

Lemma same_type_object c l : same_type c (Obj l) = true -> exists lc, c = Obj lc.
Proof. unfold same_type. destruct c as [|[]| | | |lc]; try done. by exists lc. Qed.

Lemma object_inv v : IsObject v = true -> exists l, v = Obj l.
Proof. destruct v as [| | | | |l]; try done. by exists l. Qed.

Lemma walk_plain v p d : IsObject v = false -> walk v p = Some d -> p = [] /\ v = d.
Proof. destruct p as [|k p]; cbn [walk]; [by intros _ [= ->]|]. by destruct v. Qed.

(** ** Completion *)

(** What a member becomes. *)
Definition merged (d : value) (co : option value) : outcome value :=
  match co with
  | None => Returns d
  | Some c => if same_type c d then if IsObject d then mergeNode d c else Returns c else Returns d
  end.

Lemma merge_members_find l : forall lc v', NoDup l.*1 -> merge_members mergeNode l (Obj lc) = Returns v' ->
  exists lc', v' = Obj lc' /\
    (forall k d, find_member k l = Some d -> exists x, merged d (find_member k lc) = Returns x /\ find_member k lc' = Some x) /\
    (forall k, k ∉ l.*1 -> find_member k lc' = find_member k lc).
Proof.
  induction l as [|[key d] l IH]; intros lc v' Hnd Hm; cbn [merge_members] in Hm.
  - injection Hm as <-. by exists lc.
  - csimpl in Hnd. apply NoDup_cons in Hnd as [Hnk Hnd].
    assert (Hgo : exists lc1 x, merge_members mergeNode l (Obj lc1) = Returns v' /\ merged d (find_member key lc) = Returns x /\
      find_member key lc1 = Some x /\ forall k, k <> key -> find_member k lc1 = find_member k lc).
    { unfold HasMember, has_member in Hm. destruct (find_member key lc) as [c|] eqn:Hf; cbn [mbind outcome_bind negb] in Hm.
      - unfold member in Hm. rewrite Hf in Hm. cbn [mbind outcome_bind merged] in Hm |- *.
        destruct (same_type c d) eqn:Hs; cbn [negb] in Hm.
        + destruct (IsObject d).
          * destruct (mergeNode d c) as [| |x] eqn:Hx; cbn [mbind outcome_bind] in Hm; try done.
            unfold assign_member, has_member in Hm. rewrite Hf in Hm. exists (set_member key x lc), x. split; [done|]. split; [done|].
            split; [apply find_set_same; by rewrite Hf|]. intros k Hk. by apply find_set_other.
          * by exists lc, c.
        + unfold assign_member, has_member in Hm. rewrite Hf in Hm. exists (set_member key d lc), d. split; [done|]. split; [done|].
          split; [apply find_set_same; by rewrite Hf|]. intros k Hk. by apply find_set_other.
      - cbn [AddMember] in Hm. exists (lc ++ [(key, d)]), d. split; [done|]. split; [done|]. split.
        + rewrite find_app, Hf. cbn [find_member]. by rewrite String.eqb_refl.
        + intros k Hk. rewrite find_app. destruct (find_member k lc); [done|]. cbn [find_member]. by destruct (String.eqb_spec k key). }
    destruct Hgo as (lc1 & x & Hr & Hx & Hkey & Hoth). destruct (IH lc1 v' Hnd Hr) as (lc' & -> & Hin & Hout). exists lc'. split; [done|]. split.
    + intros k e. cbn [find_member]. destruct (String.eqb_spec k key) as [->|Hne].
      * intros [= <-]. exists x. split; [done|]. by rewrite Hout.
      * intros He. rewrite <- (Hoth k Hne). by apply Hin.
    + intros k Hk. csimpl in Hk. apply not_elem_of_cons in Hk as [Hne Hk]. rewrite Hout by done. by apply Hoth.
Qed.

Lemma mergeNode_total : forall def, IsObject def = true -> forall lc, exists lc', mergeNode def (Obj lc) = Returns (Obj lc').
Proof.
  refine (value_ind _ _ _ _ _ _ _); try done. intros l IH _. cbn [mergeNode].
  induction IH as [|[key d] l Hd _ IHl]; intros lc; cbn [merge_members]; [by exists lc|]. cbn [snd] in Hd.
  unfold HasMember, has_member. destruct (find_member key lc) as [c|] eqn:Hf; cbn [mbind outcome_bind negb AddMember]; [|apply IHl].
  unfold member. rewrite Hf. cbn [mbind outcome_bind]. unfold assign_member, has_member.
  destruct (same_type c d) eqn:Hs; cbn [negb]; [|rewrite Hf; apply IHl].
  destruct (IsObject d) eqn:Ho; [|apply IHl]. destruct (object_inv d Ho) as [ld ->]. destruct (same_type_object c ld Hs) as [lw ->].
  destruct (Hd eq_refl lw) as [lx ->]. cbn [mbind outcome_bind]. rewrite Hf. apply IHl.
Qed.

(** The configuration has an object wherever it is looked into for one. *)
Fixpoint sections_fit (def cfg : value) : bool :=
  match def with
  | Obj l =>
    match cfg with
    | Obj lc =>
      (fix each (l : list (string * value)) : bool :=
        match l with
        | [] => true
        | (k, d) :: l' => (match find_member k lc with Some c => if IsObject d then sections_fit d c else true | None => true end) && each l'
        end) l
    | _ => match l with [] => true | _ => false end
    end
  | _ => true
  end.

Lemma checkNode_total : forall def, IsObject def = true -> forall cfg,
  if sections_fit def cfg then exists b, checkNode def cfg = Returns b else checkNode def cfg = Undefined.
Proof.
  refine (value_ind _ _ _ _ _ _ _); try done. intros l IH _ cfg. cbn [checkNode sections_fit].
  destruct cfg as [| | | | |lc]; try (destruct l as [|[k d] l]; [by exists true|done]).
  set (fit := fix each (l : list (string * value)) : bool := _). enough (Hall : forall b,
    if fit l then exists r, check_members checkNode (Obj lc) l b = Returns r else check_members checkNode (Obj lc) l b = Undefined) by apply Hall.
  induction IH as [|[key d] l Hd _ IHl]; intros b; cbn [check_members fit]; [by exists b|]. cbn [snd] in Hd.
  unfold HasMember, has_member, member. destruct (find_member key lc) as [c|]; cbn [mbind outcome_bind negb andb]; [|apply IHl].
  destruct (IsObject d) eqn:Ho; [|apply IHl]. specialize (Hd eq_refl c).
  destruct (sections_fit d c); cbn [andb]; [destruct Hd as [r ->]; cbn [mbind outcome_bind]; apply IHl|by rewrite Hd].
Qed.

(** One step down a path of the completed configuration. *)
Lemma merged_at ld lc cfg' k d : distinct_names (Obj ld) = true -> mergeNode (Obj ld) (Obj lc) = Returns cfg' -> find_member k ld = Some d ->
  exists lc' x, cfg' = Obj lc' /\ merged d (find_member k lc) = Returns x /\ find_member k lc' = Some x /\ distinct_names d = true.
Proof.
  intros [Hn Hd]%distinct_object Hm Hk. destruct (merge_members_find ld lc cfg' Hn Hm) as (lc' & -> & Hin & _).
  destruct (Hin k d Hk) as (x & Hx & Hf). exists lc', x. do 3 (split; [done|]). by apply (Hd k).
Qed.

Lemma merge_complete p : forall ld lc cfg' d, distinct_names (Obj ld) = true -> mergeNode (Obj ld) (Obj lc) = Returns cfg' ->
  walk (Obj ld) p = Some d -> exists c, walk cfg' p = Some c /\ same_type c d = true.
Proof.
  induction p as [|k p IH]; intros ld lc cfg' d Hd Hm Hw; cbn [walk] in *.
  - injection Hw as <-. destruct (merge_members_find ld lc cfg') as (lc' & -> & _); [by apply distinct_object in Hd as []|done|]. by eexists.
  - destruct (find_member k ld) as [dv|] eqn:Hk; [|done]. destruct (merged_at ld lc cfg' k dv Hd Hm Hk) as (lc' & x & -> & Hx & Hf & Hdd).
    rewrite Hf. destruct (find_member k lc) as [c|]; cbn [merged] in Hx; [|injection Hx as <-; exists d; by rewrite same_type_refl].
    destruct (same_type c dv) eqn:Hs; [|injection Hx as <-; exists d; by rewrite same_type_refl].
    destruct (IsObject dv) eqn:Ho.
    + destruct (object_inv dv Ho) as [l ->]. destruct (same_type_object c l Hs) as [w ->]. by apply (IH l w).
    + injection Hx as <-. destruct (walk_plain dv p d Ho Hw) as [-> ->]. by exists c.
Qed.

Lemma merge_keeps p : forall ld lc cfg' c, distinct_names (Obj ld) = true -> mergeNode (Obj ld) (Obj lc) = Returns cfg' ->
  IsObject c = false -> walk (Obj lc) p = Some c ->
  (forall q r d, p = q ++ r -> walk (Obj ld) q = Some d -> exists c', walk (Obj lc) q = Some c' /\ same_type c' d = true) ->
  walk cfg' p = Some c.
Proof.
  induction p as [|k p IH]; intros ld lc cfg' c Hd Hm Ho Hw Hfit; cbn [walk] in *; [by injection Hw as <-|].
  destruct (find_member k lc) as [w|] eqn:Hw0; [|done]. destruct (find_member k ld) as [dv|] eqn:Hk.
  - destruct (merged_at ld lc cfg' k dv Hd Hm Hk) as (lc' & x & -> & Hx & Hf & Hdd). rewrite Hf. rewrite Hw0 in Hx. cbn [merged] in Hx.
    destruct (Hfit [k] p dv eq_refl) as (w' & Hw' & Hs); [cbn [walk]; by rewrite Hk|]. cbn [walk] in Hw'. rewrite Hw0 in Hw'. injection Hw' as <-.
    rewrite Hs in Hx. destruct (IsObject dv) eqn:Hdo; [|by injection Hx as <-].
    destruct (object_inv dv Hdo) as [l ->]. destruct (same_type_object w l Hs) as [lw ->].
    apply (IH l lw); try done. intros q r d Hq Hwd. destruct (Hfit (k :: q) r d) as (c' & Hc' & Hs'); [by rewrite Hq|cbn [walk]; by rewrite Hk|].
    cbn [walk] in Hc'. rewrite Hw0 in Hc'. by exists c'.
  - apply find_none in Hk. destruct (merge_members_find ld lc cfg') as (lc' & -> & _ & Hout); [by apply distinct_object in Hd as []|done|].
    by rewrite Hout, Hw0.
Qed.

Lemma merge_defaults p : forall ld lc cfg' d, distinct_names (Obj ld) = true -> mergeNode (Obj ld) (Obj lc) = Returns cfg' ->
  IsObject d = false -> walk (Obj ld) p = Some d ->
  (forall c, walk (Obj lc) p = Some c -> same_type c d = false) -> walk cfg' p = Some d.
Proof.
  induction p as [|k p IH]; intros ld lc cfg' d Hd Hm Ho Hw Hfit; cbn [walk] in *; [by injection Hw as <-|].
  destruct (find_member k ld) as [dv|] eqn:Hk; [|done]. destruct (merged_at ld lc cfg' k dv Hd Hm Hk) as (lc' & x & -> & Hx & Hf & Hdd).
  rewrite Hf. destruct (find_member k lc) as [c|]; cbn [merged] in Hx; [|by injection Hx as <-].
  destruct (same_type c dv) eqn:Hs; [|by injection Hx as <-]. destruct (IsObject dv) eqn:Hdo.
  - destruct (object_inv dv Hdo) as [l ->]. destruct (same_type_object c l Hs) as [w ->]. by apply (IH l w).
  - destruct (walk_plain dv p d Hdo Hw) as [-> ->]. cbn [walk] in Hfit. specialize (Hfit c eq_refl). congruence.
Qed.

(** ** Complete configurations *)

(** Every setting of the defaults has a value of its type. *)
Definition complete (def cfg : value) : Prop :=
  forall p d, walk def p = Some d -> exists c, walk cfg p = Some c /\ same_type c d = true.

Lemma complete_member l k d cfg : distinct_names (Obj l) = true -> (k, d) ∈ l -> complete (Obj l) cfg ->
  exists lc c, cfg = Obj lc /\ find_member k lc = Some c /\ same_type c d = true /\ complete d c.
Proof.
  intros [Hn _]%distinct_object Hin Hc. assert (Hk : find_member k l = Some d) by by apply elem_find.
  destruct (Hc [k] d) as (c & Hw & Hs); [cbn [walk]; by rewrite Hk|]. cbn [walk] in Hw. destruct cfg as [| | | | |lc]; try done.
  destruct (find_member k lc) as [c'|] eqn:Hf; [|done]. injection Hw as ->. exists lc, c. do 3 (split; [done|]). intros p e He.
  destruct (Hc (k :: p) e) as (c' & Hw & Hs'); [cbn [walk]; by rewrite Hk|]. cbn [walk] in Hw. rewrite Hf in Hw. by exists c'.
Qed.

Lemma complete_fits : forall def, IsObject def = true -> distinct_names def = true -> forall cfg, complete def cfg ->
  sections_fit def cfg = true /\ mergeNode def cfg = Returns cfg.
Proof.
  refine (value_ind _ _ _ _ _ _ _); try done. intros l IH _ Hd cfg Hc. destruct (Hc [] (Obj l) eq_refl) as (c & [= <-] & Hs).
  destruct (same_type_object cfg l Hs) as [lc ->]. cbn [sections_fit mergeNode].
  assert (Hall : forall k d, (k, d) ∈ l -> distinct_names d = true /\ exists c, find_member k lc = Some c /\ same_type c d = true /\ complete d c).
  { intros k d Hin. split; [destruct (distinct_object l Hd) as [Hn Hdm]; apply (Hdm k), elem_find; done|].
    destruct (complete_member l k d (Obj lc) Hd Hin Hc) as (lc' & c & [= <-] & Hrest). by exists c. }
  clear Hc Hd Hs. induction IH as [|[key d] l Hd _ IHl]; cbn [merge_members]; [done|]. cbn [snd] in Hd.
  destruct (Hall key d) as (Hdd & c & Hf & Hs & Hc); [apply elem_of_cons; by left|].
  destruct IHl as [IHf IHm]; [intros k e Hin; apply Hall, elem_of_cons; by right|].
  unfold HasMember, has_member, member, assign_member, has_member. rewrite Hf. cbn [mbind outcome_bind negb]. rewrite Hs. cbn [negb].
  destruct (IsObject d) eqn:Ho; [|by split]. destruct (Hd eq_refl Hdd c Hc) as [-> ->]. cbn [mbind outcome_bind andb].
  cbn [mbind outcome_bind]. rewrite set_find_same by done. by split.
Qed.

(** Completing a complete configuration leaves it alone. *)
Lemma validate_complete def cfg : IsObject def = true -> distinct_names def = true -> complete def cfg ->
  validateAndMergeConfig def cfg = Returns (true, cfg).
Proof.
  intros Ho Hd Hc. unfold validateAndMergeConfig. destruct (complete_fits def Ho Hd cfg Hc) as [Hf Hm].
  pose proof (checkNode_total def Ho cfg) as Ht. rewrite Hf in Ht. destruct Ht as [b ->]. rewrite Hm, Ho.
  destruct (Hc [] def eq_refl) as (c & [= <-] & Hs). destruct (object_inv def Ho) as [l ->]. by destruct (same_type_object cfg l Hs) as [lc ->].
Qed.

(** ** Paths of a document *)

Lemma walk_app p q : forall v, walk v (p ++ q) = walk v p ≫= (fun w => walk w q).
Proof.
  induction p as [|k p IH]; intros v; cbn [walk app]; [done|]. destruct v as [| | | | |l]; try done. destruct (find_member k l); [apply IH|done].
Qed.

Lemma walk_ancestor p k q v d : walk v (p ++ k :: q) = Some d -> exists l, walk v p = Some (Obj l).
Proof. rewrite walk_app. destruct (walk v p) as [[| | | | |l]|]; try done. by exists l. Qed.

Lemma segments_not_nil key : segments key <> [].
Proof. destruct key as [|c key]; [done|]. cbn [segments]. destruct (Ascii.eqb c "."); [done|]. by destruct (segments key). Qed.

(** C10: a configuration is completed: afterwards every setting of the defaults
    has a value of its type, a setting that was missing or of another type has
    the default, and every other value is kept.  A configuration that is not an
    object is refused; one with another value in the place of a section of the
    defaults ends the program instead of getting the default. *)
Theorem validate_completes def config : IsObject def = true -> distinct_names def = true ->
  if negb (IsObject config) then validateAndMergeConfig def config = Returns (false, config)
  else if negb (sections_fit def config) then validateAndMergeConfig def config = Undefined
  else exists config', validateAndMergeConfig def config = Returns (true, config') /\
    complete def config' /\
    (forall p d, IsObject d = false -> walk def p = Some d ->
      (forall c, walk config p = Some c -> same_type c d = false) -> walk config' p = Some d) /\
    (forall p c, IsObject c = false -> walk config p = Some c ->
      (forall q r d, p = q ++ r -> walk def q = Some d -> exists c', walk config q = Some c' /\ same_type c' d = true) ->
      walk config' p = Some c).
Proof.
  intros Hdef Hn. unfold validateAndMergeConfig. destruct (IsObject config) eqn:Hc; cbn [negb]; [|done]. rewrite Hdef. cbn [negb].
  pose proof (checkNode_total def Hdef config) as Ht. destruct (sections_fit def config); cbn [negb]; [|by rewrite Ht].
  destruct Ht as [b ->]. cbn [mbind outcome_bind]. destruct (object_inv def Hdef) as [ld ->]. destruct (object_inv config Hc) as [lc ->].
  destruct (mergeNode_total (Obj ld) eq_refl lc) as [lc' Hm]. rewrite Hm. cbn [mbind outcome_bind]. exists (Obj lc'). split; [done|].
  split; [|split].
  - intros p d. by apply (merge_complete p ld lc).
  - intros p d. by apply (merge_defaults p ld lc).
  - intros p c. by apply (merge_keeps p ld lc).
Qed.

Definition broken_config : value :=
  Obj [("ChargePoint"%string, Obj [("RetryInterval"%string, Str "often"); ("Iccid"%string, Str "4711"); ("Extra"%string, Null)])].

Lemma validate_completes_witness : exists config', validateAndMergeConfig DEFAULT_CONFIG_JSON broken_config = Returns (true, config') /\
  walk config' ["ChargePoint"; "RetryInterval"]%string = Some (Number (NInt 2000)) /\
  walk config' ["OCPP1_6"; "CpoName"]%string = Some (Str "DeYe OCPP1_6") /\
  walk config' ["ChargePoint"; "Extra"]%string = Some Null.
Proof.
  assert (Hd : distinct_names DEFAULT_CONFIG_JSON = true) by (vm_compute; reflexivity).
  destruct (validate_completes DEFAULT_CONFIG_JSON broken_config eq_refl Hd) as (config' & Hv & _ & Hdef & Hkeep).
  exists config'. split; [exact Hv|]. split; [|split].
  - apply Hdef; [reflexivity|reflexivity|]. intros c [= <-]. reflexivity.
  - by apply Hdef.
  - apply Hkeep; [reflexivity|reflexivity|]. intros q r d Hq Hw.
    destruct q as [|k [|k2 [|k3 q]]]; [| | |discriminate Hq].
    + injection Hw as <-. eexists. split; reflexivity.
    + injection Hq as <- <-. vm_compute in Hw. injection Hw as <-. eexists. split; [vm_compute; reflexivity|reflexivity].
    + injection Hq as <- <- <-. vm_compute in Hw. discriminate Hw.
Defined.
