(* ===== verification/OcppSettings.v ===== *)
(** * The configuration manager ([src/ocpp/config/ConfigManager.cpp])

    The document of [OcppConfig.v] with its subscriptions, its cache file and
    the tasks of its thread pool.  A method holds the mutex of the document
    from entry to return, so it is one step; a task is the step of a worker. *)

From S2P Require Import Prelude Utils Lru Sqlite Json OcppConfig.

(** ** Differences *)

(** Two values of the same type that are not objects. *)
Definition value_changed (oldValue newValue : value) : outcome bool :=
  match GetType newValue with
  | kStringType => a ← GetString oldValue; b ← GetString newValue; Returns (negb (String.eqb a b))
  | kNumberType =>
    if IsInt oldValue && IsInt newValue then a ← GetInt oldValue; b ← GetInt newValue; Returns (negb (a =? b))
    else if IsUint oldValue && IsUint newValue then a ← GetUint oldValue; b ← GetUint newValue; Returns (negb (a =? b))
    else if IsDouble oldValue && IsDouble newValue then a ← GetDouble oldValue; b ← GetDouble newValue; Returns (negb (double_eqb a b))
    else Returns false
  | kFalseType | kTrueType => a ← GetBool oldValue; b ← GetBool newValue; Returns (negb (eqb a b))
  | _ => Returns true
  end.

Definition changed_members (diff : string -> value -> value -> outcome (list string)) (parentPath : string) (lo : list (string * value)) :
    list (string * value) -> outcome (list string) :=
  fix each (members : list (string * value)) : outcome (list string) :=
    match members with
    | [] => Returns []
    | (key, newValue) :: members' =>
      let fullPath := joined parentPath key in
      match find_member key lo with
      | None => rest ← each members'; Returns (fullPath :: rest)
      | Some oldValue =>
        if bool_decide (GetType oldValue <> GetType newValue) then rest ← each members'; Returns (fullPath :: rest)
        else if IsObject newValue then
          sub ← diff fullPath oldValue newValue;
          rest ← each members';
          Returns (sub ++ rest)
        else
          isChanged ← value_changed oldValue newValue;
          rest ← each members';
          Returns (if (isChanged : bool) then fullPath :: rest else rest)
      end
    end.

(** The members of the old object that the new one has not. *)
Definition removed_members (parentPath : string) (lo ln : list (string * value)) : list string :=
  (fun m => joined parentPath m.1) <$> List.filter (fun m => negb (has_member m.1 ln)) lo.

Fixpoint diffJsonObjects (parentPath : string) (oldObj newObj : value) {struct newObj} : outcome (list string) :=
  match oldObj, newObj with
  | Obj lo, Obj ln =>
    changed ← changed_members diffJsonObjects parentPath lo ln;
    Returns (changed ++ removed_members parentPath lo ln)
  | _, _ => Returns []
  end.

(** ** Nodes *)

(** [findNode], from a node on. *)
Fixpoint find_node (node : value) (keys : list string) : option value :=
  match keys with
  | [] => Some node
  | segment :: keys' =>
    if String.eqb segment EmptyString then None
    else match node with
         | Obj l => match find_member segment l with Some v => find_node v keys' | None => None end
         | _ => None
         end
  end.

(** [findOrCreateParentNode], from a node on: the path of the parent and the
    last key.  A node that is created is named by the text of a local string
    that ends with the iteration. *)
Fixpoint parent_node (parent : value) (keys : list string) : outcome (option (list string * string)) :=
  match keys with
  | [] => Returns None
  | [lastKey] => Returns (if IsObject parent then Some ([], lastKey) else None)
  | segment :: keys' =>
    if String.eqb segment EmptyString then Returns None
    else match parent with
         | Obj l =>
           match find_member segment l with
           | None => Undefined
           | Some v => r ← parent_node v keys'; Returns (option_map (fun pk => (segment :: pk.1, pk.2)) r)
           end
         | _ => Returns None
         end
  end.

(** The swap of the new value with the last key of the parent, inside the
    document. *)
Fixpoint assign_at (node : value) (path : list string) (lastKey : string) (x : value) : outcome value :=
  match path with
  | [] => assign_member node lastKey x
  | k :: path' =>
    v ← member node k;
    v ← assign_at v path' lastKey x;
    assign_member node k v
  end.

(** [getAncestorPaths]. *)
Fixpoint ancestors (currentPath : string) (keys : list string) : list string :=
  match keys with
  | [] => []
  | segment :: keys' => let path := joined currentPath segment in path :: ancestors path keys'
  end.

Definition getAncestorPaths (modifyPath : string) : list string :=
  if String.eqb modifyPath EmptyString then [EmptyString] else ancestors EmptyString (segments modifyPath).

(** ** State *)

Inductive pool_task := NotifyTask (subscribePath : string) (cb : nat) | SaveTask.

(** A callback is its address.  [m_cfgMutex]: whether the mutex is held;
    [called]: the calls of callbacks, with their values. *)
Record manager := Manager {
  m_currentDoc : value;
  m_defaultCfgPath : string;
  m_cachedCfgPath : string;
  m_subscriptions : gmap string (gmap Z nat);
  m_nextSubId : Z;
  m_isSavePending : bool;
  m_cfgMutex : bool;
  m_pool : list pool_task;
  disk : gmap string string;
  called : list (nat * value)
}.

Definition with_doc (m : manager) (d : value) : manager :=
  Manager d (m_defaultCfgPath m) (m_cachedCfgPath m) (m_subscriptions m) (m_nextSubId m) (m_isSavePending m) (m_cfgMutex m) (m_pool m) (disk m) (called m).
Definition with_paths (m : manager) (def cached : string) : manager :=
  Manager (m_currentDoc m) def cached (m_subscriptions m) (m_nextSubId m) (m_isSavePending m) (m_cfgMutex m) (m_pool m) (disk m) (called m).
Definition with_subs (m : manager) (s : gmap string (gmap Z nat)) (next : Z) : manager :=
  Manager (m_currentDoc m) (m_defaultCfgPath m) (m_cachedCfgPath m) s next (m_isSavePending m) (m_cfgMutex m) (m_pool m) (disk m) (called m).
Definition with_tasks (m : manager) (pending : bool) (l : list pool_task) : manager :=
  Manager (m_currentDoc m) (m_defaultCfgPath m) (m_cachedCfgPath m) (m_subscriptions m) (m_nextSubId m) pending (m_cfgMutex m) l (disk m) (called m).
Definition with_mutex (m : manager) (b : bool) : manager :=
  Manager (m_currentDoc m) (m_defaultCfgPath m) (m_cachedCfgPath m) (m_subscriptions m) (m_nextSubId m) (m_isSavePending m) b (m_pool m) (disk m) (called m).
Definition with_disk (m : manager) (d : gmap string string) : manager :=
  Manager (m_currentDoc m) (m_defaultCfgPath m) (m_cachedCfgPath m) (m_subscriptions m) (m_nextSubId m) (m_isSavePending m) (m_cfgMutex m) (m_pool m) d (called m).
Definition with_called (m : manager) (l : list (nat * value)) : manager :=
  Manager (m_currentDoc m) (m_defaultCfgPath m) (m_cachedCfgPath m) (m_subscriptions m) (m_nextSubId m) (m_isSavePending m) (m_cfgMutex m) (m_pool m) (disk m) l.

(** ** Files *)

(** How the file system answers a write to a path: the file does not open, only
    some bytes are written, or all. *)
Inductive write_answer := OpenFails | Short (n : nat) | Full.

Section Manager.
Context (parse : string -> option value) (pretty : value -> string).
Context (writes : string -> write_answer) (removable : string -> bool).
(** The order in which a table of callbacks is walked. *)
Context (order : gmap Z nat -> list (Z * nat)).

Definition loadJsonFromFile (path : string) (m : manager) : option value :=
  match disk m !! path with
  | None => None
  | Some content =>
    if String.eqb content EmptyString then None
    else match parse content with
         | Some doc => if IsObject doc then Some doc else None
         | None => None
         end
  end.

Definition saveJsonToFile (doc : value) (path : string) (m : manager) : bool * manager :=
  match writes path with
  | OpenFails => (false, m)
  | Short n => (false, with_disk m (<[path := String.substring 0 n (pretty doc)]> (disk m)))
  | Full => (true, with_disk m (<[path := pretty doc]> (disk m)))
  end.

Definition saveCachedConfig (m : manager) : manager :=
  if String.eqb (m_cachedCfgPath m) EmptyString then m else (saveJsonToFile (m_currentDoc m) (m_cachedCfgPath m) m).2.

(** ** Operations *)

(** A method that takes the mutex of the document. *)
Definition locked {A} (m : manager) (k : outcome A) : outcome A := if m_cfgMutex m then Blocked else k.

Definition CACHE_FILE : string := "/ocpp_cache_config.json".

Definition initConfig (defaultCfgPath cachedCfgPath : string) (m : manager) : outcome manager :=
  locked m (
    let m := with_paths m defaultCfgPath (cachedCfgPath ++ CACHE_FILE) in
    let workingDoc :=
      match loadJsonFromFile (m_cachedCfgPath m) m with
      | Some doc => doc
      | None =>
        match loadJsonFromFile (m_defaultCfgPath m) m with
        | Some doc => doc
        | None => DEFAULT_CONFIG_JSON
        end
      end in
    '(ok, workingDoc) ← validateAndMergeConfig DEFAULT_CONFIG_JSON workingDoc;
    let workingDoc := if (ok : bool) then workingDoc else DEFAULT_CONFIG_JSON in
    let m := with_doc m workingDoc in
    Returns (saveJsonToFile (m_currentDoc m) (m_cachedCfgPath m) m).2).

Definition getConfig (key : string) (m : manager) : outcome (option value) :=
  locked m (Returns (
    if negb (IsObject (m_currentDoc m)) then None
    else if String.eqb key EmptyString then Some (m_currentDoc m)
    else find_node (m_currentDoc m) (segments key))).

Definition triggerCallbacks (m : manager) (modifyPath : string) : manager :=
  match m_subscriptions m !! modifyPath with
  | None => m
  | Some subs =>
    let m := if bool_decide (subs = ∅) then with_subs m (delete modifyPath (m_subscriptions m)) (m_nextSubId m) else m in
    with_tasks m (m_isSavePending m) (m_pool m ++ ((fun s => NotifyTask modifyPath s.2) <$> order subs))
  end.

Definition schedule_save (m : manager) : manager :=
  if negb (String.eqb (m_cachedCfgPath m) EmptyString) && negb (m_isSavePending m)
  then with_tasks m true (m_pool m ++ [SaveTask]) else m.

(** The assignment to the last key of a path, [None] when there is no parent. *)
Definition assign_key (key : string) (x : value) (m : manager) : outcome (option manager) :=
  parent ← parent_node (m_currentDoc m) (segments key);
  match parent with
  | None => Returns None
  | Some (path, lastKey) => doc ← assign_at (m_currentDoc m) path lastKey x; Returns (Some (with_doc m doc))
  end.

Definition setConfig (key : string) (x : value) (m : manager) : outcome (bool * manager) :=
  locked m (
    if String.eqb key EmptyString then
      if negb (IsObject x) then Returns (false, m)
      else
        changedPaths ← diffJsonObjects EmptyString (m_currentDoc m) x;
        Returns (true, schedule_save (foldl triggerCallbacks (with_doc m x) changedPaths))
    else if negb (CompareJsonTypeByPath key (m_currentDoc m) x) then Returns (false, m)
    else
      let existNode := find_node (m_currentDoc m) (segments key) in
      if (match existNode with Some node => negb (IsObject node) | None => false end) then
        r ← assign_key key x m;
        match r with
        | None => Returns (false, m)
        | Some m => Returns (true, schedule_save (triggerCallbacks m key))
        end
      else if IsObject x then
        let oldParentObj := match existNode with Some node => node | None => Null end in
        r ← assign_key key x m;
        match r with
        | None => Returns (false, m)
        | Some m =>
          changedPaths ← diffJsonObjects key oldParentObj x;
          Returns (true, schedule_save (foldl triggerCallbacks m changedPaths))
        end
      else Returns (false, m)).

(** The mutex is held while [initConfig] is called. *)
Definition restoreConfig (m : manager) : outcome (bool * manager) :=
  locked m (
    let m := with_mutex m true in
    let path := m_cachedCfgPath m in
    if negb (String.eqb path EmptyString) && bool_decide (is_Some (disk m !! path)) && negb (removable path)
    then Returns (false, with_mutex m false)
    else
      let m := if String.eqb path EmptyString then m else with_disk m (delete path (disk m)) in
      m ← initConfig (m_defaultCfgPath m) path m;
      Returns (true, with_mutex m false)).

(** [None]: a null callback. *)
Definition subscribe (key : string) (cb : option nat) (m : manager) : Z * manager :=
  if String.eqb key EmptyString then (0, m)
  else match cb with
       | None => (0, m)
       | Some f =>
         let subId := m_nextSubId m in
         let subs := default ∅ (m_subscriptions m !! key) in
         (subId, with_subs m (<[key := <[subId := f]> subs]> (m_subscriptions m)) (uint32 (subId + 1)))
       end.

(** The first table, in the order [keys] of a walk, that has the id. *)
Fixpoint unsubscribe_in (id : Z) (keys : list string) (m : manager) : manager :=
  match keys with
  | [] => m
  | key :: keys' =>
    match m_subscriptions m !! key with
    | Some subs =>
      if bool_decide (is_Some (subs !! id)) then
        let subs := delete id subs in
        let table := if bool_decide (subs = ∅) then delete key (m_subscriptions m) else <[key := subs]> (m_subscriptions m) in
        with_subs m table (m_nextSubId m)
      else unsubscribe_in id keys' m
    | None => unsubscribe_in id keys' m
    end
  end.

Definition unsubscribe (id : Z) (keys : list string) (m : manager) : manager :=
  if id =? 0 then m else unsubscribe_in id keys m.

(** ** Tasks *)

Definition run_task (t : pool_task) (m : manager) : outcome manager :=
  locked m (
    match t with
    | NotifyTask path cb =>
      Returns (match find_node (m_currentDoc m) (segments path) with
               | None => m
               | Some node => with_called m (called m ++ [(cb, node)])
               end)
    | SaveTask => let m := saveCachedConfig m in Returns (with_tasks m false (m_pool m))
    end).

(** A worker takes the first task; it may overtake the other worker that took
    one before. *)
Definition pool_turn (i : nat) (m : manager) : outcome manager :=
  match m_pool m !! i with
  | None => Returns m
  | Some t => run_task t (with_tasks m (m_isSavePending m) (delete i (m_pool m)))
  end.

Inductive pool_runs : manager -> manager -> Prop :=
  | pool_idle m : m_pool m = [] -> pool_runs m m
  | pool_next i m m' m'' : (i < 2)%nat -> is_Some (m_pool m !! i) -> pool_turn i m = Returns m' -> pool_runs m' m'' -> pool_runs m m''.

End Manager.

(** ** The differences of two objects *)

(** Whether a change of the value of a setting is seen: numbers of different
    kinds are never different, arrays and nulls always. *)
Definition differs (a b : value) : bool :=
  match a, b with
  | Str s, Str t => negb (String.eqb s t)
  | Number (NInt x), Number (NInt y) => negb (x =? y) && ((IsInt a && IsInt b) || (IsUint a && IsUint b))
  | Number (NDouble x), Number (NDouble y) => negb (double_eqb x y)
  | Null, Null | Arr _, Arr _ => true
  | _, _ => false
  end.

(** A path that differs: a member that one object has and the other has not, of
    another type, or with another value. *)
Definition member_touched (touched : list string -> value -> value -> bool) (keys : list string) (oldM newM : option value) : bool :=
  match oldM, newM with
  | None, None => false
  | Some a, Some b =>
    if bool_decide (GetType a <> GetType b) then bool_decide (keys = [])
    else if IsObject b then touched keys a b
    else bool_decide (keys = []) && differs a b
  | _, _ => bool_decide (keys = [])
  end.

Fixpoint touched (keys : list string) (oldObj newObj : value) : bool :=
  match keys, oldObj, newObj with
  | k :: keys', Obj lo, Obj ln => member_touched touched keys' (find_member k lo) (find_member k ln)
  | _, _, _ => false
  end.

Lemma value_changed_differs a b : GetType a = GetType b -> IsObject b = false -> value_changed a b = Returns (differs a b).
Proof.
  unfold value_changed. destruct a as [|[]|[x|x]|s|la|], b as [|[]|[y|y]|t|lb|]; cbn [GetType IsObject]; try done; intros _ _.
  - cbn [differs]. destruct (IsInt (Number (NInt x)) && IsInt (Number (NInt y))) eqn:Hi.
    + apply andb_true_iff in Hi as [H1 H2]. unfold GetInt. rewrite H1, H2. cbn [mbind outcome_bind]. by rewrite andb_true_r.
    + destruct (IsUint (Number (NInt x)) && IsUint (Number (NInt y))) eqn:Hu; [|cbn [IsDouble andb orb]; by rewrite andb_false_r].
      apply andb_true_iff in Hu as [H1 H2]. unfold GetUint. rewrite H1, H2. cbn [mbind outcome_bind orb]. by rewrite andb_true_r.
  - unfold IsInt at 2, IsUint at 2. by rewrite !andb_false_r.
Qed.

Lemma diff_object parent lo ln : diffJsonObjects parent (Obj lo) (Obj ln) =
  (changed ← changed_members diffJsonObjects parent lo ln; Returns (changed ++ removed_members parent lo ln)).
Proof. done. Qed.

Lemma removed_spec parent lo ln path : path ∈ removed_members parent lo ln <->
  exists k, is_Some (find_member k lo) /\ find_member k ln = None /\ path = joined parent k.
Proof.
  unfold removed_members. rewrite list_elem_of_fmap. split.
  - intros ([k v] & -> & Hin). apply list_elem_of_In, filter_In in Hin as [Hin Hn]. exists k. cbn [fst] in *. unfold has_member in Hn.
    split; [|split; [by destruct (find_member k ln)|done]]. apply list_elem_of_In in Hin.
    destruct (find_member k lo) eqn:Hf; [by eexists|]. apply find_none in Hf. destruct Hf. apply list_elem_of_fmap. by exists (k, v).
  - intros (k & [v Hv] & Hn & ->). exists (k, v). split; [done|]. apply list_elem_of_In, filter_In. split; [by apply list_elem_of_In, find_elem|].
    cbn [fst]. unfold has_member. by rewrite Hn.
Qed.

(** The paths of one member. *)
Definition reported (parent : string) (lo : list (string * value)) (k : string) (x : value) (path : string) : Prop :=
  exists keys, member_touched touched keys (find_member k lo) (Some x) = true /\ path = foldl joined (joined parent k) keys.

Lemma reported_here parent lo k x path : (forall keys, member_touched touched keys (find_member k lo) (Some x) = bool_decide (keys = [])) ->
  (reported parent lo k x path <-> path = joined parent k).
Proof.
  intros Hm. split.
  - intros (keys & Hk & ->). rewrite Hm in Hk. apply bool_decide_eq_true in Hk as ->. done.
  - intros ->. exists []. by rewrite Hm.
Qed.

Definition diff_reports (n : value) : Prop := forall parent o, exists paths, diffJsonObjects parent o n = Returns paths /\
  forall path, path ∈ paths <-> exists keys, touched keys o n = true /\ path = foldl joined parent keys.

Lemma changed_spec parent lo l : Forall (fun m => distinct_names m.2 = true -> diff_reports m.2) l ->
  (forall k x, (k, x) ∈ l -> distinct_names x = true) ->
  exists paths, changed_members diffJsonObjects parent lo l = Returns paths /\
    forall path, path ∈ paths <-> exists k x, (k, x) ∈ l /\ reported parent lo k x path.
Proof.
  induction 1 as [|[key x] l Hx _ IH]; intros Hd; cbn [changed_members].
  - exists []. split; [done|]. intros path. split; [intros H; by apply elem_of_nil in H|]. intros (k & x & H & _). by apply elem_of_nil in H.
  - cbn [snd] in Hx. assert (Hdx : distinct_names x = true) by (apply (Hd key); apply elem_of_cons; by left).
    destruct IH as (rest & Hr & Hrest); [intros k y Hin; apply (Hd k); apply elem_of_cons; by right|].
    enough (Hone : exists here, (forall path, path ∈ here <-> reported parent lo key x path) /\
      changed_members diffJsonObjects parent lo ((key, x) :: l) = Returns (here ++ rest)).
    { destruct Hone as (here & Hh & He). exists (here ++ rest). split; [exact He|]. intros path. rewrite elem_of_app, Hh, Hrest. split.
      - intros [Hp|(k & y & Hin & Hp)]; [exists key, x; by split; [apply elem_of_cons; left|]|exists k, y; split; [apply elem_of_cons; by right|done]].
      - intros (k & y & [[= -> ->]|Hin]%elem_of_cons & Hp); [by left|]. right. by exists k, y. }
    cbn [changed_members]. rewrite Hr. destruct (find_member key lo) as [a|] eqn:Hf.
    + case_bool_decide as Ht.
      * exists [joined parent key]. split; [|done]. intros path. rewrite list_elem_of_singleton, reported_here; [done|].
        intros keys. rewrite Hf. unfold member_touched. by rewrite bool_decide_true.
      * destruct (IsObject x) eqn:Ho.
        -- destruct (Hx Hdx (joined parent key) a) as (sub & -> & Hsub). exists sub. split; [|done]. intros path. rewrite Hsub. unfold reported.
           rewrite Hf. cbn [member_touched]. rewrite bool_decide_false by (intros Hn; by apply Hn). by rewrite Ho.
        -- rewrite (value_changed_differs a x Ht Ho). cbn [mbind outcome_bind].
           exists (if differs a x then [joined parent key] else []). split; [|by destruct (differs a x)].
           intros path. unfold reported. rewrite Hf. cbn [member_touched]. rewrite bool_decide_false by (intros Hn; by apply Hn). rewrite Ho.
           destruct (differs a x).
           ++ rewrite list_elem_of_singleton. split; [intros ->; by exists []|]. intros (keys & Hk & ->). rewrite andb_true_r in Hk.
              by apply bool_decide_eq_true in Hk as ->.
           ++ split; [intros H; by apply elem_of_nil in H|]. intros (keys & Hk & _). by rewrite andb_false_r in Hk.
    + exists [joined parent key]. split; [|done]. intros path. rewrite list_elem_of_singleton, reported_here; [done|]. intros keys. by rewrite Hf.
Qed.

Lemma diff_spec : forall n, distinct_names n = true -> diff_reports n.
Proof.
  refine (value_ind _ _ _ _ _ _ _); try by (intros; intros parent o; exists []; (split; [by destruct o|]); intros path;
    (split; [intros H'; by apply elem_of_nil in H'|]); intros ([|k keys] & Hk & _); destruct o; discriminate Hk).
  intros ln IH Hd parent o. destruct (distinct_object ln Hd) as [Hn Hdm].
  destruct o as [| | | | |lo]; try by (exists []; (split; [done|]); intros path; (split; [intros H; by apply elem_of_nil in H|]);
    intros ([|k keys] & Hk & _); discriminate Hk).
  destruct (changed_spec parent lo ln IH) as (changed & Hc & Hch).
  { intros k x Hin. apply (Hdm k), elem_find; done. }
  rewrite diff_object, Hc. cbn [mbind outcome_bind]. eexists. split; [done|]. intros path. rewrite elem_of_app, Hch, removed_spec. split.
  - intros [(k & x & Hin & keys & Hk & ->)|(k & [v Hv] & Hnone & ->)].
    + exists (k :: keys). split; [|done]. cbn [touched]. by rewrite (elem_find k x ln Hn Hin).
    + exists [k]. split; [|done]. cbn [touched]. by rewrite Hv, Hnone.
  - intros ([|k keys] & Hk & ->); [discriminate Hk|]. cbn [touched] in Hk. destruct (find_member k ln) as [x|] eqn:Hf.
    + left. exists k, x. split; [by apply find_elem|]. exists keys. done.
    + right. exists k. destruct (find_member k lo) eqn:Hfo; [|done]. cbn [member_touched] in Hk. apply bool_decide_eq_true in Hk as ->.
      split; [by eexists|done].
Qed.

(** ** Nodes of a key without empty pieces *)

Definition plain_key (key : string) : Prop := Forall (fun s => s <> EmptyString) (segments key).

Lemma find_node_walk keys : Forall (fun s => s <> EmptyString) keys -> forall v, find_node v keys = walk v keys.
Proof.
  induction 1 as [|k keys Hk _ IH]; intros v; cbn [find_node walk]; [done|]. destruct (String.eqb_spec k EmptyString); [done|].
  destruct v as [| | | | |l]; try done. by destruct (find_member k l).
Qed.

Lemma parent_node_spec keys : Forall (fun s => s <> EmptyString) keys -> keys <> [] -> forall v cur, walk v keys = Some cur ->
  exists path k, keys = path ++ [k] /\ parent_node v keys = Returns (Some (path, k)).
Proof.
  induction 1 as [|k keys Hk _ IH]; intros Hn v cur Hw; [done|]. cbn [walk parent_node] in *.
  destruct v as [| | | | |l]; try done. destruct (find_member k l) as [w|] eqn:Hf; [|done].
  destruct keys as [|k2 keys]; [by exists [], k|]. destruct (String.eqb_spec k EmptyString); [done|].
  destruct (IH ltac:(done) w cur Hw) as (path & k' & Hp & Hr). exists (k :: path), k'. split; [by rewrite Hp|]. by rewrite Hr.
Qed.

Lemma assign_member_some l k x : is_Some (find_member k l) -> assign_member (Obj l) k x = Returns (Obj (set_member k x l)).
Proof. intros [v Hv]. unfold assign_member, has_member. by rewrite Hv. Qed.

(** Below the key there is the new value; every other path that does not lead
    to it is as before. *)
Definition assigned (keys : list string) (x v v' : value) : Prop :=
  (forall r, walk v' (keys ++ r) = walk x r) /\
  (forall q, ~ keys `prefix_of` q -> ~ q `prefix_of` keys -> walk v' q = walk v q).

Lemma assigned_member k path x w w' l : find_member k l = Some w -> assigned path x w w' ->
  assigned (k :: path) x (Obj l) (Obj (set_member k w' l)).
Proof.
  intros Hf [H1 H2]. split.
  - intros r. cbn [walk app]. by rewrite find_set_same by (by eexists).
  - intros [|k2 q] Hp Hq; [by destruct Hq; apply prefix_nil|]. cbn [walk]. destruct (decide (k2 = k)) as [->|Hne].
    + rewrite find_set_same by (by eexists). rewrite Hf. apply H2; intros Hx; [apply Hp|apply Hq]; by apply prefix_cons.
    + by rewrite find_set_other.
Qed.

Lemma assign_at_spec path k x : forall v cur, walk v (path ++ [k]) = Some cur ->
  exists v', assign_at v path k x = Returns v' /\ assigned (path ++ [k]) x v v'.
Proof.
  induction path as [|k1 path IH]; intros v cur Hw; cbn [walk app assign_at] in *; destruct v as [| | | | |l]; try done.
  - destruct (find_member k l) as [w|] eqn:Hf; [|done]. rewrite assign_member_some by (by eexists). eexists. split; [done|].
    apply (assigned_member k [] x w); [done|]. split; [done|]. intros q Hq. destruct Hq. apply prefix_nil.
  - destruct (find_member k1 l) as [w|] eqn:Hf; [|done]. destruct (IH w cur Hw) as (w' & Ha & Hok).
    unfold member. rewrite Hf. cbn [mbind outcome_bind]. rewrite Ha. cbn [mbind outcome_bind].
    rewrite assign_member_some by (by eexists). eexists. split; [done|]. by apply (assigned_member k1 (path ++ [k]) x w).
Qed.

(** ** Notifications *)

Section Properties.
Context (order : gmap Z nat -> list (Z * nat)) (order_all : forall subs, order subs ≡ₚ map_to_list subs).

(** The tasks for the subscribers of a path. *)
Definition tasks_of (m : manager) (path : string) : list pool_task :=
  (fun s => NotifyTask path s.2) <$> order (default ∅ (m_subscriptions m !! path)).

Lemma order_empty : order ∅ = [].
Proof. apply Permutation_nil. by rewrite order_all, map_to_list_empty. Qed.

Lemma trigger_pool m path : m_pool (triggerCallbacks order m path) = m_pool m ++ tasks_of m path.
Proof.
  unfold triggerCallbacks, tasks_of. destruct (m_subscriptions m !! path) as [subs|]; cbn [default]; [|by rewrite order_empty; csimpl; rewrite app_nil_r].
  cbn [m_pool with_tasks]. by case_bool_decide.
Qed.

Lemma trigger_tasks m path q : tasks_of (triggerCallbacks order m path) q = tasks_of m q.
Proof.
  unfold tasks_of, triggerCallbacks. destruct (m_subscriptions m !! path) as [subs|] eqn:Hs; [|done].
  cbn [m_subscriptions with_tasks]. case_bool_decide as He; [|done]. cbn [m_subscriptions with_subs].
  destruct (decide (q = path)) as [->|Hne]; [|by rewrite lookup_delete_ne]. by rewrite lookup_delete_eq, Hs, He.
Qed.

(** The notifications leave the rest alone. *)
Definition notified (m m' : manager) : Prop :=
  m_currentDoc m' = m_currentDoc m /\ m_defaultCfgPath m' = m_defaultCfgPath m /\ m_cachedCfgPath m' = m_cachedCfgPath m /\
  m_isSavePending m' = m_isSavePending m /\ m_cfgMutex m' = m_cfgMutex m /\ disk m' = disk m /\ called m' = called m.

Lemma trigger_notified m path : notified m (triggerCallbacks order m path).
Proof. unfold triggerCallbacks. destruct (m_subscriptions m !! path); [|done]. by case_bool_decide. Qed.

Lemma trigger_all paths : forall m, notified m (foldl (triggerCallbacks order) m paths) /\
  m_pool (foldl (triggerCallbacks order) m paths) = m_pool m ++ concat (tasks_of m <$> paths).
Proof.
  induction paths as [|path paths IH]; intros m; cbn [foldl]; csimpl; [by rewrite app_nil_r|].
  destruct (IH (triggerCallbacks order m path)) as [(E1&E2&E3&E4&E5&E6&E7) Hp]. destruct (trigger_notified m path) as (F1&F2&F3&F4&F5&F6&F7).
  split; [unfold notified; split_and!; congruence|]. rewrite Hp, trigger_pool, <- app_assoc. f_equal. cbn [concat]. f_equal. f_equal.
  apply list_fmap_ext. intros _ q _. apply trigger_tasks.
Qed.

Definition save_due (m : manager) : bool := negb (String.eqb (m_cachedCfgPath m) EmptyString) && negb (m_isSavePending m).

Lemma schedule_spec m : m_pool (schedule_save m) = m_pool m ++ (if save_due m then [SaveTask] else []) /\
  m_currentDoc (schedule_save m) = m_currentDoc m /\ m_cachedCfgPath (schedule_save m) = m_cachedCfgPath m /\
  m_cfgMutex (schedule_save m) = m_cfgMutex m /\ disk (schedule_save m) = disk m /\ called (schedule_save m) = called m.
Proof. unfold schedule_save, save_due. destruct (_ && _); cbn; [done|]. by rewrite app_nil_r. Qed.

(** What a successful change of a key leaves. *)
Definition set_done (key : string) (x : value) (paths : list string) (m m' : manager) : Prop :=
  assigned (segments key) x (m_currentDoc m) (m_currentDoc m') /\
  m_pool m' = m_pool m ++ concat (tasks_of m <$> paths) ++ (if save_due m then [SaveTask] else []) /\
  m_cachedCfgPath m' = m_cachedCfgPath m /\ m_cfgMutex m' = false /\ disk m' = disk m /\ called m' = called m.

Lemma set_done_intro key x paths m doc : m_cfgMutex m = false -> assigned (segments key) x (m_currentDoc m) doc ->
  set_done key x paths m (schedule_save (foldl (triggerCallbacks order) (with_doc m doc) paths)).
Proof.
  intros Hm Ha. destruct (trigger_all paths (with_doc m doc)) as [(E1&E2&E3&E4&E5&E6&E7) Hp].
  destruct (schedule_spec (foldl (triggerCallbacks order) (with_doc m doc) paths)) as (S1&S2&S3&S4&S5&S6).
  assert (Hdue : save_due (foldl (triggerCallbacks order) (with_doc m doc) paths) = save_due m) by (unfold save_due; by rewrite E3, E4).
  unfold set_done. rewrite S1, S2, S3, S4, S5, S6, E1, E3, E5, E6, E7, Hp, Hdue. cbn [m_pool with_doc m_currentDoc m_cachedCfgPath disk called m_cfgMutex].
  split; [done|]. split; [by rewrite <- app_assoc|]. done.
Qed.

Lemma set_key_spec key x m current : m_cfgMutex m = false -> plain_key key -> distinct_names x = true ->
  walk (m_currentDoc m) (segments key) = Some current -> same_type x current = true ->
  exists m' paths, setConfig order key x m = Returns (true, m') /\ set_done key x paths m m' /\
    if IsObject current then forall path, path ∈ paths <-> exists keys, touched keys current x = true /\ path = foldl joined key keys
    else paths = [key].
Proof.
  intros Hm Hkey Hd Hw Hs. unfold setConfig, locked. rewrite Hm.
  destruct (String.eqb_spec key EmptyString) as [->|Hne]; [by apply Forall_inv in Hkey|]. unfold CompareJsonTypeByPath.
  destruct (String.eqb_spec key EmptyString); [done|]. rewrite Hw, Hs. cbn [negb]. rewrite find_node_walk, Hw by done.
  destruct (parent_node_spec (segments key) Hkey (segments_not_nil key) _ _ Hw) as (path & k & Hk & Hp).
  rewrite Hk in Hw. destruct (assign_at_spec path k x (m_currentDoc m) current Hw) as (doc & Ha & Hok). rewrite <- Hk in Hok.
  unfold assign_key. rewrite Hp. cbn [mbind outcome_bind]. rewrite Ha. cbn [mbind outcome_bind].
  destruct (IsObject current) eqn:Ho; cbn [negb].
  - destruct (object_inv current Ho) as [l ->]. destruct (same_type_object x l Hs) as [lx ->]. cbn [IsObject].
    destruct (diff_spec (Obj lx) Hd key (Obj l)) as (paths & -> & Hpaths). cbn [mbind outcome_bind].
    eexists _, paths. split; [done|]. split; [by apply set_done_intro|done].
  - eexists _, [key]. split; [done|]. split; [|done]. by apply (set_done_intro key x [key]).
Qed.

Lemma set_key_refused key x m : m_cfgMutex m = false -> plain_key key ->
  (forall current, walk (m_currentDoc m) (segments key) = Some current -> same_type x current = false) ->
  setConfig order key x m = Returns (false, m).
Proof.
  intros Hm Hkey Hno. unfold setConfig, locked. rewrite Hm. destruct (String.eqb_spec key EmptyString) as [->|Hne]; [by apply Forall_inv in Hkey|].
  unfold CompareJsonTypeByPath. destruct (String.eqb_spec key EmptyString); [done|].
  destruct (walk (m_currentDoc m) (segments key)) as [current|]; [|done]. by rewrite (Hno current eq_refl).
Qed.

End Properties.

(** ** The pool *)

Section Pool.
Context (pretty : value -> string) (writes : string -> write_answer).

Definition task_calls (doc : value) (t : pool_task) : list (nat * value) :=
  match t with
  | NotifyTask path cb => match find_node doc (segments path) with Some node => [(cb, node)] | None => [] end
  | SaveTask => []
  end.

(** The cache file holds the document. *)
Definition cached (m : manager) : Prop := disk m !! m_cachedCfgPath m = Some (pretty (m_currentDoc m)).

Lemma pool_turn_spec i m t : m_cfgMutex m = false -> m_pool m !! i = Some t ->
  exists m', pool_turn pretty writes i m = Returns m' /\ m_currentDoc m' = m_currentDoc m /\ m_cachedCfgPath m' = m_cachedCfgPath m /\
    m_cfgMutex m' = false /\ m_pool m' = delete i (m_pool m) /\ called m' = (called m ++ task_calls (m_currentDoc m) t)%list /\
    (t = SaveTask \/ cached m -> m_cachedCfgPath m <> EmptyString -> writes (m_cachedCfgPath m) = Full -> cached m').
Proof.
  intros Hm Ht. unfold pool_turn, run_task, locked. rewrite Ht. cbn [m_cfgMutex with_tasks]. rewrite Hm. destruct t as [path cb|]; cbn [task_calls].
  - cbn [m_currentDoc with_tasks]. destruct (find_node (m_currentDoc m) (segments path)) as [node|]; eexists; (split; [done|]); cbn.
    + do 5 (split; [done|]). by intros [?|?].
    + rewrite app_nil_r. do 5 (split; [done|]). by intros [?|?].
  - unfold saveCachedConfig, saveJsonToFile. cbn [m_cachedCfgPath with_tasks m_currentDoc].
    destruct (String.eqb_spec (m_cachedCfgPath m) EmptyString) as [He|Hne].
    + eexists. split; [done|]. cbn. rewrite app_nil_r. do 5 (split; [done|]). by intros _ ?.
    + destruct (writes (m_cachedCfgPath m)) as [|n|]; eexists; (split; [done|]); cbn; rewrite app_nil_r; do 5 (split; [done|]); try by intros _ _ ?.
      intros _ _ _. unfold cached. cbn. apply lookup_insert_eq.
Qed.

Lemma concat_fmap_perm {A B} (f : A -> list B) l l' : l ≡ₚ l' -> concat (f <$> l) ≡ₚ concat (f <$> l').
Proof.
  induction 1 as [|x l l' _ IH|x y l|l1 l2 l3 _ IH1 _ IH2]; csimpl; cbn [concat]; [done|by rewrite IH|by rewrite !app_assoc, (Permutation_app_comm (f y))|by rewrite IH1].
Qed.

Lemma pool_runs_spec m m' : pool_runs pretty writes m m' -> m_cfgMutex m = false ->
  m_currentDoc m' = m_currentDoc m /\ m_cachedCfgPath m' = m_cachedCfgPath m /\
  called m' ≡ₚ called m ++ concat (task_calls (m_currentDoc m) <$> m_pool m) /\
  (SaveTask ∈ m_pool m \/ cached m -> m_cachedCfgPath m <> EmptyString -> writes (m_cachedCfgPath m) = Full -> cached m').
Proof.
  induction 1 as [m He|i m m1 m2 Hi [t Ht] Hturn _ IH]; intros Hm.
  - rewrite He. csimpl. rewrite app_nil_r. do 3 (split; [done|]). intros [H|H]; [by apply elem_of_nil in H|done].
  - destruct (pool_turn_spec i m t Hm Ht) as (m1' & Hturn' & E1 & E2 & E3 & E4 & E5 & E6). rewrite Hturn in Hturn'. injection Hturn' as <-.
    destruct (IH E3) as (F1 & F2 & F3 & F4). rewrite E1, E2 in *. do 2 (split; [done|]).
    pose proof (delete_Permutation (m_pool m) i t Ht) as Hperm. split.
    + rewrite F3, E4, E5, <- app_assoc. apply Permutation_app_head.
      by rewrite (concat_fmap_perm (task_calls (m_currentDoc m)) _ _ Hperm).
    + intros Hc Hne Hw. apply F4; [|done..]. destruct Hc as [Hin|Hc]; [|by right; apply E6; [right|..]].
      rewrite Hperm in Hin. apply elem_of_cons in Hin as [<-|Hin]; [right; by apply E6; [left|..]|]. left. by rewrite E4.
Qed.

Lemma pool_runs_free m m' : pool_runs pretty writes m m' -> m_cfgMutex m = false -> m_cfgMutex m' = false.
Proof.
  induction 1 as [m He|i m m1 m2 Hi [t Ht] Hturn _ IH]; intros Hm; [done|]. apply IH.
  destruct (pool_turn_spec i m t Hm Ht) as (m1' & Hturn' & _ & _ & E & _). congruence.
Qed.

Lemma pool_runs_exists n : forall m, length (m_pool m) = n -> m_cfgMutex m = false -> exists m', pool_runs pretty writes m m'.
Proof.
  induction n as [|n IH]; intros m Hl Hm; destruct (m_pool m) as [|t tasks] eqn:Hp; try done.
  - exists m. by apply pool_idle.
  - assert (Ht : m_pool m !! 0%nat = Some t) by by rewrite Hp.
    destruct (pool_turn_spec 0 m t Hm Ht) as (m1 & Hturn & _ & _ & Hm1 & Hp1 & _). destruct (IH m1) as [m2 Hr]; [|done|].
    + rewrite Hp1, Hp. cbn in Hl |- *. lia.
    + exists m2. apply (pool_next _ _ 0 m m1); [lia|by eexists|done|done].
Qed.

End Pool.

(** ** Completeness *)

Lemma same_type_trans a b c : same_type a b = true -> same_type b c = true -> same_type a c = true.
Proof. destruct a as [|[]| | | |], b as [|[]| | | |], c as [|[]| | | |]; done. Qed.

(** The assignment of a setting keeps a configuration complete. *)
Lemma assigned_complete def keys x v v' current : complete def v -> walk v keys = Some current -> same_type x current = true ->
  IsObject x = false -> assigned keys x v v' -> complete def v'.
Proof.
  intros Hc Hw Hs Ho [Hnew Hold] p d Hd. destruct (Hc p d Hd) as (c & Hwc & Hsc).
  assert (Hx : walk v' keys = Some x) by (rewrite <- (app_nil_r keys), Hnew; done).
  destruct (decide (keys `prefix_of` p)) as [[r ->]|Hn].
  - rewrite walk_app, Hw in Hwc. cbn [mbind option_bind] in Hwc. destruct (IsObject current) eqn:Hoc.
    { destruct (object_inv current Hoc) as [l ->]. destruct (same_type_object x l Hs) as [lx ->]. done. }
    destruct (walk_plain current r c Hoc Hwc) as [-> ->]. exists x. rewrite app_nil_r. split; [done|]. by apply (same_type_trans x c).
  - destruct (decide (p `prefix_of` keys)) as [[[|k r] ->]|Hn2].
    + destruct Hn. by rewrite app_nil_r.
    + destruct (walk_ancestor p k r v current Hw) as [l Hl]. rewrite Hl in Hwc. injection Hwc as <-.
      destruct (walk_ancestor p k r v' x Hx) as [l' Hl']. exists (Obj l'). split; [done|].
      apply (same_type_trans _ (Obj l)); done.
    + exists c. by rewrite Hold.
Qed.

(** ** Properties *)

(** C29: the difference of two objects is the set of paths whose member one of
    them has and the other has not, or that changed its type or, as a number
    of one kind, a string or a boolean, its value; arrays and nulls always
    count as changed, numbers of two kinds never.  The walk never uses a value
    as one of another type. *)
Theorem diff_is_reference parentPath oldObj newObj : distinct_names newObj = true ->
  exists paths, diffJsonObjects parentPath oldObj newObj = Returns paths /\
    forall path, path ∈ paths <-> exists keys, touched keys oldObj newObj = true /\ path = foldl joined parentPath keys.
Proof. intros Hd. by apply diff_spec. Qed.

Definition old_section : value := Obj [("Iccid"%string, Str "111"); ("SecurityProfile"%string, Number (NInt 1)); ("Imsi"%string, Str "1")].
Definition new_section : value := Obj [("Iccid"%string, Str "4711"); ("SecurityProfile"%string, Number (NDouble 0)); ("Model"%string, Null)].

Lemma diff_is_reference_witness : exists paths, diffJsonObjects "ChargePoint" old_section new_section = Returns paths /\
  "ChargePoint.Iccid"%string ∈ paths /\ "ChargePoint.SecurityProfile"%string ∉ paths.
Proof.
  destruct (diff_is_reference "ChargePoint" old_section new_section eq_refl) as (paths & Hp & Hin). exists paths. split; [exact Hp|]. split.
  - apply Hin. exists ["Iccid"%string]. split; reflexivity.
  - vm_compute in Hp. injection Hp as <-. intros H. repeat (apply elem_of_cons in H as [H|H]; [discriminate H|]). by apply elem_of_nil in H.
Defined.

(** C12: a key is changed when it names a node and the new value has the node's
    type; nothing happens otherwise, and no key is ever created.  After a
    change the key has the new value, every path that does not lead through it
    is as before, a task is queued for every subscriber of the key, or, for a
    section, of exactly the settings in it that differ, and a save is queued
    unless one is pending. *)
Theorem set_config_outcome order key x m : (forall subs, order subs ≡ₚ map_to_list subs) ->
  m_cfgMutex m = false -> plain_key key -> distinct_names x = true ->
  match walk (m_currentDoc m) (segments key) with
  | Some current =>
    if same_type x current then
      exists m' paths, setConfig order key x m = Returns (true, m') /\ set_done order key x paths m m' /\
        getConfig key m' = Returns (Some x) /\
        if IsObject current then forall path, path ∈ paths <-> exists keys, touched keys current x = true /\ path = foldl joined key keys
        else paths = [key]
    else setConfig order key x m = Returns (false, m)
  | None => setConfig order key x m = Returns (false, m)
  end.
Proof.
  intros Ho Hm Hk Hd. destruct (walk (m_currentDoc m) (segments key)) as [current|] eqn:Hw.
  - destruct (same_type x current) eqn:Hs; [|apply set_key_refused; [done..|]; by intros c; rewrite Hw; intros [= <-]].
    destruct (set_key_spec order Ho key x m current Hm Hk Hd Hw Hs) as (m' & paths & Hset & Hdone & Hp). exists m', paths.
    split; [done|]. split; [done|]. split; [|done]. destruct Hdone as ([Hnew _] & _ & _ & Hm' & _).
    assert (Hx : walk (m_currentDoc m') (segments key) = Some x) by (rewrite <- (app_nil_r (segments key)), Hnew; done).
    unfold getConfig, locked. rewrite Hm', find_node_walk, Hx by done. destruct (String.eqb_spec key EmptyString) as [->|Hne]; [by apply Forall_inv in Hk|].
    destruct (segments key) as [|k keys] eqn:Hseg; [by destruct (segments_not_nil key)|]. cbn [walk] in Hx.
    by destruct (m_currentDoc m').
  - apply set_key_refused; [done..|]. intros c. by rewrite Hw.
Qed.

Definition demo_manager : manager :=
  Manager DEFAULT_CONFIG_JSON "" ("/tmp" ++ CACHE_FILE) {["ChargePoint.Iccid"%string := {[1 := 7%nat]}]} 2 false false [] ∅ [].

Lemma plain_demo : plain_key "ChargePoint.Iccid".
Proof. by repeat constructor. Qed.

Lemma set_config_outcome_witness : exists m', setConfig map_to_list "ChargePoint.Iccid" (Str "4711") demo_manager = Returns (true, m') /\
  m_pool m' = [NotifyTask "ChargePoint.Iccid" 7; SaveTask].
Proof.
  destruct (set_config_outcome map_to_list "ChargePoint.Iccid" (Str "4711") demo_manager (fun _ => Permutation_refl _) eq_refl plain_demo eq_refl)
    as (m' & paths & Hset & (_ & Hpool & _) & _ & Hp). cbn in Hp. subst paths. exists m'. split; [exact Hset|].
  rewrite Hpool. vm_compute. reflexivity.
Defined.

Section Restart.
Context (parse : string -> option value) (pretty : value -> string) (writes : string -> write_answer).
Context (parse_pretty : forall v, IsObject v = true -> parse (pretty v) = Some v) (pretty_text : forall v, pretty v <> EmptyString).

Lemma init_cached m defaultPath dir doc : m_cfgMutex m = false -> disk m !! (dir ++ CACHE_FILE)%string = Some (pretty doc) ->
  complete DEFAULT_CONFIG_JSON doc ->
  exists m', initConfig parse pretty writes defaultPath dir m = Returns m' /\ m_currentDoc m' = doc /\ m_cfgMutex m' = false.
Proof.
  intros Hm Hd Hc. assert (Ho : IsObject doc = true).
  { destruct (Hc [] DEFAULT_CONFIG_JSON eq_refl) as (c & [= <-] & Hs). by destruct (same_type_object doc _ Hs) as [l ->]. }
  unfold initConfig, locked, loadJsonFromFile. rewrite Hm. cbn [m_cachedCfgPath with_paths disk m_defaultCfgPath]. rewrite Hd.
  destruct (String.eqb_spec (pretty doc) EmptyString) as [He|_]; [by destruct (pretty_text doc)|]. rewrite parse_pretty, Ho by done.
  assert (Hdist : distinct_names DEFAULT_CONFIG_JSON = true) by (vm_compute; reflexivity).
  rewrite (validate_complete DEFAULT_CONFIG_JSON doc eq_refl Hdist Hc). cbn [mbind outcome_bind]. unfold saveJsonToFile. cbn [m_cachedCfgPath with_doc].
  destruct (writes _); eexists; (split; [reflexivity|split; [reflexivity|exact Hm]]).
Qed.


(** the defaults are never restored: [restoreConfig] fails when the cache
    file cannot be removed, and otherwise calls [initConfig] with the mutex it
    holds, which never returns. *)
Theorem restore_never_returns removable m : m_cfgMutex m = false ->
  restoreConfig parse pretty writes removable m =
    if negb (String.eqb (m_cachedCfgPath m) EmptyString) && bool_decide (is_Some (disk m !! m_cachedCfgPath m)) && negb (removable (m_cachedCfgPath m))
    then Returns (false, m) else Blocked.
Proof.
  intros Hm. unfold restoreConfig, locked. rewrite Hm. cbn [m_cachedCfgPath with_mutex disk].
  destruct (_ && _ && _); [destruct m; cbn in *; by subst|]. by destruct (String.eqb _ _).
Qed.

End Restart.

Lemma complete_default : complete DEFAULT_CONFIG_JSON DEFAULT_CONFIG_JSON.
Proof. intros p d Hd. exists d. by rewrite same_type_refl. Qed.


Lemma restore_never_returns_witness : restoreConfig demo_parse demo_pretty (fun _ => Full) (fun _ => true) demo_manager = Blocked.
Proof. rewrite (restore_never_returns demo_parse demo_pretty (fun _ => Full) (fun _ => true) demo_manager eq_refl). reflexivity. Defined.
