(* ===== verification/OcppDatabase.v ===== *)
(** * The OCPP database ([src/ocpp/tool/database])

    One thread runs every use of the database: a caller posts a task and waits
    for its result.  A query is a prepared statement with its bindings, owned
    by its user, so it is a value here.  SQLite itself is a class: what running
    a text with bindings yields. *)

From Stdlib Require Import Ascii.
From stdpp Require Import pretty.
From S2P Require Import Prelude Utils Lru Sqlite.

#[global] Instance sql_value_eq_dec : EqDecision sql_value.
Proof. solve_decision. Defined.

(** ** SQLite *)

(** A value of a column; [None] is null. *)
Definition cell : Type := option sql_value.
Definition row : Type := list cell.

(** [run]: the rows a text yields with its bindings, or a failure.  The last
    three are SQLite's conversions: of text to the integer and of other values
    to the text that are read, and of a value stored in an integer column. *)
Class SqlEngine (DB : Type) := {
  open_v2 : string -> option DB;
  prepares : DB -> string -> bool;
  run : DB -> string -> gmap Z sql_value -> option (list row) * DB;
  text_to_int : string -> Z;
  other_to_text : sql_value -> string;
  int_column : cell -> cell
}.

Section Database.
Context {DB : Type} `{SqlEngine DB}.

Definition cell_int64 (c : cell) : Z :=
  match c with
  | Some (VInt z) | Some (VDouble z) => z
  | Some (VText s) => text_to_int s
  | Some (VBlob l) => text_to_int (string_of_bytes l)
  | None => 0
  end.
Definition cell_text (c : cell) : string :=
  match c with Some (VText s) => s | Some v => other_to_text v | None => EmptyString end.
Definition cell_blob (c : cell) : list Z :=
  match c with Some (VBlob l) => l | Some v => bytes_of_string (cell_text (Some v)) | None => [] end.

(** ** The executor ([DBExecutor.h]) *)

(** A task that posts another one waits for itself. *)
Definition postAndWait {A} (in_worker : bool) (task : outcome A) : outcome A := if in_worker then Blocked else task.

(** ** The database ([DataBase.cpp]) *)

(** The handle; the connection behind it is threaded separately. *)
Record Database := Db { m_db : bool }.

Definition lastError (in_worker : bool) (error : string) (d : Database) : outcome string :=
  postAndWait in_worker (Returns (if m_db d then error else EmptyString)).

(** The message of a failed [open] asks for the last error inside the task. *)
Definition open (path error : string) (d : Database) : outcome (bool * option DB * Database) :=
  postAndWait false (
    if m_db d then Returns (true, None, d)
    else match open_v2 path with
         | Some db => Returns (true, Some db, Db true)
         | None => _ ← lastError true error d; Returns (false, None, d)
         end).

Definition close (d : Database) : bool * Database := if m_db d then (true, Db false) else (false, d).

(** [Database::Query]. [q_stepped]: stepped and not reset, when SQLite refuses
    bindings; [q_rest]: the rows after the current one, while there is one. *)
Record Query := MakeQuery {
  q_sql : string;
  q_binds : gmap Z sql_value;
  q_stepped : bool;
  q_row : row;
  m_has_rows : bool;
  q_rest : option (list row)
}.

Definition query (sql : string) (d : Database) (db : DB) : option Query :=
  if negb (m_db d) then None else if prepares db sql then Some (MakeQuery sql ∅ false [] false None) else None.

(** The destructor hands the statement to the database thread, unless that
    has been stopped. *)
Definition destroy_query (in_worker running : bool) (q : Query) : outcome unit :=
  if running then postAndWait in_worker (Returns tt) else Returns tt.

Definition reset (q : Query) : Query := MakeQuery (q_sql q) ∅ false [] false None.

Definition with_binds (b : gmap Z sql_value) (q : Query) : Query := MakeQuery (q_sql q) b (q_stepped q) (q_row q) (m_has_rows q) (q_rest q).

Definition bind (number : Z) (v : sql_value) (q : Query) : bool * Query :=
  if q_stepped q then (false, q) else (true, with_binds (<[number := v]> (q_binds q)) q).

(** A parameter without a value is null. *)
Definition bind_null (number : Z) (q : Query) : bool * Query :=
  if q_stepped q then (false, q) else (true, with_binds (delete number (q_binds q)) q).

(** Bindings whose result is not looked at. *)
Fixpoint bind_all (l : list (Z * sql_value)) (q : Query) : Query :=
  match l with [] => q | (n, v) :: l' => bind_all l' (bind n v q).2 end.

Definition at_row (r : row) (rest : list row) (q : Query) : Query := MakeQuery (q_sql q) (q_binds q) true r (m_has_rows q) (Some rest).
Definition without_row (q : Query) : Query := MakeQuery (q_sql q) (q_binds q) true [] (m_has_rows q) None.

(** [sqlite3_step]: the next row; a statement that is at its end, or fresh,
    runs. *)
Definition step (q : Query) (db : DB) : step_code * Query * DB :=
  match q_rest q with
  | Some (r :: rest) => (SQLITE_ROW, at_row r rest q, db)
  | Some [] => (SQLITE_DONE, without_row q, db)
  | None =>
    let '(res, db) := run db (q_sql q) (q_binds q) in
    match res with
    | None => (SQLITE_FAILED, without_row q, db)
    | Some [] => (SQLITE_DONE, without_row q, db)
    | Some (r :: rest) => (SQLITE_ROW, at_row r rest q, db)
    end
  end.

Definition set_has_rows (b : bool) (q : Query) : Query := MakeQuery (q_sql q) (q_binds q) (q_stepped q) (q_row q) b (q_rest q).

Definition exec (q : Query) (db : DB) : bool * Query * DB :=
  let '(rc, q, db) := step (set_has_rows false q) db in
  match rc with
  | SQLITE_ROW => (true, set_has_rows true q, db)
  | SQLITE_DONE => (true, q, db)
  | SQLITE_FAILED => (false, q, db)
  end.

Definition next (q : Query) (db : DB) : bool * Query * DB :=
  let '(rc, q, db) := step q db in
  match rc with
  | SQLITE_ROW => (true, set_has_rows true q, db)
  | _ => (false, q, db)
  end.

Definition column (q : Query) (n : nat) : cell := default None (q_row q !! n).
Definition isNull (q : Query) (n : nat) : bool := bool_decide (column q n = None).
Definition getInt64 (q : Query) (n : nat) : Z := cell_int64 (column q n).
Definition getUInt32 (q : Query) (n : nat) : Z := uint32 (cell_int64 (column q n)).
Definition getText (q : Query) (n : nat) : string := cell_text (column q n).
Definition getBlob (q : Query) (n : nat) : list Z := cell_blob (column q n).
Definition getUInt64 (q : Query) (n : nat) : Z := uint64 (cell_int64 (column q n)).

(** [sqlite3_column_int]: the low half of the integer. *)
Definition getInt32 (q : Query) (n : nat) : Z := int32 (cell_int64 (column q n)).
Definition getBool (q : Query) (n : nat) : bool := negb (int32 (cell_int64 (column q n)) =? 0).

(** The overloads of [bind], but for doubles.  A blob without bytes is bound
    as a null pointer. *)
Inductive bindable :=
  | BNull
  | BBlob (l : list Z)
  | BBool (b : bool)
  | BInt32 (z : Z)
  | BUInt32 (z : Z)
  | BInt64 (z : Z)
  | BUInt64 (z : Z)
  | BText (s : string).

Definition bound_value (v : bindable) : cell :=
  match v with
  | BNull => None
  | BBlob l => if bool_decide (l = []) then None else Some (VBlob l)
  | BBool b => Some (VInt (if b then 1 else 0))
  | BInt32 z | BInt64 z => Some (VInt z)
  | BUInt32 z | BUInt64 z => Some (VInt (int64 z))
  | BText s => Some (VText (c_string s))
  end.

Definition bind_value (number : Z) (v : bindable) (q : Query) : bool * Query :=
  match bound_value v with Some x => bind number x q | None => bind_null number q end.

Definition DQUOTE : ascii := ascii_of_nat 34.

(** [sanitizeIdentifier]. *)
Fixpoint sanitize (input : string) : string :=
  match input with
  | EmptyString => EmptyString
  | String c input' =>
    if Ascii.eqb c DQUOTE then String DQUOTE (String DQUOTE (sanitize input'))
    else if Ascii.eqb c "-" then String "_" (sanitize input')
    else String c (sanitize input')
  end.

Definition sanitizeIdentifier (input : string) : string := String DQUOTE (sanitize input ++ String DQUOTE EmptyString).

(** One use of a query: the usual sequence of reset, bindings and exec. *)
Definition use (q : Query) (l : list (Z * sql_value)) (db : DB) : bool * Query * DB := exec (bind_all l (reset q)) db.

Lemma bind_all_ready l : forall q, q_stepped q = false ->
  q_sql (bind_all l q) = q_sql q /\ q_binds (bind_all l q) = foldl (fun m p => <[p.1 := p.2]> m) (q_binds q) l /\ q_stepped (bind_all l q) = false /\ q_rest (bind_all l q) = q_rest q.
Proof.
  induction l as [|[n v] l IH]; intros q Hq; cbn [bind_all foldl]; [done|]. unfold bind. rewrite Hq. cbn [snd].
  destruct (IH (with_binds (<[n := v]> (q_binds q)) q) Hq) as (E1 & E2 & E3 & E4). by rewrite E1, E2, E3, E4.
Qed.

(** The bindings of a list. *)
Definition bindings (l : list (Z * sql_value)) : gmap Z sql_value := foldl (fun m p => <[p.1 := p.2]> m) ∅ l.

Lemma use_spec q l db : use q l db =
  let '(r, db') := run db (q_sql q) (bindings l) in
  match r with
  | None => (false, MakeQuery (q_sql q) (bindings l) true [] false None, db')
  | Some [] => (true, MakeQuery (q_sql q) (bindings l) true [] false None, db')
  | Some (first :: rest) => (true, MakeQuery (q_sql q) (bindings l) true first true (Some rest), db')
  end.
Proof.
  unfold use, exec, step. destruct (bind_all_ready l (reset q) eq_refl) as (E1 & E2 & _ & E4). revert E1 E2 E4.
  destruct (bind_all l (reset q)) as [sql b st r h rest]. cbn. intros -> -> ->. fold (bindings l). by destruct (run db (q_sql q) (bindings l)) as [[[|first rest']|] db'].
Qed.

Lemma query_some sql d db : m_db d = true -> prepares db sql = true -> query sql d db = Some (MakeQuery sql ∅ false [] false None).
Proof. intros Hd Hp. unfold query. by rewrite Hd, Hp. Qed.

(** opening a database that cannot be opened never returns: the message
    that reports it asks the database thread, from the database thread. *)
Theorem open_failure_blocks path error d : m_db d = false ->
  open path error d = match open_v2 path with Some db => Returns (true, Some db, Db true) | None => Blocked end.
Proof. intros Hd. unfold open, postAndWait. rewrite Hd. by destruct (open_v2 path). Qed.

(** *** Rows *)

(** The loop that reads all rows of a statement that was run. *)
Fixpoint rest_rows (fuel : nat) (q : Query) (db : DB) : list row * Query :=
  match fuel with
  | O => ([], q)
  | S fuel' =>
    let '(more, q', db') := next q db in
    if more then let '(l, q2) := rest_rows fuel' q' db' in (q_row q' :: l, q2) else ([], q')
  end.
Definition fetch (fuel : nat) (q : Query) (db : DB) : list row * Query :=
  let '(l, q') := rest_rows fuel q db in (if m_has_rows q then q_row q :: l else l, q').

Lemma rest_rows_all rest : forall sql b r fuel db, (length rest < fuel)%nat ->
  rest_rows fuel (MakeQuery sql b true r true (Some rest)) db = (rest, MakeQuery sql b true [] true None).
Proof.
  induction rest as [|r' rest IH]; intros sql b r [|fuel] db Hf; cbn in Hf; try lia; [done|].
  cbn [rest_rows next step q_rest]. unfold at_row, set_has_rows. cbn [q_sql q_binds q_stepped q_row m_has_rows]. rewrite IH; [done|lia].
Qed.

(** a statement that was run yields its rows in their order, and no
    more; having rows is remembered after the last of them, and the step after
    it runs the statement again. *)
Theorem rows_in_order q db rows db' fuel : q_rest q = None -> run db (q_sql q) (q_binds q) = (Some rows, db') -> (length rows < fuel)%nat ->
  exists q1 q2, exec q db = (true, q1, db') /\
  m_has_rows q1 = negb (bool_decide (rows = [])) /\
  (rows <> [] -> fetch fuel q1 db' = (rows, q2) /\ m_has_rows q2 = true /\ q_row q2 = []) /\
  (rows <> [] -> forall db2 again db3, run db2 (q_sql q) (q_binds q) = (Some again, db3) -> (next q2 db2).1.1 = negb (bool_decide (again = []))).
Proof.
  intros Hq Hr Hf. unfold exec, step. cbn [set_has_rows q_rest q_sql q_binds]. rewrite Hq, Hr. destruct rows as [|first rest].
  - eexists _, q. split; [reflexivity|]. done.
  - eexists _, (MakeQuery (q_sql q) (q_binds q) true [] true None). split; [reflexivity|]. split; [done|]. split.
    + intros _. unfold fetch, set_has_rows, at_row. cbn [q_rest q_sql q_binds q_stepped q_row m_has_rows]. rewrite rest_rows_all by (cbn in Hf; lia). done.
    + intros _ db2 again db3 Hr2. unfold next, step. cbn [q_rest q_sql q_binds]. rewrite Hr2. by destruct again.
Qed.

(** *** Values *)

Definition bindable_ok (v : bindable) : Prop :=
  match v with
  | BInt32 z => in_int32 z
  | BUInt32 z => 0 <= z < 2 ^ 32
  | BInt64 z => in_int64 z
  | BUInt64 z => 0 <= z < 2 ^ 64
  | BText s => c_string s = s
  | _ => True
  end.

(** What the getter of the type of a value reads. *)
Definition reads_back (v : bindable) (q : Query) (n : nat) : Prop :=
  match v with
  | BNull => isNull q n = true
  | BBlob l => getBlob q n = l
  | BBool b => getBool q n = b
  | BInt32 z => getInt32 q n = z
  | BUInt32 z => getUInt32 q n = z
  | BInt64 z => getInt64 q n = z
  | BUInt64 z => getUInt64 q n = z
  | BText s => getText q n = s
  end.

Lemma uint64_int64 z : 0 <= z < 2 ^ 64 -> uint64 (int64 z) = z.
Proof. intros Hz. unfold sint, uint. rewrite Zminus_mod_idemp_l. rewrite Z.add_simpl_r. by apply Z.mod_small. Qed.

Lemma bound_reads_back v q n : bindable_ok v -> column q n = bound_value v -> reads_back v q n.
Proof.
  intros Hv Hc. destruct v as [|l|b|z|z|z|z|s]; cbn [bound_value reads_back bindable_ok] in *;
    unfold isNull, getBlob, getBool, getInt32, getUInt32, getInt64, getUInt64, getText; rewrite Hc; cbn [cell_int64 cell_text].
  - done.
  - destruct (bool_decide_reflect (l = [])); by subst.
  - by destruct b.
  - by apply sint32_id.
  - rewrite sint64_id by (unfold in_int64; lia). by apply uint_id.
  - done.
  - by apply uint64_int64.
  - done.
Qed.

(** a value of each type that is bound to a parameter, and selected, is
    read back by the getter of its type: integers of 32 and 64 bits with and
    without sign, truth values, texts without a null, blobs and null. *)
Theorem bound_value_round_trip n v q db : bindable_ok v -> (forall b, run db (q_sql q) b = (Some [[b !! n]], db)) ->
  exists q1 q2, bind_value n v (reset q) = (true, q1) /\ exec q1 db = (true, q2, db) /\ reads_back v q2 0.
Proof.
  intros Hv Hr.
  assert (Hb : exists b, bind_value n v (reset q) = (true, with_binds b (reset q)) /\ b !! n = bound_value v).
  { unfold bind_value. destruct (bound_value v) as [x|]; eexists; (split; [reflexivity|]); [apply lookup_insert_eq|apply lookup_delete_eq]. }
  destruct Hb as (b & Hb & Hl). eexists _, _. split; [exact Hb|]. unfold exec, step. cbn [set_has_rows with_binds reset q_rest q_sql q_binds].
  rewrite Hr. split; [reflexivity|]. by apply bound_reads_back.
Qed.

(** C40: an integer of the database is read exactly by the getter of a type
    that holds it, and by no other: a getter of 32 bits takes the low half, and
    a truth value is false for every multiple of 2^32. *)
Theorem narrow_reads z q n : in_int64 z -> column q n = Some (VInt z) ->
  getInt64 q n = z /\
  (getInt32 q n = z <-> in_int32 z) /\
  (getUInt32 q n = z <-> 0 <= z < 2 ^ 32) /\
  (getUInt64 q n = z <-> 0 <= z) /\
  (getBool q n = false <-> z mod 2 ^ 32 = 0).
Proof.
  intros Hz Hc. unfold getInt64, getInt32, getUInt32, getUInt64, getBool. rewrite Hc. cbn [cell_int64]. split_and!.
  - done.
  - split; [intros <-; apply sint32_range|apply sint32_id].
  - split; [intros <-; by apply uint_range|apply uint_id].
  - split; [intros <-; by apply uint_range|]. intros. apply uint_id. unfold in_int64 in Hz. lia.
  - rewrite negb_false_iff, Z.eqb_eq. unfold sint. split; intros Hm.
    + assert (E : z mod 2 ^ 32 = ((z + 2 ^ (32 - 1)) mod 2 ^ 32 - 2 ^ (32 - 1)) mod 2 ^ 32) by (rewrite Zminus_mod_idemp_l; f_equal; lia).
      by rewrite E, Hm.
    + rewrite Zplus_mod, Hm. done.
Qed.

End Database.

(** ** The tables of the client *)

(** [AuthentCache], oldest row first, with the bound of its trigger;
    [AuthentLocalList] with its next key; [Connector]. *)
Record Tables := MakeTables {
  cache_rows : list row;
  cache_max : option Z;
  local_rows : list row;
  local_next : Z;
  connector_rows : list row
}.

Definition set_cache (t : Tables) (l : list row) : Tables := MakeTables l (cache_max t) (local_rows t) (local_next t) (connector_rows t).
Definition set_local (t : Tables) (l : list row) (next : Z) : Tables := MakeTables (cache_rows t) (cache_max t) l next (connector_rows t).
Definition set_connectors (t : Tables) (l : list row) : Tables := MakeTables (cache_rows t) (cache_max t) (local_rows t) (local_next t) l.
Definition set_cache_max (t : Tables) (n : Z) : Tables :=
  MakeTables (cache_rows t) (match cache_max t with Some m => Some m | None => Some n end) (local_rows t) (local_next t) (connector_rows t).

Definition col (r : row) (n : nat) : cell := default None (r !! n).

(** What a statement does to the tables with its bindings: its rows and the new
    tables; [None] when a constraint forbids it. *)
Definition effect : Type := Tables -> (Z -> cell) -> option (list row * Tables).

(** The text affinity of a column. *)
Definition as_text_column (c : cell) : cell := match c with Some (VInt z) => Some (VText (pretty z)) | _ => c end.

(** A column equals a value: never when one is null. *)
Definition matches (n : nat) (c : cell) (r : row) : bool := bool_decide (col r n = c) && bool_decide (c <> None).

Class SqlTables (DB : Type) `{SqlEngine DB} := {
  tables : DB -> Tables;
  meaning : string -> option effect;
  int_column_int z : int_column (Some (VInt z)) = Some (VInt z);
  healthy : DB -> Prop;   (* no statement fails but for its constraints *)
  run_effect db sql b e : meaning sql = Some e ->
    match e (tables db) (fun n => b !! n) with
    | None => (run db sql b).1 = None /\ tables (run db sql b).2 = tables db
    | Some (rows, t') =>
      ((run db sql b).1 = Some rows /\ tables (run db sql b).2 = t') \/
      ((run db sql b).1 = None /\ tables (run db sql b).2 = tables db /\ ~ healthy db)
    end;
  run_healthy db sql b : healthy db -> healthy (run db sql b).2
}.

(** A use of a query whose text is understood. *)
Lemma use_effect {DB} `{SqlTables DB} q l db e : meaning (q_sql q) = Some e ->
  exists q' db', q_sql q' = q_sql q /\ (healthy db -> healthy db') /\
    match e (tables db) (fun n => bindings l !! n) with
    | None => use q l db = (false, q', db') /\ tables db' = tables db
    | Some (rows, t') =>
      (use q l db = (true, q', db') /\ tables db' = t' /\ q_row q' = default [] (head rows) /\
        m_has_rows q' = match rows with [] => false | _ => true end) \/
      (use q l db = (false, q', db') /\ tables db' = tables db /\ ~ healthy db)
    end.
Proof.
  intros He. rewrite use_spec. pose proof (run_effect db (q_sql q) (bindings l) e He) as Hr. pose proof (run_healthy db (q_sql q) (bindings l)) as Hh.
  destruct (run db (q_sql q) (bindings l)) as [r db']. cbn [fst snd] in *.
  destruct (e (tables db) (fun n => bindings l !! n)) as [[rows t']|].
  - destruct Hr as [[-> Ht]|(-> & Ht & Hu)].
    + destruct rows as [|first rows]; eexists _, db'; (split; [|split; [exact Hh|left; split; [reflexivity|done]]]); done.
    + eexists _, db'. split; [|split; [exact Hh|right; split; [reflexivity|done]]]. done.
  - destruct Hr as [-> Ht]. eexists _, db'. split; [|split; [exact Hh|split; [reflexivity|done]]]. done.
Qed.

(** ** A small database

    The tables themselves, with given meanings; it satisfies the laws. *)

Section Demo.
Context (mng : string -> option effect).

#[local] Instance demo_engine : SqlEngine Tables := {|
  open_v2 path := if String.eqb path EmptyString then None else Some (MakeTables [] None [] 1 []);
  prepares t sql := true;
  run t sql b :=
    match mng sql with
    | None => (None, t)
    | Some e => match e t (fun n => b !! n) with Some (rows, t') => (Some rows, t') | None => (None, t) end
    end;
  text_to_int s := 0;
  other_to_text v := EmptyString;
  int_column c := c |}.

Lemma demo_run_effect t sql b e : mng sql = Some e ->
  match e t (fun n => b !! n) with
  | None => (run t sql b).1 = None /\ (run t sql b).2 = t
  | Some (rows, t') =>
    ((run t sql b).1 = Some rows /\ (run t sql b).2 = t') \/ ((run t sql b).1 = None /\ (run t sql b).2 = t /\ ~ True)
  end.
Proof. intros He. cbn [run demo_engine]. rewrite He. destruct (e t (fun n => b !! n)) as [[rows t']|]; [by left|done]. Qed.

#[local] Instance demo_tables : SqlTables Tables := {|
  tables t := t;
  meaning := mng;
  int_column_int z := eq_refl;
  healthy t := True;
  run_effect := demo_run_effect;
  run_healthy db sql b h := h |}.

End Demo.

Lemma open_failure_blocks_witness : open (H := demo_engine (fun _ => None)) "" "unable to open database file" (Db false) = Blocked.
Proof. exact (open_failure_blocks (H := demo_engine (fun _ => None)) "" "unable to open database file" (Db false) eq_refl). Defined.

(** [SELECT ?1]. *)
Definition demo_echo : string -> option effect := fun _ => Some (fun t b => Some ([[b 1]], t)).
#[local] Instance echo_engine : SqlEngine Tables := demo_engine demo_echo.
Definition demo_db : Tables := MakeTables [] None [] 1 [].
Definition demo_query : Query := MakeQuery "SELECT ?1" ∅ false [] false None.

Lemma bound_value_round_trip_witness : bindable_ok (BUInt64 (2 ^ 64 - 1)) /\ exists q1 q2 : Query,
  bind_value 1 (BUInt64 (2 ^ 64 - 1)) (reset demo_query) = (true, q1) /\ exec q1 demo_db = (true, q2, demo_db) /\ getUInt64 q2 0 = 2 ^ 64 - 1.
Proof.
  split; [cbn; lia|]. exact (bound_value_round_trip (H := echo_engine) 1 (BUInt64 (2 ^ 64 - 1)) demo_query demo_db ltac:(cbn; lia) ltac:(reflexivity)).
Defined.

Definition demo_wide : Query := MakeQuery "SELECT 4294967296" ∅ true [Some (VInt 4294967296)] true (Some []).

Lemma narrow_reads_witness : getBool demo_wide 0 = false <-> 4294967296 mod 2 ^ 32 = 0.
Proof. refine (proj2 (proj2 (proj2 (proj2 (narrow_reads (H := echo_engine) 4294967296 demo_wide 0 _ eq_refl))))). unfold in_int64. lia. Defined.

(** A table of three rows. *)
Definition demo_three : string -> option effect := fun _ => Some (fun t b => Some ([[Some (VInt 1)]; [Some (VInt 2)]; [Some (VInt 3)]], t)).

Lemma rows_in_order_witness : exists q1 q2 : Query, exec (H := demo_engine demo_three) demo_query demo_db = (true, q1, demo_db) /\
  fetch (H := demo_engine demo_three) 4 q1 demo_db = ([[Some (VInt 1)]; [Some (VInt 2)]; [Some (VInt 3)]], q2) /\ m_has_rows q2 = true.
Proof.
  destruct (rows_in_order (H := demo_engine demo_three) demo_query demo_db _ demo_db 4 eq_refl eq_refl ltac:(cbn; lia)) as (q1 & q2 & He & _ & Hf & _).
  destruct (Hf ltac:(done)) as (Hf2 & Hm & _). exists q1, q2. exact (conj He (conj Hf2 Hm)).
Defined.
