(* ===== verification/OcppRecords.v ===== *)
(** * Records of the OCPP messages
      ([src/src/ocpp/action/transaction/TransacrtionDef.h],
       [src/src/ocpp/security-extension/SecurityDatatypes.h],
       [src/src/ocpp/type/OcppStatus.h])

    Transactions, meter values and the records of the security extension, with
    their constructors; a constructor that throws is [None]. *)

From S2P Require Import Prelude OcppEnums.

#[local] Open Scope string_scope.
#[local] Open Scope Z_scope.

(** ** Transactions *)

Inductive TransactionStatus := Started | Stopped | Synced.
Inductive SyncStatus := SyncPending | SyncSuccess | SyncFailed.
Inductive TnxType := StartTransaction | StopTransaction | TnxMeterValues.

Definition STOP_METER_UNFINISHED : Z := 4294967295.
Definition DEFAULT_ONLINE_FLAG : bool := false.

Record Transaction := MakeTransaction {
  id : Z;
  tx_id : Z;
  connector_id : Z;
  id_tag : string;
  start_time : string;
  start_meter : Z;
  stop_time : string;
  stop_meter : Z;
  stop_reason : Reason;
  is_online_start : bool;
  is_online_stop : bool;
  tx_status : TransactionStatus;
  created_at : string;
  updated_at : string
}.

Definition default_transaction : Transaction :=
  MakeTransaction 0 0 0 "" "" 0 "" STOP_METER_UNFINISHED Reason_Other DEFAULT_ONLINE_FLAG DEFAULT_ONLINE_FLAG Started "" "".

(** The arguments are converted to [uint32_t]. *)
Definition start_transaction (txId connectorId : Z) (idTag startTime : string) (startMeter : Z) (onlineStart : bool) : Transaction :=
  MakeTransaction 0 (uint32 txId) (uint32 connectorId) idTag startTime (uint32 startMeter) "" STOP_METER_UNFINISHED Reason_Other onlineStart
    DEFAULT_ONLINE_FLAG Started startTime startTime.

(** The marker in the field is the only sign of a transaction that goes on. *)
Definition unfinished (t : Transaction) : bool := stop_meter t =? STOP_METER_UNFINISHED.

Record MeterValue := MakeMeterValue {
  mv_id : Z;
  mv_tx_id : Z;
  timestamp : string;
  energy : string;
  energy_unit : string;
  voltage : string;
  voltage_unit : string;
  current : string;
  current_unit : string;
  soc : string;
  soc_unit : string;
  power : string;
  power_unit : string;
  context : Z;
  is_synced : bool
}.

Definition default_meter_value : MeterValue := MakeMeterValue 0 0 "" "0.0" "Wh" "0.0" "V" "0.0" "A" "0" "%" "0.0" "W" 0 false.
Definition meter_value (txId : Z) (ts energyVal : string) : MeterValue :=
  MakeMeterValue 0 (uint32 txId) ts energyVal "Wh" "0.0" "V" "0.0" "A" "0" "%" "0.0" "W" 0 false.

(** ** Values and errors *)

Inductive ErrorCode := NotImplemented | NotSupported | InternalError | ProtocolError | SecurityError | FormationViolation
  | PropertyConstraintViolation | OccurrenceConstraintViolation | TypeConstraintViolation | GenericError.

Record measured := Measured { m_value : string; m_unit : string }.
Record SampledValue := Sampled {
  energyActiveImportRegister : measured;
  powerActiveImport : measured;
  sv_voltage : measured;
  currentImport : measured;
  sv_soc : measured
}.

(** ** The security extension *)

(** A string of at most [max] bytes. *)
Definition ci_string (max : nat) (s : string) : option string := if (max <? String.length s)%nat then None else Some s.
Definition CiString40Type : string -> option string := ci_string 40.
Definition CiString128Type : string -> option string := ci_string 128.

Record LogParametersType := LogParameters { remoteLocation : string; oldestTimestamp : string; latestTimestamp : string }.

Record CertificateHashDataType := CertificateHashData {
  hashAlgorithm : HashAlgorithmEnumType;
  issuerNameHash : string;
  issuerKeyHash : string;
  serialNumber : string
}.

Definition certificate_lengths_ok (c : CertificateHashDataType) : bool :=
  negb (128 <? String.length (issuerNameHash c))%nat && negb (128 <? String.length (issuerKeyHash c))%nat && negb (40 <? String.length (serialNumber c))%nat.

(** The constructor has no arguments: its checks look at the empty strings it
    has just set. *)
Definition new_certificate_hash_data : option CertificateHashDataType :=
  let c := CertificateHashData HashAlgorithmEnumType_SHA256 "" "" "" in
  if certificate_lengths_ok c then Some c else None.

Record FirmwareType := Firmware {
  location : string;
  retrieveDateTime : string;
  installDateTime : string;
  signingCertificate : string;
  signature : string
}.

(** ** Properties *)

(** A string type takes the strings of its length and no others, and keeps
    them. *)
Theorem ci_string_bounds max s :
  match ci_string max s with Some s' => s' = s /\ (String.length s <= max)%nat | None => (max < String.length s)%nat end.
Proof. unfold ci_string. destruct (Nat.ltb_spec max (String.length s)); [done|]. by split. Qed.

(** The constructor of the certificate data never throws, and a field set
    after it can have any length. *)
Theorem certificate_never_checked : exists c long, new_certificate_hash_data = Some c /\
  certificate_lengths_ok (CertificateHashData (hashAlgorithm c) long (issuerKeyHash c) (serialNumber c)) = false.
Proof. exists (CertificateHashData HashAlgorithmEnumType_SHA256 "" "" ""), (String.concat "" (replicate 129 "x")). by vm_compute. Qed.

(** A transaction that was started is unfinished, under its number, with the
    default of the database as its reason; but a meter that stops at the
    largest value reads as unfinished too. *)
Theorem started_unfinished txId connectorId idTag startTime startMeter onlineStart : 0 <= txId < 2 ^ 32 ->
  let t := start_transaction txId connectorId idTag startTime startMeter onlineStart in
  unfinished t = true /\ tx_id t = txId /\ to_int (stop_reason t) = 5 /\ tx_status t = Started /\ updated_at t = startTime.
Proof. intros Ht. split_and!; try done. cbn. by apply uint_id. Qed.

Lemma started_unfinished_witness : unfinished (start_transaction 7 1 "TAG" "2025-01-01T00:00:00Z" 100 true) = true.
Proof. apply (started_unfinished 7 1 "TAG" "2025-01-01T00:00:00Z" 100 true). lia. Defined.
