(* ===== verification/OcppTime.v ===== *)
(** * Dates and times ([src/ocpp/common/Time.h])

    A time is a number of seconds; its text is the date and the time of day in
    universal time.  The calendar functions of the C library and the time
    manipulators of C++ are defined here; the local zone, which [assign] goes
    through, is a class. *)

From Stdlib Require Import Ascii.
From stdpp Require Import pretty.
From S2P Require Import Prelude.

(** ** The calendar *)

Record tm := Tm { tm_year : Z; tm_mon : Z; tm_mday : Z; tm_hour : Z; tm_min : Z; tm_sec : Z }.

(** Days are counted from the first of March of year 0 in eras of 400 years, so
    that the day a leap year has more is the last of its year; 719468 of them
    are before 1970. *)
Definition days_before_year (y : Z) : Z := 365 * y + y / 4 - y / 100.
Definition days_before_month (mp : Z) : Z := (153 * mp + 2) / 5.

Definition year_of_day (doe : Z) : Z := (doe - doe / 1460 + doe / 36524 - doe / 146096) / 365.
Definition month_of_day (doy : Z) : Z := (5 * doy + 2) / 153.

(** The year, the month from 1 and the day of a number of days since 1970. *)
Definition civil_from_days (days : Z) : Z * Z * Z :=
  let z := days + 719468 in
  let era := z / 146097 in
  let doe := z mod 146097 in
  let yoe := year_of_day doe in
  let doy := doe - days_before_year yoe in
  let mp := month_of_day doy in
  let m := if mp <? 10 then mp + 3 else mp - 9 in
  (yoe + era * 400 + (if m <=? 2 then 1 else 0), m, doy - days_before_month mp + 1).

(** Days may be outside of their month: they then count into another one. *)
Definition days_from_civil (y m d : Z) : Z :=
  let y := if m <=? 2 then y - 1 else y in
  let era := y / 400 in
  let yoe := y mod 400 in
  let mp := if 2 <? m then m - 3 else m + 9 in
  era * 146097 + days_before_year yoe + days_before_month mp + d - 1 - 719468.

(** [gmtime_r]: nothing when the year is too large for its field. *)
Definition gmtime (t : Z) : option tm :=
  let days := t / 86400 in
  let secs := t mod 86400 in
  let '(y, m, d) := civil_from_days days in
  if (INT32_MIN <=? y - 1900) && (y - 1900 <=? INT32_MAX) then Some (Tm (y - 1900) (m - 1) d (secs / 3600) (secs / 60 mod 60) (secs mod 60))
  else None.

Definition timegm (x : tm) : Z :=
  days_from_civil (tm_year x + 1900) (tm_mon x + 1) (tm_mday x) * 86400 + tm_hour x * 3600 + tm_min x * 60 + tm_sec x.

(** ** Texts *)

Definition digit (n : Z) : ascii := ascii_of_N (Z.to_N (48 + n)).
Definition two_digits (n : Z) : string := String (digit (n / 10)) (String (digit (n mod 10)) EmptyString).

(** [put_time] with [%Y-%m-%dT%TZ]. *)
Definition put_time (x : tm) : string :=
  pretty (tm_year x + 1900) ++ "-" ++ two_digits (tm_mon x + 1) ++ "-" ++ two_digits (tm_mday x) ++ "T" ++
  two_digits (tm_hour x) ++ ":" ++ two_digits (tm_min x) ++ ":" ++ two_digits (tm_sec x) ++ "Z".

Definition digit_value (c : ascii) : option Z :=
  let n := Z.of_N (N_of_ascii c) in if (48 <=? n) && (n <=? 57) then Some (n - 48) else None.

Fixpoint digits (n : nat) (v : Z) (s : string) : option (Z * string) :=
  match n, s with
  | O, _ => Some (v, s)
  | S n', String c s' => d ← digit_value c; digits n' (10 * v + d) s'
  | S _, EmptyString => None
  end.

(** A field of a fixed number of digits and a range; a letter of the format,
    in either case. *)
Definition get_num (n : nat) (min max : Z) (s : string) : option (Z * string) :=
  '(v, s) ← digits n 0 s;
  if (min <=? v) && (v <=? max) then Some (v, s) else None.

Definition lower (c : ascii) : ascii :=
  let n := N_of_ascii c in if (65 <=? n)%N && (n <=? 90)%N then ascii_of_N (n + 32) else c.
Definition get_char (c : ascii) (s : string) : option string :=
  match s with String x s' => if Ascii.eqb (lower x) (lower c) then Some s' else None | EmptyString => None end.

Definition is_space (c : ascii) : bool := let n := N_of_ascii c in (n =? 32)%N || ((9 <=? n)%N && (n <=? 13)%N).
Fixpoint skip_spaces (s : string) : string :=
  match s with String c s' => if is_space c then skip_spaces s' else s | EmptyString => s end.

(** [get_time] with [%Y-%m-%dT%T]; what follows is left in the stream. *)
Definition get_date_time (s : string) : option (tm * string) :=
  '(y, s) ← get_num 4 0 9999 (skip_spaces s);
  s ← get_char "-" s;
  '(m, s) ← get_num 2 1 12 s;
  s ← get_char "-" s;
  '(d, s) ← get_num 2 1 31 s;
  s ← get_char "T" s;
  '(hh, s) ← get_num 2 0 23 s;
  s ← get_char ":" s;
  '(mm, s) ← get_num 2 0 59 s;
  s ← get_char ":" s;
  '(ss, s) ← get_num 2 0 60 s;
  Some (Tm (y - 1900) (m - 1) d hh mm ss, s).

Definition get_date_time_z (s : string) : option tm :=
  '(x, s) ← get_date_time s;
  _ ← get_char "Z" s;
  Some x.

(** ** The class *)

(** [mktime] reads a local time as standard time, since [tm_isdst] is zero, and
    says what the offset and the saving are then: the time, [tm_gmtoff] and
    [tm_isdst].  A saving is one hour. *)
Class LocalZone := {
  mktime : tm -> Z * Z * Z;
  mktime_standard x : let '(t, gmtoff, isdst) := mktime x in t = timegm x - (gmtoff - isdst * 3600)
}.

Definition str (m_datetime : Z) : string := put_time (default (Tm 0 0 0 0 0 0) (gmtime m_datetime)).

Section DateTime.
Context `{LocalZone}.

(** The second reading starts on the time the first one has left. *)
Definition assign (value : string) (m_datetime : Z) : bool * Z :=
  let set x := let '(t, gmtoff, isdst) := mktime x in (true, t + gmtoff - isdst * 3600) in
  match get_date_time_z value with
  | Some x => set x
  | None => match get_date_time value with Some (x, _) => set x | None => (false, m_datetime) end
  end.

End DateTime.

Example str_epoch : str 0 = "1970-01-01T00:00:00Z"%string. Proof. reflexivity. Qed.
Example str_leap : str 1709210096 = "2024-02-29T12:34:56Z"%string. Proof. reflexivity. Qed.
Example read_leap : timegm <$> get_date_time_z "2024-02-29t12:34:56Z+" = Some 1709210096. Proof. reflexivity. Qed.

(** ** The calendar is consistent *)

Lemma year_range doe : 0 <= doe <= 146096 -> let yoe := year_of_day doe in
  0 <= yoe <= 399 /\ 0 <= doe - days_before_year yoe <= 365.
Proof. unfold year_of_day, days_before_year. cbv zeta. intros H. Z.to_euclidean_division_equations. lia. Qed.

Lemma month_range doy : 0 <= doy <= 365 -> let mp := month_of_day doy in
  0 <= mp <= 11 /\ 0 <= doy - days_before_month mp <= 30.
Proof. unfold month_of_day, days_before_month. cbv zeta. intros H. Z.to_euclidean_division_equations. lia. Qed.

(** A day has a month and a day of the month, and is found from them. *)
Lemma civil_round days : let '(y, m, d) := civil_from_days days in 1 <= m <= 12 /\ 1 <= d <= 31 /\ days_from_civil y m d = days.
Proof.
  unfold civil_from_days. set (z := days + 719468). pose proof (Z.mod_pos_bound z 146097 ltac:(lia)) as Hdoe.
  set (doe := z mod 146097) in *. destruct (year_range doe ltac:(lia)) as [Hy Hdoy]. set (yoe := year_of_day doe) in *.
  destruct (month_range _ Hdoy) as [Hm Hd]. set (mp := month_of_day _) in *. unfold days_from_civil.
  assert (Hz : z / 146097 * 146097 + doe = z) by (subst doe; pose proof (Z.div_mod z 146097 ltac:(lia)); lia).
  assert (Hera : forall e, (yoe + e * 400) / 400 = e /\ (yoe + e * 400) mod 400 = yoe).
  { intros e. rewrite Z.div_add, Z.mod_add by lia. split; [rewrite Z.div_small; lia|rewrite Z.mod_small; lia]. }
  destruct (Hera (z / 146097)) as [E1 E2]. set (m := if mp <? 10 then mp + 3 else mp - 9).
  assert (Hmm : 1 <= m <= 12 /\ (if 2 <? m then m - 3 else m + 9) = mp).
  { subst m. destruct (Z.ltb_spec mp 10); [destruct (Z.ltb_spec 2 (mp + 3))|destruct (Z.ltb_spec 2 (mp - 9))]; lia. }
  destruct Hmm as [Hm12 ->]. split; [done|]. split; [lia|].
  replace (if m <=? 2 then _ - 1 else _) with (yoe + z / 146097 * 400) by (destruct (m <=? 2); lia). rewrite E1, E2. subst z. lia.
Qed.

(** The first and the last day of a range of years, in their eras. *)
Lemma civil_year days : - 354285 <= days < 2932897 -> let '(y, _, _) := civil_from_days days in 1000 <= y <= 9999.
Proof.
  intros Hr. unfold civil_from_days. set (z := days + 719468). pose proof (Z.mod_pos_bound z 146097 ltac:(lia)) as Hdoe.
  destruct (year_range (z mod 146097) ltac:(lia)) as [Hy Hdoy]. pose proof (Z.div_mod z 146097 ltac:(lia)) as Hz.
  assert (Hera : 2 <= z / 146097 <= 24) by (subst z; Z.to_euclidean_division_equations; lia).
  set (doe := z mod 146097) in *. set (era := z / 146097) in *. set (yoe := year_of_day doe) in *.
  set (mp := month_of_day (doe - days_before_year yoe)).
  assert (Hm : (if (if mp <? 10 then mp + 3 else mp - 9) <=? 2 then 1 else 0) = if mp <? 10 then 0 else 1).
  { destruct (month_range _ Hdoy) as [Hmp _]. fold mp in Hmp. destruct (Z.ltb_spec mp 10); [destruct (Z.leb_spec (mp + 3) 2)|destruct (Z.leb_spec (mp - 9) 2)]; lia. }
  rewrite Hm. assert (Hlow : era = 2 -> 199 <= yoe /\ (yoe = 199 -> 10 <= mp)).
  { intros ->. assert (72989 <= doe) by (subst z; lia). split; [subst yoe; unfold year_of_day; Z.to_euclidean_division_equations; lia|].
    intros E. subst mp. rewrite E. change (days_before_year 199) with 72683. unfold month_of_day. Z.to_euclidean_division_equations; lia. }
  assert (Hhigh : era = 24 -> yoe = 399 -> mp < 10).
  { intros -> E. assert (doe <= 146036) by (subst z; lia). subst mp. rewrite E. change (days_before_year 399) with 145731. unfold month_of_day.
    Z.to_euclidean_division_equations; lia. }
  destruct (Z.ltb_spec mp 10); lia.
Qed.

(** A text is printed for every time whose year is four digits long. *)
Definition MIN_TIME : Z := - 30610224000.
Definition MAX_TIME : Z := 253402300799.

Lemma gmtime_fields t : MIN_TIME <= t <= MAX_TIME -> exists y m d hh mm ss, gmtime t = Some (Tm (y - 1900) (m - 1) d hh mm ss) /\
  1000 <= y <= 9999 /\ 1 <= m <= 12 /\ 1 <= d <= 31 /\ 0 <= hh <= 23 /\ 0 <= mm <= 59 /\ 0 <= ss <= 59 /\
  timegm (Tm (y - 1900) (m - 1) d hh mm ss) = t.
Proof.
  intros Ht. unfold gmtime. pose proof (civil_round (t / 86400)) as Hc. pose proof (civil_year (t / 86400)) as Hy.
  destruct (civil_from_days (t / 86400)) as [[y m] d] eqn:E. destruct Hc as (Hm & Hd & Hback).
  assert (1000 <= y <= 9999) by (apply Hy; unfold MIN_TIME, MAX_TIME in *; Z.to_euclidean_division_equations; lia).
  unfold INT32_MIN, INT32_MAX. destruct (Z.leb_spec (-2147483648) (y - 1900)); [|lia]. destruct (Z.leb_spec (y - 1900) 2147483647); [|lia].
  exists y, m, d. do 3 eexists. split; [reflexivity|]. do 3 (split; [done|]).
  do 3 (split; [Z.to_euclidean_division_equations; lia|]).
  unfold timegm. cbn [tm_year tm_mon tm_mday tm_hour tm_min tm_sec].
  replace (y - 1900 + 1900) with y by lia. replace (m - 1 + 1) with m by lia. rewrite Hback. Z.to_euclidean_division_equations; lia.
Qed.

(** ** What is printed is read *)

Lemma digit_cases (P : Z -> Prop) n : 0 <= n <= 9 -> P 0 -> P 1 -> P 2 -> P 3 -> P 4 -> P 5 -> P 6 -> P 7 -> P 8 -> P 9 -> P n.
Proof.
  intros Hn. intros. assert (n = 0 \/ n = 1 \/ n = 2 \/ n = 3 \/ n = 4 \/ n = 5 \/ n = 6 \/ n = 7 \/ n = 8 \/ n = 9) by lia. naive_solver.
Qed.

Lemma digit_value_digit n : 0 <= n <= 9 -> digit_value (digit n) = Some n.
Proof. intros Hn. by apply (digit_cases (fun n => digit_value (digit n) = Some n)). Qed.

Lemma pretty_char_digit n : 0 <= n <= 9 -> pretty_N_char (Z.to_N n) = digit n.
Proof. intros Hn. by apply (digit_cases (fun n => pretty_N_char (Z.to_N n) = digit n)). Qed.

Lemma app_char c s1 s2 : (String c s1 ++ s2)%string = String c (s1 ++ s2).
Proof. reflexivity. Qed.

Lemma app_empty s : (EmptyString ++ s)%string = s.
Proof. reflexivity. Qed.

Lemma get_two min max n s : 0 <= n <= 99 -> min <= n <= max -> get_num 2 min max (two_digits n ++ s) = Some (n, s).
Proof.
  intros Hn Hr. unfold get_num, two_digits. rewrite !app_char, app_empty. cbn [digits]. assert (0 <= n / 10 <= 9 /\ 0 <= n mod 10 <= 9) as [H1 H2].
  { Z.to_euclidean_division_equations; lia. }
  rewrite !digit_value_digit by done. cbn. replace (10 * (10 * 0 + n / 10) + n mod 10) with n by (Z.to_euclidean_division_equations; lia).
  by rewrite (proj2 (Z.leb_le _ _)), (proj2 (Z.leb_le _ _)) by lia.
Qed.

Lemma pretty_step y s : 0 < y -> pretty_N_go (Z.to_N y) s = pretty_N_go (Z.to_N (y / 10)) (String (digit (y mod 10)) s).
Proof.
  intros Hy. rewrite pretty_N_go_step by lia. rewrite (Z2N.inj_div y 10) by lia. do 2 f_equal.
  rewrite <- pretty_char_digit by (pose proof (Z.mod_pos_bound y 10); lia). by rewrite Z2N.inj_mod by lia.
Qed.

(** A year of four digits. *)
Lemma pretty_year y : 1000 <= y <= 9999 ->
  pretty y = String (digit (y / 1000)) (String (digit (y / 100 mod 10)) (String (digit (y / 10 mod 10)) (String (digit (y mod 10)) EmptyString))).
Proof.
  intros Hy. assert (E : pretty y = pretty_N_go (Z.to_N y) EmptyString).
  { unfold pretty, pretty_Z. destruct y as [|p|p]; [lia|reflexivity|lia]. }
  assert (H1 : y / 10 / 10 = y / 100) by (rewrite Z.div_div by lia; done). assert (H2 : y / 100 / 10 = y / 1000) by (rewrite Z.div_div by lia; done).
  assert (H3 : y / 1000 / 10 = 0 /\ 1 <= y / 10 /\ 1 <= y / 100 /\ 1 <= y / 1000 <= 9) by (Z.to_euclidean_division_equations; lia).
  destruct H3 as (H3 & ? & ? & ?). rewrite E, pretty_step by lia. rewrite pretty_step by lia. rewrite H1, pretty_step by lia.
  rewrite H2, pretty_step by lia. rewrite H3. cbn [Z.to_N]. rewrite pretty_N_go_0. by rewrite (Z.mod_small (y / 1000)) by lia.
Qed.

Lemma get_year y s : 1000 <= y <= 9999 -> get_num 4 0 9999 (skip_spaces (pretty y ++ s)) = Some (y, s).
Proof.
  intros Hy. rewrite pretty_year by done.
  assert (H3 : 0 <= y / 1000 <= 9 /\ 0 <= y / 100 mod 10 <= 9 /\ 0 <= y / 10 mod 10 <= 9 /\ 0 <= y mod 10 <= 9) by (Z.to_euclidean_division_equations; lia).
  destruct H3 as (Ha & Hb & Hc & Hd). rewrite !app_char, app_empty. cbn [skip_spaces].
  rewrite (digit_cases (fun n => is_space (digit n) = false) (y / 1000)) by done.
  unfold get_num. cbn [digits]. rewrite !digit_value_digit by done. cbn.
  replace (10 * (10 * (10 * (10 * 0 + y / 1000) + y / 100 mod 10) + y / 10 mod 10) + y mod 10) with y by (Z.to_euclidean_division_equations; lia).
  by rewrite (proj2 (Z.leb_le _ _)), (proj2 (Z.leb_le _ _)) by lia.
Qed.

Lemma get_char_same c s : get_char c (String c s) = Some s.
Proof. unfold get_char. by rewrite Ascii.eqb_refl. Qed.

Section RoundTrip.
Context `{LocalZone}.

Lemma date_text_read t before : MIN_TIME <= t <= MAX_TIME -> assign (str t) before = (true, t).
Proof.
  intros Ht. destruct (gmtime_fields t Ht) as (y & m & d & hh & mm & ss & Hg & Hy & Hm & Hd & Hh & Hmm & Hs & Hback).
  unfold assign, str. rewrite Hg. cbn [default]. unfold put_time. cbn [tm_year tm_mon tm_mday tm_hour tm_min tm_sec id].
  replace (y - 1900 + 1900) with y by lia. replace (m - 1 + 1) with m by lia. unfold get_date_time_z, get_date_time.
  rewrite get_year by done. cbn [mbind option_bind].
  do 5 (rewrite app_char, app_empty, get_char_same; cbn [mbind option_bind]; rewrite get_two by lia; cbn [mbind option_bind]).
  rewrite get_char_same. cbn [mbind option_bind]. pose proof (mktime_standard (Tm (y - 1900) (m - 1) d hh mm ss)) as Hz.
  destruct (mktime _) as [[x off] dst]. f_equal. lia.
Qed.


End RoundTrip.

(** A zone two hours east of Greenwich whose saving is in effect from April to
    September. *)
Definition demo_mktime (x : tm) : Z * Z * Z :=
  let dst := if (3 <=? tm_mon x) && (tm_mon x <=? 8) then 1 else 0 in (timegm x - 7200, 7200 + dst * 3600, dst).

Lemma demo_standard x : let '(t, gmtoff, isdst) := demo_mktime x in t = timegm x - (gmtoff - isdst * 3600).
Proof. unfold demo_mktime. destruct (_ && _); lia. Qed.

#[local] Instance demo_zone : LocalZone := {| mktime := demo_mktime; mktime_standard := demo_standard |}.

