(* ===== verification/OcppAuthCache.v ===== *)
(** * The authorization cache ([src/ocpp/action/authorize/AuthentCache.cpp])

    The answers of the central system about identifiers, kept in a table whose
    trigger removes the oldest row beyond three hundred. *)

From S2P Require Import Prelude Utils Lru Sqlite OcppEnums OcppDatabase.

(** ** Data ([AuthorizeDef.h]) *)

Record AuthorizationRecord := AuthRecord {
  idTag : string;
  parentIdTag : string;
  expiryDate : Z;
  status : AuthorizationStatus
}.

(** ** Statements *)

Definition CREATE_CACHE : string :=
  "CREATE TABLE IF NOT EXISTS AuthentCache (  tag VARCHAR(20) PRIMARY KEY,  parent VARCHAR(20),  expiry INTEGER,  status INTEGER NOT NULL);".
Definition CREATE_TRIGGER : string :=
  "CREATE TRIGGER IF NOT EXISTS delete_oldest_AuthentCache AFTER INSERT ON AuthentCache WHEN (SELECT COUNT(*) FROM AuthentCache) > 300 BEGIN DELETE FROM AuthentCache WHERE rowid = (SELECT MIN(rowid) FROM AuthentCache); END;".
Definition CACHE_FIND : string := "SELECT tag, parent, expiry, status FROM AuthentCache WHERE tag=?;".
Definition CACHE_DELETE : string := "DELETE FROM AuthentCache WHERE tag=?;".
Definition CACHE_INSERT : string := "INSERT INTO AuthentCache(tag, parent, expiry, status) VALUES (?, ?, ?, ?);".
Definition CACHE_UPDATE : string := "UPDATE AuthentCache SET parent=?, expiry=?, status=? WHERE tag=?;".
Definition CACHE_CLEAR : string := "DELETE FROM AuthentCache WHERE TRUE;".

Definition cacheMaxEntriesCount : Z := 300.

(** What they do to the tables. *)
Section Effects.
Context {DB : Type} `{SqlEngine DB}.

Definition tag_is (b : Z -> cell) (n : Z) (r : row) : bool := matches 0 (as_text_column (b n)) r.

Definition create_cache_effect : effect := fun t b => Some ([], t).
Definition create_trigger_effect : effect := fun t b => Some ([], set_cache_max t cacheMaxEntriesCount).
Definition cache_find_effect : effect := fun t b => Some (List.filter (tag_is b 1) (cache_rows t), t).
Definition cache_delete_effect : effect := fun t b => Some ([], set_cache t (List.filter (fun r => negb (tag_is b 1 r)) (cache_rows t))).

(** The trigger runs after the insertion. *)
Definition after_insert (t : Tables) : Tables :=
  match cache_max t with
  | Some n => if n <? Z.of_nat (length (cache_rows t)) then set_cache t (tail (cache_rows t)) else t
  | None => t
  end.

Definition cache_insert_effect : effect := fun t b =>
  let new := [as_text_column (b 1); as_text_column (b 2); int_column (b 3); int_column (b 4)] in
  if existsb (tag_is b 1) (cache_rows t) || bool_decide (col new 3 = None) then None
  else Some ([], after_insert (set_cache t (cache_rows t ++ [new]))).

Definition cache_update_effect : effect := fun t b =>
  let updated r := if tag_is b 4 r then [col r 0; as_text_column (b 1); int_column (b 2); int_column (b 3)] else r in
  if existsb (tag_is b 4) (cache_rows t) && bool_decide (int_column (b 3) = None) then None
  else Some ([], set_cache t (updated <$> cache_rows t)).

Definition cache_clear_effect : effect := fun t b => Some ([], set_cache t []).

End Effects.

Class AuthCacheSql (DB : Type) `{SqlTables DB} := {
  means_create : meaning CREATE_CACHE = Some create_cache_effect;
  means_trigger : meaning CREATE_TRIGGER = Some create_trigger_effect;
  means_find : meaning CACHE_FIND = Some cache_find_effect;
  means_delete : meaning CACHE_DELETE = Some cache_delete_effect;
  means_insert : meaning CACHE_INSERT = Some cache_insert_effect;
  means_update : meaning CACHE_UPDATE = Some cache_update_effect;
  means_clear : meaning CACHE_CLEAR = Some cache_clear_effect
}.

(** ** Operations *)

Record AuthentCache := Cache {
  m_find_query : option Query;
  m_delete_query : option Query;
  m_insert_query : option Query;
  m_update_query : option Query
}.

Section Operations.
Context {DB : Type} `{SqlEngine DB}.

(** A statement made, run once and dropped. *)
Definition run_once (sql : string) (d : Database) (db : DB) : bool * DB :=
  match query sql d db with
  | None => (false, db)
  | Some q => let '(ok, _, db) := exec q db in (ok, db)
  end.

Definition initDatabaseTable (d : Database) (db : DB) : bool * AuthentCache * DB :=
  let none := Cache None None None None in
  let '(ok, db) := run_once CREATE_CACHE d db in
  if negb ok then (false, none, db)
  else
    let '(ok, db) := run_once CREATE_TRIGGER d db in
    if negb ok then (false, none, db)
    else
      let c := Cache (query CACHE_FIND d db) (query CACHE_DELETE d db) (query CACHE_INSERT d db) (query CACHE_UPDATE d db) in
      match c with
      | Cache (Some _) (Some _) (Some _) (Some _) => (true, c, db)
      | _ => (false, c, db)
      end.

(** A concurrent transaction is an accepted identifier. *)
Definition cached_status (s : AuthorizationStatus) : AuthorizationStatus :=
  match s with AuthorizationStatus_ConcurrentTx => AuthorizationStatus_Accepted | _ => s end.

Definition updateAuthCache (r : AuthorizationRecord) (c : AuthentCache) (db : DB) : bool * AuthentCache * DB :=
  match c with
  | Cache (Some f) d (Some i) (Some u) =>
    let f := reset f in
    let i := reset i in
    let u := reset u in
    let f := (bind 1 (VText (idTag r)) f).2 in
    let '(ok, f, db) := exec f db in
    if negb ok then (false, Cache (Some f) d (Some i) (Some u), db)
    else
      let status := VInt (to_int (cached_status (status r))) in
      if m_has_rows f then
        let u := bind_all [(1, VText (parentIdTag r)); (2, VInt (int64 (expiryDate r))); (3, status); (4, VText (idTag r))] u in
        let '(ok, u, db) := exec u db in
        (ok, Cache (Some f) d (Some i) (Some u), db)
      else
        let i := bind_all [(1, VText (idTag r)); (2, VText (parentIdTag r)); (3, VInt (int64 (expiryDate r))); (4, status)] i in
        let '(ok, i, db) := exec i db in
        (ok, Cache (Some f) d (Some i) (Some u), db)
  | _ => (false, c, db)
  end.

(** [now]: the time, in seconds. *)
Definition checkAuthCache (tag : string) (now : Z) (c : AuthentCache) (db : DB) : bool * AuthentCache * DB :=
  match c with
  | Cache (Some f) (Some d) i u =>
    let f := reset f in
    let d := reset d in
    let f := (bind 1 (VText tag) f).2 in
    let '(ok, f, db) := exec f db in
    if negb ok then (false, Cache (Some f) (Some d) i u, db)
    else if m_has_rows f then
      let expiry := getInt64 f 2 in
      let status := getInt64 f 3 in
      if (now <? expiry) && (status =? to_int AuthorizationStatus_Accepted) then (true, Cache (Some (reset f)) (Some d) i u, db)
      else
        let d := (bind 1 (VText tag) d).2 in
        let '(_, d, db) := exec d db in
        (false, Cache (Some (reset f)) (Some d) i u, db)
    else (false, Cache (Some (reset f)) (Some d) i u, db)
  | _ => (false, c, db)
  end.

Definition clearAuthCache (d : Database) (db : DB) : DB := (run_once CACHE_CLEAR d db).2.

Inductive cache_op := Update (r : AuthorizationRecord) | CheckTag (tag : string) (now : Z) | Clear.

Definition run_op (d : Database) (op : cache_op) (s : AuthentCache * DB) : bool * (AuthentCache * DB) :=
  match op with
  | Update r => let '(ok, c, db) := updateAuthCache r s.1 s.2 in (ok, (c, db))
  | CheckTag tag now => let '(ok, c, db) := checkAuthCache tag now s.1 s.2 in (ok, (c, db))
  | Clear => (true, (s.1, clearAuthCache d s.2))
  end.

Fixpoint run_ops (d : Database) (ops : list cache_op) (s : AuthentCache * DB) : list bool * (AuthentCache * DB) :=
  match ops with
  | [] => ([], s)
  | op :: ops' => let '(ok, s) := run_op d op s in let '(oks, s) := run_ops d ops' s in (ok :: oks, s)
  end.

End Operations.

(** ** Specification

    The entries of the cache, oldest first. *)

Record entry := Entry { e_tag : string; e_parent : string; e_expiry : Z; e_status : Z }.

Definition entry_of (r : AuthorizationRecord) : entry :=
  Entry (idTag r) (parentIdTag r) (int64 (expiryDate r)) (to_int (cached_status (status r))).

Definition has_tag (tag : string) (e : entry) : bool := String.eqb (e_tag e) tag.

Definition bounded (l : list entry) : list entry := if cacheMaxEntriesCount <? Z.of_nat (length l) then tail l else l.

Definition spec_op (op : cache_op) (l : list entry) : bool * list entry :=
  match op with
  | Update r =>
    (true, if existsb (has_tag (idTag r)) l then (fun e => if has_tag (idTag r) e then entry_of r else e) <$> l
           else bounded (l ++ [entry_of r]))
  | CheckTag tag now =>
    match List.find (has_tag tag) l with
    | None => (false, l)
    | Some e => if (now <? e_expiry e) && (e_status e =? 0) then (true, l) else (false, List.filter (fun e => negb (has_tag tag e)) l)
    end
  | Clear => (true, [])
  end.

Fixpoint spec_ops (ops : list cache_op) (l : list entry) : list bool * list entry :=
  match ops with
  | [] => ([], l)
  | op :: ops' => let '(ok, l) := spec_op op l in let '(oks, l) := spec_ops ops' l in (ok :: oks, l)
  end.

(** ** Refinement *)

Definition row_of (e : entry) : row := [Some (VText (e_tag e)); Some (VText (e_parent e)); Some (VInt (e_expiry e)); Some (VInt (e_status e))].

Record entries_ok (l : list entry) : Prop := {
  entries_distinct : NoDup (e_tag <$> l);
  entries_bounded : Z.of_nat (length l) <= cacheMaxEntriesCount
}.

Definition holds_entries (t : Tables) (l : list entry) : Prop :=
  cache_rows t = row_of <$> l /\ cache_max t = Some cacheMaxEntriesCount.

Section Refinement.
Context {DB : Type} `{AuthCacheSql DB}.

Lemma tag_is_entry b n tag e : b n = Some (VText tag) -> tag_is b n (row_of e) = has_tag tag e.
Proof.
  intros Hb. unfold tag_is, matches. rewrite Hb. cbn [as_text_column]. rewrite (bool_decide_true (Some (VText tag) <> None)) by done. rewrite andb_true_r.
  unfold has_tag. cbn. case_bool_decide as Hd; destruct (String.eqb_spec (e_tag e) tag) as [He|He]; congruence.
Qed.

Lemma filter_entries b n tag l (neg : bool) : b n = Some (VText tag) ->
  List.filter (fun r => xorb neg (tag_is b n r)) (row_of <$> l) = row_of <$> List.filter (fun e => xorb neg (has_tag tag e)) l.
Proof.
  intros Hb. induction l as [|e l IH]; csimpl; [done|]. cbn [List.filter]. rewrite (tag_is_entry b n tag e Hb), IH.
  by destruct (xorb neg (has_tag tag e)).
Qed.

Lemma exists_entries b n tag l : b n = Some (VText tag) -> existsb (tag_is b n) (row_of <$> l) = existsb (has_tag tag) l.
Proof. intros Hb. induction l as [|e l IH]; csimpl; [done|]. by rewrite (tag_is_entry b n tag e Hb), IH. Qed.

Lemma find_filter tag l : head (List.filter (has_tag tag) l) = List.find (has_tag tag) l.
Proof. induction l as [|e l IH]; cbn; [done|]. by destruct (has_tag tag e). Qed.

Lemma exists_find tag l : existsb (has_tag tag) l = match List.find (has_tag tag) l with Some _ => true | None => false end.
Proof. induction l as [|e l IH]; cbn; [done|]. by destruct (has_tag tag e). Qed.

(** *** The entries *)

Lemma bounded_row_of t l : cache_rows t = row_of <$> l -> cache_max t = Some cacheMaxEntriesCount ->
  holds_entries (after_insert t) (bounded l).
Proof.
  intros Hr Hm. unfold after_insert, bounded. rewrite Hm, Hr, length_fmap. destruct (_ <? _); [|done].
  split; [|done]. cbn. by destruct l.
Qed.

Lemma entries_replace tag e l : entries_ok l -> e_tag e = tag -> entries_ok ((fun x => if has_tag tag x then e else x) <$> l).
Proof.
  intros [Hd Hb] He. split; [|by rewrite length_fmap]. rewrite <- list_fmap_compose.
  rewrite (list_fmap_ext _ e_tag l); [done|]. intros _ x _. cbn. unfold has_tag. by destruct (String.eqb_spec (e_tag x) tag) as [<-|].
Qed.

Lemma entries_add e l : entries_ok l -> existsb (has_tag (e_tag e)) l = false -> entries_ok (bounded (l ++ [e])).
Proof.
  intros [Hd Hb] Hn. assert (Hd' : NoDup (e_tag <$> l ++ [e])).
  { rewrite fmap_app. apply NoDup_app. split; [done|]. split; [|apply NoDup_singleton]. intros x Hx Hx'. apply list_elem_of_singleton in Hx' as ->.
    apply list_elem_of_fmap in Hx as (y & Hy & Hin). assert (Ht : existsb (has_tag (e_tag e)) l = true); [|congruence].
    apply existsb_exists. exists y. split; [by apply list_elem_of_In|]. unfold has_tag. by apply String.eqb_eq. }
  unfold bounded. destruct (Z.ltb_spec cacheMaxEntriesCount (Z.of_nat (length (l ++ [e])))) as [Hl|Hl]; [|by split].
  destruct l as [|x l]; [by cbn in Hl|]. cbn [app tail] in *. csimpl in Hd'. apply NoDup_cons in Hd' as [_ Hd']. split; [done|].
  rewrite length_app in *. cbn [length] in *. lia.
Qed.

Lemma entries_filter f l : entries_ok l -> entries_ok (List.filter f l).
Proof.
  intros [Hd Hb]. split.
  - clear Hb. induction l as [|e l IH]; cbn; [constructor|]. csimpl in Hd. apply NoDup_cons in Hd as [Hn Hd]. destruct (f e); [|by apply IH].
    csimpl. apply NoDup_cons. split; [|by apply IH]. intros (y & Hy & Hin)%list_elem_of_fmap. apply Hn. rewrite Hy. apply list_elem_of_fmap_2.
    apply list_elem_of_In. apply list_elem_of_In, filter_In in Hin as [Hin _]. done.
  - pose proof (filter_length_le f l). lia.
Qed.

Lemma cache_op_ok op l : entries_ok l -> entries_ok (spec_op op l).2.
Proof.
  intros Hl. destruct op as [r|tag now|]; cbn [spec_op].
  - destruct (existsb (has_tag (idTag r)) l) eqn:He; cbn [snd]; [by apply entries_replace|by apply entries_add].
  - destruct (List.find (has_tag tag) l) as [e|]; [|done]. destruct (_ && _); [done|]. by apply entries_filter.
  - split; [constructor|]. by vm_compute.
Qed.

(** *** The operations *)

(** The four statements are there. *)
Definition ready (c : AuthentCache) : Prop :=
  exists f d i u, c = Cache (Some f) (Some d) (Some i) (Some u) /\
    q_sql f = CACHE_FIND /\ q_sql d = CACHE_DELETE /\ q_sql i = CACHE_INSERT /\ q_sql u = CACHE_UPDATE.

Definition state_ok (db : DB) (l : list entry) : Prop := healthy db /\ holds_entries (tables db) l.

(** Looking a tag up. *)
Lemma find_use f tag db l : q_sql f = CACHE_FIND -> state_ok db l -> exists f' db', use f [(1, VText tag)] db = (true, f', db') /\
  q_sql f' = CACHE_FIND /\ state_ok db' l /\
  match List.find (has_tag tag) l with
  | None => m_has_rows f' = false
  | Some e => m_has_rows f' = true /\ q_row f' = row_of e
  end.
Proof.
  intros Hf [Hh [Hr Hm]]. destruct (use_effect f [(1, VText tag)] db cache_find_effect) as (f' & db' & Hs & Hh' & Hu); [rewrite Hf; apply means_find|].
  cbn [cache_find_effect] in Hu. rewrite Hr in Hu. assert (He : List.filter (tag_is (fun n => bindings [(1, VText tag)] !! n) 1) (row_of <$> l) = row_of <$> List.filter (has_tag tag) l)
    by exact (filter_entries (fun n => bindings [(1, VText tag)] !! n) 1 tag l false eq_refl).
  rewrite He in Hu. destruct Hu as [(Hu & Ht & Hrow & Hrows)|(_ & _ & Hno)]; [|done].
  exists f', db'. split; [done|]. split; [congruence|]. split; [split; [by apply Hh'|by rewrite Ht]|].
  rewrite <- find_filter. destruct (List.filter (has_tag tag) l) as [|e rest]; csimpl in *; [done|]. by split.
Qed.

Lemma change_use q bs db e t' l l' sql : q_sql q = sql -> meaning sql = Some e -> state_ok db l ->
  e (tables db) (fun n => bindings bs !! n) = Some ([], t') -> holds_entries t' l' ->
  exists q' db', use q bs db = (true, q', db') /\ q_sql q' = sql /\ state_ok db' l'.
Proof.
  intros Hq He [Hh Hl] Heff Hl'. destruct (use_effect q bs db e) as (q' & db' & Hs & Hh' & Hu); [by rewrite Hq|]. rewrite Heff in Hu.
  destruct Hu as [(Hu & Ht & _)|(_ & _ & Hno)]; [|done]. exists q', db'. split; [done|]. split; [congruence|]. split; [by apply Hh'|by rewrite Ht].
Qed.

Lemma update_op r c db l : ready c -> state_ok db l -> entries_ok l ->
  exists c' db', updateAuthCache r c db = (true, c', db') /\ ready c' /\ state_ok db' (spec_op (Update r) l).2.
Proof.
  intros (f & d & i & u & -> & Hf & Hd & Hi & Hu) Hs Hl. cbn [updateAuthCache].
  destruct (find_use f (idTag r) db l Hf Hs) as (f' & db1 & Hfu & Hf' & Hs1 & Hrow).
  change (exec (bind 1 (VText (idTag r)) (reset f)).2 db) with (use f [(1, VText (idTag r))] db). rewrite Hfu. cbn [negb spec_op snd].
  rewrite exists_find. pose proof (proj1 (proj2 Hs1)) as Hr1. pose proof (proj2 (proj2 Hs1)) as Hm1.
  set (st := VInt (to_int (cached_status (status r)))).
  assert (Hst : int_column (Some st) = Some st) by apply int_column_int. destruct (List.find (has_tag (idTag r)) l) as [e|] eqn:Hfind.
  - destruct Hrow as [-> _]. set (bs := [(1, VText (parentIdTag r)); (2, VInt (int64 (expiryDate r))); (3, st); (4, VText (idTag r))]).
    change (exec (bind_all bs (reset u)) db1) with (use u bs db1).
    destruct (change_use u bs db1 cache_update_effect
      (set_cache (tables db1) (row_of <$> ((fun e => if has_tag (idTag r) e then entry_of r else e) <$> l))) l
      ((fun e => if has_tag (idTag r) e then entry_of r else e) <$> l) CACHE_UPDATE Hu means_update Hs1) as (u' & db2 & Huu & Hu' & Hs2).
    + unfold cache_update_effect. rewrite Hr1. change (bindings bs !! 3) with (Some st). rewrite Hst.
      rewrite bool_decide_false by done. rewrite andb_false_r. f_equal. f_equal. f_equal. rewrite <- !list_fmap_compose. apply list_fmap_ext.
      intros _ x _. unfold compose. rewrite (tag_is_entry _ 4 (idTag r)) by reflexivity. destruct (has_tag (idTag r) x) eqn:Hx; [|done].
      change (bindings bs !! 1) with (Some (VText (parentIdTag r))). change (bindings bs !! 2) with (Some (VInt (int64 (expiryDate r)))).
      rewrite int_column_int. unfold has_tag in Hx. apply String.eqb_eq in Hx. unfold row_of, entry_of. cbn. by rewrite Hx.
    + split; [done|exact Hm1].
    + rewrite Huu. eexists _, db2. split; [reflexivity|]. split; [by exists f', d, (reset i), u'|exact Hs2].
  - rewrite Hrow. set (bs := [(1, VText (idTag r)); (2, VText (parentIdTag r)); (3, VInt (int64 (expiryDate r))); (4, st)]).
    change (exec (bind_all bs (reset i)) db1) with (use i bs db1).
    destruct (change_use i bs db1 cache_insert_effect (after_insert (set_cache (tables db1) (row_of <$> (l ++ [entry_of r])))) l
      (bounded (l ++ [entry_of r])) CACHE_INSERT Hi means_insert Hs1) as (i' & db2 & Hii & Hi' & Hs2).
    + unfold cache_insert_effect. rewrite Hr1, (exists_entries _ 1 (idTag r)), exists_find, Hfind by reflexivity.
      change (bindings bs !! 1) with (Some (VText (idTag r))). change (bindings bs !! 2) with (Some (VText (parentIdTag r))).
      change (bindings bs !! 3) with (Some (VInt (int64 (expiryDate r)))). change (bindings bs !! 4) with (Some st). rewrite Hst, int_column_int.
      cbn [as_text_column orb]. unfold col. cbn. by rewrite fmap_app.
    + by apply bounded_row_of.
    + rewrite Hii. eexists _, db2. split; [reflexivity|]. split; [by exists f', d, i', (reset u)|exact Hs2].
Qed.

Lemma check_op tag now c db l : ready c -> state_ok db l -> entries_ok l ->
  exists c' db', checkAuthCache tag now c db = ((spec_op (CheckTag tag now) l).1, c', db') /\ ready c' /\ state_ok db' (spec_op (CheckTag tag now) l).2.
Proof.
  intros (f & d & i & u & -> & Hf & Hd & Hi & Hu) Hs Hl. cbn [checkAuthCache].
  destruct (find_use f tag db l Hf Hs) as (f' & db1 & Hfu & Hf' & Hs1 & Hrow).
  change (exec (bind 1 (VText tag) (reset f)).2 db) with (use f [(1, VText tag)] db). rewrite Hfu. cbn [negb spec_op].
  destruct (List.find (has_tag tag) l) as [e|] eqn:Hfind.
  - destruct Hrow as [-> Hrow]. unfold getInt64, column. rewrite Hrow. unfold row_of at 1 2. cbn [lookup list_lookup default cell_int64 to_int AuthorizationStatus_enum].
    cbn [id cell_int64].
    destruct ((now <? e_expiry e) && (e_status e =? 0)) eqn:Hok.
    + eexists _, db1. split; [reflexivity|]. split; [|done]. by exists (reset f'), (reset d), i, u.
    + change (exec (bind 1 (VText tag) (reset d)).2 db1) with (use d [(1, VText tag)] db1).
      destruct (change_use d [(1, VText tag)] db1 cache_delete_effect
        (set_cache (tables db1) (row_of <$> List.filter (fun e => negb (has_tag tag e)) l)) l (List.filter (fun e => negb (has_tag tag e)) l)
        CACHE_DELETE Hd means_delete Hs1) as (d' & db2 & Hdd & Hd' & Hs2).
      * unfold cache_delete_effect. rewrite (proj1 (proj2 Hs1)).
        exact (f_equal (fun rs => Some ([], set_cache (tables db1) rs)) (filter_entries (fun n => bindings [(1, VText tag)] !! n) 1 tag l true eq_refl)).
      * split; [done|]. exact (proj2 (proj2 Hs1)).
      * rewrite Hdd. eexists _, db2. split; [reflexivity|]. split; [by exists (reset f'), d', i, u|exact Hs2].
  - rewrite Hrow. eexists _, db1. split; [reflexivity|]. split; [|done]. by exists (reset f'), (reset d), i, u.
Qed.

Lemma run_once_spec sql d db e t' : m_db d = true -> prepares db sql = true -> meaning sql = Some e -> healthy db ->
  e (tables db) (fun n => (∅ : gmap Z sql_value) !! n) = Some ([], t') ->
  exists db', run_once sql d db = (true, db') /\ tables db' = t' /\ healthy db'.
Proof.
  intros Hd Hp He Hh Heff. unfold run_once. rewrite (query_some sql d db Hd Hp).
  destruct (use_effect (MakeQuery sql ∅ false [] false None) [] db e He) as (q' & db' & _ & Hh' & Hu).
  assert (Heff' : e (tables db) (fun n => bindings [] !! n) = Some ([], t')) by exact Heff. rewrite Heff' in Hu.
  destruct Hu as [(Hu & Ht & _)|(_ & _ & Hno)]; [|done]. change (exec (MakeQuery sql ∅ false [] false None) db = (true, q', db')) in Hu. rewrite Hu. exists db'. split; [done|]. split; [done|]. by apply Hh'.
Qed.

Lemma clear_op d db l : m_db d = true -> prepares db CACHE_CLEAR = true -> state_ok db l -> state_ok (clearAuthCache d db) [].
Proof.
  intros Hd Hp [Hh [Hr Hm]]. unfold clearAuthCache.
  destruct (run_once_spec CACHE_CLEAR d db cache_clear_effect (set_cache (tables db) []) Hd Hp means_clear Hh eq_refl) as (db' & -> & Ht & Hh').
  split; [done|]. cbn [snd]. by rewrite Ht.
Qed.

Lemma cache_ops_refine d ops : m_db d = true -> (forall db, prepares db CACHE_CLEAR = true) -> forall c db l, ready c -> state_ok db l -> entries_ok l ->
  exists c' db', run_ops d ops (c, db) = ((spec_ops ops l).1, (c', db')) /\ ready c' /\ state_ok db' (spec_ops ops l).2 /\ entries_ok (spec_ops ops l).2.
Proof.
  intros Hd Hp. induction ops as [|op ops IH]; intros c db l Hc Hs Hl; cbn [run_ops spec_ops]; [by exists c, db|].
  pose proof (cache_op_ok op l Hl) as Hl'.
  assert (Hop : exists c1 db1, run_op d op (c, db) = ((spec_op op l).1, (c1, db1)) /\ ready c1 /\ state_ok db1 (spec_op op l).2).
  { destruct op as [r|tag now|]; cbn [run_op fst snd].
    - destruct (update_op r c db l Hc Hs Hl) as (c1 & db1 & -> & Hc1 & Hs1). by exists c1, db1.
    - destruct (check_op tag now c db l Hc Hs Hl) as (c1 & db1 & -> & Hc1 & Hs1). by exists c1, db1.
    - exists c, (clearAuthCache d db). split; [done|]. split; [done|]. by apply (clear_op d db l). }
  destruct Hop as (c1 & db1 & -> & Hc1 & Hs1). destruct (spec_op op l) as [ok l1]. cbn [fst snd] in *.
  destruct (IH c1 db1 l1 Hc1 Hs1 Hl') as (c2 & db2 & -> & Hc2 & Hs2 & Hl2). destruct (spec_ops ops l1) as [oks l2]. by exists c2, db2.
Qed.

Lemma init_ready d db l : m_db d = true -> (forall db' sql, prepares db' sql = true) -> healthy db -> cache_rows (tables db) = row_of <$> l ->
  cache_max (tables db) = None \/ cache_max (tables db) = Some cacheMaxEntriesCount ->
  exists c db0, initDatabaseTable d db = (true, c, db0) /\ ready c /\ state_ok db0 l.
Proof.
  intros Hd Hp Hh Hr Hm. unfold initDatabaseTable.
  destruct (run_once_spec CREATE_CACHE d db create_cache_effect (tables db) Hd (Hp db _) means_create Hh eq_refl) as (db1 & -> & Ht1 & Hh1). cbn [negb].
  destruct (run_once_spec CREATE_TRIGGER d db1 create_trigger_effect (set_cache_max (tables db1) cacheMaxEntriesCount) Hd (Hp db1 _) means_trigger Hh1 eq_refl)
    as (db2 & -> & Ht2 & Hh2). cbn [negb]. rewrite !query_some by done.
  eexists _, db2. split; [reflexivity|]. split; [by eexists _, _, _, _|]. split; [done|]. rewrite Ht2, Ht1. split; [done|]. cbn. by destruct Hm as [-> | ->].
Qed.


End Refinement.

(** ** A database with the statements *)

Definition cache_meaning {DB} `{SqlEngine DB} (sql : string) : option effect :=
  if String.eqb sql CREATE_CACHE then Some create_cache_effect
  else if String.eqb sql CREATE_TRIGGER then Some create_trigger_effect
  else if String.eqb sql CACHE_FIND then Some cache_find_effect
  else if String.eqb sql CACHE_DELETE then Some cache_delete_effect
  else if String.eqb sql CACHE_INSERT then Some cache_insert_effect
  else if String.eqb sql CACHE_UPDATE then Some cache_update_effect
  else if String.eqb sql CACHE_CLEAR then Some cache_clear_effect
  else None.

Definition cache_demo : string -> option effect := cache_meaning (H := demo_engine (fun _ => None)).

#[local] Instance demo_cache_engine : SqlEngine Tables := demo_engine cache_demo.
#[local] Instance demo_cache_tables : SqlTables Tables := demo_tables cache_demo.
#[local] Instance demo_cache_sql : AuthCacheSql Tables.
Proof. split; reflexivity. Defined.

Definition demo_record : AuthorizationRecord := AuthRecord "card" "" 1000 AuthorizationStatus_ConcurrentTx.

Definition demo_ops : list cache_op := [Update demo_record; CheckTag "card" 999; CheckTag "card" 1000; CheckTag "card" 999].

