(* ===== verification/OcppLocalList.v ===== *)
(** * The local authorization list ([src/ocpp/action/authorize/AuthentLocalList.cpp])

    The list of identifiers the central system sends: the handlers of its two
    calls, the updates of the table, and the decision about an identifier.  The
    handlers read and write the configuration of [OcppSettings.v]. *)

From stdpp Require Import pretty.
From S2P Require Import Prelude Utils Lru Sqlite Json OcppEnums OcppConfig OcppSettings OcppDatabase OcppTime OcppAuthCache.

(** ** Statements *)

Definition CREATE_LIST : string :=
  "CREATE TABLE IF NOT EXISTS AuthentLocalList (  [id] INTEGER PRIMARY KEY AUTOINCREMENT,  [tag] VARCHAR(20) UNIQUE,  [parent] VARCHAR(20),  [expiry] INTEGER,  [status] INTEGER);".
Definition LIST_FIND : string := "SELECT * FROM AuthentLocalList WHERE tag=?;".
Definition LIST_DELETE : string := "DELETE FROM AuthentLocalList WHERE tag=?;".
Definition LIST_INSERT : string := "INSERT INTO AuthentLocalList VALUES (NULL, ?, ?, ?, ?);".
Definition LIST_UPDATE : string := "UPDATE AuthentLocalList SET [parent]=?, [expiry]=?, [status]=? WHERE tag=?;".
Definition LIST_CLEAR : string := "DELETE FROM AuthentLocalList;".

Section Effects.
Context {DB : Type} `{SqlEngine DB}.

(** The tag is the second column. *)
Definition list_tag_is (b : Z -> cell) (n : Z) (r : row) : bool := matches 1 (as_text_column (b n)) r.

Definition create_list_effect : effect := fun t b => Some ([], t).
Definition list_find_effect : effect := fun t b => Some (List.filter (list_tag_is b 1) (local_rows t), t).
Definition list_insert_effect : effect := fun t b =>
  let new := [Some (VInt (local_next t)); as_text_column (b 1); as_text_column (b 2); int_column (b 3); int_column (b 4)] in
  if existsb (list_tag_is b 1) (local_rows t) then None
  else Some ([], set_local t (local_rows t ++ [new]) (local_next t + 1)).
Definition list_update_effect : effect := fun t b =>
  let updated r := if list_tag_is b 4 r then [col r 0; col r 1; as_text_column (b 1); int_column (b 2); int_column (b 3)] else r in
  Some ([], set_local t (updated <$> local_rows t) (local_next t)).
Definition list_clear_effect : effect := fun t b => Some ([], set_local t [] (local_next t)).

End Effects.

Class LocalListSql (DB : Type) `{SqlTables DB} := {
  means_list_create : meaning CREATE_LIST = Some create_list_effect;
  means_list_find : meaning LIST_FIND = Some list_find_effect;
  means_list_insert : meaning LIST_INSERT = Some list_insert_effect;
  means_list_update : meaning LIST_UPDATE = Some list_update_effect;
  means_list_clear : meaning LIST_CLEAR = Some list_clear_effect
}.

(** ** State *)

Record AuthorizeLocalList := LocalList {
  l_find_query : option Query;
  l_delete_query : option Query;
  l_insert_query : option Query;
  l_update_query : option Query;
  m_local_list_version : Z
}.

(** What the client is asked to send. *)
Inductive reply :=
  | SendCallError (uniqueId errorCode errorDescription : string)
  | SendCallResult (uniqueId action : string) (payload : value).

(** The names of the enumerations, as the program builds them. *)
Definition status_names : BidirectionalMap AuthorizationStatus := default (Maps ∅ ∅) (construct authorizationStatusMap).
Definition update_names : BidirectionalMap UpdateStatus := default (Maps ∅ ∅) (construct updateStatusMap).

Definition SEND_LOCAL_LIST : string := "SendLocalList".
Definition GET_LOCAL_LIST_VERSION : string := "GetLocalListVersion".

Definition update_reply (uniqueId : string) (s : UpdateStatus) : reply :=
  SendCallResult uniqueId SEND_LOCAL_LIST (Obj [("status"%string, Str (toString update_names s "Accepted"))]).
Definition version_reply (uniqueId : string) (listVersion : Z) : reply :=
  SendCallResult uniqueId GET_LOCAL_LIST_VERSION (Obj [("listVersion"%string, Number (NInt (int32 listVersion)))]).

(** ** Records of a message *)

Section Operations.
Context {DB : Type} `{SqlEngine DB}.
Context {LZ : LocalZone}.
(** The order of hash tables. *)
Context (order : gmap Z nat -> list (Z * nat)).

(** The fields of [idTagInfo]; a partial update passes over an entry whose info
    has no status. *)
Definition read_info (partial : bool) (tag : string) (info : value) : outcome (option AuthorizationRecord) :=
  st ← member_if IsString info "status";
  match st, partial with
  | None, true => Returns None
  | _, _ =>
    let status := match st with Some (Str s) => toEnum status_names s AuthorizationStatus_Invalid | _ => AuthorizationStatus_Invalid end in
    parent ← member_if IsString info "parentIdTag";
    expiry ← member_if IsString info "expiryDate";
    Returns (Some (AuthRecord tag (string_or EmptyString parent)
      (match expiry with Some (Str s) => uint64 (assign s 0).2 | _ => 0 end) status))
  end.

Definition read_record (partial : bool) (data : value) : outcome (option AuthorizationRecord) :=
  tag ← member_if IsString data "idTag";
  match tag with
  | Some (Str tag) =>
    info ← member_if IsObject data "idTagInfo";
    match info with
    | Some info => read_info partial tag info
    | None => Returns (Some (AuthRecord tag EmptyString 0 AuthorizationStatus_Invalid))
    end
  | _ => Returns None
  end.

Fixpoint read_records (partial : bool) (datas : list value) : outcome (list AuthorizationRecord) :=
  match datas with
  | [] => Returns []
  | data :: datas' =>
    r ← read_record partial data;
    rest ← read_records partial datas';
    Returns (match r with Some r => r :: rest | None => rest end)
  end.

(** ** Updates *)

(** The bindings both statements are given, in this order. *)
Definition record_bindings (r : AuthorizationRecord) : list (Z * sql_value) :=
  [(1, VText (idTag r)); (2, VText (parentIdTag r)); (3, VInt (int64 (expiryDate r))); (4, VInt (to_int (status r)))].

Fixpoint use_for_records (q : Query) (records : list AuthorizationRecord) (db : DB) : bool * Query * DB :=
  match records with
  | [] => (true, q, db)
  | r :: records' =>
    let '(ok, q, db) := use q (record_bindings r) db in
    if negb ok then (false, q, db) else use_for_records q records' db
  end.

Definition LIST_MAX_KEY : string := "OCPP1_6.LocalAuthListMaxLength".

(** The list is emptied, then filled; without a statement to empty it with, it
    is filled all the same. *)
Definition performFullUpdate (datas : value) (d : Database) (m : manager) (l : AuthorizeLocalList) (db : DB) :
    outcome (bool * AuthorizeLocalList * DB) :=
  cfg ← getConfig LIST_MAX_KEY m;
  maxLength ← match cfg with Some v => if IsUint v then GetUint v else Returns 500 | None => Returns 500 end;
  match datas with
  | Arr items =>
    if maxLength <? Z.of_nat (length items) then
      Returns (false, LocalList (l_find_query l) (l_delete_query l) (option_map reset (l_insert_query l)) (l_update_query l) (m_local_list_version l), db)
    else
      records ← read_records false items;
      let '(ret, db) := match query LIST_CLEAR d db with
                        | None => (true, db)
                        | Some q => let '(ok, _, db) := exec q db in (ok, db)
                        end in
      let '(ret, ins, db) := match ret, l_insert_query l with
                             | true, Some q => let '(ok, q, db) := use_for_records q records db in (ok, Some q, db)
                             | _, ins => (ret, ins, db)
                             end in
      Returns (ret, LocalList (l_find_query l) (l_delete_query l) (option_map reset ins) (l_update_query l) (m_local_list_version l), db)
  | _ => Returns (false, l, db)
  end.

Definition performPartialUpdate (datas : value) (l : AuthorizeLocalList) (db : DB) : outcome (bool * AuthorizeLocalList * DB) :=
  match datas with
  | Arr items =>
    records ← read_records true items;
    match l_update_query l, records with
    | None, [] => Returns (true, l, db)
    | None, _ => Undefined
    | Some q, _ =>
      let '(ret, q, db) := use_for_records q records db in
      Returns (ret, LocalList (l_find_query l) (l_delete_query l) (l_insert_query l) (Some (reset q)) (m_local_list_version l), db)
    end
  | _ => Returns (false, l, db)
  end.

(** ** Handlers *)

Record server := Server { s_list : AuthorizeLocalList; s_db : DB; s_config : manager; s_replies : list reply }.

Definition answer (r : reply) (s : server) : server := Server (s_list s) (s_db s) (s_config s) (s_replies s ++ [r]).

(** The setting that enables the list. *)
Definition list_enabled (m : manager) : outcome bool :=
  cfg ← getConfig "OCPP1_6" m;
  match cfg with
  | None => Returns false
  | Some doc => v ← member_if IsBool doc "LocalAuthListEnabled"; match v with Some v => GetBool v | None => Returns false end
  end.

Definition getVersionCallHandler (reg : RegistrationStatus) (req : value) (s : server) : outcome server :=
  match reg with
  | RegistrationStatus_Accepted =>
    u ← element req 1;
    uniqueId ← GetString u;
    enabled ← list_enabled (s_config s);
    Returns (answer (if (enabled : bool) then version_reply uniqueId (m_local_list_version (s_list s))
                     else SendCallError uniqueId "GenericError" "Charge point is not connected") s)
  | _ => Returns s
  end.

Definition set_version (l : AuthorizeLocalList) (n : Z) : AuthorizeLocalList :=
  LocalList (l_find_query l) (l_delete_query l) (l_insert_query l) (l_update_query l) n.

Definition VERSION_KEY : string := "ChargePoint.LocalListVersion".

(** The part after the checks: the update, the version and the answer. *)
Definition apply_update (isFull : bool) (listVersion : Z) (items : value) (uniqueId : string) (d : Database) (s : server) : outcome server :=
  '(result, l, db) ← (if isFull then performFullUpdate items d (s_config s) (s_list s) (s_db s) else performPartialUpdate items (s_list s) (s_db s));
  let s := Server l db (s_config s) (s_replies s) in
  if negb result then Returns (answer (update_reply uniqueId UpdateStatus_Failed) s)
  else
    '(ok, m) ← setConfig order VERSION_KEY (Number (NInt listVersion)) (s_config s);
    let s := Server l db m (s_replies s) in
    if negb ok then Returns (answer (update_reply uniqueId UpdateStatus_Failed) s)
    else Returns (answer (update_reply uniqueId UpdateStatus_Accepted) (Server (set_version l listVersion) db m (s_replies s))).

Definition sendListCallHandler (reg : RegistrationStatus) (req : value) (d : Database) (s : server) : outcome server :=
  match reg with
  | RegistrationStatus_Accepted =>
    u ← element req 1;
    uniqueId ← GetString u;
    payload ← element req 3;
    enabled ← list_enabled (s_config s);
    if negb enabled then Returns (answer (SendCallError uniqueId "NotImplemented" "LocalAuthListEnabled is not enabled") s)
    else
      version ← member payload "listVersion";
      listVersion ← (if IsInt version then GetInt version else Returns (-1));
      if listVersion <? 0 then Returns (answer (SendCallError uniqueId "GenericError" "listVersion < 0 is invalid") s)
      else
        type ← member payload "updateType";
        let known := match type with Str t => String.eqb t "Differential" || String.eqb t "Full" | _ => true end in
        let isFull := match type with Str t => String.eqb t "Full" | _ => false end in
        if negb known then Returns (answer (SendCallError uniqueId "InvalidParams" "Invalid updateType") s)
        else if negb isFull && (listVersion <=? m_local_list_version (s_list s)) then Returns (answer (update_reply uniqueId UpdateStatus_VersionMismatch) s)
        else
          has ← HasMember payload "localAuthorizationList";
          items ← (if (has : bool) then member payload "localAuthorizationList" else Returns (Arr []));
          if negb (IsArray items) then Returns (answer (SendCallError uniqueId "FormatViolation" "localAuthorizationList must be an array") s)
          else apply_update isFull listVersion items uniqueId d s
  | _ => Returns s
  end.

(** ** The decision

    The query is reset at the end without a test. *)
Definition checkLocalAuth (tag : string) (now : Z) (l : AuthorizeLocalList) (db : DB) : outcome (bool * AuthorizeLocalList * DB) :=
  if String.eqb tag EmptyString then Returns (false, l, db)
  else match l_find_query l with
       | None => Undefined
       | Some q =>
         let '(ok, q, db) := use q [(1, VText tag)] db in
         let result := ok && m_has_rows q && negb (isNull q 3) && (now <? getInt64 q 3) && (getUInt32 q 4 =? to_int AuthorizationStatus_Accepted) in
         Returns (result, LocalList (Some (reset q)) (l_delete_query l) (l_insert_query l) (l_update_query l) (m_local_list_version l), db)
       end.

(** [initDatabaseTable]. *)
Definition initListTable (d : Database) (m : manager) (db : DB) : outcome (bool * AuthorizeLocalList * DB) :=
  let '(ok, db) := run_once CREATE_LIST d db in
  let none := LocalList None None None None 0 in
  if negb ok then Returns (false, none, db)
  else
    let l := LocalList (query LIST_FIND d db) (query LIST_DELETE d db) (query LIST_INSERT d db) (query LIST_UPDATE d db) 0 in
    match l with
    | LocalList (Some _) (Some _) (Some _) (Some _) _ =>
      cfg ← getConfig VERSION_KEY m;
      version ← match cfg with Some v => if IsUint v then GetUint v else Returns 0 | None => Returns 0 end;
      Returns (true, set_version l version, db)
    | _ => Returns (false, l, db)
    end.

End Operations.

(** ** The table and the records *)

Definition list_row (id : Z) (r : AuthorizationRecord) : row :=
  [Some (VInt id); Some (VText (idTag r)); Some (VText (parentIdTag r)); Some (VInt (int64 (expiryDate r))); Some (VInt (to_int (status r)))].

Fixpoint rows_from (next : Z) (records : list AuthorizationRecord) : list row :=
  match records with [] => [] | r :: records' => list_row next r :: rows_from (next + 1) records' end.

Definition tag_eqb (tag : string) (r : AuthorizationRecord) : bool := String.eqb (idTag r) tag.

(** The decision a list of records stands for. *)
Definition accepts (tag : string) (now : Z) (records : list AuthorizationRecord) : bool :=
  match List.find (tag_eqb tag) records with
  | Some r => (now <? int64 (expiryDate r)) && (to_int (status r) =? to_int AuthorizationStatus_Accepted)
  | None => false
  end.

Definition list_ready (l : AuthorizeLocalList) : Prop :=
  exists f d i u, l_find_query l = Some f /\ l_delete_query l = d /\ l_insert_query l = Some i /\ l_update_query l = Some u /\
    q_sql f = LIST_FIND /\ q_sql i = LIST_INSERT /\ q_sql u = LIST_UPDATE.

Section ListProperties.
Context {DB : Type} `{LocalListSql DB}.

Lemma list_tag_row b n tag id r : b n = Some (VText tag) -> list_tag_is b n (list_row id r) = tag_eqb tag r.
Proof.
  intros Hb. unfold list_tag_is, matches. rewrite Hb. cbn [as_text_column]. rewrite (bool_decide_true (Some (VText tag) <> None)) by done.
  rewrite andb_true_r. unfold tag_eqb. cbn. case_bool_decide as Hd; destruct (String.eqb_spec (idTag r) tag) as [He|He]; congruence.
Qed.

Lemma list_tag_none b n tag records : b n = Some (VText tag) -> tag ∉ idTag <$> records -> forall next,
  existsb (list_tag_is b n) (rows_from next records) = false.
Proof.
  intros Hb. induction records as [|r records IH]; intros Hn next; cbn [rows_from existsb]; [done|]. csimpl in Hn.
  apply not_elem_of_cons in Hn as [Hne Hn]. rewrite (list_tag_row b n tag) by done. unfold tag_eqb.
  destruct (String.eqb_spec (idTag r) tag); [congruence|]. by apply IH.
Qed.

Lemma rows_from_app l1 l2 : forall next, rows_from next (l1 ++ l2) = rows_from next l1 ++ rows_from (next + Z.of_nat (length l1)) l2.
Proof.
  induction l1 as [|r l1 IH]; intros next; cbn [rows_from app length]; [by rewrite Z.add_0_r|]. rewrite IH. do 2 f_equal. f_equal. lia.
Qed.

Lemma list_find next tag records : forall b n, b n = Some (VText tag) ->
  match List.find (tag_eqb tag) records with
  | Some r => exists id, head (List.filter (list_tag_is b n) (rows_from next records)) = Some (list_row id r)
  | None => List.filter (list_tag_is b n) (rows_from next records) = []
  end.
Proof.
  revert next. induction records as [|r records IH]; intros next b n Hb; cbn [rows_from List.find List.filter]; [done|].
  rewrite (list_tag_row b n tag) by done. destruct (tag_eqb tag r); [by exists next|by apply IH].
Qed.

(** Inserting records whose tags are new, one after the other. *)
Lemma insert_records records : forall q db done start, q_sql q = LIST_INSERT -> healthy db ->
  local_rows (tables db) = rows_from start done -> local_next (tables db) = start + Z.of_nat (length done) -> NoDup (idTag <$> done ++ records) ->
  exists q' db', use_for_records q records db = (true, q', db') /\ q_sql q' = LIST_INSERT /\ healthy db' /\
    local_rows (tables db') = rows_from start (done ++ records).
Proof.
  induction records as [|r records IH]; intros q db before start Hq Hh Hr Hn Hd; cbn [use_for_records].
  - exists q, db. rewrite app_nil_r. done.
  - assert (Hb : bindings (record_bindings r) !! 1 = Some (VText (idTag r))) by reflexivity.
    destruct (use_effect q (record_bindings r) db list_insert_effect) as (q1 & db1 & Hs & Hh' & Hu); [rewrite Hq; apply means_list_insert|].
    unfold list_insert_effect in Hu. rewrite Hr, (list_tag_none _ 1 (idTag r) before Hb) in Hu.
    2: { rewrite fmap_app in Hd. csimpl in Hd. apply NoDup_app in Hd as (_ & Hd & _). intros Hin. apply (Hd _ Hin), elem_of_cons. by left. }
    destruct Hu as [(Hu & Ht & _)|(_ & _ & Hno)]; [|done]. rewrite Hu. cbn [negb].
    destruct (IH q1 db1 (before ++ [r]) start) as (q2 & db2 & Hu2 & Hq2 & Hh2 & Hr2).
    + congruence.
    + by apply Hh'.
    + rewrite Ht. cbn [local_rows set_local]. rewrite rows_from_app, <- Hn. cbn [rows_from]. unfold list_row.
      change (bindings (record_bindings r) !! 2) with (Some (VText (parentIdTag r))). rewrite Hb.
      change (bindings (record_bindings r) !! 3) with (Some (VInt (int64 (expiryDate r)))).
      change (bindings (record_bindings r) !! 4) with (Some (VInt (to_int (status r)))). by rewrite !int_column_int.
    + rewrite Ht. cbn [local_next set_local]. rewrite length_app. cbn. lia.
    + by rewrite <- app_assoc.
    + exists q2, db2. rewrite <- app_assoc in Hr2. done.
Qed.

(** The tag of an update is compared with the number of a status. *)
Lemma update_records records : forall q db, q_sql q = LIST_UPDATE -> healthy db ->
  (forall r (st : AuthorizationStatus), r ∈ local_rows (tables db) -> col r 1 <> Some (VText (pretty (to_int st)))) ->
  exists q' db', use_for_records q records db = (true, q', db') /\ q_sql q' = LIST_UPDATE /\ healthy db' /\
    local_rows (tables db') = local_rows (tables db).
Proof.
  induction records as [|r records IH]; intros q db Hq Hh Hno; cbn [use_for_records]; [by exists q, db|].
  destruct (use_effect q (record_bindings r) db list_update_effect) as (q1 & db1 & Hs & Hh' & Hu); [rewrite Hq; apply means_list_update|].
  cbn [list_update_effect] in Hu. destruct Hu as [(Hu & Ht & _)|(_ & _ & Hnh)]; [|done]. rewrite Hu. cbn [negb].
  assert (Hsame : local_rows (tables db1) = local_rows (tables db)).
  { rewrite Ht. cbn [local_rows set_local]. rewrite <- (list_fmap_id (local_rows (tables db))) at 2. apply list_fmap_ext. intros i x Hx.
    unfold list_tag_is, matches. change (bindings (record_bindings r) !! 4) with (Some (VInt (to_int (status r)))). cbn [as_text_column].
    rewrite bool_decide_false; [done|]. apply Hno. by apply list_elem_of_lookup_2 in Hx. }
  destruct (IH q1 db1) as (q2 & db2 & -> & Hq2 & Hh2 & Hr2); [congruence|by apply Hh'|by rewrite Hsame|].
  exists q2, db2. by rewrite Hr2, Hsame.
Qed.

Lemma check_list tag now l db records start : list_ready l -> healthy db -> local_rows (tables db) = rows_from start records -> tag <> EmptyString ->
  exists l' db', checkLocalAuth tag now l db = Returns (accepts tag now records, l', db').
Proof.
  intros (f & d & i & u & Hf & _ & _ & _ & Hsql & _) Hh Hr Ht. unfold checkLocalAuth. destruct (String.eqb_spec tag EmptyString); [done|]. rewrite Hf.
  destruct (use_effect f [(1, VText tag)] db list_find_effect) as (q' & db' & _ & _ & Hu); [rewrite Hsql; apply means_list_find|].
  cbn [list_find_effect] in Hu. rewrite Hr in Hu.
  pose proof (list_find start tag records (fun n => bindings [(1, VText tag)] !! n) 1 eq_refl) as Hfind. unfold accepts.
  destruct Hu as [(-> & _ & Hrow & Hrows)|(_ & _ & Hno)]; [|done]. eexists _, db'. f_equal. f_equal. f_equal.
  destruct (List.find (tag_eqb tag) records) as [r|].
  - destruct Hfind as [id Hid]. destruct (List.filter _ (rows_from start records)) as [|first rest]; [done|]. cbn [head] in Hid, Hrow. injection Hid as ->.
    rewrite Hrows. unfold isNull, getInt64, getUInt32, column. cbn [default] in Hrow. rewrite Hrow. cbn. f_equal. by destruct (status r).
  - rewrite Hfind in Hrows. by rewrite Hrows, andb_false_r.
Qed.

(** *** The configuration *)

Context {LZ : LocalZone} (order : gmap Z nat -> list (Z * nat)) (order_all : forall subs, order subs ≡ₚ map_to_list subs).

Lemma plain_version : plain_key VERSION_KEY.
Proof. by repeat constructor. Qed.

Lemma set_version_spec m n v0 : m_cfgMutex m = false -> walk (m_currentDoc m) (segments VERSION_KEY) = Some (Number v0) ->
  exists m', setConfig order VERSION_KEY (Number (NInt n)) m = Returns (true, m') /\
    walk (m_currentDoc m') (segments VERSION_KEY) = Some (Number (NInt n)).
Proof.
  intros Hm Hw. destruct (set_key_spec order order_all VERSION_KEY (Number (NInt n)) m (Number v0) Hm plain_version eq_refl Hw eq_refl)
    as (m' & paths & Hs & [[Hnew _] _] & _).
  exists m'. split; [done|]. by rewrite <- (app_nil_r (segments VERSION_KEY)), Hnew.
Qed.

(** The message of an update. *)
Definition list_request (uniqueId updateType : string) (listVersion : Z) (items : list value) : value :=
  Arr [Number (NInt 2); Str uniqueId; Str SEND_LOCAL_LIST;
       Obj [("listVersion"%string, Number (NInt listVersion)); ("updateType"%string, Str updateType); ("localAuthorizationList"%string, Arr items)]].

(** A server that may take an update: registered, with the list enabled, its
    statements prepared and a version to replace. *)
Definition updatable (s : server) : Prop :=
  healthy (s_db s) /\ list_ready (s_list s) /\ m_cfgMutex (s_config s) = false /\ list_enabled (s_config s) = Returns true /\
  exists v0, walk (m_currentDoc (s_config s)) (segments VERSION_KEY) = Some (Number v0).

Lemma handler_update uniqueId updateType listVersion items d s : list_enabled (s_config s) = Returns true -> 0 <= listVersion <= INT32_MAX ->
  updateType = "Full"%string \/ (updateType = "Differential"%string /\ m_local_list_version (s_list s) < listVersion) ->
  sendListCallHandler order RegistrationStatus_Accepted (list_request uniqueId updateType listVersion items) d s =
    apply_update order (String.eqb updateType "Full") listVersion (Arr items) uniqueId d s.
Proof.
  intros He Hv Ht. unfold sendListCallHandler, list_request. cbn [element lookup list_lookup mbind outcome_bind GetString]. rewrite He.
  cbn [mbind outcome_bind negb]. unfold member. cbn [find_member String.eqb Ascii.eqb Bool.eqb mbind outcome_bind].
  assert (Hi : IsInt (Number (NInt listVersion)) = true) by (cbn [IsInt]; unfold INT32_MIN in *; lia).
  rewrite Hi. unfold GetInt. rewrite Hi. cbn [mbind outcome_bind]. destruct (Z.ltb_spec listVersion 0); [lia|].
  destruct Ht as [-> |[-> Hlt]]; cbn; [done|]. destruct (Z.leb_spec listVersion (m_local_list_version (s_list s))); [lia|done].
Qed.


(** a differential update is answered with Accepted and changes no entry,
    unless an identifier is the number of a status: the values are bound to
    the parameters of another order than the statement has. *)
Theorem partial_update_misses uniqueId listVersion items records d (s : server) :
  updatable s -> m_local_list_version (s_list s) < listVersion -> 0 <= listVersion <= INT32_MAX ->
  read_records true items = Returns records ->
  (forall r (st : AuthorizationStatus), r ∈ local_rows (tables (s_db s)) -> col r 1 <> Some (VText (pretty (to_int st)))) ->
  exists s', sendListCallHandler order RegistrationStatus_Accepted (list_request uniqueId "Differential" listVersion items) d s = Returns s' /\
    s_replies s' = (s_replies s ++ [update_reply uniqueId UpdateStatus_Accepted])%list /\ m_local_list_version (s_list s') = listVersion /\
    local_rows (tables (s_db s')) = local_rows (tables (s_db s)).
Proof.
  intros (Hh & Hl & Hm & Hen & v0 & Hw) Hlt Hv Hrec Hno. rewrite handler_update by (done || by right). cbn [String.eqb Ascii.eqb Bool.eqb].
  destruct Hl as (f & dq & i & u & Hf & Hdq & Hi & Hu & Hqf & Hqi & Hqu). unfold apply_update, performPartialUpdate. rewrite Hrec. cbn [mbind outcome_bind].
  rewrite Hu. destruct (update_records records u (s_db s) Hqu Hh Hno) as (u' & db' & -> & _ & _ & Hr). cbn [mbind outcome_bind negb].
  destruct (set_version_spec (s_config s) listVersion v0 Hm Hw) as (m' & Hset & _). cbn [s_config]. rewrite Hset. cbn [mbind outcome_bind negb].
  eexists. split; [reflexivity|]. by rewrite <- Hr.
Qed.

End ListProperties.

(** ** A database with the statements *)

Definition list_meaning {DB} `{SqlEngine DB} (sql : string) : option effect :=
  if String.eqb sql CREATE_LIST then Some create_list_effect
  else if String.eqb sql LIST_FIND then Some list_find_effect
  else if String.eqb sql LIST_INSERT then Some list_insert_effect
  else if String.eqb sql LIST_UPDATE then Some list_update_effect
  else if String.eqb sql LIST_CLEAR then Some list_clear_effect
  else None.

Definition list_demo : string -> option effect := list_meaning (H := demo_engine (fun _ => None)).

#[local] Instance demo_list_engine : SqlEngine Tables := demo_engine list_demo.
#[local] Instance demo_list_tables : SqlTables Tables := demo_tables list_demo.
#[local] Instance demo_list_sql : LocalListSql Tables.
Proof. split; reflexivity. Defined.

#[local] Existing Instance demo_zone.

(** A client whose list has one entry, at version 3. *)
Definition demo_server : @server Tables :=
  Server (LocalList (Some (MakeQuery LIST_FIND ∅ false [] false None)) None (Some (MakeQuery LIST_INSERT ∅ false [] false None))
                    (Some (MakeQuery LIST_UPDATE ∅ false [] false None)) 3)
    (MakeTables [] None (rows_from 1 [AuthRecord "old" "" 2000 AuthorizationStatus_Accepted]) 2 [])
    (Manager (Obj [("OCPP1_6", Obj [("LocalAuthListEnabled", Bool true); ("LocalAuthListMaxLength", Number (NInt 2))]);
                   ("ChargePoint", Obj [("LocalListVersion", Number (NInt 3))])]%string) "" "" ∅ 1 false false [] ∅ []) [].

Definition demo_info (expiry : list (string * value)) : value := Obj (("status", Str "Accepted") :: expiry)%string.
Definition demo_items : list value :=
  [Obj [("idTag", Str "new"); ("idTagInfo", demo_info [("expiryDate", Str "2030-01-01T00:00:00Z")])];
   Obj [("idTag", Str "always"); ("idTagInfo", demo_info [])]]%string.
Definition demo_records : list AuthorizationRecord :=
  [AuthRecord "new" "" 1893456000 AuthorizationStatus_Accepted; AuthRecord "always" "" 0 AuthorizationStatus_Accepted].

Lemma demo_updatable : updatable demo_server.
Proof.
  split; [exact I|]. split; [by eexists _, _, _, _|]. split; [done|]. split; [reflexivity|]. by eexists.
Qed.


Lemma partial_update_misses_witness :
  exists s', sendListCallHandler map_to_list RegistrationStatus_Accepted (list_request "1" "Differential" 4 demo_items) (Db true) demo_server = Returns s' /\
    s_replies s' = [update_reply "1" UpdateStatus_Accepted] /\ local_rows (tables (s_db s')) = local_rows (tables (s_db demo_server)).
Proof.
  assert (Hread : read_records true demo_items = Returns demo_records) by (vm_compute; reflexivity).
  destruct (partial_update_misses map_to_list (fun _ => Permutation_refl _) "1" 4 demo_items demo_records (Db true) demo_server
    demo_updatable ltac:(cbn; lia) ltac:(unfold INT32_MAX; lia) Hread) as (s' & Hs & Hr & _ & Hrows).
  - intros r st Hin. apply list_elem_of_singleton in Hin as ->. by destruct st.
  - exists s'. split; [exact Hs|]. split; [exact Hr|exact Hrows].
Defined.
