(* ===== verification/OcppStatus.v ===== *)
(** * Status notifications ([src/ocpp/action/status])

    The message that reports the status of a connector, and what is made of
    the response. *)

From Stdlib Require Import Ascii.
From stdpp Require Import pretty.
From S2P Require Import Prelude Sqlite Json OcppEnums OcppTime.

(** ** The client *)

(** The interface the notifier is given: a call with an action and a payload is
    answered with a message, or fails. *)
Class IOCPPClient (C : Type) := { client_call : string -> value -> C -> option value * C }.

(** ** Data *)

Record StatusNotificationOther := Other { vendorId : string; vendorErrorCode : string; info : string }.

Record StatusNotification := Notifier { m_strCode : string; m_strErrMsg : string }.

Definition STATUS_NOTIFICATION : string := "StatusNotification".
Definition CALL_RESULT : Z := 3.
Definition CALL_ERROR : Z := 4.

Definition status_names : BidirectionalMap ChargePointStatus := default (Maps ∅ ∅) (construct chargePointStatusMap).
Definition error_names : BidirectionalMap ChargePointErrorCode := default (Maps ∅ ∅) (construct chargePointErrorCodeMap).

Fixpoint take_chars (n : nat) (s : string) : string :=
  match n, s with S n', String c s' => String c (take_chars n' s') | _, _ => EmptyString end.

Section StatusNotification.
Context {C : Type} `{IOCPPClient C}.
Context (parse : string -> option value).

Definition parseStatusNotificationOther (otherJsonStr : string) : outcome StatusNotificationOther :=
  let out := Other EmptyString EmptyString EmptyString in
  if String.eqb otherJsonStr EmptyString then Returns out
  else match parse otherJsonStr with
       | None => Returns out
       | Some doc =>
         if negb (IsObject doc) then Returns out
         else
           vendor ← member_if IsString doc "vendorId";
           code ← member_if IsString doc "vendorErrorCode";
           text ← member_if IsString doc "info";
           let code := string_or EmptyString code in
           let code := if (49 <? String.length code)%nat then take_chars 49 code else code in
           Returns (Other (string_or EmptyString vendor) code (string_or EmptyString text))
       end.

(** The info is not a member of the message. *)
Definition buildStatusNotificationMessage (connectorId : Z) (errorCode : ChargePointErrorCode) (status : ChargePointStatus)
    (other : StatusNotificationOther) (now : Z) : value :=
  Obj ((if String.eqb (vendorId other) EmptyString then [] else [("vendorId"%string, Str (vendorId other))]) ++
       (if String.eqb (vendorErrorCode other) EmptyString then [] else [("vendorErrorCode"%string, Str (take_chars 49 (vendorErrorCode other)))]) ++
       [("connectorId"%string, Number (NInt connectorId));
        ("errorCode"%string, Str (toString error_names errorCode "NoError"));
        ("status"%string, Str (toString status_names status "Available"));
        ("timestamp"%string, Str (str now))]).

Definition handleResponse (doc : value) : outcome (bool * StatusNotification) :=
  first ← element doc 0;
  messageType ← GetInt first;
  if messageType =? CALL_RESULT then Returns (true, Notifier EmptyString EmptyString)
  else if messageType =? CALL_ERROR then
    code ← element doc 2;
    message ← element doc 3;
    Returns (false, Notifier (string_or "UnknownError" (Some code)) (string_or "Unknown error description" (Some message)))
  else Returns (false, Notifier "InvalidMsgType" "Unexpected message type in StatusNotification response").

Definition sendCall (connectorId : Z) (errorCode : ChargePointErrorCode) (status : ChargePointStatus) (otherJson : string) (now : Z)
    (n : StatusNotification) (c : C) : outcome (bool * StatusNotification * C) :=
  other ← parseStatusNotificationOther otherJson;
  let '(rsp, c) := client_call STATUS_NOTIFICATION (buildStatusNotificationMessage connectorId errorCode status other now) c in
  match rsp with
  | None => Returns (false, n, c)
  | Some doc => '(ok, n) ← handleResponse doc; Returns (ok, n, c)
  end.

End StatusNotification.

(** ** Lemmas *)

Lemma status_named (s : ChargePointStatus) d : toEnum_or_throw status_names (toString status_names s d) = Some s.
Proof. by destruct s; vm_compute. Qed.

Lemma error_named (e : ChargePointErrorCode) d : toEnum_or_throw error_names (toString error_names e d) = Some e.
Proof. by destruct e; vm_compute. Qed.

Lemma take_chars_length n s : (String.length (take_chars n s) <= n)%nat.
Proof. revert s. induction n as [|n IH]; intros [|c s]; cbn; [lia..|]. specialize (IH s). lia. Qed.

Lemma member_if_object test l k : exists x, member_if test (Obj l) k = Returns x.
Proof.
  unfold member_if, HasMember, has_member, member. cbn [mbind outcome_bind]. destruct (find_member k l) eqn:E; cbn; rewrite ?E; by eexists.
Qed.

Section Properties.
Context {C : Type} `{IOCPPClient C} `{LocalZone}.
Context (parse : string -> option value).

Lemma parse_other_total otherJson : exists other, parseStatusNotificationOther parse otherJson = Returns other.
Proof.
  unfold parseStatusNotificationOther. destruct (String.eqb otherJson EmptyString); [by eexists|].
  destruct (parse otherJson) as [doc|]; [|by eexists]. destruct doc as [| | | | |l]; cbn [IsObject negb]; try by eexists.
  destruct (member_if_object IsString l "vendorId") as [v ->], (member_if_object IsString l "vendorErrorCode") as [c ->],
    (member_if_object IsString l "info") as [t ->]. cbn [mbind outcome_bind]. by eexists.
Qed.

(** The members of a message, whatever the optional ones. *)
Lemma message_members connectorId errorCode status other now : exists l,
  buildStatusNotificationMessage connectorId errorCode status other now = Obj l /\
  find_member "connectorId" l = Some (Number (NInt connectorId)) /\ find_member "errorCode" l = Some (Str (toString error_names errorCode "NoError")) /\
  find_member "status" l = Some (Str (toString status_names status "Available")) /\ find_member "timestamp" l = Some (Str (str now)) /\
  find_member "info" l = None /\
  forall v, find_member "vendorErrorCode" l = Some v -> v = Str (take_chars 49 (vendorErrorCode other)).
Proof.
  eexists. split; [reflexivity|]. destruct (String.eqb (vendorId other) EmptyString), (String.eqb (vendorErrorCode other) EmptyString); cbn;
    split_and!; try done; by intros v [= <-].
Qed.

(** The only responses that are taken for a success. *)
Lemma response_accepted doc n : handleResponse doc = Returns (true, n) -> exists rest, doc = Arr (Number (NInt 3) :: rest).
Proof.
  unfold handleResponse, element. destruct doc as [| | | |items|]; try done. destruct items as [|first rest]; [done|]. cbn [lookup list_lookup mbind outcome_bind].
  destruct first as [| |[i|]| | |]; try done. unfold GetInt. destruct (IsInt (Number (NInt i))); cbn [mbind outcome_bind]; [|done].
  unfold CALL_RESULT, CALL_ERROR. destruct (Z.eqb_spec i 3) as [->|]; [by exists rest|]. destruct (Z.eqb_spec i 4); [|done].
  repeat case_match; try done; by destruct rest as [|? [|? ?]].
Qed.

(** a notification is one call whose message names the connector, the
    error, the status and the time so that the central system reads them back,
    with a code of the vendor of at most 49 characters and never the info its
    caller gave; the result is that of the response, whose error is kept. *)
Theorem status_notification_sent connectorId errorCode status otherJson now n (c : C) : MIN_TIME <= now <= MAX_TIME ->
  exists l, (exists e s t, find_member "connectorId" l = Some (Number (NInt connectorId)) /\
    find_member "errorCode" l = Some (Str e) /\ toEnum_or_throw error_names e = Some errorCode /\
    find_member "status" l = Some (Str s) /\ toEnum_or_throw status_names s = Some status /\
    find_member "timestamp" l = Some (Str t) /\ assign t 0 = (true, now)) /\
  find_member "info" l = None /\
  (forall v, find_member "vendorErrorCode" l = Some v -> exists code, v = Str code /\ (String.length code <= 49)%nat) /\
  let '(answer, c') := client_call STATUS_NOTIFICATION (Obj l) c in
  let result := sendCall parse connectorId errorCode status otherJson now n c in
  (answer = None -> result = Returns (false, n, c')) /\
  (forall id code text rest, answer = Some (Arr (Number (NInt 4) :: id :: Str code :: Str text :: rest)) -> result = Returns (false, Notifier code text, c')) /\
  ((exists n', result = Returns (true, n', c')) <-> exists rest, answer = Some (Arr (Number (NInt 3) :: rest))).
Proof.
  intros Hnow. destruct (parse_other_total otherJson) as [other Hother].
  destruct (message_members connectorId errorCode status other now) as (l & Hl & H1 & H2 & H3 & H4 & H5 & H6). exists l. split.
  { do 3 eexists. split; [exact H1|]. split; [exact H2|]. split; [apply error_named|]. split; [exact H3|]. split; [apply status_named|]. split; [exact H4|].
    apply date_text_read. exact Hnow. }
  split; [done|]. split; [intros v Hv; rewrite (H6 v Hv); eexists; split; [done|apply take_chars_length]|].
  unfold sendCall. rewrite Hother. cbn [mbind outcome_bind]. rewrite Hl. destruct (client_call STATUS_NOTIFICATION (Obj l) c) as [answer c'].
  cbv zeta. split; [by intros ->|]. split; [by intros id code text rest ->|]. split; [|by intros [rest ->]; eexists].
  intros [n' Hr]. destruct answer as [doc|]; [|done]. destruct (handleResponse doc) as [| |[ok n2]] eqn:Hh; try done.
  injection Hr as -> _. destruct (response_accepted doc n2 Hh) as [rest ->]. by exists rest.
Qed.

End Properties.

(** ** Example *)

#[local] Existing Instance demo_zone.
#[local] Instance demo_client : IOCPPClient nat :=
  {| client_call action payload n := (Some (Arr [Number (NInt 4); Str "1"; Str "GenericError"; Str "busy"; Obj []]), S n) |}.

Lemma status_notification_sent_witness :
  sendCall demo_parse 1 ChargePointErrorCode_NoError ChargePointStatus_Charging "" 1719835200 (Notifier "" "") 0%nat =
    Returns (false, Notifier "GenericError" "busy", 1%nat).
Proof.
  destruct (status_notification_sent demo_parse 1 ChargePointErrorCode_NoError ChargePointStatus_Charging "" 1719835200 (Notifier "" "") 0%nat
    ltac:(unfold MIN_TIME, MAX_TIME; lia)) as (l & _ & _ & _ & Hr). cbn [client_call demo_client] in Hr.
  apply (proj1 (proj2 Hr) (Str "1") "GenericError"%string "busy"%string [Obj []] eq_refl).
Defined.
