(* ===== verification/OcppTimers.v ===== *)
(** * The timers of the OCPP client ([src/ocpp/tool/timer])

    A pool keeps a list of running timers; its thread sleeps until the first
    one expires or is told that the list has changed.  Every operation holds
    the mutex of the pool from its beginning to its end, so operations and
    turns of the thread are steps.  (A callback runs in the thread without the
    mutex, and the operations it calls do not take it: there they are no
    steps.) *)

From Stdlib Require Import Sorted.
From S2P Require Import Prelude Sqlite.

(** ** Data *)

Record Timer := MkTimer {
  m_name : string;
  m_single_shot : bool;
  m_interval : Z;                  (* milliseconds *)
  t_wake : Z;                      (* [m_wake_up_time_point], nanoseconds *)
  m_started : bool;
  m_callback : option nat
}.

(** [p_timers] is [m_timers]: a timer is its index.  [fired]: the timers whose
    callback was called, with the callback. *)
Record pool := Pool {
  p_timers : list Timer;
  m_active_timers : list nat;
  m_wake_up_time_point : Z;
  m_update_wakeup_time : bool;
  m_stop : bool;
  fired : list (nat * nat)
}.

Definition with_timer (p : pool) (id : nat) (t : Timer) : pool :=
  Pool (<[id := t]> (p_timers p)) (m_active_timers p) (m_wake_up_time_point p) (m_update_wakeup_time p) (m_stop p) (fired p).
Definition with_active (p : pool) (l : list nat) : pool :=
  Pool (p_timers p) l (m_wake_up_time_point p) (m_update_wakeup_time p) (m_stop p) (fired p).
Definition with_wake (p : pool) (w : Z) : pool :=
  Pool (p_timers p) (m_active_timers p) w (m_update_wakeup_time p) (m_stop p) (fired p).
Definition with_update (p : pool) (b : bool) : pool :=
  Pool (p_timers p) (m_active_timers p) (m_wake_up_time_point p) b (m_stop p) (fired p).

Definition timer_at (p : pool) (id : nat) : outcome Timer := ub (p_timers p !! id).
Definition wake_of (p : pool) (id : nat) : Z := default 0 (t_wake <$> p_timers p !! id).

(** A time and a number of milliseconds, in 64 bits of nanoseconds. *)
Definition in_int64b (z : Z) : bool := (- 2 ^ 63 <=? z) && (z <? 2 ^ 63).
Definition advance (t ms : Z) : outcome Z :=
  if in_int64b (ms * 1000000) && in_int64b (t + ms * 1000000) then Returns (t + ms * 1000000) else Undefined.

(** 2400 hours, in milliseconds. *)
Definition IDLE_MS : Z := 2400 * 3600 * 1000.

(** ** The pool ([TimerPool.cpp]) *)

Definition new_timer_pool (now : Z) : outcome pool :=
  w ← advance now IDLE_MS;
  Returns (Pool [] [] w false false []).

(** [createTimer]: the constructor registers the timer. *)
Definition createTimer (name : string) (p : pool) : nat * pool :=
  (length (p_timers p),
   Pool (p_timers p ++ [MkTimer name false 0 (- 2 ^ 63) false None]) (m_active_timers p) (m_wake_up_time_point p)
     (m_update_wakeup_time p) (m_stop p) (fired p)).

Fixpoint find_timer (name : string) (l : list Timer) (id : nat) : option nat :=
  match l with
  | [] => None
  | t :: l' => if String.eqb (m_name t) name then Some id else find_timer name l' (S id)
  end.
Definition getTimer (name : string) (p : pool) : option nat := find_timer name (p_timers p) 0.

(** The sort of the list keeps the order of equal times. *)
Fixpoint insert_by (key : nat -> Z) (x : nat) (l : list nat) : list nat :=
  match l with
  | [] => [x]
  | y :: l' => if key y <? key x then y :: insert_by key x l' else x :: l
  end.
Fixpoint sort_by (key : nat -> Z) (l : list nat) : list nat :=
  match l with [] => [] | x :: l' => insert_by key x (sort_by key l') end.

Definition computeNextWakeupTimepoint (now : Z) (p : pool) : outcome pool :=
  match m_active_timers p with
  | [] => w ← advance now IDLE_MS; Returns (with_wake p w)
  | _ =>
    let l := sort_by (wake_of p) (m_active_timers p) in
    h ← ub (head l);
    Returns (with_wake (with_active p l) (wake_of p h))
  end.

Definition addTimer (id : nat) (p : pool) : outcome pool :=
  t ← timer_at p id;
  let p := if t_wake t <? m_wake_up_time_point p then with_update p true else p in
  Returns (with_active p (m_active_timers p ++ [id])).

(** The first timer is read without a test that there is one. *)
Definition removeTimer (id : nat) (p : pool) : outcome pool :=
  h ← ub (head (m_active_timers p));
  let p := if Nat.eqb id h then with_update p true else p in
  Returns (with_active p (List.filter (fun i => negb (Nat.eqb i id)) (m_active_timers p))).

(** One turn of [threadLoop], with the mutex: a change of the list, or the
    expiry of the first timer.  Calling an empty callback ends the program. *)
Definition thread_turn (now : Z) (p : pool) : outcome pool :=
  if m_stop p || m_update_wakeup_time p then
    if m_update_wakeup_time p then
      p ← computeNextWakeupTimepoint now p;
      Returns (with_update p false)
    else Returns p
  else if now <? m_wake_up_time_point p then Returns p
  else
    h ← ub (head (m_active_timers p));
    t ← timer_at p h;
    p ← (if m_single_shot t then
           Returns (with_timer (with_active p (tail (m_active_timers p))) h
                      (MkTimer (m_name t) (m_single_shot t) (m_interval t) (t_wake t) false (m_callback t)))
         else
           w ← advance (t_wake t) (m_interval t);
           Returns (with_timer p h (MkTimer (m_name t) (m_single_shot t) (m_interval t) w (m_started t) (m_callback t))));
    p ← computeNextWakeupTimepoint now p;
    cb ← ub (m_callback t);
    Returns (Pool (p_timers p) (m_active_timers p) (m_wake_up_time_point p) (m_update_wakeup_time p) (m_stop p) (fired p ++ [(h, cb)])).

(** ** Timers ([Timer.cpp]) *)

(** The fields a start sets. *)
Definition armed (t : Timer) (interval : Z) (single : bool) (w : Z) (started : bool) : Timer :=
  MkTimer (m_name t) single interval w started (m_callback t).

Definition start (id : nat) (interval : Z) (single immediately : bool) (now : Z) (p : pool) : outcome (bool * pool) :=
  t ← timer_at p id;
  if m_started t then Returns (false, p)
  else
    w ← (if immediately then Returns now else advance now interval);
    p ← addTimer id (with_timer p id (armed t interval single w (m_started t)));
    Returns (true, with_timer p id (armed t interval single w true)).

Definition restart (id : nat) (interval : Z) (single immediately : bool) (now : Z) (p : pool) : outcome (bool * pool) :=
  t ← timer_at p id;
  p ← (if m_started t then removeTimer id p else Returns p);
  w ← (if immediately then Returns now else advance now interval);
  p ← addTimer id (with_timer p id (armed t interval single w (m_started t)));
  Returns (true, with_timer p id (armed t interval single w true)).

Definition stop_timer (id : nat) (p : pool) : outcome (bool * pool) :=
  t ← timer_at p id;
  if m_started t then
    p ← removeTimer id p;
    Returns (true, with_timer p id (armed t (m_interval t) (m_single_shot t) (t_wake t) false))
  else Returns (false, p).

Definition setCallback (id : nat) (cb : nat) (p : pool) : outcome pool :=
  t ← timer_at p id;
  Returns (with_timer p id (MkTimer (m_name t) (m_single_shot t) (m_interval t) (t_wake t) (m_started t) (Some cb))).

(** [stopAllTimers] has three critical sections: the copy of the list, one for
    each timer of the copy, and the clearing. *)
Fixpoint stop_copied (ids : list nat) (p : pool) : outcome pool :=
  match ids with
  | [] => Returns p
  | id :: ids' => '(_, p) ← stop_timer id p; stop_copied ids' p
  end.

Definition clear_active (now : Z) (p : pool) : outcome pool :=
  p ← computeNextWakeupTimepoint now (with_active p []);
  Returns (with_update p true).

Definition stopAllTimers (now : Z) (p : pool) : outcome pool :=
  p ← stop_copied (m_active_timers p) p;
  clear_active now p.

(** ** Steps *)

Inductive timer_op :=
  | Create (name : string)
  | Start (id : nat) (interval : Z) (single immediately : bool)
  | Restart (id : nat) (interval : Z) (single immediately : bool)
  | Stop (id : nat)
  | SetCallback (id cb : nat)
  | StopAll
  | Turn.

Definition timer_step (now : Z) (op : timer_op) (p : pool) : outcome pool :=
  match op with
  | Create name => Returns (createTimer name p).2
  | Start id i s im => '(_, p) ← start id i s im now p; Returns p
  | Restart id i s im => '(_, p) ← restart id i s im now p; Returns p
  | Stop id => '(_, p) ← stop_timer id p; Returns p
  | SetCallback id cb => setCallback id cb p
  | StopAll => stopAllTimers now p
  | Turn => thread_turn now p
  end.

Fixpoint turns (n : nat) (now : Z) (p : pool) : outcome pool :=
  match n with O => Returns p | S n' => p ← thread_turn now p; turns n' now p end.

(** ** Sorting *)

Lemma insert_by_perm key x l : insert_by key x l ≡ₚ x :: l.
Proof. induction l as [|y l IH]; cbn [insert_by]; [done|]. destruct (key y <? key x); [rewrite IH; apply perm_swap|done]. Qed.

Lemma sort_by_perm key l : sort_by key l ≡ₚ l.
Proof. induction l as [|x l IH]; cbn [sort_by]; [done|]. by rewrite insert_by_perm, IH. Qed.

Definition sorted_by (key : nat -> Z) (l : list nat) : Prop := StronglySorted (fun a b => key a <= key b) l.

Lemma insert_by_sorted key x l : sorted_by key l -> sorted_by key (insert_by key x l).
Proof.
  induction 1 as [|y l Hs IH Hy]; cbn [insert_by]; [repeat constructor|]. destruct (Z.ltb_spec (key y) (key x)).
  - constructor; [done|]. rewrite insert_by_perm. constructor; [lia|done].
  - repeat constructor; [done..|]. eapply Forall_impl; [exact Hy|]. cbn. lia.
Qed.

Lemma sort_by_sorted key l : sorted_by key (sort_by key l).
Proof. induction l; cbn [sort_by]; [constructor|]. by apply insert_by_sorted. Qed.

(** ** The invariant *)

(** The thread sleeps until the first timer of the list, which expires no later
    than the others, unless it has been told of a change. *)
Definition first_ok (p : pool) : Prop :=
  match m_active_timers p with
  | [] => True
  | h :: _ => m_wake_up_time_point p = wake_of p h /\ forall id, id ∈ m_active_timers p -> wake_of p h <= wake_of p id
  end.

Record pool_ok (p : pool) : Prop := {
  ok_nodup : NoDup (m_active_timers p);
  ok_active id : id ∈ m_active_timers p <-> exists t, p_timers p !! id = Some t /\ m_started t = true;
  ok_first : m_update_wakeup_time p = false -> first_ok p
}.

Lemma compute_spec now p w : advance now IDLE_MS = Returns w -> exists p', computeNextWakeupTimepoint now p = Returns p' /\
  p_timers p' = p_timers p /\ m_active_timers p' ≡ₚ m_active_timers p /\ m_update_wakeup_time p' = m_update_wakeup_time p /\
  m_stop p' = m_stop p /\ fired p' = fired p /\ sorted_by (wake_of p') (m_active_timers p') /\ first_ok p' /\
  (m_active_timers p = [] -> m_wake_up_time_point p' = w).
Proof.
  intros Hw. unfold computeNextWakeupTimepoint. destruct (m_active_timers p) as [|x l] eqn:Ha.
  - rewrite Hw. eexists. split; [reflexivity|]. cbn. rewrite Ha. split_and!; try done; [constructor|]. unfold first_ok. cbn. by rewrite Ha.
  - pose proof (sort_by_perm (wake_of p) (x :: l)) as Hp. pose proof (sort_by_sorted (wake_of p) (x :: l)) as Hs.
    destruct (sort_by (wake_of p) (x :: l)) as [|h l'] eqn:Hsort; [by apply Permutation_nil in Hp|]. cbn. eexists. split; [reflexivity|]. cbn.
    split_and!; try done. intros id Hin. apply StronglySorted_inv in Hs as [_ Hs].
    apply elem_of_cons in Hin as [->|Hin]; [reflexivity|]. rewrite Forall_forall in Hs. by apply Hs.
Qed.

(** A pool with the same timers, in another order and after a new sort. *)
Lemma compute_ok now p w : advance now IDLE_MS = Returns w -> NoDup (m_active_timers p) ->
  (forall id, id ∈ m_active_timers p <-> exists t, p_timers p !! id = Some t /\ m_started t = true) ->
  exists p', computeNextWakeupTimepoint now p = Returns p' /\ pool_ok p' /\ p_timers p' = p_timers p /\
    m_active_timers p' ≡ₚ m_active_timers p /\ m_update_wakeup_time p' = m_update_wakeup_time p /\ m_stop p' = m_stop p /\ fired p' = fired p /\
    sorted_by (wake_of p') (m_active_timers p') /\ first_ok p' /\ (m_active_timers p = [] -> m_wake_up_time_point p' = w).
Proof.
  intros Hw Hn Ha. destruct (compute_spec now p w Hw) as (p' & Hc & Ht & Hp & Hu & Hst & Hf & Hs & Hfirst & Hi). exists p'. split_and!; try done.
  split; [by rewrite Hp| |done]. intros id. by rewrite Hp, Ht.
Qed.

Lemma wake_of_other p id id' t : id' <> id -> wake_of (with_timer p id t) id' = wake_of p id'.
Proof. intros H. unfold wake_of. cbn. by rewrite list_lookup_insert_ne. Qed.

Lemma wake_of_same p id t t0 : p_timers p !! id = Some t0 -> wake_of (with_timer p id t) id = t_wake t.
Proof. intros H. unfold wake_of. cbn. rewrite list_lookup_insert_eq; [done|]. by eapply lookup_lt_Some. Qed.

(** The timers that run after one of them is set. *)
Lemma started_with (p : pool) id t t0 id' : p_timers p !! id = Some t0 ->
  (exists x, p_timers (with_timer p id t) !! id' = Some x /\ m_started x = true) <->
  (id' = id /\ m_started t = true) \/ (id' <> id /\ exists x, p_timers p !! id' = Some x /\ m_started x = true).
Proof.
  intros H. cbn. destruct (decide (id' = id)) as [->|Hne].
  - rewrite list_lookup_insert_eq by (by eapply lookup_lt_Some). naive_solver.
  - rewrite list_lookup_insert_ne by done. naive_solver.
Qed.

Lemma elem_of_without id id' (l : list nat) : id' ∈ List.filter (fun i => negb (Nat.eqb i id)) l <-> id' ∈ l /\ id' <> id.
Proof. rewrite !list_elem_of_In, filter_In, negb_true_iff, Nat.eqb_neq. done. Qed.

Lemma NoDup_without id (l : list nat) : NoDup l -> NoDup (List.filter (fun i => negb (Nat.eqb i id)) l).
Proof. rewrite !NoDup_ListNoDup. apply List.NoDup_filter. Qed.

(** A pool that may be the middle of an operation on [id]: its list holds the
    other running timers. *)
Record pool_but (id : nat) (p : pool) : Prop := {
  but_nodup : NoDup (m_active_timers p);
  but_active id' : id' ∈ m_active_timers p <-> id' <> id /\ exists t, p_timers p !! id' = Some t /\ m_started t = true;
  but_first : m_update_wakeup_time p = false -> first_ok p
}.

Lemma first_ok_with p id t : id ∉ m_active_timers p -> first_ok p -> first_ok (with_timer p id t).
Proof.
  unfold first_ok. cbn. destruct (m_active_timers p) as [|h l] eqn:Ha; [done|]. intros Hid [Hw Hmin].
  assert (Hh : h <> id) by (intros ->; apply Hid; left). rewrite wake_of_other by done. split; [done|]. intros id' Hin.
  assert (id' <> id) by (intros ->; done). rewrite wake_of_other by done. by apply Hmin.
Qed.

Lemma pool_but_of_idle p id t : pool_ok p -> p_timers p !! id = Some t -> m_started t = false -> pool_but id p.
Proof.
  intros [Hn Ha Hf] Ht Hs. split; [done| |done]. intros id'. rewrite Ha. split; [|by intros [_ H]]. intros (t' & Ht' & Hs').
  split; [|by exists t']. intros ->. congruence.
Qed.

Lemma pool_remove_spec p id t : pool_ok p -> p_timers p !! id = Some t -> m_started t = true ->
  exists p', removeTimer id p = Returns p' /\ pool_but id p' /\ p_timers p' = p_timers p /\ m_stop p' = m_stop p /\ fired p' = fired p /\
    m_active_timers p' = List.filter (fun i => negb (Nat.eqb i id)) (m_active_timers p) /\
    m_wake_up_time_point p' = m_wake_up_time_point p /\
    (m_active_timers p' = [] -> m_update_wakeup_time p' = true) /\ (m_update_wakeup_time p = true -> m_update_wakeup_time p' = true).
Proof.
  intros [Hn Ha Hf] Ht Hs. assert (Hin : id ∈ m_active_timers p) by (apply Ha; by exists t). unfold removeTimer.
  destruct (m_active_timers p) as [|h l] eqn:Hact; [by apply elem_of_nil in Hin|]. cbn [head ub mbind outcome_bind]. rewrite <- Hact in *.
  set (l' := List.filter _ (m_active_timers p)).
  assert (Hl' : forall i, i ∈ l' <-> i ∈ m_active_timers p /\ i <> id) by (intros i; apply elem_of_without).
  assert (Hnd : NoDup l') by by apply NoDup_without.
  destruct (Nat.eqb_spec id h) as [->|Hne]; eexists; (split; [reflexivity|]); cbn; fold l'.
  - split_and!; try done. split; cbn; fold l'; [done| |done]. intros i. rewrite Hl', Ha. tauto.
  - assert (Hl'' : l' = h :: List.filter (fun i => negb (Nat.eqb i id)) l).
    { subst l'. rewrite Hact. cbn. by rewrite (proj2 (Nat.eqb_neq h id)). }
    split_and!; try done; [|by rewrite Hl'']. split; cbn; fold l'; [done| |].
    + intros i. rewrite Hl', Ha. tauto.
    + intros Hu. specialize (Hf Hu). unfold first_ok in *. cbn. fold l'. rewrite Hact in Hf. rewrite Hl''. destruct Hf as [Hw Hmin]. split; [done|].
      intros i Hi. rewrite <- Hl'' in Hi. apply Hl' in Hi as [Hi _]. apply Hmin. by rewrite <- Hact.
Qed.

(** The wake-up of a new timer is one the thread will notice. *)
Definition prompt (p : pool) (w : Z) : Prop := m_active_timers p <> [] \/ m_update_wakeup_time p = true \/ w < m_wake_up_time_point p.

Lemma pool_add_spec p id t0 a a' : pool_but id p -> p_timers p !! id = Some t0 -> prompt p (t_wake a) -> t_wake a' = t_wake a -> m_started a' = true ->
  exists p1, addTimer id (with_timer p id a) = Returns p1 /\ pool_ok (with_timer p1 id a') /\
    p_timers p1 = <[id := a]> (p_timers p) /\ m_stop p1 = m_stop p /\ fired p1 = fired p /\ m_active_timers p1 = m_active_timers p ++ [id].
Proof.
  intros [Hn Ha Hf] Ht Hp Hw' Hs'. assert (Hlt : (id < length (p_timers p))%nat) by by eapply lookup_lt_Some.
  assert (Hid : id ∉ m_active_timers p) by (intros Hin; apply Ha in Hin as [? _]; done).
  unfold addTimer, timer_at. cbn [p_timers with_timer]. rewrite list_lookup_insert_eq by done. cbn [ub mbind outcome_bind].
  eexists. split; [reflexivity|]. destruct (Z.ltb_spec (t_wake a) (m_wake_up_time_point (with_timer p id a))) as [Hlt'|Hge];
    cbn in *; (split; [|done]); split; cbn.
  1,4: apply NoDup_app; split; [done|]; (split; [intros x Hx [->|[]%elem_of_nil]%elem_of_cons; done|apply NoDup_singleton]).
  1,3: intros i; rewrite list_insert_insert_eq, elem_of_app, list_elem_of_singleton, Ha; pose proof (started_with p id a' t0 i Ht) as H; cbn in H;
    rewrite H; destruct (decide (i = id)); naive_solver.
  - done.
  - intros Hu. specialize (Hf Hu). destruct Hp as [Hp|[Hp|Hp]]; [|congruence|lia]. unfold first_ok in *. cbn.
    destruct (m_active_timers p) as [|h l] eqn:Hact; [done|]. cbn. destruct Hf as [Hw Hmin].
    assert (Hh : h <> id) by (intros ->; apply Hid; left).
    assert (Eh : wake_of (with_timer (with_active (with_timer p id a) (h :: l ++ [id])) id a') h = wake_of p h).
    { unfold wake_of. cbn. rewrite !list_lookup_insert_ne by done. done. }
    rewrite Eh. split; [done|]. intros i Hi. change (i ∈ (h :: l) ++ [id]) in Hi. apply elem_of_app in Hi as [Hi|Hi].
    + assert (i <> id) by (intros ->; done). replace (wake_of _ i) with (wake_of p i) by (unfold wake_of; cbn; rewrite !list_lookup_insert_ne; done).
      by apply Hmin.
    + apply list_elem_of_singleton in Hi as ->. unfold wake_of at 2. cbn. rewrite list_insert_insert_eq, list_lookup_insert_eq by done. cbn. lia.
Qed.

Lemma pool_stop_spec p id t : pool_ok p -> p_timers p !! id = Some t -> exists r p', stop_timer id p = Returns (r, p') /\ pool_ok p' /\
  r = m_started t /\ p_timers p' = <[id := armed t (m_interval t) (m_single_shot t) (t_wake t) false]> (p_timers p) /\ m_stop p' = m_stop p /\
  fired p' = fired p.
Proof.
  intros Hok Ht. unfold stop_timer, timer_at. rewrite Ht. cbn [ub mbind outcome_bind]. destruct (m_started t) eqn:Hs.
  - destruct (pool_remove_spec p id t Hok Ht Hs) as (p1 & -> & [Hn Ha Hf] & Ht1 & Hst & Hfi & _). cbn [mbind outcome_bind].
    eexists _, _. split; [reflexivity|]. split; [|cbn; by rewrite Ht1].
    assert (Hid : id ∉ m_active_timers p1) by (intros Hin; apply Ha in Hin as [? _]; done). split; cbn; [done| |].
    + intros i. rewrite Ha. assert (Ht1' : p_timers p1 !! id = Some t) by by rewrite Ht1.
      pose proof (started_with p1 id (armed t (m_interval t) (m_single_shot t) (t_wake t) false) t i Ht1') as H. cbn in H. rewrite H. naive_solver.
    + intros Hu. apply first_ok_with; [done|]. by apply Hf.
  - eexists _, _. split; [reflexivity|]. split_and!; try done. symmetry. apply list_insert_id. rewrite Ht. destruct t. cbn in *. by rewrite Hs.
Qed.

Lemma pool_start_spec p id t i s im now w : pool_ok p -> p_timers p !! id = Some t -> m_started t = false ->
  (if im : bool then Returns now else advance now i) = Returns w -> prompt p w ->
  exists p', start id i s im now p = Returns (true, p') /\ pool_ok p' /\ p_timers p' = <[id := armed t i s w true]> (p_timers p) /\
    m_active_timers p' = m_active_timers p ++ [id] /\ m_stop p' = m_stop p /\ fired p' = fired p.
Proof.
  intros Hok Ht Hs Hw Hp. unfold start, timer_at. rewrite Ht. cbn [ub mbind outcome_bind]. rewrite Hs, Hw. cbn [mbind outcome_bind].
  destruct (pool_add_spec p id t (armed t i s w false) (armed t i s w true) (pool_but_of_idle p id t Hok Ht Hs) Ht Hp eq_refl eq_refl)
    as (p1 & -> & Hok1 & Ht1 & Hst & Hfi & Hact). cbn [mbind outcome_bind].
  eexists. split; [reflexivity|]. split; [done|]. cbn. by rewrite Ht1, list_insert_insert_eq.
Qed.

Lemma pool_restart_spec p id t i s im now w : pool_ok p -> p_timers p !! id = Some t ->
  (if im : bool then Returns now else advance now i) = Returns w -> prompt p w ->
  exists p', restart id i s im now p = Returns (true, p') /\ pool_ok p' /\ p_timers p' = <[id := armed t i s w true]> (p_timers p) /\
    m_stop p' = m_stop p /\ fired p' = fired p.
Proof.
  intros Hok Ht Hw Hp. unfold restart, timer_at. rewrite Ht. cbn [ub mbind outcome_bind].
  assert (Hb : exists p0, (if m_started t then removeTimer id p else Returns p) = Returns p0 /\ pool_but id p0 /\ p_timers p0 = p_timers p /\
    m_stop p0 = m_stop p /\ fired p0 = fired p /\ prompt p0 w).
  { destruct (m_started t) eqn:Hs.
    - destruct (pool_remove_spec p id t Hok Ht Hs) as (p0 & -> & Hb & Ht0 & Hst & Hfi & _ & Hwk & Hempty & Hup). exists p0. split_and!; try done.
      unfold prompt in *. rewrite Hwk. destruct (m_active_timers p0) eqn:E; [|by left]. right. left. by apply Hempty.
    - exists p. split_and!; try done. by eapply pool_but_of_idle. }
  destruct Hb as (p0 & -> & Hb & Ht0 & Hst & Hfi & Hp0). cbn [mbind outcome_bind]. rewrite Hw. cbn [mbind outcome_bind].
  assert (Htp : p_timers p0 !! id = Some t) by by rewrite Ht0.
  destruct (pool_add_spec p0 id t (armed t i s w (m_started t)) (armed t i s w true) Hb Htp Hp0 eq_refl eq_refl)
    as (p1 & -> & Hok1 & Ht1 & Hst1 & Hfi1 & Hact). cbn [mbind outcome_bind].
  eexists. split; [reflexivity|]. split; [done|]. cbn. rewrite Ht1, list_insert_insert_eq. by rewrite Ht0, Hst1, Hfi1.
Qed.

(** A turn that calls a timer: the first one, which is due. *)
Definition fired_timer (t : Timer) (w : Z) : Timer :=
  if m_single_shot t then MkTimer (m_name t) true (m_interval t) (t_wake t) false (m_callback t)
  else MkTimer (m_name t) false (m_interval t) w (m_started t) (m_callback t).

Lemma turn_fires p now w h l t cb : pool_ok p -> m_stop p = false -> m_update_wakeup_time p = false -> m_active_timers p = h :: l ->
  p_timers p !! h = Some t -> t_wake t <= now -> m_callback t = Some cb -> advance now IDLE_MS = Returns w ->
  (m_single_shot t = false -> exists w', advance (t_wake t) (m_interval t) = Returns w') ->
  exists p', thread_turn now p = Returns p' /\ pool_ok p' /\ m_stop p' = false /\ m_update_wakeup_time p' = false /\
    fired p' = fired p ++ [(h, cb)] /\ p_timers p' = <[h := fired_timer t (t_wake t + m_interval t * 1000000)]> (p_timers p) /\
    m_active_timers p' ≡ₚ (if m_single_shot t then l else m_active_timers p) /\ sorted_by (wake_of p') (m_active_timers p') /\
    (m_active_timers p' = [] -> m_wake_up_time_point p' = w).
Proof.
  intros [Hn Ha Hf] Hstop Hu Hact Ht Hdue Hcb Hw Hadv. unfold thread_turn. rewrite Hstop, Hu. cbn [orb].
  specialize (Hf Hu). unfold first_ok in Hf. rewrite Hact in Hf. destruct Hf as [Hwk Hmin].
  assert (Hwh : wake_of p h = t_wake t) by (unfold wake_of; by rewrite Ht).
  destruct (Z.ltb_spec now (m_wake_up_time_point p)); [lia|]. rewrite Hact. cbn [head ub mbind outcome_bind]. unfold timer_at. rewrite Ht.
  cbn [ub mbind outcome_bind]. rewrite Hact in Hn. apply NoDup_cons in Hn as [Hh Hn]. destruct (m_single_shot t) eqn:Hsingle.
  - cbn [mbind outcome_bind tail].
    set (p1 := with_timer (with_active p l) h _). destruct (compute_ok now p1 w Hw) as (p2 & -> & Hok & Ht2 & Hp2 & Hu2 & Hs2 & Hfi & Hsort & Hfirst & Hidle).
    + done.
    + intros i. pose proof (started_with p h (MkTimer (m_name t) true (m_interval t) (t_wake t) false (m_callback t)) t i Ht) as Hst. cbn in Hst.
      cbn. rewrite Hst, <- Ha, Hact, elem_of_cons. destruct (decide (i = h)) as [->|]; naive_solver.
    + cbn [mbind outcome_bind]. rewrite Hcb. cbn [ub mbind outcome_bind]. eexists. split; [reflexivity|]. destruct Hok as [Hok1 Hok2 _]. cbn.
      split_and!; [by split|by rewrite Hs2|by rewrite Hu2|by rewrite Hfi|unfold fired_timer; by rewrite Hsingle, Ht2|exact Hp2|exact Hsort|].
      cbn. intros He. apply Hidle. rewrite He in Hp2. by apply Permutation_nil in Hp2.
  - destruct (Hadv eq_refl) as [w' Hw']. assert (Ew : w' = t_wake t + m_interval t * 1000000).
    { unfold advance in Hw'. destruct (_ && _); congruence. }
    rewrite Hw'. cbn [mbind outcome_bind]. set (p1 := with_timer p h _). assert (Hst : m_started t = true).
    { destruct (proj1 (Ha h)) as (t' & Ht' & Hs'); [rewrite Hact; left|]. congruence. }
    destruct (compute_ok now p1 w Hw) as (p2 & -> & Hok & Ht2 & Hp2 & Hu2 & Hs2 & Hfi & Hsort & Hfirst & Hidle).
    + cbn. rewrite Hact. by apply NoDup_cons.
    + intros i. pose proof (started_with p h (MkTimer (m_name t) false (m_interval t) w' (m_started t) (m_callback t)) t i Ht) as Hst'. cbn in Hst'.
      cbn. rewrite Hst', <- Ha, Hact, elem_of_cons. destruct (decide (i = h)) as [->|]; naive_solver.
    + cbn [mbind outcome_bind]. rewrite Hcb. cbn [ub mbind outcome_bind]. eexists. split; [reflexivity|]. destruct Hok as [Hok1 Hok2 _]. cbn.
      split_and!; [by split|by rewrite Hs2|by rewrite Hu2|by rewrite Hfi|unfold fired_timer; by rewrite Hsingle, Ht2, <- Ew|by rewrite Hp2; cbn; rewrite Hact|exact Hsort|].
      cbn. intros He. apply Hidle. rewrite He in Hp2. by apply Permutation_nil in Hp2.
Qed.

(** A turn that sorts the list after a change. *)
Lemma turn_updates p now w : pool_ok p -> m_update_wakeup_time p = true -> advance now IDLE_MS = Returns w ->
  exists p', thread_turn now p = Returns p' /\ pool_ok p' /\ m_stop p' = m_stop p /\ m_update_wakeup_time p' = false /\ fired p' = fired p /\
    p_timers p' = p_timers p /\ m_active_timers p' ≡ₚ m_active_timers p /\ (m_active_timers p = [] -> m_wake_up_time_point p' = w).
Proof.
  intros [Hn Ha Hf] Hu Hw. unfold thread_turn. rewrite Hu, orb_true_r.
  destruct (compute_ok now p w Hw Hn Ha) as (p2 & -> & [Hok1 Hok2 _] & Ht2 & Hp2 & Hu2 & Hs2 & Hfi & Hsort & Hfirst & Hi). cbn [mbind outcome_bind].
  eexists. split; [reflexivity|]. cbn. split_and!; try done.
Qed.

Lemma turn_sleeps p now : m_stop p = false -> m_update_wakeup_time p = false -> now < m_wake_up_time_point p -> thread_turn now p = Returns p.
Proof. intros Hs Hu Hlt. unfold thread_turn. rewrite Hs, Hu. cbn [orb]. by destruct (Z.ltb_spec now (m_wake_up_time_point p)); [|lia]. Qed.

(** ** Every operation keeps the invariant *)

(** What the callers and the clock are asked: handles of the pool, times in
    range, a callback for the timer that is due, and no timer that is started
    on an idle pool for after the time the pool sleeps until. *)
Definition allowed (now : Z) (op : timer_op) (p : pool) : Prop :=
  match op with
  | Create _ => True
  | Start id i _ im | Restart id i _ im => exists t w, p_timers p !! id = Some t /\ (if im then Returns now else advance now i) = Returns w /\ prompt p w
  | Stop id | SetCallback id _ => is_Some (p_timers p !! id)
  | StopAll => exists w, advance now IDLE_MS = Returns w
  | Turn => (exists w, advance now IDLE_MS = Returns w) /\
      match m_active_timers p with
      | [] => m_update_wakeup_time p = true \/ now < m_wake_up_time_point p
      | h :: _ => exists t, p_timers p !! h = Some t /\ is_Some (m_callback t) /\ exists w, advance (t_wake t) (m_interval t) = Returns w
      end
  end.

Lemma stop_copied_spec ids : forall p, pool_ok p -> (forall id, id ∈ ids -> is_Some (p_timers p !! id)) ->
  exists p', stop_copied ids p = Returns p' /\ pool_ok p' /\ m_stop p' = m_stop p /\ fired p' = fired p /\ length (p_timers p') = length (p_timers p) /\
    forall id t, p_timers p' !! id = Some t -> m_started t = true -> (id ∉ ids) /\ p_timers p !! id = Some t.
Proof.
  induction ids as [|id ids IH]; intros p Hok Hids; cbn [stop_copied].
  - exists p. split_and!; try done. intros. split; [apply not_elem_of_nil|done].
  - destruct (Hids id) as [t Ht]; [left|]. destruct (pool_stop_spec p id t Hok Ht) as (r & p1 & -> & Hok1 & _ & Ht1 & Hs1 & Hf1). cbn [mbind outcome_bind].
    destruct (IH p1 Hok1) as (p2 & -> & Hok2 & Hs2 & Hf2 & Hl2 & Hall).
    { intros i Hi. rewrite Ht1. destruct (Hids i) as [x Hx]; [by right|]. apply lookup_lt_is_Some. rewrite length_insert. by eapply lookup_lt_Some. }
    exists p2. split; [done|]. split; [done|]. rewrite Hs2, Hf2, Hl2, Ht1, length_insert. split_and!; try done. intros i x Hx Hst.
    destruct (Hall i x Hx Hst) as [Hni Hx1]. rewrite Ht1 in Hx1. destruct (decide (i = id)) as [->|Hne].
    + rewrite list_lookup_insert_eq in Hx1 by (by eapply lookup_lt_Some). injection Hx1 as <-. done.
    + rewrite list_lookup_insert_ne in Hx1 by done. split; [|done]. rewrite elem_of_cons. tauto.
Qed.

Lemma stop_all_spec p now w : pool_ok p -> advance now IDLE_MS = Returns w ->
  exists p', stopAllTimers now p = Returns p' /\ pool_ok p' /\ m_stop p' = m_stop p /\ fired p' = fired p /\ m_active_timers p' = [] /\
    (forall id t, p_timers p' !! id = Some t -> m_started t = false) /\ m_update_wakeup_time p' = true.
Proof.
  intros Hok Hw. unfold stopAllTimers. pose proof (ok_active p Hok) as Ha.
  destruct (stop_copied_spec (m_active_timers p) p Hok) as (p1 & -> & Hok1 & Hs1 & Hf1 & _ & Hall).
  { intros id Hin. apply Ha in Hin as (t & Ht & _). by exists t. }
  cbn [mbind outcome_bind]. unfold clear_active, computeNextWakeupTimepoint. cbn [m_active_timers with_active]. rewrite Hw. cbn [mbind outcome_bind].
  assert (Hno : forall id t, p_timers p1 !! id = Some t -> m_started t = false).
  { intros id t Ht. destruct (m_started t) eqn:Hs; [|done]. destruct (Hall id t Ht Hs) as [Hni Ht0]. destruct Hni. apply Ha. by exists t. }
  eexists. split; [reflexivity|]. cbn. split_and!; try done. split; cbn; [constructor| |done]. intros id. split; [by intros []%elem_of_nil|].
  intros (t & Ht & Hs). by rewrite (Hno id t Ht) in Hs.
Qed.

Lemma set_same p id t t' : pool_ok p -> p_timers p !! id = Some t -> m_started t' = m_started t -> t_wake t' = t_wake t -> pool_ok (with_timer p id t').
Proof.
  intros [Hn Ha Hf] Ht Hs Hw.
  assert (E : forall i, wake_of (with_timer p id t') i = wake_of p i).
  { intros i. destruct (decide (i = id)) as [->|Hne]; [|by apply wake_of_other]. rewrite (wake_of_same p id t' t Ht), Hw. unfold wake_of. by rewrite Ht. }
  split; cbn; [done| |].
  - intros i. rewrite Ha. pose proof (started_with p id t' t i Ht) as H. cbn in H. rewrite H, Hs. split; [|naive_solver].
    intros (x & Hx & Hsx). destruct (decide (i = id)) as [->|]; [left; naive_solver|right; naive_solver].
  - intros Hu. specialize (Hf Hu). unfold first_ok in *. cbn. destruct (m_active_timers p) as [|h l]; [done|]. rewrite E. destruct Hf as [Hw' Hmin].
    split; [done|]. intros i Hi. rewrite E. by apply Hmin.
Qed.

Lemma timer_step_ok now op p : pool_ok p -> m_stop p = false -> allowed now op p ->
  exists p', timer_step now op p = Returns p' /\ pool_ok p' /\ m_stop p' = false.
Proof.
  intros Hok Hstop. destruct op as [name|id i s im|id i s im|id|id cb| |]; cbn [timer_step allowed].
  - intros _. eexists. split; [reflexivity|]. split; [|done]. destruct Hok as [Hn Ha Hf]. unfold createTimer. cbn [snd].
    set (t := MkTimer name false 0 (- 2 ^ 63) false None).
    assert (E : forall i, i ∈ m_active_timers p -> (p_timers p ++ [t]) !! i = p_timers p !! i).
    { intros i Hi. apply Ha in Hi as (x & Hx & _). apply lookup_app_l. by eapply lookup_lt_Some. }
    split; cbn; [done| |].
    + intros i. split.
      * intros Hi. rewrite E by done. by apply Ha.
      * intros (x & Hx & Hs). apply Ha. exists x. split; [|done]. apply lookup_app_Some in Hx as [Hx|[_ Hx]]; [done|].
        destruct (i - length (p_timers p))%nat; [by injection Hx as <-|done].
    + intros Hu. specialize (Hf Hu). unfold first_ok, wake_of in *. cbn. destruct (m_active_timers p) as [|h l]; [done|]. destruct Hf as [Hw Hmin].
      rewrite E by left. split; [done|]. intros i Hi. rewrite E by done. by apply Hmin.
  - intros (t & w & Ht & Hw & Hp). destruct (m_started t) eqn:Hs.
    + exists p. unfold start, timer_at. rewrite Ht. cbn [ub mbind outcome_bind]. by rewrite Hs.
    + destruct (pool_start_spec p id t i s im now w Hok Ht Hs Hw Hp) as (p' & -> & Hok' & _ & _ & Hst & _). exists p'. by rewrite Hst.
  - intros (t & w & Ht & Hw & Hp). destruct (pool_restart_spec p id t i s im now w Hok Ht Hw Hp) as (p' & -> & Hok' & _ & Hst & _). exists p'. by rewrite Hst.
  - intros [t Ht]. destruct (pool_stop_spec p id t Hok Ht) as (r & p' & -> & Hok' & _ & _ & Hst & _). exists p'. by rewrite Hst.
  - intros [t Ht]. unfold setCallback, timer_at. rewrite Ht. cbn [ub mbind outcome_bind]. eexists. split; [reflexivity|]. split; [|done].
    by apply (set_same p id t).
  - intros [w Hw]. destruct (stop_all_spec p now w Hok Hw) as (p' & -> & Hok' & Hst & _). exists p'. by rewrite Hst.
  - intros [[w Hw] Hh]. destruct (m_update_wakeup_time p) eqn:Hu.
    { destruct (turn_updates p now w Hok Hu Hw) as (p' & -> & Hok' & Hst & _). exists p'. by rewrite Hst. }
    destruct (Z.ltb_spec now (m_wake_up_time_point p)); [exists p; by rewrite turn_sleeps|].
    destruct (m_active_timers p) as [|h l] eqn:Hact; [destruct Hh; [done|lia]|]. destruct Hh as (t & Ht & [cb Hcb] & w' & Hw').
    pose proof (ok_first p Hok Hu) as Hf. unfold first_ok in Hf. rewrite Hact in Hf. destruct Hf as [Hwk _]. unfold wake_of in Hwk. rewrite Ht in Hwk.
    cbn in Hwk. destruct (turn_fires p now w h l t cb Hok Hstop Hu Hact Ht ltac:(lia) Hcb Hw) as (p' & -> & Hok' & Hst & _); [by exists w'|]. by exists p'.
Qed.

(** A pool in use: created, then any operations and turns that are allowed. *)
Definition timer_init (p : pool) : Prop := exists now, new_timer_pool now = Returns p.
Definition timer_next (p p' : pool) : Prop := exists now op, allowed now op p /\ timer_step now op p = Returns p'.

Lemma reachable_pool_ok p : reachable timer_next timer_init p -> pool_ok p /\ m_stop p = false.
Proof.
  induction 1 as [p [now Hn]|p p' _ [Hok Hst] (now & op & Ha & Hs)].
  - unfold new_timer_pool in Hn. destruct (advance now IDLE_MS); try discriminate Hn. injection Hn as <-. split; [|done].
    split; cbn; [constructor| |done]. intros id. split; [by intros []%elem_of_nil|by intros (t & Ht & _)].
  - destruct (timer_step_ok now op p Hok Hst Ha) as (p2 & Hs2 & Hok2). congruence.
Qed.


(** ** Catching up *)

(** How often a timer is to be called until [now]. *)
Definition due_count (now : Z) (t : Timer) : Z :=
  if m_started t && (t_wake t <=? now) then
    if m_single_shot t then 1 else (now - t_wake t) / (m_interval t * 1000000) + 1
  else 0.

Definition total_due (now : Z) (l : list Timer) : Z := foldr (fun t n => due_count now t + n) 0 l.

(** A running timer has a callback and, when it is periodic, an interval that
    stays in range. *)
Definition fits (now : Z) (t : Timer) : Prop :=
  m_started t = true -> is_Some (m_callback t) /\
    (m_single_shot t = false -> 0 < m_interval t /\ now + m_interval t * 1000000 < 2 ^ 63 /\ m_interval t * 1000000 < 2 ^ 63 /\ - 2 ^ 63 <= t_wake t).

Lemma due_nonneg now t : fits now t -> 0 <= due_count now t.
Proof.
  intros Hf. unfold due_count. destruct (m_started t) eqn:Hs; [|done]. destruct (Z.leb_spec (t_wake t) now); cbn [andb]; [|done].
  destruct (m_single_shot t) eqn:Hm; [done|]. destruct (Hf Hs) as [_ Hp]. destruct (Hp Hm) as [Hi _].
  pose proof (Z.div_pos (now - t_wake t) (m_interval t * 1000000)). lia.
Qed.

Lemma due_fired now t : fits now t -> m_started t = true -> t_wake t <= now ->
  due_count now (fired_timer t (t_wake t + m_interval t * 1000000)) = due_count now t - 1.
Proof.
  intros Hf Hs Hd. unfold due_count, fired_timer. rewrite Hs. destruct (Z.leb_spec (t_wake t) now); [|lia]. cbn [andb].
  destruct (m_single_shot t) eqn:Hm; cbn; [done|]. destruct (Hf Hs) as [_ Hp]. destruct (Hp Hm) as [Hi _].
  set (d := m_interval t * 1000000). assert (0 < d) by lia. destruct (Z.leb_spec (t_wake t + d) now).
  - replace (now - t_wake t) with (now - (t_wake t + d) + 1 * d) by lia. rewrite Z.div_add by lia. lia.
  - rewrite (Z.div_small (now - t_wake t) d) by lia. done.
Qed.

Lemma fits_fired now t : fits now t -> t_wake t <= now -> fits now (fired_timer t (t_wake t + m_interval t * 1000000)).
Proof.
  intros Hf Hd. unfold fired_timer, fits in *. destruct (m_single_shot t) eqn:Hm; cbn; [done|]. intros Hs. destruct (Hf Hs) as [Hc Hp]. split; [done|].
  intros _. specialize (Hp eq_refl). split_and!; [tauto..|]. destruct Hp as (? & ? & ? & ?). lia.
Qed.

Lemma total_insert now l : forall i t t', l !! i = Some t -> total_due now (<[i := t']> l) = total_due now l - due_count now t + due_count now t'.
Proof.
  unfold total_due. induction l as [|x l IH]; intros [|i] t t' Hi; try discriminate Hi.
  - injection Hi as ->. cbn. lia.
  - change (<[S i := t']> (x :: l)) with (x :: <[i := t']> l). cbn [foldr]. rewrite (IH i t t' Hi). lia.
Qed.

Lemma total_zero now l : Forall (fits now) l -> 0 <= total_due now l /\ (total_due now l = 0 -> Forall (fun t => due_count now t = 0) l).
Proof.
  induction 1 as [|t l Ht _ [IH0 IH]]; cbn; [by split|]. pose proof (due_nonneg now t Ht). unfold total_due in *. split; [lia|].
  intros Hz. constructor; [lia|]. apply IH. lia.
Qed.

Lemma total_pos now l : 0 < total_due now l -> exists i t, l !! i = Some t /\ 0 < due_count now t.
Proof.
  induction l as [|x l IH]; cbn; [done|]. intros H. destruct (Z.lt_ge_cases 0 (due_count now x)); [by exists 0%nat, x|].
  destruct IH as (i & t & Hi & Ht); [unfold total_due in *; lia|]. by exists (S i), t.
Qed.

Lemma due_zero now t : fits now t -> m_started t = true -> due_count now t = 0 -> now < t_wake t.
Proof.
  intros Hf Hs Hz. destruct (Z.lt_ge_cases now (t_wake t)) as [|Hge]; [done|]. pose proof (due_fired now t Hf Hs ltac:(lia)) as Hd.
  pose proof (due_nonneg now _ (fits_fired now t Hf ltac:(lia))). lia.
Qed.

Lemma due_started now t : 0 < due_count now t -> m_started t = true /\ t_wake t <= now.
Proof. unfold due_count. destruct (m_started t); [|done]. destruct (Z.leb_spec (t_wake t) now); [done|done]. Qed.

Lemma fits_advance now t : fits now t -> m_started t = true -> t_wake t <= now -> m_single_shot t = false ->
  exists w', advance (t_wake t) (m_interval t) = Returns w'.
Proof.
  intros Hf Hs Hd Hm. destruct (Hf Hs) as [_ Hp]. destruct (Hp Hm) as (Hi & Hn & H64 & Hl). unfold advance, in_int64b.
  destruct (Z.leb_spec (- 2 ^ 63) (m_interval t * 1000000)); [|lia]. destruct (Z.ltb_spec (m_interval t * 1000000) (2 ^ 63)); [|lia].
  destruct (Z.leb_spec (- 2 ^ 63) (t_wake t + m_interval t * 1000000)); [|lia].
  destruct (Z.ltb_spec (t_wake t + m_interval t * 1000000) (2 ^ 63)); [|lia]. by eexists.
Qed.

(** The calls of a number of turns, for each timer. *)
Definition calls_of (id : nat) (calls : list (nat * nat)) : Z := Z.of_nat (count_occ Nat.eq_dec calls.*1 id).

Lemma calls_cons id h cb calls : calls_of id ((h, cb) :: calls) = (if decide (id = h) then 1 else 0) + calls_of id calls.
Proof.
  unfold calls_of. change (((h, cb) :: calls).*1) with (h :: calls.*1). cbn [count_occ].
  destruct (Nat.eq_dec h id), (decide (id = h)); subst; done || lia.
Qed.

Definition quiet (now : Z) (p : pool) : Prop :=
  m_update_wakeup_time p = false /\ now < m_wake_up_time_point p /\ forall id, id ∈ m_active_timers p -> now < wake_of p id.

Lemma quiet_when_none p now : pool_ok p -> m_update_wakeup_time p = false -> (m_active_timers p = [] -> now < m_wake_up_time_point p) ->
  Forall (fits now) (p_timers p) -> total_due now (p_timers p) = 0 -> quiet now p.
Proof.
  intros Hok Hu He Hfits Hz. pose proof (proj2 (total_zero now (p_timers p) Hfits) Hz) as Hall.
  assert (Hw : forall id, id ∈ m_active_timers p -> now < wake_of p id).
  { intros id Hin. apply (ok_active p Hok) in Hin as (t & Ht & Hs). unfold wake_of. rewrite Ht. cbn. rewrite Forall_lookup in Hfits, Hall.
    apply due_zero; [by apply (Hfits id)|done|by apply (Hall id)]. }
  split; [done|]. split; [|done]. pose proof (ok_first p Hok Hu) as Hf. unfold first_ok in Hf.
  destruct (m_active_timers p) as [|h l] eqn:Hact; [by apply He|]. destruct Hf as [-> _]. apply Hw. left.
Qed.

Lemma catch_up k : forall p now w, pool_ok p -> m_stop p = false -> m_update_wakeup_time p = false ->
  (m_active_timers p = [] -> now < m_wake_up_time_point p) -> advance now IDLE_MS = Returns w -> now < w ->
  Forall (fits now) (p_timers p) -> total_due now (p_timers p) = Z.of_nat k ->
  exists p' calls, turns k now p = Returns p' /\ fired p' = fired p ++ calls /\ pool_ok p' /\ m_stop p' = false /\ quiet now p' /\
    (forall id, calls_of id calls = default 0 (due_count now <$> p_timers p !! id)) /\
    (forall id cb, (id, cb) ∈ calls -> exists t, p_timers p !! id = Some t /\ m_callback t = Some cb).
Proof.
  induction k as [|k IH]; intros p now w Hok Hst Hu He Hw Hlt Hfits Hk.
  - exists p, []. cbn [turns]. rewrite app_nil_r. pose proof (quiet_when_none p now Hok Hu He Hfits Hk) as Hq. split_and!; try done.
    + intros id. pose proof (proj2 (total_zero now (p_timers p) Hfits) Hk) as Hall. rewrite Forall_lookup in Hall.
      destruct (p_timers p !! id) as [t|] eqn:Ht; [|done]. cbn. by rewrite (Hall id t Ht).
    + intros id cb []%elem_of_nil.
  - destruct (total_pos now (p_timers p)) as (i & ti & Hti & Hpos); [lia|]. apply due_started in Hpos as [Hsi Hdi].
    assert (Hin : i ∈ m_active_timers p) by (apply (ok_active p Hok); by exists ti).
    pose proof (ok_first p Hok Hu) as Hf. unfold first_ok in Hf. destruct (m_active_timers p) as [|h l] eqn:Hact; [by apply elem_of_nil in Hin|].
    destruct Hf as [_ Hmin]. destruct (proj1 (ok_active p Hok h)) as (t & Ht & Hs); [rewrite Hact; left|].
    assert (Hd : t_wake t <= now).
    { specialize (Hmin i Hin). unfold wake_of in Hmin. rewrite Ht, Hti in Hmin. cbn in Hmin. lia. }
    assert (Hft : fits now t) by (rewrite Forall_lookup in Hfits; by apply (Hfits h)). destruct (Hft Hs) as [[cb Hcb] _].
    destruct (turn_fires p now w h l t cb Hok Hst Hu Hact Ht Hd Hcb Hw) as (p1 & Ht1 & Hok1 & Hst1 & Hu1 & Hf1 & Hp1 & _ & _ & Hidle);
      [by apply (fits_advance now)|].
    cbn [turns]. rewrite Ht1. cbn [mbind outcome_bind].
    destruct (IH p1 now w Hok1 Hst1 Hu1) as (p2 & calls & -> & Hf2 & Hok2 & Hst2 & Hq & Hcount & Hcbs).
    { intros E. by rewrite (Hidle E). }
    { done. }
    { done. }
    { rewrite Hp1. apply Forall_insert; [done|]. by apply fits_fired. }
    { rewrite Hp1, (total_insert now _ h t _ Ht), due_fired by done. lia. }
    exists p2, ((h, cb) :: calls). split; [done|]. split; [rewrite Hf2, Hf1, <- app_assoc; done|]. split_and!; try done.
    + intros id. rewrite calls_cons, Hcount, Hp1. destruct (decide (id = h)) as [->|Hne].
      * rewrite list_lookup_insert_eq by (by eapply lookup_lt_Some). rewrite Ht. cbn. rewrite due_fired by done. lia.
      * rewrite list_lookup_insert_ne by done. done.
    + intros id c [E|Hc]%elem_of_cons; [injection E as -> ->; by exists t|]. destruct (Hcbs id c Hc) as (t' & Ht' & Hcb'). rewrite Hp1 in Ht'.
      destruct (decide (id = h)) as [->|Hne].
      * rewrite list_lookup_insert_eq in Ht' by (by eapply lookup_lt_Some). injection Ht' as <-. exists t. split; [done|].
        unfold fired_timer in Hcb'. by destruct (m_single_shot t).
      * rewrite list_lookup_insert_ne in Ht' by done. by exists t'.
Qed.


(** an idle pool breaks after a hundred days: the time it then sleeps
    until has come without a timer to call, and the first timer of the empty
    list is read; and a timer started for a later time than that is called at
    that time already. *)
Theorem idle_pool_breaks t0 p0 : new_timer_pool t0 = Returns p0 ->
  let limit := t0 + IDLE_MS * 1000000 in
  (forall now, limit <= now -> thread_turn now p0 = Undefined) /\
  (forall name cb now i w l, advance now i = Returns w -> limit < w -> advance limit IDLE_MS = Returns l ->
    exists p1 p2 p3, setCallback 0 cb (createTimer name p0).2 = Returns p1 /\ start 0 i true false now p1 = Returns (true, p2) /\
      thread_turn limit p2 = Returns p3 /\ fired p3 = [(0%nat, cb)]).
Proof.
  intros Hn limit. unfold new_timer_pool in Hn. destruct (advance t0 IDLE_MS) as [| |w0] eqn:Hw0; [done..|]. cbn in Hn. injection Hn as <-.
  assert (w0 = limit) as -> by (unfold advance in Hw0; destruct (_ && _); [by injection Hw0 as <-|done]). split.
  - intros now Hle. unfold thread_turn. cbn. by destruct (Z.ltb_spec now limit); [lia|].
  - intros name cb now i w l Hw Hlim Hl. do 3 eexists. split; [reflexivity|]. unfold start, timer_at. cbn [p_timers with_timer createTimer snd app insert list_insert lookup list_lookup ub mbind outcome_bind m_started length].
    rewrite Hw. cbn [mbind outcome_bind]. unfold addTimer, timer_at. cbn. destruct (Z.ltb_spec w limit); [lia|]. split; [reflexivity|].
    unfold thread_turn. cbn. rewrite Z.ltb_irrefl. cbn. unfold computeNextWakeupTimepoint. cbn. rewrite Hl. cbn. split; reflexivity.
Qed.

(** a timer that another thread starts while [stopAllTimers] is between
    its sections is lost: it stays marked as started without being in the list,
    so nothing calls it, starting it again does nothing, and stopping it reads
    the first timer of the empty list. *)
Theorem stop_all_loses_timer p id t i s im now w w' : reachable timer_next timer_init p -> p_timers p !! id = Some t -> m_started t = false ->
  (if im : bool then Returns now else advance now i) = Returns w -> advance now IDLE_MS = Returns w' ->
  exists p1 p2 p3, stop_copied (m_active_timers p) p = Returns p1 /\ start id i s im now p1 = Returns (true, p2) /\ clear_active now p2 = Returns p3 /\
    m_active_timers p3 = [] /\ (forall i' s' im' now', start id i' s' im' now' p3 = Returns (false, p3)) /\ stop_timer id p3 = Undefined.
Proof.
  intros Hr Ht Hs Hw Hw'. destruct (reachable_pool_ok p Hr) as [Hok Hst].
  destruct (stop_copied_spec (m_active_timers p) p Hok) as (p1 & Hp1 & Hok1 & _ & _ & Hlen & Hall).
  { intros j Hin. apply (ok_active p Hok) in Hin as (x & Hx & _). by exists x. }
  destruct (lookup_lt_is_Some_2 (p_timers p1) id) as [t1 Ht1]; [rewrite Hlen; by eapply lookup_lt_Some|].
  assert (Hs1 : m_started t1 = false).
  { destruct (m_started t1) eqn:E; [|done]. destruct (Hall id t1 Ht1 E) as [_ E']. congruence. }
  assert (Hidlt : (id < length (p_timers p1))%nat) by by eapply lookup_lt_Some.
  eexists p1, _, _. split; [done|]. unfold start at 1, timer_at at 1. rewrite Ht1. cbn [ub mbind outcome_bind]. rewrite Hs1, Hw. cbn [mbind outcome_bind].
  unfold addTimer, timer_at at 1. cbn [p_timers with_timer]. rewrite list_lookup_insert_eq by done. cbn [ub mbind outcome_bind]. split; [reflexivity|].
  unfold clear_active, computeNextWakeupTimepoint. cbn [m_active_timers with_active]. rewrite Hw'. split; [reflexivity|]. split; [done|].
  unfold start, stop_timer, timer_at. destruct (_ <? _); cbn; rewrite list_insert_insert_eq, list_lookup_insert_eq by done; done.
Qed.

(** ** Examples *)

Definition demo_pool (l : list Timer) (active : list nat) (update : bool) : pool :=
  Pool l active (IDLE_MS * 1000000) update false [].

Definition demo_single (started : bool) : Timer := MkTimer "single" true 5 5000000 started (Some 1%nat).
Definition demo_periodic (started : bool) : Timer := MkTimer "periodic" false 10 10000000 started (Some 2%nat).
Definition demo_fresh (name : string) (cb : option nat) : Timer := MkTimer name false 0 (- 2 ^ 63) false cb.

Lemma reach_by now op p p' : allowed now op p -> timer_step now op p = Returns p' -> reachable timer_next timer_init p -> reachable timer_next timer_init p'.
Proof. intros Ha Hs Hr. eapply reach_step; [exact Hr|]. by exists now, op. Qed.

Lemma demo_fresh_reachable : reachable timer_next timer_init (demo_pool [demo_fresh "single" (Some 1%nat); demo_fresh "periodic" (Some 2%nat)] [] false).
Proof.
  apply (reach_by 0 (SetCallback 1 2) (demo_pool [demo_fresh "single" (Some 1%nat); demo_fresh "periodic" None] [] false)); [by eexists|reflexivity|].
  apply (reach_by 0 (SetCallback 0 1) (demo_pool [demo_fresh "single" None; demo_fresh "periodic" None] [] false)); [by eexists|reflexivity|].
  apply (reach_by 0 (Create "periodic") (demo_pool [demo_fresh "single" None] [] false)); [done|reflexivity|].
  apply (reach_by 0 (Create "single") (demo_pool [] [] false)); [done|reflexivity|].
  apply reach_init. exists 0. vm_compute. reflexivity.
Qed.

Lemma demo_running : reachable timer_next timer_init (demo_pool [demo_single true; demo_periodic true] [0%nat; 1%nat] true).
Proof.
  apply (reach_by 0 (Start 1 10 false false) (demo_pool [demo_single true; demo_fresh "periodic" (Some 2%nat)] [0%nat] true));
    [by eexists _, _; split; [reflexivity|]; split; [reflexivity|left]|vm_compute; reflexivity|].
  apply (reach_by 0 (Start 0 5 true false) (demo_pool [demo_fresh "single" (Some 1%nat); demo_fresh "periodic" (Some 2%nat)] [] false));
    [eexists _, _; split; [reflexivity|]; split; [reflexivity|right; right; vm_compute; reflexivity]|vm_compute; reflexivity|].
  apply demo_fresh_reachable.
Qed.


Lemma demo_timers_fit : Forall (fits 25000000) [demo_single true; demo_periodic true].
Proof. repeat constructor; cbn; done || lia. Qed.


Lemma idle_pool_breaks_witness : exists p0, new_timer_pool 0 = Returns p0 /\ thread_turn (IDLE_MS * 1000000) p0 = Undefined.
Proof.
  exists (demo_pool [] [] false). assert (Hn : new_timer_pool 0 = Returns (demo_pool [] [] false)) by (vm_compute; reflexivity).
  split; [exact Hn|]. apply (proj1 (idle_pool_breaks 0 _ Hn)). reflexivity.
Defined.

Lemma stop_all_loses_timer_witness : exists p1 p2 p3,
  stop_copied [] (demo_pool [demo_fresh "single" (Some 1%nat); demo_fresh "periodic" (Some 2%nat)] [] false) = Returns p1 /\
  start 0 5 true false 0 p1 = Returns (true, p2) /\ clear_active 0 p2 = Returns p3 /\ m_active_timers p3 = [] /\ stop_timer 0 p3 = Undefined.
Proof.
  destruct (stop_all_loses_timer _ 0 (demo_fresh "single" (Some 1%nat)) 5 true false 0 5000000 (IDLE_MS * 1000000) demo_fresh_reachable
    eq_refl eq_refl eq_refl eq_refl) as (p1 & p2 & p3 & H1 & H2 & H3 & H4 & _ & H5).
  exists p1, p2, p3. split; [exact H1|]. split; [exact H2|]. split; [exact H3|]. split; [exact H4|exact H5].
Defined.
