(* ===== verification/OcppThreadPool.v ===== *)
(** * The thread pool of the OCPP code
      ([src/src/ocpp/tool/threadpool/ThreadPool.h])

    A fixed number of threads that take tasks from one queue.  A step is one
    thread's hold of the mutex, or the run of a task, which happens without it;
    a wait on the condition is over when its test is true.  A task is a number
    here: what it does belongs to its owner. *)

From S2P Require Import Prelude.

(** ** Data *)

Inductive worker := Waiting | Running (task : nat) | Ended.

#[global] Instance worker_eq_dec : EqDecision worker.
Proof. solve_decision. Defined.

(** [submitted] and [completed] are the tasks [enqueue] took and those that
    were run to their end. *)
Record thread_pool := Pool {
  workers : list worker;
  queue_tasks : list nat;
  stopping : bool;
  submitted : list nat;
  completed : list nat }.

Definition new_pool (threads : nat) : thread_pool := Pool (replicate threads Waiting) [] false [] [].

Definition with_worker (i : nat) (x : worker) (p : thread_pool) : thread_pool :=
  Pool (<[i := x]> (workers p)) (queue_tasks p) (stopping p) (submitted p) (completed p).

(** ** Operations *)

(** [None] is the exception: the pool has been stopped. *)
Definition enqueue (task : nat) (p : thread_pool) : option thread_pool :=
  if stopping p then None
  else Some (Pool (workers p) (queue_tasks p ++ [task]) false (submitted p ++ [task]) (completed p)).

(** A waiting thread goes on: [None] while it has to wait. *)
Definition take_task (i : nat) (p : thread_pool) : option thread_pool :=
  match workers p !! i with
  | Some Waiting =>
    if negb (stopping p || negb (bool_decide (queue_tasks p = []))) then None
    else if stopping p && bool_decide (queue_tasks p = []) then Some (with_worker i Ended p)
    else match queue_tasks p with
         | task :: rest => Some (with_worker i (Running task) (Pool (workers p) rest (stopping p) (submitted p) (completed p)))
         | [] => None
         end
  | _ => None
  end.

(** The task ends, and the thread goes back to the top of its loop. *)
Definition finish_task (i : nat) (p : thread_pool) : option thread_pool :=
  match workers p !! i with
  | Some (Running task) => Some (with_worker i Waiting (Pool (workers p) (queue_tasks p) (stopping p) (submitted p) (completed p ++ [task])))
  | _ => None
  end.

(** The destructor: it stops the pool, and returns when all threads have
    ended. *)
Definition stop_pool (p : thread_pool) : thread_pool := Pool (workers p) (queue_tasks p) true (submitted p) (completed p).
Definition joined_all (p : thread_pool) : bool := forallb (fun x => bool_decide (x = Ended)) (workers p).

(** ** Steps *)

Inductive worker_step : thread_pool -> thread_pool -> Prop :=
  | worker_take p i p' : take_task i p = Some p' -> worker_step p p'
  | worker_finish p i p' : finish_task i p = Some p' -> worker_step p p'.

Inductive pool_step : thread_pool -> thread_pool -> Prop :=
  | pool_worker p p' : worker_step p p' -> pool_step p p'
  | pool_enqueue p task p' : enqueue task p = Some p' -> pool_step p p'
  | pool_stop p : pool_step p (stop_pool p).

Definition reachable_pool (threads : nat) : thread_pool -> Prop := reachable pool_step (fun p => p = new_pool threads).

(** ** The invariant *)

Definition in_hand (x : worker) : list nat := match x with Running task => [task] | _ => [] end.
Definition in_hands (l : list worker) : list nat := concat (in_hand <$> l).

Record pool_ok (threads : nat) (p : thread_pool) : Prop := {
  ok_threads : length (workers p) = threads;
  ok_tasks : submitted p ≡ₚ completed p ++ in_hands (workers p) ++ queue_tasks p;
  ok_ended : Ended ∈ workers p -> stopping p = true /\ queue_tasks p = [] }.

Lemma in_hands_insert l i x y : l !! i = Some x -> in_hands (<[i := y]> l) ++ in_hand x ≡ₚ in_hand y ++ in_hands l.
Proof.
  intros Hi. unfold in_hands. rewrite list_fmap_insert. assert (Hi' : (in_hand <$> l) !! i = Some (in_hand x)) by (by rewrite list_lookup_fmap, Hi).
  assert (Hlt : (i < length (in_hand <$> l))%nat) by by eapply lookup_lt_Some.
  rewrite insert_take_drop by done. rewrite <- (take_drop_middle _ _ _ Hi') at 3. rewrite !concat_app. cbn [concat]. solve_Permutation.
Qed.

Lemma ended_insert (l : list worker) i y : y <> Ended -> Ended ∈ <[i := y]> l -> Ended ∈ l.
Proof.
  intros Hy. rewrite list_elem_of_lookup. intros [j Hj]. apply list_lookup_insert_Some in Hj as [(-> & ? & _)|[_ Hj]]; [done|].
  by eapply list_elem_of_lookup_2.
Qed.

Lemma take_ok n i p p' : pool_ok n p -> take_task i p = Some p' -> pool_ok n p'.
Proof.
  intros [Hn Ht He]. unfold take_task. destruct (workers p !! i) as [[| |]|] eqn:Hi; try done.
  destruct (negb _); [done|]. destruct (_ && _) eqn:Hs.
  - intros [= <-]. apply andb_true_iff in Hs as [Hs Hq%bool_decide_eq_true].
    split; cbn [workers queue_tasks stopping submitted completed with_worker]; [by rewrite length_insert| |by split].
    rewrite Ht, Hq, !app_nil_r. f_equiv. pose proof (in_hands_insert _ _ _ Ended Hi) as Hp. cbn [in_hand app] in Hp. by rewrite app_nil_r in Hp.
  - destruct (queue_tasks p) as [|task rest] eqn:Hq; [done|]. intros [= <-].
    split; cbn [workers queue_tasks stopping submitted completed with_worker]; [by rewrite length_insert| |].
    + rewrite Ht. f_equiv. pose proof (in_hands_insert _ _ _ (Running task) Hi) as Hp. cbn [in_hand app] in Hp. rewrite app_nil_r in Hp.
      rewrite Hp. cbn [app]. by rewrite Permutation_middle.
    + intros Hend. apply ended_insert in Hend; [|done]. destruct (He Hend) as [_ ?]. done.
Qed.

Lemma finish_ok n i p p' : pool_ok n p -> finish_task i p = Some p' -> pool_ok n p'.
Proof.
  intros [Hn Ht He]. unfold finish_task. destruct (workers p !! i) as [[|task|]|] eqn:Hi; try done. intros [= <-].
  split; cbn [workers queue_tasks stopping submitted completed with_worker]; [by rewrite length_insert| |].
  - rewrite Ht. pose proof (in_hands_insert _ _ _ Waiting Hi) as Hp. cbn [in_hand app] in Hp. rewrite <- Hp, <- !app_assoc. cbn [app]. solve_Permutation.
  - intros Hend. apply He. eapply ended_insert; [|exact Hend]. done.
Qed.

Lemma pool_step_ok n p p' : pool_ok n p -> pool_step p p' -> pool_ok n p'.
Proof.
  intros Hok Hst. revert Hok. destruct Hst as [q q' Hw|q task q' He|q]; [destruct Hw as [q i q' Hs|q i q' Hs]; intros Hok; [by eapply take_ok|by eapply finish_ok]| |]; intros Hok.
  - destruct Hok as [Hn Ht Hen]. unfold enqueue in He. destruct (stopping q) eqn:Hs; [done|]. injection He as <-.
    split; cbn [workers queue_tasks stopping submitted completed]; [done|by rewrite Ht, <- !app_assoc|].
    intros Hin. by destruct (Hen Hin).
  - destruct Hok as [Hn Ht Hen]. split; cbn [workers queue_tasks stopping submitted completed stop_pool]; [done|done|].
    intros Hin. split; [done|]. by destruct (Hen Hin).
Qed.

Lemma reachable_threads_ok n p : reachable_pool n p -> pool_ok n p.
Proof.
  induction 1 as [p ->|p p' _ IH Hst]; [|by eapply pool_step_ok]. split; cbn; [by rewrite length_replicate| |].
  - unfold in_hands. by induction n.
  - intros Hin. by apply elem_of_replicate in Hin as [? _].
Qed.

(** ** Progress *)

Definition weight (x : worker) : nat := match x with Ended => 0 | Waiting => 1 | Running _ => 2 end.

(** The steps the threads can still make without new tasks. *)
Fixpoint weights (l : list worker) : nat := match l with [] => 0 | x :: l' => (weight x + weights l')%nat end.
Definition work (p : thread_pool) : nat := (3 * length (queue_tasks p) + weights (workers p))%nat.

Lemma weight_insert l i x y : l !! i = Some x -> (weights (<[i := y]> l) + weight x = weights l + weight y)%nat.
Proof.
  revert i. induction l as [|z l IH]; intros [|i] Hi; [done|done|injection Hi as ->; cbn [weights]; change (<[0%nat := y]> (x :: l)) with (y :: l); cbn [weights]; lia|].
  change (<[S i := y]> (z :: l)) with (z :: <[i := y]> l). specialize (IH i Hi). cbn [weights]. lia.
Qed.

Lemma worker_step_work p p' : worker_step p p' -> (work p' < work p)%nat.
Proof.
  unfold work. intros [q i q' Hs|q i q' Hs]; revert Hs.
  - unfold take_task. destruct (workers q !! i) as [[| |]|] eqn:Hi; try done. destruct (negb _); [done|]. destruct (_ && _).
    + intros [= <-]. cbn [workers queue_tasks with_worker]. pose proof (weight_insert _ _ _ Ended Hi). cbn [weight] in *. lia.
    + destruct (queue_tasks q) as [|task rest]; [done|]. intros [= <-]. cbn [workers queue_tasks with_worker length].
      pose proof (weight_insert _ _ _ (Running task) Hi). cbn [weight] in *. lia.
  - unfold finish_task. destruct (workers q !! i) as [[|task|]|] eqn:Hi; try done. intros [= <-]. cbn [workers queue_tasks with_worker].
    pose proof (weight_insert _ _ _ Waiting Hi). cbn [weight] in *. lia.
Qed.

Lemma not_joined p : joined_all p = false -> exists i x, workers p !! i = Some x /\ x <> Ended.
Proof.
  unfold joined_all. induction (workers p) as [|x l IH]; cbn [forallb]; [done|]. intros Hj. apply andb_false_iff in Hj as [Hx|Hl].
  - exists 0%nat, x. split; [done|]. by apply bool_decide_eq_false in Hx.
  - destruct (IH Hl) as (i & y & Hi & Hy). by exists (S i), y.
Qed.

Lemma stopped_goes_on p : stopping p = true -> joined_all p = false -> exists p', worker_step p p'.
Proof.
  intros Hs (i & x & Hi & Hx)%not_joined. destruct x as [|task|]; [| |done].
  - unshelve eexists; [|apply (worker_take p i); unfold take_task; rewrite Hi, Hs; cbn [orb negb andb]].
    + exact (match queue_tasks p with [] => with_worker i Ended p
       | task :: rest => with_worker i (Running task) (Pool (workers p) rest (stopping p) (submitted p) (completed p)) end).
    + rewrite Hs. by destruct (queue_tasks p).
  - eexists. apply (worker_finish p i). unfold finish_task. by rewrite Hi.
Qed.

Lemma worker_step_keeps p p' : worker_step p p' -> submitted p' = submitted p /\ stopping p' = stopping p.
Proof.
  intros [q i q' Hs|q i q' Hs]; revert Hs.
  - unfold take_task. destruct (workers q !! i) as [[| |]|]; try done. destruct (negb _); [done|]. destruct (_ && _); [by intros [= <-]|].
    destruct (queue_tasks q); [done|by intros [= <-]].
  - unfold finish_task. destruct (workers q !! i) as [[| |]|]; try done. by intros [= <-].
Qed.

Lemma all_ended p : joined_all p = true -> in_hands (workers p) = [] /\ (workers p <> [] -> Ended ∈ workers p).
Proof.
  unfold joined_all, in_hands. induction (workers p) as [|x l IH]; cbn [forallb]; [done|]. intros [Hx Hl]%andb_true_iff.
  apply bool_decide_eq_true in Hx as ->. csimpl. cbn [in_hand app]. destruct (IH Hl) as [-> _]. split; [done|]. intros _. apply elem_of_cons. by left.
Qed.

Lemma joined_complete n p : (0 < n)%nat -> pool_ok n p -> joined_all p = true -> completed p ≡ₚ submitted p.
Proof.
  intros Hn [Hl Ht He] Hj. destruct (all_ended p Hj) as [Hh Hend]. destruct He as [_ Hq]; [apply Hend; intros E; rewrite E in Hl; cbn in Hl; lia|].
  by rewrite Ht, Hh, Hq, !app_nil_r.
Qed.

Lemma stopped_ends n k : forall p, (work p <= k)%nat -> reachable_pool n p -> stopping p = true ->
  exists p', rtc worker_step p p' /\ reachable_pool n p' /\ joined_all p' = true /\ submitted p' = submitted p.
Proof.
  induction k as [|k IH]; intros p Hk Hr Hs; destruct (joined_all p) eqn:Hj; try by exists p.
  - destruct (stopped_goes_on p Hs Hj) as [p' Hp]. pose proof (worker_step_work _ _ Hp). lia.
  - destruct (stopped_goes_on p Hs Hj) as [p' Hp]. pose proof (worker_step_work _ _ Hp). destruct (worker_step_keeps _ _ Hp) as [Hsub Hst].
    destruct (IH p') as (p2 & Hrt & Hr2 & Hj2 & Hs2); [lia|eapply reach_step; [exact Hr|by constructor]|by rewrite Hst|].
    exists p2. split_and!; [by eapply rtc_l|done|done|by rewrite Hs2].
Qed.

(** ** Properties *)

(** C19: in every state each task the pool took is finished, in one thread's
    hands or in the queue, once; a pool that is stopped takes no more; from
    there every choice of a thread's step brings the end nearer, some thread
    can always go on until all have ended, and then, when the pool has
    threads, every task has been run. *)
Theorem every_task_runs n p : (0 < n)%nat -> reachable_pool n p ->
  submitted p ≡ₚ completed p ++ in_hands (workers p) ++ queue_tasks p /\
  (joined_all p = true -> completed p ≡ₚ submitted p) /\
  (stopping p = true -> (forall task, enqueue task p = None) /\ (forall p', worker_step p p' -> (work p' < work p)%nat) /\
    exists p', rtc worker_step p p' /\ joined_all p' = true /\ completed p' ≡ₚ submitted p).
Proof.
  intros Hn Hr. pose proof (reachable_threads_ok n p Hr) as Hok. split_and!; [apply Hok|by apply (joined_complete n)|].
  intros Hs. split_and!; [intros task; unfold enqueue; by rewrite Hs|apply worker_step_work|].
  destruct (stopped_ends n (work p) p) as (p' & Hrt & Hr' & Hj & Hsub); [done..|]. exists p'. split_and!; [done|done|].
  rewrite <- Hsub. by apply (joined_complete n); [|apply reachable_threads_ok|].
Qed.

Definition demo_pool : thread_pool := Pool [Waiting; Waiting] [7%nat; 8%nat] true [7%nat; 8%nat] [].

Lemma every_task_runs_witness : exists p', rtc worker_step demo_pool p' /\ joined_all p' = true /\ completed p' ≡ₚ [7%nat; 8%nat].
Proof.
  assert (Hr : reachable_pool 2 demo_pool).
  { apply (reach_step _ _ (Pool [Waiting; Waiting] [7%nat; 8%nat] false [7%nat; 8%nat] [])); [|apply pool_stop].
    apply (reach_step _ _ (Pool [Waiting; Waiting] [7%nat] false [7%nat] [])); [|by apply (pool_enqueue _ 8%nat)].
    apply (reach_step _ _ (new_pool 2)); [by constructor|by apply (pool_enqueue _ 7%nat)]. }
  exact (proj2 (proj2 (proj2 (proj2 (every_task_runs 2 demo_pool ltac:(lia) Hr)) eq_refl))).
Defined.

(** A pool without threads has its destructor return with the tasks not run. *)
Lemma no_threads_no_tasks : exists p, reachable_pool 0 p /\ joined_all p = true /\ submitted p = [7%nat] /\ completed p = [].
Proof.
  exists (Pool [] [7%nat] false [7%nat] []). split_and!; try done.
  apply (reach_step _ _ (new_pool 0)); [by constructor|by apply (pool_enqueue _ 7%nat)].
Qed.
