(* ===== verification/OcppExecutor.v ===== *)
(** * The executor of the OCPP database ([src/src/ocpp/tool/database/DBExecutor.h])

    One thread runs the tasks that all others post, one at a time, while who
    posted waits for the result.  The threads that post are callers with the
    tasks they still have to post; a task is a sequence of actions on what the
    worker thread alone touches, or, as in [Database::open], itself a post that
    waits.  A step is one thread's hold of the mutex or one action of the
    running task.

    The specification is a monitor, where a call takes effect in one step
    between its start and its return; the executor refines it. *)

From S2P Require Import Prelude.

(** ** Data *)

#[local] Unset Elimination Schemes.
Inductive action (A : Type) :=
  | Do (a : A)
  | PostWait (task : list (action A)).
#[local] Set Elimination Schemes.
Arguments Do {A}.
Arguments PostWait {A}.

Section Executor.
Context {St R A : Type} (act : A -> St -> R -> St * R) (r0 : R).

Abbreviation db_task := (list (action A)).

(** [calls]: the calls of [postAndWait] still to return, the first of which
    has been posted when [waits] has the number of its future. *)
Record db_caller := Caller {
  calls : list db_task;
  waits : option nat;
  results : list R
}.

(** The worker: at the wait of [run], in a task with its actions left and its
    result so far, in a task that waits for a future, or after [run]. *)
Inductive db_worker :=
  | Idle
  | Busy (ticket : nat) (rest : db_task) (r : R)
  | Stuck (ticket other : nat) (rest : db_task) (r : R)
  | Returned.

(** A task is queued with the number of its future.  [executed]: the tasks
    that ended, in order; [posted]: how many were posted. *)
Record executor := Executor {
  m_tasks : list (nat * db_task);
  m_running : bool;
  m_worker : db_worker;
  store : St;
  futures : gmap nat R;
  executed : list nat;
  posted : nat;
  callers : list db_caller
}.

Definition new_executor (s : St) (l : list (list db_task)) : executor :=
  Executor [] true Idle s ∅ [] 0 ((fun ts => Caller ts None []) <$> l).

Definition with_caller (i : nat) (c : db_caller) (e : executor) : executor :=
  Executor (m_tasks e) (m_running e) (m_worker e) (store e) (futures e) (executed e) (posted e) (<[i := c]> (callers e)).
Definition with_db_worker (w : db_worker) (e : executor) : executor :=
  Executor (m_tasks e) (m_running e) w (store e) (futures e) (executed e) (posted e) (callers e).

(** ** Operations *)

(** [emplace] and [notify_one]. *)
Definition emplace (t : db_task) (e : executor) : executor :=
  Executor (m_tasks e ++ [(posted e, t)]) (m_running e) (m_worker e) (store e) (futures e) (executed e) (S (posted e)) (callers e).

(** [postAndWait] up to its wait, by caller [i]. *)
Definition post (i : nat) (e : executor) : option executor :=
  match callers e !! i with
  | Some (Caller (t :: rest) None rs) => Some (with_caller i (Caller (t :: rest) (Some (posted e)) rs) (emplace t e))
  | _ => None
  end.

(** [future.get()]: [None] while the result is missing. *)
Definition future_get (i : nat) (e : executor) : option executor :=
  match callers e !! i with
  | Some (Caller (t :: rest) (Some k) rs) =>
    r ← futures e !! k; Some (with_caller i (Caller rest None (rs ++ [r])) e)
  | _ => None
  end.

(** The worker: [None] when it has to wait or has ended. *)
Definition run_worker (e : executor) : option executor :=
  match m_worker e with
  | Idle =>
    match m_tasks e with
    | (k, t) :: q => Some (Executor q (m_running e) (Busy k t r0) (store e) (futures e) (executed e) (posted e) (callers e))
    | [] => if m_running e then None else Some (with_db_worker Returned e)
    end
  | Busy k [] r =>
    Some (Executor (m_tasks e) (m_running e) Idle (store e) (<[k := r]> (futures e)) (executed e ++ [k]) (posted e) (callers e))
  | Busy k (Do a :: rest) r =>
    let '(s', r') := act a (store e) r in
    Some (Executor (m_tasks e) (m_running e) (Busy k rest r') s' (futures e) (executed e) (posted e) (callers e))
  | Busy k (PostWait t :: rest) r => Some (with_db_worker (Stuck k (posted e) rest r) (emplace t e))
  | Stuck k other rest r => _ ← futures e !! other; Some (with_db_worker (Busy k rest r) e)
  | Returned => None
  end.

(** The destructor stops the loop, and returns when the worker has ended. *)
Definition stop_executor (e : executor) : executor :=
  Executor (m_tasks e) false (m_worker e) (store e) (futures e) (executed e) (posted e) (callers e).
Definition isRunning (e : executor) : bool := m_running e.

(** ** Steps *)

Inductive caller_step (e e' : executor) : Prop :=
  | call_post i : post i e = Some e' -> caller_step e e'
  | call_get i : future_get i e = Some e' -> caller_step e e'
  | call_run : run_worker e = Some e' -> caller_step e e'.

Inductive executor_step (e : executor) : executor -> Prop :=
  | executor_call e' : caller_step e e' -> executor_step e e'
  | executor_stop : executor_step e (stop_executor e).

Definition reachable_executor (s : St) (l : list (list db_task)) : executor -> Prop :=
  reachable executor_step (fun e => e = new_executor s l).

(** Steps in a given order. *)
Inductive choice := ByPost (i : nat) | ByGet (i : nat) | ByWorker | ByStop.

Definition choose (c : choice) (e : executor) : option executor :=
  match c with
  | ByPost i => post i e
  | ByGet i => future_get i e
  | ByWorker => run_worker e
  | ByStop => Some (stop_executor e)
  end.

Fixpoint schedule (l : list choice) (e : executor) : option executor :=
  match l with [] => Some e | c :: l' => e' ← choose c e; schedule l' e' end.

Lemma choose_step c e e' : choose c e = Some e' -> executor_step e e'.
Proof.
  destruct c; cbn; intros Hc; [by eapply executor_call, call_post|by eapply executor_call, call_get|by apply executor_call, call_run|].
  injection Hc as <-. apply executor_stop.
Qed.

Lemma schedule_steps l : forall e e', schedule l e = Some e' -> rtc executor_step e e'.
Proof.
  induction l as [|c l IH]; intros e e'; cbn [schedule]; [intros [= <-]; apply rtc_refl|].
  intros (e2 & He2 & He)%bind_Some. eapply rtc_l; [by eapply choose_step|by apply IH].
Qed.

Lemma steps_reachable s l e e' : rtc executor_step e e' -> reachable_executor s l e -> reachable_executor s l e'.
Proof. induction 1 as [|e e2 e3 Hst _ IH]; [done|]. intros Hr. apply IH. by eapply reach_step. Qed.

Lemma schedule_reachable s l sched e : schedule sched (new_executor s l) = Some e -> reachable_executor s l e.
Proof. intros Hs%schedule_steps. eapply steps_reachable; [exact Hs|by constructor]. Qed.

(** ** The specification: a monitor *)

(** A task without a post inside. *)
Definition flat (t : db_task) : bool := forallb (fun x => match x with Do _ => true | PostWait _ => false end) t.

Fixpoint run_actions (t : db_task) (s : St) (r : R) : St * R :=
  match t with
  | [] => (s, r)
  | Do a :: rest => let '(s', r') := act a s r in run_actions rest s' r'
  | PostWait _ :: rest => run_actions rest s r
  end.

(** A client between calls, in a call without effect yet, or with its result. *)
Record client := Client {
  todo : list db_task;
  phase : option (option R);
  got : list R
}.
Record monitor := Monitor { m_store : St; clients : list client }.

Inductive monitor_step (m : monitor) : monitor -> Prop :=
  | monitor_invoke i t rest rs : clients m !! i = Some (Client (t :: rest) None rs) ->
    monitor_step m (Monitor (m_store m) (<[i := Client (t :: rest) (Some None) rs]> (clients m)))
  | monitor_run i t rest rs : clients m !! i = Some (Client (t :: rest) (Some None) rs) ->
    monitor_step m (Monitor (run_actions t (m_store m) r0).1
      (<[i := Client (t :: rest) (Some (Some (run_actions t (m_store m) r0).2)) rs]> (clients m)))
  | monitor_return i t rest r rs : clients m !! i = Some (Client (t :: rest) (Some (Some r)) rs) ->
    monitor_step m (Monitor (m_store m) (<[i := Client rest None (rs ++ [r])]> (clients m))).

Definition new_monitor (s : St) (l : list (list db_task)) : monitor := Monitor s ((fun ts => Client ts None []) <$> l).

(** The executor seen as a monitor: a task has taken effect once it is taken. *)
Definition answer (e : executor) (k : nat) : option R :=
  match futures e !! k with
  | Some r => Some r
  | None =>
    match m_worker e with
    | Busy k' rest r => if bool_decide (k = k') then Some (run_actions rest (store e) r).2 else None
    | _ => None
    end
  end.
Definition as_client (e : executor) (c : db_caller) : client := Client (calls c) (answer e <$> waits c) (results c).
Definition final_store (e : executor) : St :=
  match m_worker e with Busy _ rest r => (run_actions rest (store e) r).1 | _ => store e end.
Definition as_monitor (e : executor) : monitor := Monitor (final_store e) (as_client e <$> callers e).

(** ** The order of tasks *)

Definition in_worker (w : db_worker) : list nat := match w with Busy k _ _ | Stuck k _ _ _ => [k] | _ => [] end.

Record executor_ok (e : executor) : Prop := {
  ok_order : executed e ++ in_worker (m_worker e) ++ (m_tasks e).*1 = seq 0 (posted e);
  ok_futures k : is_Some (futures e !! k) <-> k ∈ executed e;
  ok_stuck k other rest r : m_worker e = Stuck k other rest r -> other ∈ (m_tasks e).*1;
  ok_returned : m_worker e = Returned -> m_running e = false
}.

Lemma order_snoc (e : executor) t : executor_ok e -> executed e ++ in_worker (m_worker e) ++ (m_tasks e ++ [(posted e, t)]).*1 = seq 0 (S (posted e)).
Proof. intros Hok. rewrite fmap_app, seq_S, <- (ok_order _ Hok), <- !app_assoc. done. Qed.

Lemma post_executor_ok i e e' : executor_ok e -> post i e = Some e' -> executor_ok e'.
Proof.
  intros Hok. unfold post. destruct (callers e !! i) as [[[|t rest] [k|] rs]|]; try done. intros [= <-].
  split; cbn; [by apply order_snoc|apply Hok| |apply Hok]. intros k o rest' r Hw. rewrite fmap_app, elem_of_app. left. by eapply ok_stuck.
Qed.

Lemma get_executor_ok i e e' : executor_ok e -> future_get i e = Some e' -> executor_ok e'.
Proof.
  intros Hok. unfold future_get. destruct (callers e !! i) as [[[|t rest] [k|] rs]|]; try done. intros (r & _ & [= <-])%bind_Some.
  destruct Hok. by split.
Qed.

Lemma run_executor_ok e e' : executor_ok e -> run_worker e = Some e' -> executor_ok e'.
Proof.
  intros Hok. destruct (Hok) as [Ho Hf Hs Hr]. unfold run_worker. destruct (m_worker e) as [|k [|[a|t] rest] r|k o rest r|] eqn:Hw; try done.
  - destruct (m_tasks e) as [|[k t] q] eqn:Hq; [destruct (m_running e) eqn:Hm; [done|]|]; intros [= <-]; split; cbn; try done. by rewrite Hq.
  - intros [= <-]. split; cbn; [by rewrite <- Ho, <- app_assoc| |done|done].
    intros k'. rewrite lookup_insert_is_Some, Hf, elem_of_app, list_elem_of_singleton. destruct (decide (k = k')); naive_solver.
  - destruct (act a (store e) r) as [s' r']. intros [= <-]. by split.
  - intros [= <-]. split; cbn; [|done| |done].
    + pose proof (order_snoc e t Hok) as E. by rewrite Hw in E.
    + intros ? ? ? ? [= <- <- <- <-]. rewrite fmap_app, elem_of_app. right. by apply list_elem_of_singleton.
  - intros (x & _ & [= <-])%bind_Some. by split.
Qed.

Lemma executor_step_ok e e' : executor_ok e -> executor_step e e' -> executor_ok e'.
Proof.
  intros Hok [e2 [i Hs|i Hs|Hs]|]; [by eapply post_executor_ok|by eapply get_executor_ok|by eapply run_executor_ok|].
  destruct Hok. by split.
Qed.

Lemma reachable_executor_ok s l e : reachable_executor s l e -> executor_ok e.
Proof.
  induction 1 as [e ->|e e' _ IH Hst]; [|by eapply executor_step_ok]. split; cbn; [done| |done|done].
  intros k. rewrite lookup_empty, elem_of_nil. split; [intros [? [=]]|done].
Qed.

(** A future that is not there when its task waits or runs. *)
Lemma not_executed e k : executor_ok e -> k ∈ in_worker (m_worker e) ++ (m_tasks e).*1 \/ (posted e <= k)%nat -> futures e !! k = None.
Proof.
  intros Hok Hk. apply eq_None_not_Some. rewrite (ok_futures _ Hok). intros Hin. pose proof (NoDup_seq 0 (posted e)) as Hn.
  rewrite <- (ok_order _ Hok) in Hn. apply NoDup_app in Hn as (_ & Hn & _). destruct Hk as [Hk|Hk]; [by eapply Hn|].
  assert (Hl : k ∈ seq 0 (posted e)) by (rewrite <- (ok_order _ Hok), elem_of_app; by left). apply elem_of_seq in Hl. lia.
Qed.

(** ** Waiting for oneself *)

Lemma stuck_step k o rest r e e' : executor_ok e -> m_worker e = Stuck k o rest r -> executor_step e e' ->
  m_worker e' = Stuck k o rest r /\ futures e' = futures e.
Proof.
  intros Hok Hw [e2 [i Hs|i Hs|Hs]|]; [| | |done].
  - revert Hs. unfold post. destruct (callers e !! i) as [[[|t l] [n|] rs]|]; try done. by intros [= <-].
  - revert Hs. unfold future_get. destruct (callers e !! i) as [[[|t l] [n|] rs]|]; try done. by intros (x & _ & [= <-])%bind_Some.
  - revert Hs. unfold run_worker. rewrite Hw. rewrite (not_executed e o Hok); [done|]. left. apply elem_of_app. right. by eapply ok_stuck.
Qed.

Lemma stuck_for_ever k o rest r e e' : rtc executor_step e e' -> executor_ok e -> m_worker e = Stuck k o rest r ->
  m_worker e' = Stuck k o rest r /\ futures e' = futures e.
Proof.
  induction 1 as [|e e2 e3 Hst _ IH]; [done|]. intros Hok Hw. destruct (stuck_step _ _ _ _ _ _ Hok Hw Hst) as [Hw2 Hf2].
  destruct IH as [Hw3 Hf3]; [by eapply executor_step_ok|done|]. by rewrite Hf3.
Qed.
(** ** Tasks without a post inside *)

Definition flat_worker (w : db_worker) : Prop := match w with Busy _ rest _ => flat rest = true | Stuck _ _ _ _ => False | _ => True end.

(** Each task of the queue is the current call of the one caller that waits
    for it. *)
Record flat_ok (e : executor) : Prop := {
  flat_executor : executor_ok e;
  flat_tasks k t : (k, t) ∈ m_tasks e -> exists i rest rs, callers e !! i = Some (Caller (t :: rest) (Some k) rs);
  flat_running : flat_worker (m_worker e);
  flat_waits i j c d k : callers e !! i = Some c -> callers e !! j = Some d -> waits c = Some k -> waits d = Some k -> i = j;
  flat_posted i c k : callers e !! i = Some c -> waits c = Some k -> (k < posted e)%nat /\ calls c <> [];
  flat_calls i c : callers e !! i = Some c -> Forall (fun t => flat t = true) (calls c)
}.

Lemma post_flat_ok i e e' : flat_ok e -> post i e = Some e' -> flat_ok e'.
Proof.
  intros [Hok Ht Hw Hu Hp Hc] Hs. pose proof (post_executor_ok _ _ _ Hok Hs) as Hok'. revert Hs Hok'.
  unfold post. destruct (callers e !! i) as [[[|t rest] [k|] rs]|] eqn:Hi; try done. intros [= <-] Hok'.
  split; cbn; try done.
  - intros k t'. rewrite elem_of_app, list_elem_of_singleton. intros [Hin|[= -> ->]].
    + destruct (Ht _ _ Hin) as (j & rest' & rs' & Hj). exists j, rest', rs'. rewrite list_lookup_insert_ne; [done|]. intros ->. congruence.
    + exists i, rest, rs. rewrite list_lookup_insert_eq; [done|by eapply lookup_lt_Some].
  - intros j1 j2 c d k H1 H2 Hk1 Hk2.
    apply list_lookup_insert_Some in H1 as [(<- & <- & _)|[Hn1 H1]], H2 as [(<- & <- & _)|[Hn2 H2]]; cbn in *; try done.
    + injection Hk1 as <-. destruct (Hp _ _ _ H2 Hk2). lia.
    + injection Hk2 as <-. destruct (Hp _ _ _ H1 Hk1). lia.
    + by eapply Hu.
  - intros j c k H1 Hk. apply list_lookup_insert_Some in H1 as [(<- & <- & _)|[Hn1 H1]]; cbn in *; [injection Hk as <-; split; [lia|done]|].
    destruct (Hp _ _ _ H1 Hk). split; [lia|done].
  - intros j c H1. apply list_lookup_insert_Some in H1 as [(<- & <- & _)|[Hn1 H1]]; [by apply (Hc _ _ Hi)|by apply (Hc _ _ H1)].
Qed.

Lemma get_flat_ok i e e' : flat_ok e -> future_get i e = Some e' -> flat_ok e'.
Proof.
  intros [Hok Ht Hw Hu Hp Hc] Hs. pose proof (get_executor_ok _ _ _ Hok Hs) as Hok'. revert Hs Hok'.
  unfold future_get. destruct (callers e !! i) as [[[|t rest] [k|] rs]|] eqn:Hi; try done. intros (r & Hr & [= <-])%bind_Some Hok'.
  split; cbn; try done.
  - intros k' t' Hin. destruct (Ht _ _ Hin) as (j & rest' & rs' & Hj). exists j, rest', rs'. rewrite list_lookup_insert_ne; [done|].
    intros <-. rewrite Hi in Hj. injection Hj as -> -> -> ->. rewrite (not_executed e k' Hok) in Hr; [done|]. left.
    apply elem_of_app. right. by apply (list_elem_of_fmap_2' fst _ _ _ Hin).
  - intros j1 j2 c d k1 H1 H2 Hk1 Hk2.
    apply list_lookup_insert_Some in H1 as [(<- & <- & _)|[Hn1 H1]], H2 as [(<- & <- & _)|[Hn2 H2]]; cbn in *; try done. by eapply Hu.
  - intros j c k1 H1 Hk. apply list_lookup_insert_Some in H1 as [(<- & <- & _)|[Hn1 H1]]; [done|by eapply Hp].
  - intros j c H1. apply list_lookup_insert_Some in H1 as [(<- & <- & _)|[Hn1 H1]]; [|by apply (Hc _ _ H1)].
    pose proof (Hc _ _ Hi) as Hf. by inversion Hf.
Qed.

Lemma run_flat_ok e e' : flat_ok e -> run_worker e = Some e' -> flat_ok e'.
Proof.
  intros [Hok Ht Hw Hu Hp Hc] Hs. pose proof (run_executor_ok _ _ Hok Hs) as Hok'. revert Hs Hok'.
  unfold run_worker. destruct (m_worker e) as [|k [|[a|t] rest] r|k o rest r|] eqn:Hm; try done.
  - destruct (m_tasks e) as [|[k t] q] eqn:Hq; [destruct (m_running e); [done|]|]; intros [= <-] Hok'; split; cbn; try done.
    + by rewrite Hq.
    + intros k' t' Hin. apply Ht, elem_of_cons. by right.
    + destruct (Ht k t) as (i & rest & rs & Hi); [apply elem_of_cons; by left|]. pose proof (Hc _ _ Hi) as Hf. by inversion Hf.
  - intros [= <-] Hok'. by split.
  - destruct (act a (store e) r) as [s' r']. intros [= <-] Hok'. by split.
Qed.

Lemma executor_step_flat e e' : flat_ok e -> executor_step e e' -> flat_ok e'.
Proof.
  intros Hok Hst. destruct Hst as [e2 [i Hs|i Hs|Hs]|]; [by eapply post_flat_ok|by eapply get_flat_ok|by eapply run_flat_ok|].
  destruct Hok as [[]]. by split.
Qed.

Lemma reachable_flat s l e : Forall (Forall (fun t => flat t = true)) l -> reachable_executor s l e -> flat_ok e.
Proof.
  intros Hl. induction 1 as [e ->|e e' _ IH Hst]; [|by eapply executor_step_flat].
  pose proof (reachable_executor_ok s l (new_executor s l) ltac:(by constructor)) as Hok.
  assert (Hn : forall i c, callers (new_executor s l) !! i = Some c -> waits c = None /\ Forall (fun t => flat t = true) (calls c)).
  { intros i c. cbn. rewrite list_lookup_fmap. intros (ts & Hts & ->)%fmap_Some. split; [done|]. by eapply Forall_lookup_1. }
  split; [done|cbn; intros k t Hin; by apply elem_of_nil in Hin|done| | |intros i c [_ Hi]%Hn; exact Hi].
  - intros i j c d k Hi _ Hk. destruct (Hn _ _ Hi). congruence.
  - intros i c k Hi Hk. destruct (Hn _ _ Hi). congruence.
Qed.

(** ** Refinement *)

Lemma same_monitor e e' : callers e' = callers e -> final_store e' = final_store e -> (forall k, answer e' k = answer e k) -> as_monitor e' = as_monitor e.
Proof.
  intros Hc Hs Ha. unfold as_monitor. rewrite Hc, Hs. f_equal. apply list_fmap_ext. intros _ c _. unfold as_client. f_equal.
  destruct (waits c) as [k|]; [|done]. cbn. by rewrite Ha.
Qed.

Lemma as_client_insert e e' i c : (forall k, answer e' k = answer e k) ->
  as_client e' <$> <[i := c]> (callers e) = <[i := as_client e c]> (as_client e <$> callers e).
Proof.
  intros Ha. assert (E : forall c', as_client e' c' = as_client e c').
  { intros c'. unfold as_client. f_equal. destruct (waits c'); [|done]. cbn. by rewrite Ha. }
  rewrite list_fmap_insert, E. f_equal. by apply list_fmap_ext.
Qed.

(** A post is the start of a call, and the return of [get] its end. *)
Lemma post_simulated i e e' : flat_ok e -> post i e = Some e' -> monitor_step (as_monitor e) (as_monitor e').
Proof.
  intros Hf. pose proof (flat_executor _ Hf) as Hok. unfold post. destruct (callers e !! i) as [[[|t rest] [k|] rs]|] eqn:Hi; try done. intros [= <-].
  unfold as_monitor. cbn [callers with_caller emplace]. rewrite (as_client_insert e) by done.
  assert (Ha : answer e (posted e) = None).
  { unfold answer. rewrite (not_executed e _ Hok) by (right; lia). destruct (m_worker e) as [|k' rest' r| |] eqn:Hw; try done.
    rewrite bool_decide_eq_false_2; [done|]. intros <-.
    assert (Hin : posted e ∈ seq 0 (posted e)) by (rewrite <- (ok_order _ Hok), Hw; apply elem_of_app; right; apply elem_of_cons; by left).
    apply elem_of_seq in Hin. lia. }
  assert (E : as_client e (Caller (t :: rest) (Some (posted e)) rs) = Client (t :: rest) (Some None) rs) by (unfold as_client; cbn; by rewrite Ha).
  rewrite E. apply (monitor_invoke (as_monitor e)). cbn [clients as_monitor]. by rewrite list_lookup_fmap, Hi.
Qed.

Lemma get_simulated i e e' : future_get i e = Some e' -> monitor_step (as_monitor e) (as_monitor e').
Proof.
  unfold future_get. destruct (callers e !! i) as [[[|t rest] [k|] rs]|] eqn:Hi; try done. intros (r & Hr & [= <-])%bind_Some.
  unfold as_monitor. cbn [callers with_caller]. rewrite (as_client_insert e) by done.
  apply (monitor_return (as_monitor e) i t rest r rs). cbn [clients as_monitor]. rewrite list_lookup_fmap, Hi. cbn. unfold as_client. cbn.
  unfold answer. by rewrite Hr.
Qed.

(** Taking a task is its effect. *)
Lemma take_simulated e k t q : flat_ok e -> m_worker e = Idle -> m_tasks e = (k, t) :: q ->
  monitor_step (as_monitor e) (as_monitor (Executor q (m_running e) (Busy k t r0) (store e) (futures e) (executed e) (posted e) (callers e))).
Proof.
  intros Hf Hw Hq. pose proof (flat_executor _ Hf) as Hok. destruct (flat_tasks _ Hf k t) as (i & rest & rs & Hi); [rewrite Hq; apply elem_of_cons; by left|].
  assert (Hk : futures e !! k = None) by (apply (not_executed e k Hok); left; rewrite Hq, elem_of_app; right; apply elem_of_cons; by left).
  assert (Hc : clients (as_monitor e) !! i = Some (Client (t :: rest) (Some None) rs)).
  { cbn. rewrite list_lookup_fmap, Hi. cbn. unfold as_client, answer. cbn. by rewrite Hk, Hw. }
  pose proof (monitor_run _ _ _ _ _ Hc) as Hst. cbn [m_store clients as_monitor] in Hst.
  assert (Es : final_store e = store e) by (unfold final_store; by rewrite Hw). rewrite Es in Hst.
  unfold as_monitor at 2. cbn [final_store m_worker store callers]. set (e' := Executor _ _ _ _ _ _ _ _).
  assert (E : as_client e' <$> callers e = <[i := Client (t :: rest) (Some (Some (run_actions t (store e) r0).2)) rs]> (as_client e <$> callers e)); [|by rewrite E].
  apply list_eq. intros j. rewrite list_lookup_fmap. destruct (decide (i = j)) as [<-|Hne].
  - rewrite list_lookup_insert_eq by (rewrite length_fmap; by eapply lookup_lt_Some). rewrite Hi. cbn. f_equal. unfold as_client, answer. cbn.
    rewrite Hk. by rewrite bool_decide_eq_true_2.
  - rewrite list_lookup_insert_ne, list_lookup_fmap by done. destruct (callers e !! j) as [c|] eqn:Hj; [|done]. cbn. f_equal.
    unfold as_client. f_equal. destruct (waits c) as [k'|] eqn:Hk'; [|done]. cbn. f_equal. unfold answer. cbn. rewrite Hw.
    destruct (futures e !! k'); [done|]. rewrite bool_decide_eq_false_2; [done|]. intros ->. destruct Hne. by eapply flat_waits.
Qed.

(** The rest of the worker's steps are not seen. *)
Lemma run_simulated e e' : flat_ok e -> run_worker e = Some e' -> monitor_step (as_monitor e) (as_monitor e') \/ as_monitor e' = as_monitor e.
Proof.
  intros Hf. pose proof (flat_running _ Hf) as Hfw. unfold run_worker. destruct (m_worker e) as [|k [|[a|t] rest] r|k o rest r|] eqn:Hw; try done.
  - destruct (m_tasks e) as [|[k t] q] eqn:Hq; [destruct (m_running e); [done|]|]; intros [= <-]; [|left; by apply take_simulated].
    right. apply same_monitor; [done|unfold final_store; by rewrite Hw|]. intros k. unfold answer. by rewrite Hw.
  - intros [= <-]. right. apply same_monitor; [done|unfold final_store; by rewrite Hw|]. intros k'. unfold answer. rewrite Hw. cbn [futures m_worker].
    destruct (decide (k = k')) as [<-|Hne].
    + rewrite lookup_insert_eq, bool_decide_eq_true_2 by done. rewrite (not_executed e k (flat_executor _ Hf)); [done|]. left. rewrite Hw.
      apply elem_of_app. left. by apply list_elem_of_singleton.
    + by rewrite lookup_insert_ne, bool_decide_eq_false_2.
  - destruct (act a (store e) r) as [s' r'] eqn:Ha. intros [= <-]. right.
    apply same_monitor; [done|unfold final_store; rewrite Hw; cbn; by rewrite Ha|]. intros k'. unfold answer. rewrite Hw. cbn. by rewrite Ha.
Qed.

Lemma executor_step_simulated e e' : flat_ok e -> executor_step e e' -> rtc monitor_step (as_monitor e) (as_monitor e').
Proof.
  intros Hf [e2 [i Hs|i Hs|Hs]|]; [apply rtc_once; by eapply post_simulated|apply rtc_once; by eapply get_simulated| |].
  - destruct (run_simulated _ _ Hf Hs) as [Hm|Hm]; [by apply rtc_once|rewrite Hm; apply rtc_refl].
  - assert (E : as_monitor (stop_executor e) = as_monitor e); [|rewrite E; apply rtc_refl]. done.
Qed.

(** ** Progress *)

Definition calls_left (l : list db_task) : nat := sum_list_with (fun t => (4 + length t)%nat) l.
Definition caller_left (c : db_caller) : nat :=
  match waits c, calls c with Some _, _ :: rest => S (calls_left rest) | _, l => calls_left l end.
Definition worker_left (w : db_worker) : nat := match w with Busy _ rest _ => S (length rest) | _ => 0%nat end.

(** The steps that calls can still make. *)
Definition steps_left (e : executor) : nat :=
  (sum_list_with (fun x => (2 + length x.2)%nat) (m_tasks e) + worker_left (m_worker e) + sum_list_with caller_left (callers e))%nat.

Definition finished (e : executor) : Prop :=
  m_tasks e = [] /\ m_worker e = Idle /\ Forall (fun c => calls c = [] /\ waits c = None) (callers e).

Lemma left_posted t rest k rs : caller_left (Caller (t :: rest) (Some k) rs) = S (calls_left rest).
Proof. done. Qed.
Lemma left_unposted l rs : caller_left (Caller l None rs) = calls_left l.
Proof. by destruct l. Qed.
Lemma left_cons t rest : calls_left (t :: rest) = (4 + length t + calls_left rest)%nat.
Proof. done. Qed.

Lemma run_steps_left e e' : flat_ok e -> run_worker e = Some e' ->
  (steps_left e' < steps_left e)%nat \/ (m_worker e' = Returned /\ m_tasks e = [] /\ m_running e = false).
Proof.
  intros Hf. pose proof (flat_running _ Hf) as Hfw. unfold run_worker, steps_left. destruct (m_worker e) as [|k [|[a|t] rest] r|k o rest r|]; try done.
  - destruct (m_tasks e) as [|[k t] q]; [destruct (m_running e); [done|]|]; intros [= <-]; [by right|left; cbn; lia].
  - intros [= <-]. left. cbn. lia.
  - destruct (act a (store e) r) as [s' r']. intros [= <-]. left. cbn. lia.
Qed.

Lemma call_steps_left e e' : flat_ok e -> m_running e = true -> caller_step e e' -> (steps_left e' < steps_left e)%nat.
Proof.
  intros Hf Hm [i Hs|i Hs|Hs].
  - revert Hs. unfold post, steps_left. destruct (callers e !! i) as [[[|t rest] [k|] rs]|] eqn:Hi; try done. intros [= <-]. cbn [m_tasks m_worker callers with_caller emplace].
    pose proof (sum_insert caller_left _ _ _ (Caller (t :: rest) (Some (posted e)) rs) Hi) as Hsum. rewrite left_posted, left_unposted, left_cons in Hsum.
    rewrite sum_list_with_app. cbn [sum_list_with snd]. lia.
  - revert Hs. unfold future_get, steps_left. destruct (callers e !! i) as [[[|t rest] [k|] rs]|] eqn:Hi; try done. intros (r & _ & [= <-])%bind_Some.
    cbn [m_tasks m_worker callers with_caller]. pose proof (sum_insert caller_left _ _ _ (Caller rest None (rs ++ [r])) Hi) as Hsum.
    rewrite left_posted, left_unposted in Hsum. lia.
  - destruct (run_steps_left _ _ Hf Hs) as [?|(_ & _ & ?)]; [done|congruence].
Qed.

Lemma call_keeps_running e e' : caller_step e e' -> m_running e' = m_running e.
Proof.
  intros [i Hs|i Hs|Hs]; revert Hs.
  - unfold post. destruct (callers e !! i) as [[[|t rest] [k|] rs]|]; try done. by intros [= <-].
  - unfold future_get. destruct (callers e !! i) as [[[|t rest] [k|] rs]|]; try done. by intros (r & _ & [= <-])%bind_Some.
  - unfold run_worker. destruct (m_worker e) as [|k [|[a|t] rest] r|k o rest r|]; try done; try by intros [= <-].
    + destruct (m_tasks e) as [|[k t] q]; [destruct (m_running e) eqn:Hm; [done|]|]; by intros [= <-].
    + destruct (act a (store e) r). by intros [= <-].
    + by intros (x & _ & [= <-])%bind_Some.
Qed.

(** A worker that cannot go on is idle, without tasks. *)
Lemma worker_rests e : flat_ok e -> m_running e = true -> run_worker e = None -> m_worker e = Idle /\ m_tasks e = [].
Proof.
  intros Hf Hm. pose proof (flat_running _ Hf) as Hfw. pose proof (ok_returned _ (flat_executor _ Hf)) as Hr. unfold run_worker.
  destruct (m_worker e) as [|k [|[a|t] rest] r|k o rest r|]; try done.
  - by destruct (m_tasks e) as [|[k t] q].
  - by destruct (act a (store e) r).
  - by rewrite Hr in Hm.
Qed.

Lemma rests_executed e k : executor_ok e -> in_worker (m_worker e) = [] -> m_tasks e = [] -> (k < posted e)%nat -> is_Some (futures e !! k).
Proof.
  intros Hok Hw Ht Hk. apply (ok_futures _ Hok). pose proof (ok_order _ Hok) as Ho. rewrite Hw, Ht in Ho. cbn in Ho. rewrite app_nil_r in Ho.
  rewrite Ho. apply elem_of_seq. lia.
Qed.

Lemma goes_on e : flat_ok e -> m_running e = true -> (exists e', caller_step e e') \/ finished e.
Proof.
  intros Hf Hm. destruct (run_worker e) as [e'|] eqn:Hrun; [left; exists e'; by apply call_run|].
  destruct (worker_rests _ Hf Hm Hrun) as [Hw Ht].
  destruct (decide (Forall (fun c => calls c = [] /\ waits c = None) (callers e))) as [Hall|Hnot]; [by right|left].
  apply not_Forall_Exists, Exists_exists in Hnot as (c & (i & Hi)%list_elem_of_lookup & Hc); [|intros c; apply _].
  destruct c as [l [k|] rs].
  - destruct (flat_posted _ Hf _ _ _ Hi eq_refl) as [Hk Hl]. cbn [calls] in Hl. destruct l as [|t rest]; [done|].
    destruct (rests_executed e k (flat_executor _ Hf)) as [r Hr]; [by rewrite Hw|done|done|].
    eexists. apply (call_get _ _ i). unfold future_get. rewrite Hi, Hr. reflexivity.
  - destruct l as [|t rest]; [by destruct Hc|]. eexists. apply (call_post _ _ i). unfold post. rewrite Hi. reflexivity.
Qed.

Lemma calls_end n : forall e, (steps_left e <= n)%nat -> flat_ok e -> m_running e = true -> Acc (flip caller_step) e.
Proof.
  induction n as [|n IH]; intros e Hn Hf Hm; constructor; intros e' Hst; pose proof (call_steps_left _ _ Hf Hm Hst) as Hlt; [lia|].
  apply IH; [lia|eapply executor_step_flat; [exact Hf|by constructor]|by rewrite (call_keeps_running _ _ Hst)].
Qed.

Lemma calls_keep_flat e e' : rtc caller_step e e' -> flat_ok e -> m_running e = true -> flat_ok e' /\ m_running e' = true.
Proof.
  induction 1 as [|e e2 e3 Hst _ IH]; [done|]. intros Hf Hm. apply IH; [eapply executor_step_flat; [exact Hf|by constructor]|].
  by rewrite (call_keeps_running _ _ Hst).
Qed.

(** *** The destructor *)

Definition run_step (e e' : executor) : Prop := run_worker e = Some e'.

Lemma run_step_posted e e' : flat_ok e -> run_step e e' -> posted e' = posted e.
Proof.
  intros Hf. pose proof (flat_running _ Hf) as Hfw. unfold run_step, run_worker. destruct (m_worker e) as [|k [|[a|t] rest] r|k o rest r|]; try done; try by intros [= <-].
  - destruct (m_tasks e) as [|[k t] q]; [destruct (m_running e); [done|]|]; by intros [= <-].
  - destruct (act a (store e) r). by intros [= <-].
Qed.

Lemma stopped_worker_goes_on e : flat_ok e -> m_running e = false -> m_worker e <> Returned -> exists e', run_step e e'.
Proof.
  intros Hf Hm Hw. pose proof (flat_running _ Hf) as Hfw. unfold run_step, run_worker.
  destruct (m_worker e) as [|k [|[a|t] rest] r|k o rest r|]; try done; try by eexists.
  - destruct (m_tasks e) as [|[k t] q]; [rewrite Hm|]; by eexists.
  - destruct (act a (store e) r). by eexists.
Qed.

Lemma worker_returns e e' : run_step e e' -> m_worker e' = Returned -> m_tasks e' = [].
Proof.
  unfold run_step, run_worker. destruct (m_worker e) as [|k [|[a|t] rest] r|k o rest r|]; try done; try by intros [= <-].
  - destruct (m_tasks e) as [|[k t] q] eqn:Hq; [destruct (m_running e); [done|]|]; by intros [= <-].
  - destruct (act a (store e) r). by intros [= <-].
  - by intros (x & _ & [= <-])%bind_Some.
Qed.

Lemma stopped_worker_ends n : forall e, (steps_left e <= n)%nat -> flat_ok e -> m_running e = false -> m_worker e <> Returned ->
  exists e', rtc run_step e e' /\ executor_ok e' /\ m_worker e' = Returned /\ m_tasks e' = [] /\ posted e' = posted e.
Proof.
  induction n as [|n IH]; intros e Hn Hf Hm Hw; destruct (stopped_worker_goes_on _ Hf Hm Hw) as [e' He]; pose proof (run_step_posted _ _ Hf He) as Hp.
  all: assert (Hf' : flat_ok e') by (eapply executor_step_flat; [exact Hf|by apply executor_call, call_run]).
  all: assert (Hd : m_worker e' = Returned \/ m_worker e' <> Returned) by (destruct (m_worker e'); [right|right|right|left]; done).
  all: destruct Hd as [Hw'|Hw'];
    [exists e'; split_and!; [by apply rtc_once|apply Hf'|done|by eapply worker_returns|done]|].
  all: destruct (run_steps_left _ _ Hf He) as [Hlt|(? & _)]; [|done].
  - lia.
  - destruct (IH e') as (e2 & Hr & Hok & Hw2 & Ht & Hp2); [lia|done|by rewrite <- Hm; apply call_keeps_running, call_run|done|].
    exists e2. split_and!; [by eapply rtc_l|done|done|done|by rewrite Hp2].
Qed.

(** ** Properties *)

(** C23: the executor is a monitor: whatever the interleaving of the callers
    and the worker, each state is one in which every task of theirs has taken
    effect in one step, between the post and the return of its caller, and
    each result is that of its task; and the tasks end in the order in which
    they were posted. *)
Theorem executor_refines_monitor s l e : Forall (Forall (fun t => flat t = true)) l -> reachable_executor s l e ->
  rtc monitor_step (new_monitor s l) (as_monitor e) /\
  (in_worker (m_worker e) = [] -> m_store (as_monitor e) = store e) /\
  executed e = seq 0 (length (executed e)).
Proof.
  intros Hl Hr. split_and!.
  - induction Hr as [e ->|e e' Hr IH Hst]; [|etrans; [exact IH|apply executor_step_simulated; [by eapply reachable_flat|done]]].
    assert (E : as_monitor (new_executor s l) = new_monitor s l); [|rewrite E; apply rtc_refl].
    unfold as_monitor, new_monitor. cbn. f_equal. rewrite <- list_fmap_compose. by apply list_fmap_ext.
  - cbn. unfold final_store. by destruct (m_worker e).
  - pose proof (ok_order _ (reachable_executor_ok _ _ _ Hr)) as Ho. apply (f_equal (take (length (executed e)))) in Ho.
    rewrite take_app_length in Ho. rewrite Ho at 1. rewrite take_seq. f_equal.
    apply (f_equal length) in Ho. rewrite length_take, length_seq in Ho. lia.
Qed.


(** the destructor returns, after all tasks posted before have been run. *)
Theorem executor_stops s l e : Forall (Forall (fun t => flat t = true)) l -> reachable_executor s l e -> m_running e = false -> m_worker e <> Returned ->
  exists e', rtc run_step e e' /\ m_worker e' = Returned /\ executed e' = seq 0 (posted e).
Proof.
  intros Hl Hr Hm Hw. pose proof (reachable_flat _ _ _ Hl Hr) as Hf.
  destruct (stopped_worker_ends _ e (le_n _) Hf Hm Hw) as (e' & Hrt & Hok & Hw' & Ht & Hp). exists e'. split_and!; [done|done|].
  pose proof (ok_order _ Hok) as Ho. rewrite Hw', Ht, Hp in Ho. cbn in Ho. by rewrite app_nil_r in Ho.
Qed.

(** a task that posts waits for itself: from then on the worker stays
    where it is, no other task ends, and no call returns that waits for one. *)
Theorem executor_waits_for_itself s l e e' k o rest r : reachable_executor s l e -> m_worker e = Stuck k o rest r -> rtc executor_step e e' ->
  m_worker e' = Stuck k o rest r /\ futures e' = futures e /\ futures e' !! k = None /\ futures e' !! o = None.
Proof.
  intros Hr Hw Hrt. pose proof (reachable_executor_ok _ _ _ Hr) as Hok. destruct (stuck_for_ever _ _ _ _ _ _ Hrt Hok Hw) as [Hw' Hf].
  split_and!; [done|done| |]; rewrite Hf; apply (not_executed e _ Hok); left; apply elem_of_app; rewrite Hw.
  - left. by apply list_elem_of_singleton.
  - right. by eapply ok_stuck.
Qed.

End Executor.

(** ** A small executor

    The store is a number; an action adds to it and yields what was there. *)

Definition demo_act (a s r : Z) : Z * Z := (s + a, s).
Definition demo_state (sched : list choice) (l : list (list (list (action Z)))) : executor :=
  default (new_executor 100 l) (schedule demo_act 0 sched (new_executor 100 l)).

Lemma demo_executor_reachable sched l : reachable_executor demo_act 0 100 l (demo_state sched l).
Proof.
  unfold demo_state. destruct (schedule demo_act 0 sched (new_executor 100 l)) as [e|] eqn:He; [by eapply schedule_reachable|by constructor].
Qed.

(** Two callers; the second posts while the task of the first runs. *)
Definition demo_calls : list (list (list (action Z))) := [[[Do 1; Do 2]; [Do 3]]; [[Do 10]]].
Definition demo_sched : list choice := [ByPost 0; ByWorker; ByWorker; ByPost 1; ByWorker; ByWorker; ByGet 0; ByWorker].

Lemma demo_flat : Forall (Forall (fun t => flat t = true)) demo_calls.
Proof. by repeat constructor. Qed.

(** The second task has been taken, and has its effect in the monitor, not yet
    in the store. *)
Lemma executor_refines_monitor_witness : store (demo_state demo_sched demo_calls) = 103 /\
  rtc (monitor_step demo_act 0) (new_monitor 100 demo_calls)
    (Monitor 113 [Client [[Do 3]] None [101]; Client [[Do 10]] (Some (Some 103)) []]).
Proof.
  split; [vm_compute; reflexivity|].
  assert (E : as_monitor demo_act (demo_state demo_sched demo_calls) =
    Monitor 113 [Client [[Do 3]] None [101]; Client [[Do 10]] (Some (Some 103)) []]) by (vm_compute; reflexivity).
  rewrite <- E. exact (proj1 (executor_refines_monitor demo_act 0 100 demo_calls _ demo_flat (demo_executor_reachable demo_sched demo_calls))).
Defined.

Lemma demo_executor_running : m_running (demo_state demo_sched demo_calls) = true.
Proof. vm_compute. reflexivity. Qed.


Lemma demo_stopped : m_running (demo_state (demo_sched ++ [ByStop]) demo_calls) = false /\
  m_worker (demo_state (demo_sched ++ [ByStop]) demo_calls) <> Returned /\ posted (demo_state (demo_sched ++ [ByStop]) demo_calls) = 2%nat.
Proof. by vm_compute. Qed.

Lemma executor_stops_witness : exists e', rtc (run_step demo_act 0) (demo_state (demo_sched ++ [ByStop]) demo_calls) e' /\
  m_worker e' = Returned /\ executed e' = [0; 1]%nat.
Proof.
  destruct demo_stopped as (Hm & Hw & Hp).
  destruct (executor_stops demo_act 0 100 demo_calls _ demo_flat (demo_executor_reachable (demo_sched ++ [ByStop]) demo_calls) Hm Hw) as (e' & H1 & H2 & H3).
  exists e'. rewrite Hp in H3. exact (conj H1 (conj H2 H3)).
Defined.

(** A task that posts, as the failed [Database::open] does. *)
Definition demo_nested : list (list (list (action Z))) := [[[Do 1; PostWait [Do 0]]]; [[Do 10]]].
Definition demo_stuck : executor := demo_state [ByPost 0; ByWorker; ByWorker; ByWorker; ByPost 1] demo_nested.

Lemma demo_stuck_reachable : reachable_executor demo_act 0 100 demo_nested demo_stuck.
Proof. apply demo_executor_reachable. Qed.

Lemma demo_is_stuck : m_worker demo_stuck = Stuck 0 1 [] 100.
Proof. vm_compute. reflexivity. Qed.

Lemma executor_waits_for_itself_witness :
  m_worker (stop_executor demo_stuck) = Stuck 0 1 [] 100 /\ futures (stop_executor demo_stuck) !! 0%nat = None.
Proof.
  destruct (executor_waits_for_itself demo_act 0 100 demo_nested demo_stuck (stop_executor demo_stuck) 0 1 [] 100 demo_stuck_reachable demo_is_stuck
    (rtc_once _ _ (executor_stop demo_act 0 demo_stuck))) as (Hw & _ & Hf & _).
  exact (conj Hw Hf).
Defined.
