(* ===== verification/OcppConnectors.v ===== *)
(** * The connectors of the charge point ([src/ocpp/Connector])

    The charge point itself, with the number 0, and its connectors: their
    status with its table of transitions, transaction, reservation and
    availability, kept in a table of the database that the next start reads. *)

From stdpp Require Import pretty.
From S2P Require Import Prelude Utils Lru Sqlite Json OcppEnums OcppDatabase OcppTime OcppStatus OcppTimers.

(** ** Status transitions *)

Definition statusToTableId (status : ChargePointStatus) : Z :=
  match status with
  | ChargePointStatus_Available => 1
  | ChargePointStatus_Preparing => 2
  | ChargePointStatus_Charging => 3
  | ChargePointStatus_SuspendedEV => 4
  | ChargePointStatus_SuspendedEVSE => 5
  | ChargePointStatus_Finishing => 6
  | ChargePointStatus_Reserved => 7
  | ChargePointStatus_Unavailable => 8
  | ChargePointStatus_Faulted => 9
  end.

Definition allowedTransitions : list (Z * list Z) :=
  [(1, [2; 4; 5; 7; 8; 9]); (2, [1; 3; 4; 5; 6; 9]); (3, [1; 4; 5; 6; 9]); (4, [1; 3; 5; 6; 8; 9]); (5, [1; 3; 4; 6; 8; 9]);
   (6, [1; 2; 8; 9]); (7, [1; 2; 8; 9]); (8, [1; 2; 9]); (9, [1; 2; 4; 5; 6; 7; 8])].

Fixpoint transitions_from (from : Z) (table : list (Z * list Z)) : option (list Z) :=
  match table with
  | [] => None
  | (f, tos) :: table' => if f =? from then Some tos else transitions_from from table'
  end.

Definition checkStatusTransition (current target : ChargePointStatus) : bool :=
  let fromId := statusToTableId current in
  let toId := statusToTableId target in
  if (fromId =? 0) || (toId =? 0) then false
  else match transitions_from fromId allowedTransitions with
       | None => false
       | Some tos => existsb (Z.eqb toId) tos
       end.

(** ** Data *)

Record ConnectorTransaction := Txn { t_id : Z; t_idTag : string; t_parentIdTag : string }.

Record ConnectorReservation := Resv {
  r_status : ReservationStatus;
  r_id : Z;
  r_idTag : string;
  r_parentIdTag : string;
  r_expiry : Z
}.

Record ConnectorTimers := CTimers {
  tm_reservation : option nat;
  tm_meterValues : option nat;
  tm_idle : option nat;
  tm_prepare : option nat;
  tm_availability : option nat
}.

(** The availability is the number of the enumeration. *)
Record Connector := MkConnector {
  c_id : Z;
  c_status : ChargePointStatus;
  c_availability : Z;
  c_transaction : ConnectorTransaction;
  c_reservation : ConnectorReservation;
  c_timers : ConnectorTimers
}.

(** A connector as it is constructed at a time. *)
Definition new_connector (id now : Z) : Connector :=
  MkConnector id ChargePointStatus_Available (to_int AvailabilityType_Operative) (Txn 0 EmptyString EmptyString)
    (Resv ReservationStatus_Rejected 0 EmptyString EmptyString now) (CTimers None None None None None).

(** The notification a worker of the pool is to send. *)
Record status_task := NotifyStatus { n_id : Z; n_target : ChargePointStatus; n_error : ChargePointErrorCode; n_info : string }.

Record Connectors := MkConnectors {
  m_connectors : list Connector;
  m_qInsert : option Query;
  m_qUpdate : option Query;
  m_qFind : option Query;
  m_regStatus : RegistrationStatus;
  m_timerPool : pool;
  m_threadPool : list status_task
}.

Definition with_connector (cs : Connectors) (i : nat) (c : Connector) : Connectors :=
  MkConnectors (<[i := c]> (m_connectors cs)) (m_qInsert cs) (m_qUpdate cs) (m_qFind cs) (m_regStatus cs) (m_timerPool cs) (m_threadPool cs).
Definition with_queries (cs : Connectors) (i u f : option Query) : Connectors :=
  MkConnectors (m_connectors cs) i u f (m_regStatus cs) (m_timerPool cs) (m_threadPool cs).
Definition with_pool (cs : Connectors) (p : pool) : Connectors :=
  MkConnectors (m_connectors cs) (m_qInsert cs) (m_qUpdate cs) (m_qFind cs) (m_regStatus cs) p (m_threadPool cs).
Definition enqueue (cs : Connectors) (t : status_task) : Connectors :=
  MkConnectors (m_connectors cs) (m_qInsert cs) (m_qUpdate cs) (m_qFind cs) (m_regStatus cs) (m_timerPool cs) (m_threadPool cs ++ [t]).

Definition setRegistrationStatus (status : RegistrationStatus) (cs : Connectors) : Connectors :=
  MkConnectors (m_connectors cs) (m_qInsert cs) (m_qUpdate cs) (m_qFind cs) status (m_timerPool cs) (m_threadPool cs).

(** The constructor. *)
Definition make_connectors (connectorCount : nat) (now : Z) (p : pool) : Connectors :=
  MkConnectors ((fun i => new_connector (Z.of_nat i) now) <$> seq 0 (S connectorCount)) None None None RegistrationStatus_Rejected p [].

Definition count (cs : Connectors) : Z := uint32 (Z.of_nat (length (m_connectors cs)) - 1).

Definition get (id : Z) (cs : Connectors) : outcome (option Connector) :=
  if count cs <? id then Returns None else c ← ub (m_connectors cs !! Z.to_nat id); Returns (Some c).

(** ** Statements *)

Definition CREATE_CONNECTOR : string :=
  "CREATE TABLE IF NOT EXISTS Connector (connector_id    INT UNSIGNED PRIMARY KEY NOT NULL,status         VARCHAR(20) NOT NULL,transaction_id             INT UNSIGNED,transaction_id_tag        VARCHAR(128),transaction_parent_id_tag VARCHAR(128),reservation_id            INT UNSIGNED,reservation_id_tag        VARCHAR(128),reservation_parent_id_tag VARCHAR(128),reservation_expiry_date   BIGINT,availability              INT UNSIGNED);".
Definition CONNECTOR_INSERT : string :=
  "INSERT INTO Connector (connector_id, status, transaction_id, transaction_id_tag, transaction_parent_id_tag, reservation_id, reservation_id_tag, reservation_parent_id_tag, reservation_expiry_date, availability) VALUES (?, ?, ?, ?, ?, ?, ?, ?, ?, ?);".
Definition CONNECTOR_UPDATE : string :=
  "UPDATE Connector SET status=?, transaction_id=?, transaction_id_tag=?, transaction_parent_id_tag=?, reservation_id=?, reservation_id_tag=?, reservation_parent_id_tag=?, reservation_expiry_date=?, availability=? WHERE connector_id=?;".
Definition CONNECTOR_FIND : string := "SELECT * FROM Connector WHERE connector_id = ?;".
Definition CONNECTOR_COUNT : string := "SELECT count(connector_id) FROM Connector WHERE TRUE;".
Definition CONNECTOR_CLEAR : string := "DELETE FROM Connector WHERE TRUE;".

Section Effects.
Context {DB : Type} `{SqlEngine DB}.

(** The number of a connector is compared as an integer. *)
Definition number_is (b : Z -> cell) (n : Z) (r : row) : bool := matches 0 (int_column (b n)) r.

Definition create_connector_effect : effect := fun t b => Some ([], t).
Definition connector_insert_effect : effect := fun t b =>
  let new := [int_column (b 1); as_text_column (b 2); int_column (b 3); as_text_column (b 4); as_text_column (b 5); int_column (b 6);
              as_text_column (b 7); as_text_column (b 8); int_column (b 9); int_column (b 10)] in
  if existsb (number_is b 1) (connector_rows t) || bool_decide (col new 0 = None) || bool_decide (col new 1 = None) then None
  else Some ([], set_connectors t (connector_rows t ++ [new])).
Definition connector_update_effect : effect := fun t b =>
  let new r := [col r 0; as_text_column (b 1); int_column (b 2); as_text_column (b 3); as_text_column (b 4); int_column (b 5);
                as_text_column (b 6); as_text_column (b 7); int_column (b 8); int_column (b 9)] in
  if existsb (number_is b 10) (connector_rows t) && bool_decide (as_text_column (b 1) = None) then None
  else Some ([], set_connectors t ((fun r => if number_is b 10 r then new r else r) <$> connector_rows t)).
Definition connector_find_effect : effect := fun t b => Some (List.filter (number_is b 1) (connector_rows t), t).
Definition connector_count_effect : effect := fun t b => Some ([[Some (VInt (Z.of_nat (length (connector_rows t))))]], t).
Definition connector_clear_effect : effect := fun t b => Some ([], set_connectors t []).

End Effects.

Class ConnectorSql (DB : Type) `{SqlTables DB} := {
  means_connector_create : meaning CREATE_CONNECTOR = Some create_connector_effect;
  means_connector_insert : meaning CONNECTOR_INSERT = Some connector_insert_effect;
  means_connector_update : meaning CONNECTOR_UPDATE = Some connector_update_effect;
  means_connector_find : meaning CONNECTOR_FIND = Some connector_find_effect;
  means_connector_count : meaning CONNECTOR_COUNT = Some connector_count_effect;
  means_connector_clear : meaning CONNECTOR_CLEAR = Some connector_clear_effect
}.

(** ** Operations *)

Section Operations.
Context {DB : Type} `{SqlEngine DB}.

(** The bindings of [save]. *)
Definition save_bindings (id : Z) (c : Connector) : list (Z * sql_value) :=
  [(1, VText (toString status_names (c_status c) "Available"));
   (2, VInt (t_id (c_transaction c))); (3, VText (t_idTag (c_transaction c))); (4, VText (t_parentIdTag (c_transaction c)));
   (5, VInt (r_id (c_reservation c))); (6, VText (r_idTag (c_reservation c))); (7, VText (r_parentIdTag (c_reservation c)));
   (8, VInt (r_expiry (c_reservation c))); (9, VInt (c_availability c)); (10, VInt id)].

Definition insert_bindings (c : Connector) : list (Z * sql_value) :=
  [(1, VInt (c_id c)); (2, VText (toString status_names (c_status c) "Available"));
   (3, VInt (t_id (c_transaction c))); (4, VText (t_idTag (c_transaction c))); (5, VText (t_parentIdTag (c_transaction c)));
   (6, VInt (r_id (c_reservation c))); (7, VText (r_idTag (c_reservation c))); (8, VText (r_parentIdTag (c_reservation c)));
   (9, VInt (r_expiry (c_reservation c))); (10, VInt (c_availability c))].

Definition save (id : Z) (cs : Connectors) (db : DB) : outcome (bool * Connectors * DB) :=
  c ← get id cs;
  match c, m_qUpdate cs with
  | Some c, Some q =>
    let '(ok, q, db) := use q (save_bindings id c) db in
    let q := if ok then reset q else q in
    Returns (ok, with_queries cs (m_qInsert cs) (Some q) (m_qFind cs), db)
  | _, _ => Returns (false, cs, db)
  end.

(** What a row says of a connector; the status of the reservation is not in
    it. *)
Definition loaded (id : Z) (q : Query) (c : Connector) : Connector :=
  MkConnector id (toEnum status_names (getText q 1) ChargePointStatus_Available) (int32 (getInt64 q 9))
    (Txn (uint32 (getInt64 q 2)) (getText q 3) (getText q 4))
    (Resv (r_status (c_reservation c)) (uint32 (getInt64 q 5)) (getText q 6) (getText q 7) (getInt64 q 8)) (c_timers c).

Definition load (id : Z) (cs : Connectors) (db : DB) : outcome (bool * Connectors * DB) :=
  c ← get id cs;
  match c, m_qFind cs with
  | Some c, Some q =>
    let '(ok, q, db) := use q [(1, VInt id)] db in
    let cs := with_queries cs (m_qInsert cs) (m_qUpdate cs) (Some q) in
    if negb ok then Returns (false, cs, db)
    else if negb (m_has_rows q) || negb (getUInt32 q 0 =? id) then Returns (false, cs, db)
    else Returns (true, with_connector cs (Z.to_nat id) (loaded id q c), db)
  | _, _ => Returns (false, cs, db)
  end.

Definition insert (id : Z) (cs : Connectors) (db : DB) : outcome (bool * Connectors * DB) :=
  c ← get id cs;
  match c, m_qInsert cs with
  | Some c, Some q =>
    let '(ok, q, db) := use q (insert_bindings c) db in
    Returns (ok, with_queries cs (Some q) (m_qUpdate cs) (m_qFind cs), db)
  | _, _ => Returns (false, cs, db)
  end.

Definition set_status (c : Connector) (s : ChargePointStatus) : Connector :=
  MkConnector (c_id c) s (c_availability c) (c_transaction c) (c_reservation c) (c_timers c).
Definition set_transaction (c : Connector) (t : ConnectorTransaction) : Connector :=
  MkConnector (c_id c) (c_status c) (c_availability c) t (c_reservation c) (c_timers c).
Definition set_reservation (c : Connector) (r : ConnectorReservation) : Connector :=
  MkConnector (c_id c) (c_status c) (c_availability c) (c_transaction c) r (c_timers c).
Definition set_availability (c : Connector) (a : Z) : Connector :=
  MkConnector (c_id c) (c_status c) a (c_transaction c) (c_reservation c) (c_timers c).
Definition set_timers (c : Connector) (t : ConnectorTimers) : Connector :=
  MkConnector (c_id c) (c_status c) (c_availability c) (c_transaction c) (c_reservation c) t.

Definition status_outside (s : ChargePointStatus) : bool :=
  (to_int s <? to_int ChargePointStatus_Available) || (to_int ChargePointStatus_Faulted <? to_int s).

(** The result of [save] is not looked at. *)
Definition updateStatus (id : Z) (target : ChargePointStatus) (error : ChargePointErrorCode) (info : string) (force : bool)
    (cs : Connectors) (db : DB) : outcome (bool * Connectors * DB) :=
  c ← get id cs;
  match c with
  | None => Returns (false, cs, db)
  | Some c =>
    if status_outside (c_status c) || status_outside target then Returns (false, cs, db)
    else if negb force && negb (checkStatusTransition (c_status c) target) then Returns (false, cs, db)
    else
      '(cs, db) ← (if negb (to_int (c_status c) =? to_int target) then
                     '(_, cs, db) ← save id (with_connector cs (Z.to_nat id) (set_status c target)) db; Returns (cs, db)
                   else Returns (cs, db));
      Returns (true, enqueue cs (NotifyStatus id target error info), db)
  end.

Definition update_with (f : Connector -> Connector) (id : Z) (cs : Connectors) (db : DB) : outcome (bool * Connectors * DB) :=
  c ← get id cs;
  match c, m_qUpdate cs with
  | Some c, Some _ => save id (with_connector cs (Z.to_nat id) (f c)) db
  | _, _ => Returns (false, cs, db)
  end.

Definition updateTransaction (id transactionId : Z) (idTag parentIdTag : string) : Connectors -> DB -> outcome (bool * Connectors * DB) :=
  update_with (fun c => set_transaction c (Txn transactionId idTag parentIdTag)) id.
Definition updateReservation (id reservationId : Z) (idTag parentIdTag : string) (expiryDate : Z) (status : ReservationStatus) :
    Connectors -> DB -> outcome (bool * Connectors * DB) :=
  update_with (fun c => set_reservation c (Resv status reservationId idTag parentIdTag expiryDate)) id.
Definition updateAvailability (id : Z) (availability : AvailabilityType) : Connectors -> DB -> outcome (bool * Connectors * DB) :=
  update_with (fun c => set_availability c (to_int availability)) id.

(** Four timers, each without the name that was made for it. *)
Definition initConnectorTimers (id : Z) (cs : Connectors) : outcome Connectors :=
  c ← get id cs;
  match c with
  | None => Returns cs
  | Some c =>
    let '(t1, p) := createTimer EmptyString (m_timerPool cs) in
    let '(t2, p) := createTimer EmptyString p in
    let '(t3, p) := createTimer EmptyString p in
    let '(t4, p) := createTimer EmptyString p in
    Returns (with_pool (with_connector cs (Z.to_nat id)
               (set_timers c (CTimers (Some t1) (Some t2) (Some t3) (Some t4) (tm_availability (c_timers c))))) p)
  end.

(** The elements of the vector, in order; [now] is the time of the day. *)
Fixpoint reset_each (ixs : list nat) (now : Z) (cs : Connectors) (db : DB) : outcome (bool * Connectors * DB) :=
  match ixs with
  | [] => Returns (true, cs, db)
  | i :: ixs' =>
    c ← ub (m_connectors cs !! i);
    '(ok, cs, db) ← insert (c_id c) (with_connector cs i (new_connector (c_id c) now)) db;
    if negb ok then Returns (false, cs, db)
    else cs ← initConnectorTimers (c_id c) cs; reset_each ixs' now cs db
  end.

Definition indices (cs : Connectors) : list nat := seq 0 (length (m_connectors cs)).

(** [clock]: the steady clock of the timers. *)
Definition resetConnectors (d : Database) (clock now : Z) (cs : Connectors) (db : DB) : outcome (bool * Connectors * DB) :=
  p ← stopAllTimers clock (m_timerPool cs);
  let cs := with_pool cs p in
  match query CONNECTOR_CLEAR d db with
  | None => Returns (true, cs, db)
  | Some q =>
    let '(ok, _, db) := exec q db in
    if (ok : bool) then reset_each (indices cs) now cs db else Returns (true, cs, db)
  end.

Fixpoint load_each (ixs : list nat) (now : Z) (cs : Connectors) (db : DB) : outcome (Connectors * DB) :=
  match ixs with
  | [] => Returns (cs, db)
  | i :: ixs' =>
    c ← ub (m_connectors cs !! i);
    '(ok, cs, db) ← load (c_id c) cs db;
    let cs := if (ok : bool) then cs else with_connector cs i (new_connector (c_id c) now) in
    cs ← initConnectorTimers (c_id c) cs;
    load_each ixs' now cs db
  end.

Definition initConnectorData (d : Database) (clock now : Z) (cs : Connectors) (db : DB) : outcome (Connectors * DB) :=
  let '(n, db) := match query CONNECTOR_COUNT d db with
                  | None => (0, db)
                  | Some q => let '(ok, q, db) := exec q db in (if (ok : bool) then getUInt32 q 0 else 0, db)
                  end in
  if negb (n =? uint32 (Z.of_nat (length (m_connectors cs)))) then
    '(_, cs, db) ← resetConnectors d clock now cs db; Returns (cs, db)
  else load_each (indices cs) now cs db.

Definition initConnectorTable (d : Database) (clock now : Z) (cs : Connectors) (db : DB) : outcome (bool * Connectors * DB) :=
  match query CREATE_CONNECTOR d db with
  | None => Returns (false, cs, db)
  | Some q =>
    let '(ok, _, db) := exec q db in
    if negb ok then Returns (false, cs, db)
    else
      let cs := with_queries cs (query CONNECTOR_INSERT d db) (query CONNECTOR_UPDATE d db) (query CONNECTOR_FIND d db) in
      match m_qInsert cs, m_qUpdate cs, m_qFind cs with
      | Some _, Some _, Some _ => '(cs, db) ← initConnectorData d clock now cs db; Returns (true, cs, db)
      | _, _, _ => Returns (false, cs, db)
      end
  end.

(** What a worker does with a notification; it reads the registration then. *)
Definition run_status_task {C : Type} `{IOCPPClient C} (parse : string -> option value) (t : status_task) (now : Z) (cs : Connectors)
    (n : StatusNotification) (c : C) : outcome (StatusNotification * C) :=
  match m_regStatus cs with
  | RegistrationStatus_Accepted => '(_, n, c) ← sendCall parse (n_id t) (n_error t) (n_target t) (n_info t) now n c; Returns (n, c)
  | _ => Returns (n, c)
  end.

End Operations.

(** ** Transitions *)

Definition all_statuses : list ChargePointStatus := enumerators.

(** The transitions the comments of the table list. *)
Definition commentedTransitions : list (Z * list Z) :=
  [(1, [2; 3; 4; 5; 7; 8; 9]); (2, [1; 3; 4; 5; 6; 9]); (3, [1; 4; 5; 6; 8; 9]); (4, [1; 3; 5; 6; 8; 9]); (5, [1; 3; 4; 6; 8; 9]);
   (6, [1; 2; 8; 9]); (7, [1; 2; 8; 9]); (8, [1; 2; 3; 4; 5; 9]); (9, [1; 2; 3; 4; 5; 6; 7; 8])].

Definition commented (current target : ChargePointStatus) : bool :=
  match transitions_from (statusToTableId current) commentedTransitions with
  | Some tos => existsb (Z.eqb (statusToTableId target)) tos
  | None => false
  end.

(** ** The table *)

(** The row of a connector. *)
Definition conn_row (c : Connector) : row :=
  [Some (VInt (c_id c)); Some (VText (toString status_names (c_status c) "Available"));
   Some (VInt (t_id (c_transaction c))); Some (VText (t_idTag (c_transaction c))); Some (VText (t_parentIdTag (c_transaction c)));
   Some (VInt (r_id (c_reservation c))); Some (VText (r_idTag (c_reservation c))); Some (VText (r_parentIdTag (c_reservation c)));
   Some (VInt (r_expiry (c_reservation c))); Some (VInt (c_availability c))].

(** The numbers of the connectors are their places. *)
Definition numbered (start : Z) (l : list Connector) : Prop := forall i c, l !! i = Some c -> c_id c = start + Z.of_nat i.

Lemma numbered_cons start c l : numbered start (c :: l) -> c_id c = start /\ numbered (start + 1) l.
Proof. intros Hn. split; [rewrite (Hn 0%nat c eq_refl); lia|]. intros i x Hx. rewrite (Hn (S i) x Hx). lia. Qed.

Lemma numbered_insert start l i c : numbered start l -> c_id c = start + Z.of_nat i -> numbered start (<[i := c]> l).
Proof.
  intros Hn Hc j x Hx. destruct (decide (j = i)) as [->|Hne].
  - assert (Hlt : (i < length l)%nat) by (apply lookup_lt_Some in Hx; by rewrite length_insert in Hx).
    rewrite list_lookup_insert_eq in Hx by done. by injection Hx as <-.
  - rewrite list_lookup_insert_ne in Hx by done. by apply Hn.
Qed.

(** The values a connector may have. *)
Definition in_range (c : Connector) : Prop :=
  0 <= t_id (c_transaction c) < 2 ^ 32 /\ 0 <= r_id (c_reservation c) < 2 ^ 32 /\ in_int64 (r_expiry (c_reservation c)) /\ in_int32 (c_availability c).

(** What a restart keeps of a connector. *)
Definition same_saved (c c' : Connector) : Prop :=
  c_id c' = c_id c /\ c_status c' = c_status c /\ c_availability c' = c_availability c /\ c_transaction c' = c_transaction c /\
  c_reservation c' = Resv ReservationStatus_Rejected (r_id (c_reservation c)) (r_idTag (c_reservation c)) (r_parentIdTag (c_reservation c)) (r_expiry (c_reservation c)).

Definition prepared (cs : Connectors) : Prop :=
  exists i u f, m_qInsert cs = Some i /\ m_qUpdate cs = Some u /\ m_qFind cs = Some f /\
    q_sql i = CONNECTOR_INSERT /\ q_sql u = CONNECTOR_UPDATE /\ q_sql f = CONNECTOR_FIND.

Record conns_ok (cs : Connectors) : Prop := {
  conns_some : (0 < length (m_connectors cs))%nat /\ Z.of_nat (length (m_connectors cs)) < 2 ^ 32;
  conns_numbered : numbered 0 (m_connectors cs);
  conns_range : Forall in_range (m_connectors cs);
  conns_pool : pool_ok (m_timerPool cs) /\ m_stop (m_timerPool cs) = false
}.

Lemma get_connector_spec id cs : conns_ok cs -> 0 <= id ->
  get id cs = Returns (m_connectors cs !! Z.to_nat id).
Proof.
  intros [[Hlen Hmax] _ _ _] Hid. unfold get, count. rewrite uint_id by lia. destruct (Z.ltb_spec (Z.of_nat (length (m_connectors cs)) - 1) id).
  - by rewrite (lookup_ge_None_2 _ (Z.to_nat id)) by lia.
  - destruct (lookup_lt_is_Some_2 (m_connectors cs) (Z.to_nat id)) as [c ->]; [lia|done].
Qed.

Section Rows.
Context {DB : Type} `{ConnectorSql DB}.

Lemma number_is_row b n id c : b n = Some (VInt id) -> number_is b n (conn_row c) = (c_id c =? id).
Proof.
  intros Hb. unfold number_is, matches. rewrite Hb, int_column_int. cbn [col conn_row lookup list_lookup default].
  rewrite bool_decide_true with (P := Some (VInt id) <> None) by done. rewrite andb_true_r. unfold col. cbn.
  destruct (Z.eqb_spec (c_id c) id) as [->|Hne]; [by apply bool_decide_true|]. apply bool_decide_false. congruence.
Qed.

Lemma find_no_row b n id l : b n = Some (VInt id) -> forall start, numbered start l -> id < start \/ start + Z.of_nat (length l) <= id ->
  List.filter (number_is b n) (conn_row <$> l) = [] /\ existsb (number_is b n) (conn_row <$> l) = false.
Proof.
  intros Hb. induction l as [|c l IH]; intros start Hn Hout; [done|]. apply numbered_cons in Hn as [Hc Hn]. csimpl. cbn [List.filter existsb length] in *.
  rewrite (number_is_row b n id c Hb). destruct (Z.eqb_spec (c_id c) id); [lia|]. apply (IH (start + 1)); [done|lia].
Qed.

Lemma find_one_row b n id l c : b n = Some (VInt id) -> forall start, numbered start l -> l !! Z.to_nat (id - start) = Some c -> start <= id ->
  List.filter (number_is b n) (conn_row <$> l) = [conn_row c].
Proof.
  intros Hb. induction l as [|x l IH]; intros start Hn Hl Hs; [done|]. apply numbered_cons in Hn as [Hx Hn]. csimpl. cbn [List.filter].
  rewrite (number_is_row b n id x Hb). destruct (Z.eqb_spec (c_id x) id) as [E|Hne].
  - replace (Z.to_nat (id - start)) with 0%nat in Hl by lia. injection Hl as ->. f_equal. apply (find_no_row b n id l Hb (start + 1)); [done|lia].
  - apply (IH (start + 1)); [done| |lia]. replace (Z.to_nat (id - start)) with (S (Z.to_nat (id - (start + 1)))) in Hl by lia. done.
Qed.

Lemma update_rows b id l c (new : row -> row) : b 10 = Some (VInt id) -> numbered 0 l -> 0 <= id -> (Z.to_nat id < length l)%nat ->
  (forall x, c_id x = id -> new (conn_row x) = conn_row c) ->
  (fun r => if number_is b 10 r then new r else r) <$> (conn_row <$> l) = conn_row <$> <[Z.to_nat id := c]> l.
Proof.
  intros Hb Hn Hid Hlt Hnew. apply list_eq. intros i. rewrite !list_lookup_fmap. destruct (decide (i = Z.to_nat id)) as [->|Hne].
  - rewrite list_lookup_insert_eq by done. destruct (lookup_lt_is_Some_2 l (Z.to_nat id) Hlt) as [x Hx]. rewrite Hx. cbn.
    rewrite (number_is_row b 10 id x Hb). pose proof (Hn _ _ Hx) as Hi. destruct (Z.eqb_spec (c_id x) id) as [E|]; [by rewrite Hnew|lia].
  - rewrite list_lookup_insert_ne by done. destruct (l !! i) as [x|] eqn:Hx; [|done]. cbn. rewrite (number_is_row b 10 id x Hb).
    pose proof (Hn _ _ Hx) as Hi. destruct (Z.eqb_spec (c_id x) id); [lia|done].
Qed.

End Rows.

Section Properties.
Context {DB : Type} `{ConnectorSql DB}.

Definition synced (cs : Connectors) (db : DB) : Prop := healthy db /\ connector_rows (tables db) = conn_row <$> m_connectors cs.

(** A constraint that is met. *)
Ltac drop_test := match goal with |- context [bool_decide ?P] => replace (bool_decide P) with false by (symmetry; by apply bool_decide_false) end.

(** A use of a query that has an effect and cannot fail. *)
Lemma use_works q l db e rows t' : healthy db -> meaning (q_sql q) = Some e -> e (tables db) (fun n => bindings l !! n) = Some (rows, t') ->
  exists q' db', use q l db = (true, q', db') /\ q_sql q' = q_sql q /\ healthy db' /\ tables db' = t' /\ q_row q' = default [] (head rows) /\
    m_has_rows q' = match rows with [] => false | _ => true end.
Proof.
  intros Hh He Heff. destruct (use_effect q l db e He) as (q' & db' & Hq & Hh' & Hu). rewrite Heff in Hu.
  destruct Hu as [(Hu & Ht & Hr & Hm)|(_ & _ & Hno)]; [|done]. exists q', db'. split_and!; try done. by apply Hh'.
Qed.

Lemma save_spec id cs db c old : conns_ok cs -> prepared cs -> healthy db -> 0 <= id -> m_connectors cs !! Z.to_nat id = Some c ->
  connector_rows (tables db) = conn_row <$> old -> numbered 0 old -> m_connectors cs = <[Z.to_nat id := c]> old -> length old = length (m_connectors cs) ->
  exists q db', save id cs db = Returns (true, with_queries cs (m_qInsert cs) (Some q) (m_qFind cs), db') /\
    prepared (with_queries cs (m_qInsert cs) (Some q) (m_qFind cs)) /\ synced (with_queries cs (m_qInsert cs) (Some q) (m_qFind cs)) db'.
Proof.
  intros Hok (qi & qu & qf & Hi & Hu & Hf & Ei & Eu & Ef) Hh Hid Hc Hrows Hnum Hold Hlen. unfold save. rewrite (get_connector_spec id cs Hok Hid), Hc, Hu.
  cbn [mbind outcome_bind]. set (b := save_bindings id c).
  destruct (use_works qu b db connector_update_effect [] (set_connectors (tables db) (conn_row <$> m_connectors cs)) Hh) as (q' & db' & -> & Hq & Hh' & Ht & _).
  { rewrite Eu. apply means_connector_update. }
  { unfold connector_update_effect. cbv beta. change (bindings b !! 1) with (Some (VText (toString status_names (c_status c) "Available"))).
    drop_test. rewrite andb_false_r. do 3 f_equal. rewrite Hrows, Hold.
    apply update_rows; [reflexivity|done|done|rewrite Hlen; by eapply lookup_lt_Some|]. intros x Hx.
    assert (Hcid : c_id c = id) by (pose proof (conns_numbered cs Hok _ _ Hc); lia).
    change (bindings b !! 2) with (Some (VInt (t_id (c_transaction c)))). change (bindings b !! 3) with (Some (VText (t_idTag (c_transaction c)))).
    change (bindings b !! 4) with (Some (VText (t_parentIdTag (c_transaction c)))). change (bindings b !! 5) with (Some (VInt (r_id (c_reservation c)))).
    change (bindings b !! 6) with (Some (VText (r_idTag (c_reservation c)))). change (bindings b !! 7) with (Some (VText (r_parentIdTag (c_reservation c)))).
    change (bindings b !! 8) with (Some (VInt (r_expiry (c_reservation c)))). change (bindings b !! 9) with (Some (VInt (c_availability c))).
    rewrite !int_column_int. unfold conn_row, col. cbn. by rewrite Hx, Hcid. }
  cbn [negb]. eexists _, db'. split; [reflexivity|]. split; [eexists _, _, _; split_and!; try done; cbn; congruence|].
  split; [done|]. cbn. by rewrite Ht.
Qed.

(** The new state of one connector is saved. *)
Lemma save_updated f id cs db c : conns_ok cs -> prepared cs -> synced cs db -> 0 <= id -> m_connectors cs !! Z.to_nat id = Some c ->
  c_id (f c) = c_id c -> in_range (f c) -> let cs1 := with_connector cs (Z.to_nat id) (f c) in
  exists q db', save id cs1 db = Returns (true, with_queries cs1 (m_qInsert cs) (Some q) (m_qFind cs), db') /\
    conns_ok (with_queries cs1 (m_qInsert cs) (Some q) (m_qFind cs)) /\
    prepared (with_queries cs1 (m_qInsert cs) (Some q) (m_qFind cs)) /\ synced (with_queries cs1 (m_qInsert cs) (Some q) (m_qFind cs)) db'.
Proof.
  intros Hok Hp [Hh Hrows] Hid Hc Hcid Hr cs1. assert (Hlt : (Z.to_nat id < length (m_connectors cs))%nat) by by eapply lookup_lt_Some.
  pose proof (conns_numbered cs Hok) as Hnum. assert (Hok1 : conns_ok cs1).
  { destruct Hok as [Hs Hn Hra Hpo]. split; cbn; [by rewrite length_insert| |by apply Forall_insert|done].
    apply numbered_insert; [done|]. rewrite Hcid. by rewrite (Hn _ _ Hc). }
  destruct (save_spec id cs1 db (f c) (m_connectors cs)) as (q & db' & Hs & Hp' & Hsy); try done.
  - cbn. by rewrite list_lookup_insert_eq.
  - cbn. by rewrite length_insert.
  - exists q, db'. split; [done|]. split; [|done]. destruct Hok1. by split.
Qed.

(** A connector that is not there. *)
Lemma no_connector id cs : conns_ok cs -> 0 <= id -> m_connectors cs !! Z.to_nat id = None -> get id cs = Returns None.
Proof. intros Hok Hid Hc. by rewrite get_connector_spec, Hc. Qed.

Definition state_ok (cs : Connectors) (db : DB) : Prop := conns_ok cs /\ prepared cs /\ synced cs db.

Lemma status_inside s : status_outside s = false.
Proof. by destruct s. Qed.

Lemma enqueue_ok cs db t : state_ok cs db -> state_ok (enqueue cs t) db.
Proof. intros (Hok & Hp & Hs). split; [destruct Hok; by split|]. by split. Qed.

Lemma update_status_spec id target error inf force cs db : state_ok cs db -> 0 <= id ->
  exists r cs' db', updateStatus id target error inf force cs db = Returns (r, cs', db') /\ state_ok cs' db' /\
    match m_connectors cs !! Z.to_nat id with
    | None => r = false /\ cs' = cs
    | Some c =>
      r = force || checkStatusTransition (c_status c) target /\
      if r then m_connectors cs' = <[Z.to_nat id := set_status c target]> (m_connectors cs) /\
                m_threadPool cs' = m_threadPool cs ++ [NotifyStatus id target error inf]
      else cs' = cs
    end.
Proof.
  intros (Hok & Hp & Hs) Hid. unfold updateStatus. rewrite get_connector_spec by done. cbn [mbind outcome_bind].
  destruct (m_connectors cs !! Z.to_nat id) as [c|] eqn:Hc; [|by exists false, cs, db]. rewrite !status_inside. cbn [orb].
  destruct (negb force && negb (checkStatusTransition (c_status c) target)) eqn:Hf.
  - exists false, cs, db. split; [done|]. split; [done|]. by destruct force, (checkStatusTransition (c_status c) target).
  - assert (Hr : force || checkStatusTransition (c_status c) target = true) by (by destruct force, (checkStatusTransition (c_status c) target)).
    rewrite Hr. destruct (Z.eqb_spec (to_int (c_status c)) (to_int target)) as [E|Hne]; cbn [negb mbind outcome_bind].
    + exists true. do 2 eexists. split; [reflexivity|]. split; [by apply enqueue_ok|]. split; [done|]. split; [|done]. cbn. symmetry.
      apply list_insert_id. rewrite Hc. apply to_int_inj in E. destruct c. cbn in *. by subst.
    + destruct (save_updated (fun c => set_status c target) id cs db c) as (q & db' & -> & Hok' & Hp' & Hs'); [done..|by destruct Hok as [_ _ Hra _]; rewrite Forall_lookup in Hra; apply (Hra _ _ Hc)|].
      cbn [mbind outcome_bind]. exists true. do 2 eexists. split; [reflexivity|]. split; [by apply enqueue_ok|]. done.
Qed.

Lemma update_with_spec f id cs db : state_ok cs db -> 0 <= id -> (forall c, c_id (f c) = c_id c) -> (forall c, in_range c -> in_range (f c)) ->
  exists r cs' db', update_with f id cs db = Returns (r, cs', db') /\ state_ok cs' db' /\
    match m_connectors cs !! Z.to_nat id with
    | None => r = false /\ cs' = cs
    | Some c => r = true /\ m_connectors cs' = <[Z.to_nat id := f c]> (m_connectors cs)
    end.
Proof.
  intros (Hok & Hp & Hs) Hid Hcid Hr. unfold update_with. rewrite get_connector_spec by done. cbn [mbind outcome_bind].
  destruct (m_connectors cs !! Z.to_nat id) as [c|] eqn:Hc; [|by exists false, cs, db].
  assert (Hu : exists u, m_qUpdate cs = Some u) by (destruct Hp as (i & u & fq & _ & Hu & _); by exists u). destruct Hu as [u Hu]. rewrite Hu.
  destruct (save_updated f id cs db c) as (q & db' & -> & Hok' & Hp' & Hs'); try done.
  { apply Hr. destruct Hok as [_ _ Hra _]. rewrite Forall_lookup in Hra. by apply (Hra (Z.to_nat id)). }
  exists true. do 2 eexists. split; [reflexivity|]. done.
Qed.

(** Timers are created without an end. *)
Lemma create_pool_ok name p : pool_ok p -> m_stop p = false -> pool_ok (createTimer name p).2 /\ m_stop (createTimer name p).2 = false.
Proof. intros Hok Hst. destruct (timer_step_ok 0 (Create name) p Hok Hst I) as (p' & [= <-] & Hok'). exact Hok'. Qed.

Lemma init_timers_spec id cs c : conns_ok cs -> 0 <= id -> m_connectors cs !! Z.to_nat id = Some c ->
  exists ts p, initConnectorTimers id cs = Returns (with_pool (with_connector cs (Z.to_nat id) (set_timers c ts)) p) /\
    conns_ok (with_pool (with_connector cs (Z.to_nat id) (set_timers c ts)) p).
Proof.
  intros Hok Hid Hc. unfold initConnectorTimers. rewrite (get_connector_spec id cs Hok Hid), Hc. cbn [mbind outcome_bind].
  destruct Hok as [Hs Hn Hra [Hpo Hst]]. destruct (createTimer EmptyString (m_timerPool cs)) as [t1 p1] eqn:E1. destruct (createTimer EmptyString p1) as [t2 p2] eqn:E2.
  destruct (createTimer EmptyString p2) as [t3 p3] eqn:E3. destruct (createTimer EmptyString p3) as [t4 p4] eqn:E4.
  pose proof (create_pool_ok EmptyString _ Hpo Hst) as P1. rewrite E1 in P1. destruct P1 as [P1 S1].
  pose proof (create_pool_ok EmptyString p1 P1 S1) as P2. rewrite E2 in P2. destruct P2 as [P2 S2].
  pose proof (create_pool_ok EmptyString p2 P2 S2) as P3. rewrite E3 in P3. destruct P3 as [P3 S3].
  pose proof (create_pool_ok EmptyString p3 P3 S3) as P4. rewrite E4 in P4. destruct P4 as [P4 S4].
  do 2 eexists. split; [reflexivity|]. split; cbn; [by rewrite length_insert| |apply Forall_insert; [done|]|done].
  - apply numbered_insert; [done|]. exact (Hn _ _ Hc).
  - rewrite Forall_lookup in Hra. by apply (Hra _ _ Hc).
Qed.

Lemma insert_spec i cs db c : conns_ok cs -> prepared cs -> healthy db -> m_connectors cs !! i = Some c ->
  connector_rows (tables db) = conn_row <$> take i (m_connectors cs) ->
  exists q db', insert (c_id c) cs db = Returns (true, with_queries cs (Some q) (m_qUpdate cs) (m_qFind cs), db') /\
    conns_ok (with_queries cs (Some q) (m_qUpdate cs) (m_qFind cs)) /\ prepared (with_queries cs (Some q) (m_qUpdate cs) (m_qFind cs)) /\
    healthy db' /\ connector_rows (tables db') = conn_row <$> take (S i) (m_connectors cs).
Proof.
  intros Hok (qi & qu & qf & Hi & Hu & Hf & Ei & Eu & Ef) Hh Hc Hrows. pose proof (conns_numbered cs Hok _ _ Hc) as Hid.
  assert (Hlt : (i < length (m_connectors cs))%nat) by by eapply lookup_lt_Some.
  unfold insert. rewrite (get_connector_spec (c_id c) cs Hok) by lia. replace (Z.to_nat (c_id c)) with i by lia. rewrite Hc, Hi. cbn [mbind outcome_bind].
  set (b := insert_bindings c).
  destruct (use_works qi b db connector_insert_effect [] (set_connectors (tables db) (conn_row <$> take (S i) (m_connectors cs))) Hh)
    as (q' & db' & -> & Hq & Hh' & Ht & _).
  { rewrite Ei. apply means_connector_insert. }
  { unfold connector_insert_effect. cbv beta. rewrite Hrows.
    assert (Hb : (fun n => bindings b !! n) 1 = Some (VInt (c_id c))) by reflexivity.
    rewrite (proj2 (find_no_row _ 1 (c_id c) (take i (m_connectors cs)) Hb 0 ltac:(intros j x Hx; apply (conns_numbered cs Hok); by apply lookup_take_Some in Hx as [Hx _])
      ltac:(right; rewrite length_take; lia))).
    change (bindings b !! 1) with (Some (VInt (c_id c))). change (bindings b !! 2) with (Some (VText (toString status_names (c_status c) "Available"))).
    change (bindings b !! 3) with (Some (VInt (t_id (c_transaction c)))). change (bindings b !! 4) with (Some (VText (t_idTag (c_transaction c)))).
    change (bindings b !! 5) with (Some (VText (t_parentIdTag (c_transaction c)))). change (bindings b !! 6) with (Some (VInt (r_id (c_reservation c)))).
    change (bindings b !! 7) with (Some (VText (r_idTag (c_reservation c)))). change (bindings b !! 8) with (Some (VText (r_parentIdTag (c_reservation c)))).
    change (bindings b !! 9) with (Some (VInt (r_expiry (c_reservation c)))). change (bindings b !! 10) with (Some (VInt (c_availability c))).
    rewrite !int_column_int. cbn [as_text_column]. unfold col. cbn [lookup list_lookup default orb]. rewrite !bool_decide_false by done. cbn [orb].
    do 3 f_equal. by rewrite (take_S_r _ _ _ Hc), fmap_app. }
  eexists _, db'. split; [reflexivity|]. split; [by destruct Hok; split|]. split; [eexists _, _, _; split_and!; try done; cbn; congruence|]. by rewrite Ht.
Qed.

(** Connectors as they are constructed, with timers. *)
Definition fresh_from (i : nat) (now : Z) (l : list Connector) : Prop :=
  forall j c, (i <= j)%nat -> l !! j = Some c -> exists ts, c = set_timers (new_connector (Z.of_nat j) now) ts.

Lemma reset_each_spec now (Hnow : in_int64 now) k : forall i cs db, conns_ok cs -> prepared cs -> healthy db ->
  connector_rows (tables db) = conn_row <$> take i (m_connectors cs) -> (i + k = length (m_connectors cs))%nat ->
  exists cs' db', reset_each (seq i k) now cs db = Returns (true, cs', db') /\ state_ok cs' db' /\ length (m_connectors cs') = length (m_connectors cs) /\
    m_threadPool cs' = m_threadPool cs /\ fresh_from i now (m_connectors cs') /\ take i (m_connectors cs') = take i (m_connectors cs).
Proof.
  induction k as [|k IH]; intros i cs db Hok Hp Hh Hrows Hlen; cbn [seq reset_each].
  - exists cs, db. rewrite firstn_all2 in Hrows by lia. split_and!; try done. intros j c Hj Hc. apply lookup_lt_Some in Hc. lia.
  - destruct (lookup_lt_is_Some_2 (m_connectors cs) i) as [c Hc]; [lia|]. rewrite Hc. cbn [ub mbind outcome_bind].
    pose proof (conns_numbered cs Hok _ _ Hc) as Hid. rewrite Z.add_0_l in Hid. rewrite Hid.
    set (c0 := new_connector (Z.of_nat i) now). set (cs0 := with_connector cs i c0).
    assert (Hc0 : m_connectors cs0 !! i = Some c0) by (cbn; apply list_lookup_insert_eq; lia).
    assert (Hok0 : conns_ok cs0).
    { destruct Hok as [Hs Hn Hra Hpo]. split; cbn; [by rewrite length_insert|by apply numbered_insert| |done]. apply Forall_insert; [done|].
      unfold in_range, in_int32, INT32_MIN, INT32_MAX. cbn. split_and!; lia || apply Hnow. }
    assert (Htake : take i (m_connectors cs0) = take i (m_connectors cs)) by (cbn; by rewrite take_insert_ge).
    destruct (insert_spec i cs0 db c0 Hok0) as (q & db1 & Hins & Hok1 & Hp1 & Hh1 & Hr1); [done..|by rewrite Htake|].
    change (insert (Z.of_nat i) _ db) with (insert (c_id c0) cs0 db). rewrite Hins. cbn [mbind outcome_bind negb].
    destruct (init_timers_spec (Z.of_nat i) _ c0 Hok1) as (ts & p & -> & Hok2); [lia|by rewrite Nat2Z.id|]. rewrite Nat2Z.id in *. cbn [mbind outcome_bind].
    set (cs2 := with_pool _ p) in *. assert (E2 : m_connectors cs2 = <[i := set_timers c0 ts]> (m_connectors cs0)) by reflexivity.
    assert (Hlen0 : length (m_connectors cs0) = length (m_connectors cs)) by (cbn; by rewrite length_insert).
    destruct (IH (S i) cs2 db1 Hok2) as (cs' & db' & -> & Hst & Hl & Hth & Hfr & Htk).
    + destruct Hp1 as (? & ? & ? & ?). by eexists _, _, _.
    + done.
    + rewrite Hr1, E2. rewrite (take_S_r (m_connectors cs0) i c0 Hc0). erewrite (take_S_r (<[i:=_]> _)) by (apply list_lookup_insert_eq; lia).
      rewrite !fmap_app, take_insert_ge by done. done.
    + rewrite E2, length_insert. lia.
    + exists cs', db'. split; [done|]. split; [done|]. rewrite Hl, E2, length_insert. split; [lia|]. split; [by rewrite Hth|].
      assert (Htk' : take i (m_connectors cs') = take i (m_connectors cs)).
      { pose proof (f_equal (take i) Htk) as Ht. rewrite !take_take in Ht. replace (i `min` S i)%nat with i in Ht by lia.
        rewrite Ht, E2, take_insert_ge by done. exact Htake. }
      split; [|done]. intros j x Hj Hx. destruct (decide (j = i)) as [->|Hne]; [|apply Hfr; [lia|done]].
      assert (Hi : take (S i) (m_connectors cs') !! i = Some x) by (rewrite lookup_take_lt by lia; done).
      rewrite Htk, E2, lookup_take_lt in Hi by lia. rewrite list_lookup_insert_eq in Hi by lia. injection Hi as <-. by exists ts.
Qed.

Lemma reset_spec d clock now w cs db : in_int64 now -> advance clock IDLE_MS = Returns w -> m_db d = true -> (forall (db' : DB) sql, prepares db' sql = true) ->
  conns_ok cs -> prepared cs -> healthy db ->
  exists cs' db', resetConnectors d clock now cs db = Returns (true, cs', db') /\ state_ok cs' db' /\ length (m_connectors cs') = length (m_connectors cs) /\
    m_threadPool cs' = m_threadPool cs /\ fresh_from 0 now (m_connectors cs').
Proof.
  intros Hnow Hw Hd Hq Hok Hp Hh. unfold resetConnectors. destruct Hok as [Hs Hn Hra [Hpo Hst]].
  destruct (stop_all_spec (m_timerPool cs) clock w Hpo Hw) as (p & -> & Hpo' & Hst' & _). cbn [mbind outcome_bind].
  rewrite (query_some CONNECTOR_CLEAR d db Hd (Hq db _)). set (q := MakeQuery CONNECTOR_CLEAR ∅ false [] false None).
  destruct (use_works q [] db connector_clear_effect [] (set_connectors (tables db) []) Hh means_connector_clear eq_refl) as (q' & db1 & Hu & _ & Hh1 & Ht1 & _).
  change (exec q db) with (use q [] db). rewrite Hu. unfold indices.
  destruct (reset_each_spec now Hnow (length (m_connectors cs)) 0 (with_pool cs p) db1) as (cs' & db' & Hr & Hst2 & Hl & Hth & Hfr & _); try done.
  - split; cbn; try done. split; [done|]. congruence.
  - by rewrite Ht1.
  - exists cs', db'. cbn [m_connectors with_pool]. rewrite Hr. done.
Qed.

(** A connector that takes the saved values of another. *)
Definition restored (s c : Connector) : Connector :=
  MkConnector (c_id c) (c_status s) (c_availability s) (c_transaction s)
    (Resv (r_status (c_reservation c)) (r_id (c_reservation s)) (r_idTag (c_reservation s)) (r_parentIdTag (c_reservation s)) (r_expiry (c_reservation s)))
    (c_timers c).

Lemma status_read (s d : ChargePointStatus) : toEnum status_names (toString status_names s "Available") d = s.
Proof. unfold toEnum. pose proof (status_named s "Available") as Hn. unfold toEnum_or_throw in Hn. by rewrite Hn. Qed.

Lemma load_spec i cs db c s saved : conns_ok cs -> prepared cs -> healthy db -> m_connectors cs !! i = Some c ->
  connector_rows (tables db) = conn_row <$> saved -> numbered 0 saved -> saved !! i = Some s -> in_range s ->
  exists q db', let cs1 := with_connector (with_queries cs (m_qInsert cs) (m_qUpdate cs) (Some q)) i (restored s c) in
    load (c_id c) cs db = Returns (true, cs1, db') /\ conns_ok cs1 /\ prepared cs1 /\ healthy db' /\ tables db' = tables db.
Proof.
  intros Hok (qi & qu & qf & Hi & Hu & Hf & Ei & Eu & Ef) Hh Hc Hrows Hnum Hs Hra. pose proof (conns_numbered cs Hok _ _ Hc) as Hid.
  assert (Ei' : Z.to_nat (c_id c) = i) by lia. unfold load. rewrite (get_connector_spec (c_id c) cs Hok) by lia. rewrite Ei', Hc, Hf. cbn [mbind outcome_bind].
  set (b := [(1, VInt (c_id c))]). assert (Hb : (fun n => bindings b !! n) 1 = Some (VInt (c_id c))) by reflexivity.
  destruct (use_works qf b db connector_find_effect [conn_row s] (tables db) Hh) as (q & db' & -> & Hq & Hh' & Ht & Hrow & Hm).
  { rewrite Ef. apply means_connector_find. }
  { unfold connector_find_effect. rewrite Hrows. do 2 f_equal. apply (find_one_row _ 1 (c_id c) saved s Hb 0); [done|by rewrite Z.sub_0_r, Ei'|lia]. }
  cbn [negb]. rewrite Hm. cbn [head default id] in Hrow. pose proof (Hnum _ _ Hs) as Hsid.
  assert (Hr32 : 0 <= c_id c < 2 ^ 32).
  { destruct Hok as [[_ Hmax] _ _ _]. apply lookup_lt_Some in Hc. lia. }
  destruct Hra as (Rt & Rr & Re & Ra).
  assert (Hget : getUInt32 q 0 = c_id c).
  { unfold getUInt32, column. rewrite Hrow. cbn. rewrite uint_id by lia. lia. }
  rewrite Hget, Z.eqb_refl. cbn [orb negb].
  assert (Hl : loaded (c_id c) q c = restored s c).
  { unfold loaded, restored, getText, getInt64, column. rewrite Hrow.
    cbn -[toString toEnum status_names uint sint]. rewrite !uint_id, sint32_id by done. rewrite status_read. by destruct (c_transaction s). }
  rewrite Hl. exists q, db'. split; [reflexivity|]. split; [|split; [eexists _, _, _; split_and!; try done; cbn; congruence|done]].
  destruct Hok as [Hlen Hn Hrange Hpo]. split; cbn; [by rewrite length_insert|by apply numbered_insert| |done].
  apply Forall_insert; [done|]. done.
Qed.

Lemma row_same s c : same_saved s c -> conn_row c = conn_row s.
Proof. intros (E1 & E2 & E3 & E4 & E5). unfold conn_row. by rewrite E1, E2, E3, E4, E5. Qed.

Lemma load_each_spec now saved k : numbered 0 saved -> Forall in_range saved -> forall i cs db, conns_ok cs -> prepared cs -> healthy db ->
  connector_rows (tables db) = conn_row <$> saved -> length saved = length (m_connectors cs) -> (i + k = length saved)%nat ->
  (forall j c, (i <= j)%nat -> m_connectors cs !! j = Some c -> r_status (c_reservation c) = ReservationStatus_Rejected) ->
  exists cs' db', load_each (seq i k) now cs db = Returns (cs', db') /\ conns_ok cs' /\ prepared cs' /\ healthy db' /\
    connector_rows (tables db') = conn_row <$> saved /\ length (m_connectors cs') = length saved /\
    (forall j, (j < i)%nat -> m_connectors cs' !! j = m_connectors cs !! j) /\
    (forall j s c, (i <= j)%nat -> saved !! j = Some s -> m_connectors cs' !! j = Some c -> same_saved s c).
Proof.
  intros Hnum Hra. induction k as [|k IH]; intros i cs db Hok Hp Hh Hrows Hl Hk Hrej; cbn [seq load_each].
  - exists cs, db. split_and!; try done. intros j s c Hj Hs. apply lookup_lt_Some in Hs. lia.
  - destruct (lookup_lt_is_Some_2 (m_connectors cs) i) as [c Hc]; [lia|]. destruct (lookup_lt_is_Some_2 saved i) as [s Hs]; [lia|].
    rewrite Hc. cbn [ub mbind outcome_bind]. assert (Hrs : in_range s) by (rewrite Forall_lookup in Hra; by apply (Hra i)).
    destruct (load_spec i cs db c s saved Hok Hp Hh Hc Hrows Hnum Hs Hrs) as (q & db1 & -> & Hok1 & Hp1 & Hh1 & Ht1). cbn [mbind outcome_bind].
    set (cs1 := with_connector _ i (restored s c)) in *. pose proof (conns_numbered cs Hok _ _ Hc) as Hid.
    assert (Hc1 : m_connectors cs1 !! Z.to_nat (c_id c) = Some (restored s c)).
    { replace (Z.to_nat (c_id c)) with i by lia. cbn. apply list_lookup_insert_eq. lia. }
    destruct (init_timers_spec (c_id c) cs1 (restored s c) Hok1) as (ts & p & -> & Hok2); [lia|done|]. cbn [mbind outcome_bind].
    replace (Z.to_nat (c_id c)) with i in * by lia. set (cs2 := with_pool _ p) in *.
    assert (E2 : m_connectors cs2 = <[i := set_timers (restored s c) ts]> (m_connectors cs)) by (cbn; by rewrite list_insert_insert_eq).
    assert (Hp2 : prepared cs2) by (destruct Hp1 as (? & ? & ? & ?); by eexists _, _, _).
    destruct (IH (S i) cs2 db1 Hok2 Hp2 Hh1) as (cs' & db' & -> & Hok' & Hp' & Hh' & Hr' & Hl' & Hlow & Hall).
    + by rewrite Ht1.
    + by rewrite E2, length_insert.
    + lia.
    + intros j x Hj Hx. rewrite E2, list_lookup_insert_ne in Hx by lia. apply (Hrej j x); [lia|done].
    + exists cs', db'. split; [done|]. split; [done|]. split; [done|]. split; [done|]. split; [done|]. split; [done|]. split.
      * intros j Hj. rewrite Hlow, E2, list_lookup_insert_ne by lia. done.
      * intros j s' x Hj Hs' Hx. destruct (decide (j = i)) as [->|Hne]; [|apply (Hall j); [lia|done..]].
        rewrite Hlow, E2, list_lookup_insert_eq in Hx by lia. injection Hx as <-. rewrite Hs in Hs'. injection Hs' as <-.
        pose proof (Hnum _ _ Hs) as Hsid. unfold same_saved, restored, set_timers. cbn. split_and!; try done; [lia|].
        by rewrite (Hrej i c) by done.
Qed.

(** The program starts with the rows of another one. *)
Lemma init_spec d clock now w n p db saved : in_int64 now -> advance clock IDLE_MS = Returns w -> m_db d = true ->
  (forall (db' : DB) sql, prepares db' sql = true) -> healthy db -> Z.of_nat (S n) < 2 ^ 32 -> pool_ok p -> m_stop p = false ->
  connector_rows (tables db) = conn_row <$> saved -> numbered 0 saved -> Forall in_range saved -> Z.of_nat (length saved) < 2 ^ 32 ->
  exists cs db', initConnectorTable d clock now (make_connectors n now p) db = Returns (true, cs, db') /\ state_ok cs db' /\
    length (m_connectors cs) = S n /\
    if decide (length saved = S n) then forall i s c, saved !! i = Some s -> m_connectors cs !! i = Some c -> same_saved s c
    else fresh_from 0 now (m_connectors cs).
Proof.
  intros Hnow Hw Hd Hq Hh Hn Hpo Hst Hrows Hnum Hra Hs32. unfold initConnectorTable.
  rewrite (query_some CREATE_CONNECTOR d db Hd (Hq db _)).
  destruct (use_works (MakeQuery CREATE_CONNECTOR ∅ false [] false None) [] db create_connector_effect [] (tables db) Hh means_connector_create eq_refl)
    as (q0 & db1 & Hu & _ & Hh1 & Ht1 & _).
  change (exec (MakeQuery CREATE_CONNECTOR ∅ false [] false None) db) with (use (MakeQuery CREATE_CONNECTOR ∅ false [] false None) [] db). rewrite Hu. cbn [negb].
  rewrite !query_some by done. set (cs0 := with_queries _ _ _ _).
  assert (Hlen : length (m_connectors cs0) = S n) by (cbn [cs0 m_connectors with_queries make_connectors]; by rewrite length_fmap, length_seq).
  assert (Hget : forall i c, m_connectors cs0 !! i = Some c -> c = new_connector (Z.of_nat i) now).
  { intros i c Hc. cbn [cs0 m_connectors with_queries make_connectors] in Hc. apply list_lookup_fmap_Some in Hc as (j & -> & Hj).
    apply lookup_seq in Hj as [-> _]. done. }
  assert (Hok0 : conns_ok cs0).
  { split; [rewrite Hlen; lia| | |done].
    - intros i c Hc. by rewrite (Hget i c Hc).
    - apply Forall_lookup. intros i c Hc. rewrite (Hget i c Hc). unfold in_range, in_int32, INT32_MIN, INT32_MAX. cbn. split_and!; lia || apply Hnow. }
  assert (Hp0 : prepared cs0) by (by eexists _, _, _).
  cbn [cs0 m_qInsert m_qUpdate m_qFind with_queries]. fold cs0. unfold initConnectorData. rewrite (query_some CONNECTOR_COUNT d db1 Hd (Hq db1 _)).
  destruct (use_works (MakeQuery CONNECTOR_COUNT ∅ false [] false None) [] db1 connector_count_effect _ _ Hh1 means_connector_count eq_refl)
    as (qc & db2 & Huc & _ & Hh2 & Ht2 & Hrow & _).
  change (exec (MakeQuery CONNECTOR_COUNT ∅ false [] false None) db1) with (use (MakeQuery CONNECTOR_COUNT ∅ false [] false None) [] db1). rewrite Huc.
  assert (Hcount : getUInt32 qc 0 = Z.of_nat (length saved)).
  { unfold getUInt32, column. rewrite Hrow. cbn. rewrite Ht1, Hrows, length_fmap. apply uint_id. lia. }
  rewrite Hcount, Hlen, (uint_id 32 (Z.of_nat (S n))) by lia. assert (Hrows2 : connector_rows (tables db2) = conn_row <$> saved) by (by rewrite Ht2, Ht1).
  destruct (Z.eqb_spec (Z.of_nat (length saved)) (Z.of_nat (S n))) as [E|Hne]; cbn [negb].
  - destruct (decide (length saved = S n)) as [_|]; [|lia]. unfold indices.
    destruct (load_each_spec now saved (length (m_connectors cs0)) Hnum Hra 0 cs0 db2) as (cs' & db' & Hl & Hok' & Hp' & Hh' & Hr' & Hlen' & _ & Hall);
      [done..|lia|lia|intros j c _ Hc; by rewrite (Hget j c Hc)|].
    rewrite Hl. cbn [mbind outcome_bind]. exists cs', db'. split; [done|]. split; [|split; [lia|intros i s c; apply Hall; lia]].
    split; [done|]. split; [done|]. split; [done|]. rewrite Hr'. apply list_eq. intros i. rewrite !list_lookup_fmap.
    destruct (saved !! i) as [s|] eqn:Hs, (m_connectors cs' !! i) as [c|] eqn:Hc; try done; cbn.
    + by rewrite (row_same s c (Hall i s c ltac:(lia) Hs Hc)).
    + apply lookup_lt_Some in Hs. apply lookup_ge_None in Hc. lia.
    + apply lookup_lt_Some in Hc. apply lookup_ge_None in Hs. lia.
  - destruct (decide (length saved = S n)) as [|_]; [lia|].
    destruct (reset_spec d clock now w cs0 db2 Hnow Hw Hd Hq Hok0 Hp0 Hh2) as (cs' & db' & -> & Hst' & Hl' & _ & Hfr). cbn [mbind outcome_bind].
    exists cs', db'. split; [done|]. split; [done|]. split; [lia|done].
Qed.

End Properties.

(** ** Histories *)

Inductive conn_op :=
  | OpStatus (id : Z) (target : ChargePointStatus) (error : ChargePointErrorCode) (inf : string) (force : bool)
  | OpTransaction (id transactionId : Z) (idTag parentIdTag : string)
  | OpReservation (id reservationId : Z) (idTag parentIdTag : string) (expiryDate : Z) (status : ReservationStatus)
  | OpAvailability (id : Z) (availability : AvailabilityType)
  | OpReset (clock now : Z).

(** The arguments are of their types, and the clock is in range. *)
Definition op_fits (op : conn_op) : Prop :=
  match op with
  | OpStatus id _ _ _ _ | OpAvailability id _ => 0 <= id
  | OpTransaction id t _ _ => 0 <= id /\ 0 <= t < 2 ^ 32
  | OpReservation id r _ _ e _ => 0 <= id /\ 0 <= r < 2 ^ 32 /\ in_int64 e
  | OpReset clock now => in_int64 now /\ exists w, advance clock IDLE_MS = Returns w
  end.

Section Histories.
Context {DB : Type} `{ConnectorSql DB}.

Definition run_conn_op (d : Database) (op : conn_op) (cs : Connectors) (db : DB) : outcome (bool * Connectors * DB) :=
  match op with
  | OpStatus id target error inf force => updateStatus id target error inf force cs db
  | OpTransaction id t tag parent => updateTransaction id t tag parent cs db
  | OpReservation id r tag parent e st => updateReservation id r tag parent e st cs db
  | OpAvailability id a => updateAvailability id a cs db
  | OpReset clock now => resetConnectors d clock now cs db
  end.

Fixpoint run_conn_ops (d : Database) (ops : list conn_op) (cs : Connectors) (db : DB) : outcome (list bool * Connectors * DB) :=
  match ops with
  | [] => Returns ([], cs, db)
  | op :: ops' =>
    '(r, cs, db) ← run_conn_op d op cs db;
    '(rs, cs, db) ← run_conn_ops d ops' cs db;
    Returns (r :: rs, cs, db)
  end.

Lemma conn_op_ok d op cs db : m_db d = true -> (forall (db' : DB) sql, prepares db' sql = true) -> op_fits op -> state_ok cs db ->
  exists r cs' db', run_conn_op d op cs db = Returns (r, cs', db') /\ state_ok cs' db' /\ length (m_connectors cs') = length (m_connectors cs).
Proof.
  intros Hd Hq Hf Hst. destruct op as [id target error inf force|id t tag parent|id r tag parent e st|id a|clock now]; cbn [run_conn_op op_fits] in *.
  - destruct (update_status_spec id target error inf force cs db Hst Hf) as (r & cs' & db' & -> & Hst' & Hr). exists r, cs', db'. split; [done|]. split; [done|].
    destruct (m_connectors cs !! Z.to_nat id); [|by destruct Hr as [_ ->]]. destruct Hr as [-> Hr]. destruct (_ || _); [|by rewrite Hr].
    destruct Hr as [-> _]. apply length_insert.
  - destruct Hf as [Hid Ht]. unfold updateTransaction.
    edestruct (update_with_spec (fun c => set_transaction c (Txn t tag parent)) id cs db Hst Hid) as (r & cs' & db' & -> & Hst' & Hr); [done|by intros c (_ & ?)|].
    exists r, cs', db'. split; [done|]. split; [done|]. destruct (m_connectors cs !! Z.to_nat id); destruct Hr as [_ ->]; [apply length_insert|done].
  - destruct Hf as (Hid & Hr32 & He). unfold updateReservation.
    edestruct (update_with_spec (fun c => set_reservation c (Resv st r tag parent e)) id cs db Hst Hid) as (r' & cs' & db' & -> & Hst' & Hr);
      [done|by intros c (? & _ & _ & ?)|].
    exists r', cs', db'. split; [done|]. split; [done|]. destruct (m_connectors cs !! Z.to_nat id); destruct Hr as [_ ->]; [apply length_insert|done].
  - unfold updateAvailability.
    edestruct (update_with_spec (fun c => set_availability c (to_int a)) id cs db Hst Hf) as (r & cs' & db' & -> & Hst' & Hr);
      [done|by intros c (? & ? & ? & _); destruct a|].
    exists r, cs', db'. split; [done|]. split; [done|]. destruct (m_connectors cs !! Z.to_nat id); destruct Hr as [_ ->]; [apply length_insert|done].
  - destruct Hf as [Hnow [w Hw]], Hst as (Hok & Hp & [Hh _]).
    destruct (reset_spec d clock now w cs db Hnow Hw Hd Hq Hok Hp Hh) as (cs' & db' & -> & Hst' & Hl & _). by exists true, cs', db'.
Qed.

Lemma conn_ops_ok d ops : m_db d = true -> (forall (db' : DB) sql, prepares db' sql = true) -> Forall op_fits ops -> forall cs db, state_ok cs db ->
  exists rs cs' db', run_conn_ops d ops cs db = Returns (rs, cs', db') /\ state_ok cs' db' /\ length (m_connectors cs') = length (m_connectors cs).
Proof.
  intros Hd Hq. induction 1 as [|op ops Hop _ IH]; intros cs db Hst; cbn [run_conn_ops]; [by exists [], cs, db|].
  destruct (conn_op_ok d op cs db Hd Hq Hop Hst) as (r & cs1 & db1 & -> & Hst1 & Hl1). cbn [mbind outcome_bind].
  destruct (IH cs1 db1 Hst1) as (rs & cs' & db' & -> & Hst' & Hl'). cbn [mbind outcome_bind]. exists (r :: rs), cs', db'.
  split; [done|]. split; [done|]. congruence.
Qed.


(** C31: a change of status is done exactly when it is forced or the table
    allows it: it is then in the memory, in the database, and a notification of
    it is queued; otherwise nothing changes.  A connector that is not there is
    refused. *)
Theorem update_status_outcome id target error inf force cs db : state_ok cs db -> 0 <= id ->
  exists r cs' db', updateStatus id target error inf force cs db = Returns (r, cs', db') /\
    connector_rows (tables db') = conn_row <$> m_connectors cs' /\
    match m_connectors cs !! Z.to_nat id with
    | None => r = false /\ m_connectors cs' = m_connectors cs /\ m_threadPool cs' = m_threadPool cs
    | Some c =>
      r = force || checkStatusTransition (c_status c) target /\
      m_connectors cs' = (if r then <[Z.to_nat id := set_status c target]> (m_connectors cs) else m_connectors cs) /\
      m_threadPool cs' = m_threadPool cs ++ (if r then [NotifyStatus id target error inf] else [])
    end.
Proof.
  intros Hst Hid. destruct (update_status_spec id target error inf force cs db Hst Hid) as (r & cs' & db' & Hu & (_ & _ & [_ Hrows]) & Hr).
  exists r, cs', db'. split; [done|]. split; [done|]. destruct (m_connectors cs !! Z.to_nat id) as [c|]; [|by destruct Hr as [-> ->]].
  destruct Hr as [-> Hr]. split; [done|]. destruct (_ || _); [done|]. subst cs'. by rewrite app_nil_r.
Qed.

End Histories.

(** the table allows what its comments allow but for six transitions of the
    comments it lacks: from available to charging, from charging and to
    charging, suspended and back from unavailable, and from a fault to
    charging; and it allows no status to follow itself. *)
Theorem transitions_of_comments :
  (forall s, checkStatusTransition s s = false) /\
  (forall s t, checkStatusTransition s t = true -> commented s t = true) /\
  List.filter (fun p => commented p.1 p.2 && negb (checkStatusTransition p.1 p.2)) (list_prod enumerators enumerators) =
    [(ChargePointStatus_Available, ChargePointStatus_Charging); (ChargePointStatus_Charging, ChargePointStatus_Unavailable);
     (ChargePointStatus_Unavailable, ChargePointStatus_Charging); (ChargePointStatus_Unavailable, ChargePointStatus_SuspendedEVSE);
     (ChargePointStatus_Unavailable, ChargePointStatus_SuspendedEV); (ChargePointStatus_Faulted, ChargePointStatus_Charging)].
Proof. split; [by intros []|]. split; [by intros [] []|]. vm_compute. reflexivity. Qed.

(** ** A database with the statements *)

Definition connector_meaning {DB} `{SqlEngine DB} (sql : string) : option effect :=
  if String.eqb sql CREATE_CONNECTOR then Some create_connector_effect
  else if String.eqb sql CONNECTOR_INSERT then Some connector_insert_effect
  else if String.eqb sql CONNECTOR_UPDATE then Some connector_update_effect
  else if String.eqb sql CONNECTOR_FIND then Some connector_find_effect
  else if String.eqb sql CONNECTOR_COUNT then Some connector_count_effect
  else if String.eqb sql CONNECTOR_CLEAR then Some connector_clear_effect
  else None.

Definition connector_demo : string -> option effect := connector_meaning (H := demo_engine (fun _ => None)).

#[local] Instance demo_connector_engine : SqlEngine Tables := demo_engine connector_demo.
#[local] Instance demo_connector_tables : SqlTables Tables := demo_tables connector_demo.
#[local] Instance demo_connector_sql : ConnectorSql Tables.
Proof. split; reflexivity. Defined.

Definition no_tables : Tables := MakeTables [] None [] 1 [].

Lemma demo_prepares (db : Tables) sql : prepares db sql = true.
Proof. reflexivity. Qed.

(** One connector: it is prepared, charges and is reserved, over a restart. *)
Definition demo_conn_ops : list conn_op :=
  [OpStatus 1 ChargePointStatus_Preparing ChargePointErrorCode_NoError "" false; OpStatus 1 ChargePointStatus_Charging ChargePointErrorCode_NoError "" false;
   OpTransaction 1 7 "card" ""; OpReservation 1 3 "card" "" 5000 ReservationStatus_Accepted; OpStatus 5 ChargePointStatus_Available ChargePointErrorCode_NoError "" true].

Lemma demo_fresh_pool : pool_ok (demo_pool [] [] false) /\ m_stop (demo_pool [] [] false) = false.
Proof. split; [|done]. split; cbn; [constructor| |done]. intros id. split; [by intros []%elem_of_nil|by intros (t & Ht & _)]. Qed.


Definition demo_connectors : Connectors :=
  MkConnectors [new_connector 0 1000; new_connector 1 1000] (Some (MakeQuery CONNECTOR_INSERT ∅ false [] false None))
    (Some (MakeQuery CONNECTOR_UPDATE ∅ false [] false None)) (Some (MakeQuery CONNECTOR_FIND ∅ false [] false None)) RegistrationStatus_Accepted
    (demo_pool [] [] false) [].

Lemma demo_state_ok : state_ok (DB := Tables) demo_connectors (set_connectors no_tables (conn_row <$> m_connectors demo_connectors)).
Proof.
  split; [|split; [by eexists _, _, _|done]]. split; [cbn; lia| | |apply demo_fresh_pool].
  - intros i c Hc. destruct i as [|[|i]]; [by injection Hc as <-|by injection Hc as <-|done].
  - repeat constructor; cbn; unfold INT32_MIN, INT32_MAX; lia.
Qed.

Lemma update_status_outcome_witness : exists cs' db',
  updateStatus 1 ChargePointStatus_Charging ChargePointErrorCode_NoError "" false demo_connectors
    (set_connectors no_tables (conn_row <$> m_connectors demo_connectors)) = Returns (false, cs', db') /\ m_threadPool cs' = [].
Proof.
  destruct (update_status_outcome 1 ChargePointStatus_Charging ChargePointErrorCode_NoError "" false _ _ demo_state_ok ltac:(lia))
    as (r & cs' & db' & Hu & _ & Hr & _ & Hth).
  exists cs', db'. rewrite Hr in Hu, Hth. split; [exact Hu|exact Hth].
Defined.
