(* ===== verification/OcppChargePoint.v ===== *)
(** * The start of the charge point ([src/src/ocpp/ChargePoint.cpp])

    The three functions that put the OCPP components together: the settings
    with what the station knows of itself, the network objects, and the
    connectors.  An object made with [make_unique] is there or not; what it
    does is in its own file. *)

From S2P Require Import Prelude Sqlite Json OcppEnums OcppConfig OcppSettings OcppDatabase OcppTimers OcppConnectors.

(** ** Data *)

(** The members of [ChargePoint] that may be null, as whether they are there,
    the connectors apart. *)
Record ChargePoint := MkChargePoint {
  m_cfgPath : string;
  m_timerPoolPtr : bool;
  m_threadPoolPtr : bool;
  m_wsClientPtr : bool;
  m_ocppClientPtr : bool;
  m_jsonValidatorPtr : option string;
  m_statusNotificationPtr : bool;
  m_connectorsPtr : option Connectors;
  m_database : Database }.

Definition with_network (ws client : bool) (c : ChargePoint) : ChargePoint :=
  MkChargePoint (m_cfgPath c) (m_timerPoolPtr c) (m_threadPoolPtr c) ws client (m_jsonValidatorPtr c) (m_statusNotificationPtr c)
    (m_connectorsPtr c) (m_database c).
Definition with_database (d : Database) (c : ChargePoint) : ChargePoint :=
  MkChargePoint (m_cfgPath c) (m_timerPoolPtr c) (m_threadPoolPtr c) (m_wsClientPtr c) (m_ocppClientPtr c) (m_jsonValidatorPtr c)
    (m_statusNotificationPtr c) (m_connectorsPtr c) d.
Definition with_validator (path : string) (c : ChargePoint) : ChargePoint :=
  MkChargePoint (m_cfgPath c) (m_timerPoolPtr c) (m_threadPoolPtr c) (m_wsClientPtr c) (m_ocppClientPtr c) (Some path)
    (m_statusNotificationPtr c) (m_connectorsPtr c) (m_database c).
Definition with_components (notifier : bool) (cs : option Connectors) (c : ChargePoint) : ChargePoint :=
  MkChargePoint (m_cfgPath c) (m_timerPoolPtr c) (m_threadPoolPtr c) (m_wsClientPtr c) (m_ocppClientPtr c) (m_jsonValidatorPtr c)
    notifier cs (m_database c).

Definition DEFAULT_CONFIG_PATH : string := "/home/zlgmcu/project/learnC++/config_profile/app/ocpp/config/ocpp_default_config.json".

(** ** Settings *)

(** A member of a section that passes a test. *)
Definition section_has (doc : value) (sec k : string) (test : value -> bool) : outcome bool :=
  s ← member_if IsObject doc sec;
  match s with
  | None => Returns false
  | Some s => x ← member_if test s k; Returns (bool_decide (is_Some x))
  end.

(** The disjunction of the failures, in its order. *)
Definition config_usable (doc : value) : outcome bool :=
  if negb (IsObject doc) then Returns false else
  path ← section_has doc "ChargePoint" "DatabasePath" IsString;
  if negb path then Returns false else
  schemas ← section_has doc "ChargePoint" "JsonSchemasPath" IsString;
  if negb schemas then Returns false else
  version ← section_has doc "ChargePoint" "OcppSoftwareVersion" IsString;
  if negb version then Returns false else
  section_has doc "OCPP1_6" "NumberOfConnectors" IsUint.

Definition setting_text (doc : value) (sec k : string) : outcome string :=
  s ← member doc sec; v ← member s k; GetString v.

Section Config.
Context (parse : string -> option value) (pretty : value -> string) (writes : string -> write_answer) (order : gmap Z nat -> list (Z * nat)).
Context {DB : Type} `{SqlEngine DB}.

(** The handler of the events says how many connectors there are; [error] is
    SQLite's message.  The connection of the database is the last result. *)
Definition initConfigModel (connectorNum : Z) (version error : string) (m : manager) (c : ChargePoint) :
    outcome (bool * manager * ChargePoint * option DB) :=
  m ← initConfig parse pretty writes DEFAULT_CONFIG_PATH (m_cfgPath c) m;
  deviceConfig ← getConfig EmptyString m;
  match deviceConfig with
  | None => Returns (false, m, c, None)
  | Some doc =>
    usable ← config_usable doc;
    if negb usable then Returns (false, m, c, None)
    else
      doc ← assign_at doc ["OCPP1_6"%string] "NumberOfConnectors" (Number (NInt connectorNum));
      doc ← assign_at doc ["ChargePoint"%string] "OcppSoftwareVersion" (Str version);
      '(_, m) ← setConfig order EmptyString doc m;
      dbPath ← setting_text doc "ChargePoint" "DatabasePath";
      '(ok, db, d) ← open dbPath error (m_database c);
      let c := with_database d c in
      if negb ok then Returns (false, m, c, None)
      else
        schemaPath ← setting_text doc "ChargePoint" "JsonSchemasPath";
        Returns (true, m, with_validator schemaPath c, db)
  end.

End Config.

(** ** Network and components *)

(** The client of the web socket is made first; the OCPP client registers
    itself with it, and the charge point with the OCPP client. *)
Definition initNetWorkModel (c : ChargePoint) : bool * ChargePoint :=
  let c := with_network true (m_ocppClientPtr c) c in
  if negb (m_threadPoolPtr c) then (false, c)
  else match m_jsonValidatorPtr c with
       | None => (false, c)
       | Some _ => (true, with_network true true c)
       end.

Section Components.
Context {DB : Type} `{SqlEngine DB}.

(** The function ends without a value after its last test: [Undefined]. *)
Definition initComponents (connectorNum : nat) (clock now : Z) (p : pool) (c : ChargePoint) (db : DB) : outcome (bool * ChargePoint * DB) :=
  if negb (m_ocppClientPtr c) then Returns (false, c, db)
  else if negb (m_timerPoolPtr c) then Returns (false, c, db)
  else if negb (m_threadPoolPtr c) then Returns (false, c, db)
  else
    let c := with_components true (m_connectorsPtr c) c in
    '(ok, cs, db) ← initConnectorTable (m_database c) clock now (make_connectors connectorNum now p) db;
    let c := with_components true (Some cs) c in
    if negb (ok : bool) then Returns (false, c, db) else Undefined.

End Components.

(** ** Lemmas *)

Lemma distinct_set k x l : distinct_names (Obj l) = true -> distinct_names x = true -> distinct_names (Obj (set_member k x l)) = true.
Proof.
  cbn [distinct_names]. rewrite set_names, !andb_true_iff. intros [Hd Hl] Hx. split; [done|]. clear Hd.
  induction l as [|[n v] l IH]; cbn [set_member]; [done|]. apply andb_true_iff in Hl as [Hv Hl].
  destruct (String.eqb k n); apply andb_true_iff; split; try done; cbn [snd] in *. by apply IH.
Qed.

(** An assignment to a setting of a section. *)
Lemma assign_setting doc sec k x l cur : walk doc [sec] = Some (Obj l) -> find_member k l = Some cur -> distinct_names doc = true -> distinct_names x = true ->
  exists doc', assign_at doc [sec] k x = Returns doc' /\ assigned [sec; k] x doc doc' /\ distinct_names doc' = true /\ IsObject doc' = true /\
    walk doc' [sec] = Some (Obj (set_member k x l)).
Proof.
  intros Hw Hf Hd Hx. cbn [walk] in Hw. destruct doc as [| | | | |ld]; try done. destruct (find_member sec ld) as [v|] eqn:Es; [injection Hw as ->|done].
  exists (Obj (set_member sec (Obj (set_member k x l)) ld)). cbn [assign_at]. unfold member. rewrite Es. cbn [mbind outcome_bind].
  rewrite (assign_member_some l) by by eexists. cbn [mbind outcome_bind]. rewrite (assign_member_some ld) by by eexists. split_and!; [done| | |done|].
  - apply (assigned_member sec [k] x (Obj l)); [done|]. apply (assigned_member k [] x cur); [done|]. split; [done|]. intros q Hq. destruct Hq. apply prefix_nil.
  - apply distinct_set; [done|]. apply distinct_set; [|done]. destruct (distinct_object ld Hd) as [_ Hm]. by eapply Hm.
  - cbn [walk]. by rewrite find_set_same by by eexists.
Qed.

(** A document with the settings of the defaults has a section and its member,
    of the type of the default. *)
Lemma complete_setting doc sec k d l0 : complete DEFAULT_CONFIG_JSON doc -> walk DEFAULT_CONFIG_JSON [sec] = Some (Obj l0) -> find_member k l0 = Some d ->
  exists l c, walk doc [sec] = Some (Obj l) /\ find_member k l = Some c /\ same_type c d = true.
Proof.
  intros Hc Hs Hf. destruct (Hc [sec] _ Hs) as (s & Hw & Ht). destruct (same_type_object s l0 Ht) as [l ->].
  destruct (Hc ([sec] ++ [k]) d) as (c & Hk & Hcd); [rewrite walk_app, Hs; cbn [mbind option_bind walk]; by rewrite Hf|].
  rewrite walk_app, Hw in Hk. cbn [mbind option_bind walk] in Hk. destruct (find_member k l) as [v|] eqn:E; [injection Hk as ->|done]. by exists l, c.
Qed.

Lemma walk_setting doc sec k l : walk doc [sec] = Some (Obj l) -> walk doc [sec; k] = find_member k l.
Proof.
  intros Hw. cbn [walk] in *. destruct doc as [| | | | |ld]; try done. destruct (find_member sec ld) as [v|]; [injection Hw as ->|done].
  by destruct (find_member k l).
Qed.

Lemma section_has_spec doc sec k test l c : walk doc [sec] = Some (Obj l) -> find_member k l = Some c -> section_has doc sec k test = Returns (test c).
Proof.
  intros Hw Hf. cbn [walk] in Hw. destruct doc as [| | | | |ld]; try done. unfold section_has, member_if, HasMember, member, has_member.
  destruct (find_member sec ld) as [v|] eqn:Es; [injection Hw as ->|done]. cbn [mbind outcome_bind IsObject]. rewrite Hf. cbn [mbind outcome_bind].
  by destruct (test c).
Qed.

Lemma setting_text_spec doc sec k l s : walk doc [sec] = Some (Obj l) -> find_member k l = Some (Str s) -> setting_text doc sec k = Returns s.
Proof.
  intros Hw Hf. cbn [walk] in Hw. destruct doc as [| | | | |ld]; try done. unfold setting_text, member.
  destruct (find_member sec ld) as [v|] eqn:Es; [injection Hw as ->|done]. cbn [mbind outcome_bind]. by rewrite Hf.
Qed.

Lemma same_type_string c s : same_type c (Str s) = true -> exists t, c = Str t.
Proof. destruct c as [|[]| |t| |]; try done. by exists t. Qed.

(** Setting the whole document replaces it, and the cache file is due. *)
Lemma set_document order doc m : (forall subs, order subs ≡ₚ map_to_list subs) -> m_cfgMutex m = false -> IsObject doc = true -> distinct_names doc = true ->
  exists m', setConfig order EmptyString doc m = Returns (true, m') /\ m_currentDoc m' = doc /\ m_cfgMutex m' = false /\
    (save_due m = true -> SaveTask ∈ m_pool m').
Proof.
  intros Ho Hm Hobj Hd. unfold setConfig, locked. rewrite Hm, Hobj. cbn [String.eqb negb].
  destruct (diff_spec doc Hd EmptyString (m_currentDoc m)) as (paths & -> & _). cbn [mbind outcome_bind].
  destruct (trigger_all order Ho paths (with_doc m doc)) as [(E1&E2&E3&E4&E5&E6&E7) Hp].
  destruct (schedule_spec (foldl (triggerCallbacks order) (with_doc m doc) paths)) as (S1&S2&S3&S4&S5&S6).
  eexists. split; [reflexivity|]. split_and!; [by rewrite S2, E1|by rewrite S4, E5|].
  intros Hs. rewrite S1. assert (E : save_due (foldl (triggerCallbacks order) (with_doc m doc) paths) = save_due m) by (unfold save_due; by rewrite E3, E4).
  rewrite E, Hs. apply elem_of_app. right. by apply list_elem_of_singleton.
Qed.

(** The document with what the station knows of itself: everything else is as
    it was. *)
Definition self_described (connectorNum : Z) (version : string) (doc doc' : value) : Prop :=
  walk doc' ["OCPP1_6"; "NumberOfConnectors"]%string = Some (Number (NInt connectorNum)) /\
  walk doc' ["ChargePoint"; "OcppSoftwareVersion"]%string = Some (Str version) /\
  forall (sec k : string), (sec, k) <> ("OCPP1_6", "NumberOfConnectors")%string -> (sec, k) <> ("ChargePoint", "OcppSoftwareVersion")%string ->
    walk doc' [sec; k] = walk doc [sec; k].

Lemma other_setting (sec k sec' k' : string) : (sec, k) <> (sec', k') -> ~ [sec'; k'] `prefix_of` [sec; k] /\ ~ [sec; k] `prefix_of` [sec'; k'].
Proof.
  intros Hne. split; intros [r Hr]; injection Hr as -> -> _; done.
Qed.

Section Model.
Context (parse : string -> option value) (pretty : value -> string) (writes : string -> write_answer) (order : gmap Z nat -> list (Z * nat)).
Context (order_all : forall subs, order subs ≡ₚ map_to_list subs).
Context {DB : Type} `{SqlEngine DB}.

Lemma config_usable_spec doc : complete DEFAULT_CONFIG_JSON doc -> exists lo lc num dbPath schemas version0,
  walk doc ["OCPP1_6"%string] = Some (Obj lo) /\ find_member "NumberOfConnectors" lo = Some num /\
  walk doc ["ChargePoint"%string] = Some (Obj lc) /\ find_member "DatabasePath" lc = Some (Str dbPath) /\
  find_member "JsonSchemasPath" lc = Some (Str schemas) /\ find_member "OcppSoftwareVersion" lc = Some (Str version0) /\
  config_usable doc = Returns (IsUint num).
Proof.
  intros Hc. destruct (complete_setting doc "OCPP1_6" "NumberOfConnectors" _ _ Hc eq_refl eq_refl) as (lo & num & Wo & Fn & _).
  destruct (complete_setting doc "ChargePoint" "DatabasePath" _ _ Hc eq_refl eq_refl) as (lc & p & Wc & Fp & Tp).
  destruct (complete_setting doc "ChargePoint" "JsonSchemasPath" _ _ Hc eq_refl eq_refl) as (lc2 & s & Wc2 & Fs & Ts).
  destruct (complete_setting doc "ChargePoint" "OcppSoftwareVersion" _ _ Hc eq_refl eq_refl) as (lc3 & v & Wc3 & Fv & Tv).
  rewrite Wc in Wc2, Wc3. injection Wc2 as <-. injection Wc3 as <-.
  destruct (same_type_string _ _ Tp) as [dbPath ->], (same_type_string _ _ Ts) as [schemas ->], (same_type_string _ _ Tv) as [version0 ->].
  exists lo, lc, num, dbPath, schemas, version0. do 6 (split; [assumption|]). unfold config_usable.
  assert (Ho : IsObject doc = true) by (cbn [walk] in Wo; destruct doc; done). rewrite Ho. cbn [negb].
  rewrite (section_has_spec doc "ChargePoint" "DatabasePath" IsString lc _ Wc Fp), (section_has_spec doc "ChargePoint" "JsonSchemasPath" IsString lc _ Wc Fs),
    (section_has_spec doc "ChargePoint" "OcppSoftwareVersion" IsString lc _ Wc Fv), (section_has_spec doc "OCPP1_6" "NumberOfConnectors" IsUint lo _ Wo Fn).
  reflexivity.
Qed.

Lemma describe_self connectorNum version doc lo num lc v : walk doc ["OCPP1_6"%string] = Some (Obj lo) -> find_member "NumberOfConnectors" lo = Some num ->
  walk doc ["ChargePoint"%string] = Some (Obj lc) -> find_member "OcppSoftwareVersion" lc = Some v -> distinct_names doc = true ->
  exists doc1 doc2, assign_at doc ["OCPP1_6"%string] "NumberOfConnectors" (Number (NInt connectorNum)) = Returns doc1 /\
    assign_at doc1 ["ChargePoint"%string] "OcppSoftwareVersion" (Str version) = Returns doc2 /\ self_described connectorNum version doc doc2 /\
    distinct_names doc2 = true /\ IsObject doc2 = true /\ exists lc2, walk doc2 ["ChargePoint"%string] = Some (Obj lc2) /\
      forall k, k <> "OcppSoftwareVersion"%string -> find_member k lc2 = find_member k lc.
Proof.
  intros Wo Fn Wc Fv Hd. destruct (assign_setting doc "OCPP1_6" "NumberOfConnectors" (Number (NInt connectorNum)) lo num Wo Fn Hd eq_refl)
    as (doc1 & A1 & [S1 O1] & D1 & I1 & _).
  assert (Wc1 : walk doc1 ["ChargePoint"%string] = Some (Obj lc)).
  { rewrite O1; [done| |]; intros [r Hr]; discriminate Hr. }
  destruct (assign_setting doc1 "ChargePoint" "OcppSoftwareVersion" (Str version) lc v Wc1 Fv D1 eq_refl) as (doc2 & A2 & [S2 O2] & D2 & I2 & W2).
  exists doc1, doc2. do 2 (split; [done|]). split; [|split; [done|split; [done|]]].
  - split; [|split].
    + destruct (other_setting "OCPP1_6" "NumberOfConnectors" "ChargePoint" "OcppSoftwareVersion" ltac:(discriminate)) as [P1 P2].
      rewrite (O2 _ P1 P2). exact (S1 []).
    + exact (S2 []).
    + intros sec k N1 N2. destruct (other_setting _ _ _ _ N1) as [P1 P2], (other_setting _ _ _ _ N2) as [P3 P4].
      by rewrite (O2 _ P3 P4), (O1 _ P1 P2).
  - eexists. split; [exact W2|]. intros k Hk. by apply find_set_other.
Qed.

(** C38: when the settings that were loaded are complete and the number of
    connectors is a number the type holds, the charge point writes the number
    its handler says and its version into them, leaves every other setting,
    lets the cache file be written, opens the database and remembers the
    schemas; a database that cannot be opened blocks it for ever.  When the
    number is of another type it fails and has changed nothing. *)
Theorem config_model_outcome connectorNum version error m m1 c :
  initConfig parse pretty writes DEFAULT_CONFIG_PATH (m_cfgPath c) m = Returns m1 -> m_cfgMutex m1 = false ->
  complete DEFAULT_CONFIG_JSON (m_currentDoc m1) -> distinct_names (m_currentDoc m1) = true ->
  exists num dbPath schemas, walk (m_currentDoc m1) ["OCPP1_6"; "NumberOfConnectors"]%string = Some num /\
    walk (m_currentDoc m1) ["ChargePoint"; "DatabasePath"]%string = Some (Str dbPath) /\
    if IsUint num then
      if m_db (m_database c) || bool_decide (is_Some (open_v2 dbPath)) then
        exists m' db, initConfigModel parse pretty writes order connectorNum version error m c
          = Returns (true, m', with_validator schemas (with_database (Db true) c), db) /\
          self_described connectorNum version (m_currentDoc m1) (m_currentDoc m') /\ (save_due m1 = true -> SaveTask ∈ m_pool m')
      else initConfigModel parse pretty writes order connectorNum version error m c = Blocked
    else initConfigModel parse pretty writes order connectorNum version error m c = Returns (false, m1, c, None).
Proof using order_all.
  intros Hi Hm Hc Hd. destruct (config_usable_spec (m_currentDoc m1) Hc) as (lo & lc & num & dbPath & schemas & v & Wo & Fn & Wc & Fp & Fs & Fv & Hu).
  exists num, dbPath, schemas. split; [by rewrite (walk_setting _ _ _ _ Wo)|]. split; [by rewrite (walk_setting _ _ _ _ Wc)|].
  assert (Ho : IsObject (m_currentDoc m1) = true) by (cbn [walk] in Wo; destruct (m_currentDoc m1); done).
  unfold initConfigModel. rewrite Hi. cbn [mbind outcome_bind]. unfold getConfig, locked. rewrite Hm, Ho. cbn [negb String.eqb mbind outcome_bind].
  rewrite Hu. cbn [mbind outcome_bind]. destruct (IsUint num); cbn [negb]; [|reflexivity].
  destruct (describe_self connectorNum version _ lo num lc _ Wo Fn Wc Fv Hd) as (doc1 & doc2 & A1 & A2 & Hself & D2 & I2 & lc2 & W2 & F2).
  rewrite A1. cbn [mbind outcome_bind]. rewrite A2. cbn [mbind outcome_bind].
  destruct (set_document order doc2 m1 order_all Hm I2 D2) as (m' & Hset & Hdoc & _ & Hsave). rewrite Hset. cbn [mbind outcome_bind].
  rewrite (setting_text_spec doc2 "ChargePoint" "DatabasePath" lc2 dbPath W2) by (rewrite F2 by discriminate; exact Fp). cbn [mbind outcome_bind].
  rewrite (setting_text_spec doc2 "ChargePoint" "JsonSchemasPath" lc2 schemas W2) by (rewrite F2 by discriminate; exact Fs).
  unfold open, postAndWait. destruct (m_database c) as [[]] eqn:Ed; cbn [m_db orb].
  - cbn [mbind outcome_bind negb]. exists m', None. split; [reflexivity|]. rewrite Hdoc. by split.
  - destruct (open_v2 dbPath) as [db|]; cbn [mbind outcome_bind negb].
    + rewrite bool_decide_eq_true_2 by by eexists. exists m', (Some db). split; [reflexivity|]. rewrite Hdoc. by split.
    + rewrite bool_decide_eq_false_2 by (by intros []). reflexivity.
Qed.

End Model.

(** the connectors are never reported ready: when everything succeeded the
    function ends without a value, and whatever else happens it does not
    return true. *)
Theorem components_never_ready {DB} `{SqlEngine DB} connectorNum clock now p c (db : DB) :
  match initComponents connectorNum clock now p c db with
  | Returns (ok, _, _) => ok = false
  | _ => True
  end /\
  (m_ocppClientPtr c = true -> m_timerPoolPtr c = true -> m_threadPoolPtr c = true ->
   forall cs db', initConnectorTable (m_database c) clock now (make_connectors connectorNum now p) db = Returns (true, cs, db') ->
   initComponents connectorNum clock now p c db = Undefined).
Proof.
  unfold initComponents. split.
  - destruct (m_ocppClientPtr c), (m_timerPoolPtr c), (m_threadPoolPtr c); try done. cbn [negb m_database with_components].
    by destruct (initConnectorTable _ _ _ _ _) as [| |[[[] cs] db']].
  - intros -> -> -> cs db' Ht. cbn [negb m_database with_components]. by rewrite Ht.
Qed.

(** ** Witnesses *)

#[local] Instance demo_sql : SqlEngine Tables := demo_engine (fun _ => None).

(** A station with its pools and no cache file yet. *)
Definition demo_point : ChargePoint := MkChargePoint "/tmp" true true true true None false None (Db true).

Lemma config_model_outcome_witness : exists m' c db,
  initConfigModel (fun _ => None) (fun _ => EmptyString) (fun _ => Full) map_to_list 2 "OCPP1.6G1" "" demo_manager demo_point = Returns (true, m', c, db) /\
  walk (m_currentDoc m') ["OCPP1_6"; "NumberOfConnectors"]%string = Some (Number (NInt 2)).
Proof.
  assert (Hi : exists m1, initConfig (fun _ => None) (fun _ => EmptyString) (fun _ => Full) DEFAULT_CONFIG_PATH "/tmp" demo_manager = Returns m1 /\
    m_cfgMutex m1 = false /\ m_currentDoc m1 = DEFAULT_CONFIG_JSON).
  { eexists. split; [vm_compute; reflexivity|]. split; vm_compute; reflexivity. }
  destruct Hi as (m1 & Hi & Hm & Hdoc).
  destruct (config_model_outcome (fun _ => None) (fun _ => EmptyString) (fun _ => Full) map_to_list (fun _ => Permutation_refl _) 2 "OCPP1.6G1" "" demo_manager m1 demo_point Hi Hm)
    as (num & dbPath & schemas & Wn & _ & Hall).
  - rewrite Hdoc. exact complete_default.
  - rewrite Hdoc. vm_compute. reflexivity.
  - assert (Hnum : walk DEFAULT_CONFIG_JSON ["OCPP1_6"; "NumberOfConnectors"]%string = Some (Number (NInt 8))) by reflexivity.
    rewrite Hdoc, Hnum in Wn. injection Wn as <-. destruct Hall as (m' & db & He & (Hn & _) & _). eexists m', _, db. split; [exact He|exact Hn].
Defined.

Lemma components_never_ready_witness : match initComponents 1 0 0 (demo_pool [] [] false) demo_point no_tables with Returns (ok, _, _) => ok = false | _ => True end.
Proof. exact (proj1 (components_never_ready 1 0 0 (demo_pool [] [] false) demo_point no_tables)). Defined.
