(* ===== verification/OcppClient.v ===== *)
(** * The OCPP client ([src/ocpp/client/OCPPClient.cpp], [src/ocpp/common])

    Calls are registered, queued for the send thread of their connector and
    awaited; responses finish them; a third thread sends transaction messages
    again and ends calls that expired.  The threads share the calls under
    mutexes, so their critical sections are the steps of the model.  Parsing
    and schema validation are parameters. *)

From S2P Require Import Prelude Utils Lru Sqlite Json.

(** ** Message validation ([common/Connon.cpp]) *)

Definition Call : Z := 2.
Definition CallResult : Z := 3.
Definition CallError : Z := 4.

(** The elements from [i] on satisfy the tests, in order. *)
Fixpoint check_elements (document : value) (i : nat) (tests : list (value -> bool)) : outcome bool :=
  match tests with
  | [] => Returns true
  | test :: tests' =>
    v ← element document i;
    if test v then check_elements document (S i) tests' else Returns false
  end.

Definition check_message (asserts : bool) (document : value) (size : Z) (tests : list (value -> bool)) : outcome bool :=
  n ← Size asserts document;
  if negb (n =? size) then Returns false else check_elements document 1 tests.

(** The text is parsed into a document of the function; the tests look at the
    one of the caller, which stays as it is. *)
Definition validateOCPPMessage (parse : string -> option value) (asserts : bool) (jsonMessage : string) (type : Z)
    (document : value) : outcome (bool * Z) :=
  match parse jsonMessage with
  | None => Returns (false, type)
  | Some doc =>
    if negb (IsArray doc) then Returns (false, type) else
    n ← Size asserts doc;
    if n <? 3 then Returns (false, type) else
    first ← element doc 0;
    if negb (IsInt first) then Returns (false, type) else
    type ← GetInt first;
    if (type <? Call) || (CallError <? type) then Returns (false, type) else
    ok ← (if type =? Call then check_message asserts document 4 [IsString; IsString; IsObject]
          else if type =? CallResult then check_message asserts document 3 [IsString; IsObject]
          else check_message asserts document 5 [IsString; IsString; IsString; IsObject]);
    Returns (ok, type)
  end.

(** ** State ([client/OCPPClient.h]) *)

(** Times are nanoseconds of the steady clock. *)
Record PendingCall := Pending {
  connId : Z;
  uniqueId : string;
  isTx : bool;
  raw : string;
  retryCount : Z;
  maxRetry : Z;
  retryIntervalMs : Z;
  expireAt : Z;
  nextRetry : Z;
  finished : bool;
  success : bool;
  response : string
}.

Record ConnectorContext := Connector { txQueue : list string; nonTxQueue : list string; ctx_running : bool }.

(** [calls]: the call objects by address, which the map of pending calls and
    their callers share.  [retryList] belongs to the retry thread, [sent] is
    what went to the socket and [tasks] what the thread pool was given. *)
Record client := Client {
  connectors : list ConnectorContext;
  calls : gmap nat PendingCall;
  m_pending : gmap string nat;
  retryList : list nat;
  m_isConnected : bool;
  m_running : bool;
  callHandlers : gmap string nat;
  tasks : list (nat * value);
  sent : list string
}.

Record ConnectInfo := Info { retryInterval : Z; transactionMessageAttempts : Z }.

Definition with_calls (c : client) (cs : gmap nat PendingCall) : client :=
  Client (connectors c) cs (m_pending c) (retryList c) (m_isConnected c) (m_running c) (callHandlers c) (tasks c) (sent c).
Definition with_connectors (c : client) (l : list ConnectorContext) : client :=
  Client l (calls c) (m_pending c) (retryList c) (m_isConnected c) (m_running c) (callHandlers c) (tasks c) (sent c).
Definition with_pending (c : client) (p : gmap string nat) : client :=
  Client (connectors c) (calls c) p (retryList c) (m_isConnected c) (m_running c) (callHandlers c) (tasks c) (sent c).
Definition with_retry (c : client) (l : list nat) : client :=
  Client (connectors c) (calls c) (m_pending c) l (m_isConnected c) (m_running c) (callHandlers c) (tasks c) (sent c).
Definition with_tasks (c : client) (l : list (nat * value)) : client :=
  Client (connectors c) (calls c) (m_pending c) (retryList c) (m_isConnected c) (m_running c) (callHandlers c) l (sent c).
Definition with_sent (c : client) (l : list string) : client :=
  Client (connectors c) (calls c) (m_pending c) (retryList c) (m_isConnected c) (m_running c) (callHandlers c) (tasks c) l.
Definition with_connected (c : client) (b : bool) : client :=
  Client (connectors c) (calls c) (m_pending c) (retryList c) b (m_running c) (callHandlers c) (tasks c) (sent c).

Definition set_finished (p : PendingCall) (ok : bool) (text : string) : PendingCall :=
  Pending (connId p) (uniqueId p) (isTx p) (raw p) (retryCount p) (maxRetry p) (retryIntervalMs p) (expireAt p) (nextRetry p) true ok text.
Definition set_retry (p : PendingCall) (count next : Z) : PendingCall :=
  Pending (connId p) (uniqueId p) (isTx p) (raw p) count (maxRetry p) (retryIntervalMs p) (expireAt p) next (finished p) (success p) (response p).

(** ** Calls *)

Definition ms (n : Z) : Z := 1000000 * n.

(** A call registered at an address that is not in use: what [sendCall] does
    before it waits.  [valid] is the answer of the schema validation, [uid] and
    [text] the generated id and the message written with it. *)
Definition sendCall (info : ConnectInfo) (addr : nat) (valid : bool) (uid text : string) (conn : Z) (tx : bool)
    (timeout now1 now2 : Z) (c : client) : bool * client :=
  if negb (m_isConnected c) then (false, c)
  else if negb valid then (false, c)
  else
    match connectors c !! Z.to_nat conn with
    | None => (false, c)
    | Some ctx =>
      let pc := Pending conn uid tx text 0 (int32 (transactionMessageAttempts info)) (retryInterval info)
                  (now1 + ms timeout) (now2 + ms (retryInterval info)) false false EmptyString in
      let ctx := if tx then Connector (txQueue ctx ++ [text]) (nonTxQueue ctx) (ctx_running ctx)
                 else Connector (txQueue ctx) (nonTxQueue ctx ++ [text]) (ctx_running ctx) in
      (true, with_connectors (with_pending (with_calls c (<[addr := pc]> (calls c))) (<[uid := addr]> (m_pending c)))
               (<[Z.to_nat conn := ctx]> (connectors c)))
    end.

(** The end of the wait: [None] while the call waits.  The response that is
    parsed is the whole message. *)
Definition sendCall_wait (p : PendingCall) (now : Z) : option (bool * option string) :=
  if finished p then Some (if success p then (true, Some (response p)) else (false, None))
  else if expireAt p <=? now then Some (false, None)
  else None.

(** [sendCallResult] and [sendCallError]: the message goes to a queue whose
    number is not checked. *)
Definition send_reply (valid : bool) (text : string) (conn : Z) (c : client) : outcome (bool * client) :=
  if negb (m_isConnected c) then Returns (false, c)
  else if negb valid then Returns (false, c)
  else
    match connectors c !! Z.to_nat conn with
    | None => Undefined
    | Some ctx =>
      Returns (true, with_connectors c (<[Z.to_nat conn := Connector (txQueue ctx) (nonTxQueue ctx ++ [text]) (ctx_running ctx)]> (connectors c)))
    end.

Definition registerCallHandler (action : string) (handler : nat) (c : client) : client :=
  Client (connectors c) (calls c) (m_pending c) (retryList c) (m_isConnected c) (m_running c) (<[action := handler]> (callHandlers c)) (tasks c) (sent c).

(** *** Messages received *)

(** A response finishes the pending call of its id, once. *)
Definition finish_call (uid : string) (type : Z) (message : string) (c : client) : client :=
  match m_pending c !! uid with
  | None => c
  | Some a =>
    match calls c !! a with
    | None => c
    | Some pc =>
      if finished pc then c
      else with_calls c (<[a := set_finished pc (type =? CallResult) message]> (calls c))
    end
  end.

(** A call of the server goes to the handler of its action, when its payload is
    valid. *)
Definition dispatch_call (validateRequest : string -> value -> bool) (doc : value) (c : client) : outcome client :=
  act ← element doc 2;
  action ← GetString act;
  match callHandlers c !! action with
  | None => Returns c
  | Some handler =>
    payload ← element doc 3;
    Returns (if validateRequest action payload then with_tasks c (tasks c ++ [(handler, doc)]) else c)
  end.

Definition dispatch (validateRequest : string -> value -> bool) (type : Z) (doc : value) (message : string) (c : client) : outcome client :=
  u ← element doc 1;
  uid ← GetString u;
  if (type =? CallResult) || (type =? CallError) then Returns (finish_call uid type message c)
  else if type =? Call then dispatch_call validateRequest doc c
  else Returns c.

(** The document is the one of [parseMessage], which is null.  The type is not
    initialised: it is [type0]. *)
Definition parseMessage (parse : string -> option value) (asserts : bool) (validateRequest : string -> value -> bool)
    (type0 : Z) (message : string) (c : client) : outcome client :=
  '(ok, type) ← validateOCPPMessage parse asserts message type0 Null;
  if negb ok then Returns c else dispatch validateRequest type Null message c.

(** *** The retry thread *)

(** One pending call of the pass at [now]: whether it is to be erased, whether
    it is sent again, and the call. *)
Inductive verdict := Keep | Retry | Erase (p : PendingCall).

Definition inspect (now : Z) (p : PendingCall) : verdict :=
  if finished p then Erase p
  else if isTx p && (nextRetry p <=? now) && (retryCount p <? maxRetry p) then Retry
  else if expireAt p <=? now then Erase (set_finished p false (response p))
  else Keep.

(** The first half of a pass, over the ids in the order of the map. *)
Fixpoint collect (now : Z) (uids : list string) (c : client) : client :=
  match uids with
  | [] => c
  | uid :: uids' =>
    match m_pending c !! uid ≫= (fun a => p ← calls c !! a; Some (a, p)) with
    | None => collect now uids' c
    | Some (a, p) =>
      match inspect now p with
      | Keep => collect now uids' c
      | Retry => collect now uids' (with_retry c (retryList c ++ [a]))
      | Erase p' => collect now uids' (with_pending (with_calls c (<[a := p']> (calls c))) (delete uid (m_pending c)))
      end
    end
  end.

(** [retryIntervalMs * (1u << min(retryCount, 8))], in [unsigned int]. *)
Definition delayMs (interval count : Z) : Z := uint32 (uint32 interval * 2 ^ Z.min count 8).

(** One call of the second half. *)
Definition retry_one (now : Z) (a : nat) (c : client) : client :=
  match calls c !! a with
  | None => c
  | Some p =>
    if finished p then c
    else
      let n := retryCount p + 1 in
      let p := set_retry p n (now + ms (delayMs (retryIntervalMs p) n)) in
      let c := with_calls c (<[a := p]> (calls c)) in
      match connectors c !! Z.to_nat (connId p) with
      | None => c
      | Some ctx => with_connectors c (<[Z.to_nat (connId p) := Connector (txQueue ctx ++ [raw p]) (nonTxQueue ctx) (ctx_running ctx)]> (connectors c))
      end
  end.

Definition retry_next (now : Z) (c : client) : client :=
  match retryList c with
  | [] => c
  | a :: rest => retry_one now a (with_retry c rest)
  end.

(** *** The send threads *)

(** The next message of a connector: transactions first. *)
Definition next_message (ctx : ConnectorContext) : option (string * ConnectorContext) :=
  match txQueue ctx with
  | m :: q => Some (m, Connector q (nonTxQueue ctx) (ctx_running ctx))
  | [] =>
    match nonTxQueue ctx with
    | m :: q => Some (m, Connector (txQueue ctx) q (ctx_running ctx))
    | [] => None
    end
  end.

(** A turn of the thread of connector [i]: an empty message is not sent. *)
Definition send_turn (i : nat) (c : client) : client :=
  match connectors c !! i with
  | None => c
  | Some ctx =>
    match next_message ctx with
    | None => c
    | Some (m, ctx) =>
      let c := with_connectors c (<[i := ctx]> (connectors c)) in
      if String.eqb m EmptyString then c else with_sent c (sent c ++ [m])
    end
  end.

(** *** Start and end *)

(** [m_connectorNum] is one more than the number given, and the loops include
    it. *)
Definition start_connectors (connectorNum : nat) (c : client) : client :=
  Client (connectors c ++ replicate (S (S connectorNum)) (Connector [] [] true)) (calls c) (m_pending c) (retryList c)
    (m_isConnected c) true (callHandlers c) (tasks c) (sent c).

Definition start (info_ok connect_ok : bool) (connectorNum : nat) (c : client) : bool * client :=
  if negb info_ok then (false, c)
  else if negb (m_isConnected c) && negb connect_ok then (false, c)
  else if m_running c then (false, c)
  else (true, start_connectors connectorNum c).

Definition stop (c : client) : client :=
  Client ((fun ctx => Connector (txQueue ctx) (nonTxQueue ctx) false) <$> connectors c) (calls c) ∅ (retryList c)
    (m_isConnected c) false (callHandlers c) (tasks c) (sent c).

(** The four events of the socket. *)
Definition wsClientConnected (c : client) : client := with_connected c true.
Definition wsClientFailed (c : client) : client := with_connected c false.
Definition wsClientDisconnected (c : client) : client := with_connected c false.
Definition wsClientError (c : client) : client := with_connected c false.

(** ** Steps *)

Section Steps.
Context (info : ConnectInfo) (validateRequest : string -> value -> bool).

(** The critical sections of the threads, in any order.  A new call is a new
    object with a new id; the retry thread collects when it has handled its
    list. *)
Inductive client_step : client -> client -> Prop :=
  | step_call addr uid text conn tx timeout now1 now2 c c' :
      calls c !! addr = None -> m_pending c !! uid = None ->
      sendCall info addr true uid text conn tx timeout now1 now2 c = (true, c') -> client_step c c'
  | step_dispatch type doc message c c' : dispatch validateRequest type doc message c = Returns c' -> client_step c c'
  | step_collect now uids c : retryList c = [] -> NoDup uids -> client_step c (collect now uids c)
  | step_retry now c : client_step c (retry_next now c)
  | step_send i c : client_step c (send_turn i c)
  | step_connected b c : client_step c (with_connected c b)
  | step_reply text conn c c' : send_reply true text conn c = Returns (true, c') -> client_step c c'
  | step_handler action h c : client_step c (registerCallHandler action h c)
  | step_stop c : client_step c (stop c).

Definition initial (c : client) : Prop :=
  calls c = ∅ /\ m_pending c = ∅ /\ retryList c = [].

Definition reachable_client : client -> Prop := reachable client_step initial.

End Steps.

(** ** Invariant *)

(** A call has been sent again at most as often as it may be. *)
Definition call_ok (p : PendingCall) : Prop := 0 <= retryCount p <= Z.max 0 (maxRetry p).

Record client_ok (c : client) : Prop := {
  ok_calls a p : calls c !! a = Some p -> call_ok p;
  ok_pending uid a : m_pending c !! uid = Some a -> exists p, calls c !! a = Some p /\ uniqueId p = uid;
  ok_retry a : a ∈ retryList c -> exists p, calls c !! a = Some p /\ isTx p = true /\ retryCount p < maxRetry p;
  ok_nodup : NoDup (retryList c)
}.

(** What a call keeps: who it is, its retry count does not decrease, and its
    outcome once it is finished. *)
Definition call_step (p p' : PendingCall) : Prop :=
  uniqueId p' = uniqueId p /\ raw p' = raw p /\ isTx p' = isTx p /\ connId p' = connId p /\ maxRetry p' = maxRetry p /\
  expireAt p' = expireAt p /\ retryCount p <= retryCount p' /\
  (finished p = true -> p' = p).

Definition calls_step (cs cs' : gmap nat PendingCall) : Prop :=
  forall a p, cs !! a = Some p -> exists p', cs' !! a = Some p' /\ call_step p p'.

Lemma call_step_refl p : call_step p p.
Proof. unfold call_step. split_and!; done. Qed.

Lemma calls_step_refl cs : calls_step cs cs.
Proof. intros a p Hp. exists p. split; [done|apply call_step_refl]. Qed.

Lemma calls_step_trans cs1 cs2 cs3 : calls_step cs1 cs2 -> calls_step cs2 cs3 -> calls_step cs1 cs3.
Proof.
  intros H1 H2 a p Hp. destruct (H1 a p Hp) as (p' & Hp' & S1). destruct (H2 a p' Hp') as (p'' & Hp'' & S2).
  exists p''. split; [done|]. destruct S1 as (?&?&?&?&?&?&?&Hf1), S2 as (?&?&?&?&?&?&?&Hf2). unfold call_step. split_and!; try congruence; [lia|].
  intros Hf. rewrite (Hf1 Hf) in *. by apply Hf2.
Qed.

Lemma calls_step_insert cs a p p' : cs !! a = Some p -> call_step p p' -> calls_step cs (<[a := p']> cs).
Proof.
  intros Hp Hs b q Hq. destruct (decide (b = a)) as [->|Hne].
  - rewrite Hp in Hq. injection Hq as <-. exists p'. by rewrite lookup_insert_eq.
  - exists q. rewrite lookup_insert_ne by done. split; [done|apply call_step_refl].
Qed.

Lemma finish_step p ok text : finished p = false -> call_step p (set_finished p ok text).
Proof. intros Hf. unfold call_step, set_finished. cbn. split_and!; done || congruence || lia. Qed.

(** Replacing a call by a later state of it keeps the invariant, when it may
    still be sent again wherever the retry thread will. *)
Lemma ok_update c a p p' : client_ok c -> calls c !! a = Some p -> call_step p p' -> call_ok p' ->
  (a ∈ retryList c -> retryCount p' < maxRetry p') -> client_ok (with_calls c (<[a := p']> (calls c))).
Proof.
  intros [H1 H2 H3 H4] Hp (Hu & _ & Ht & _ & Hm & _) Hok Hr. split; cbn [calls m_pending retryList with_calls].
  - intros b q. destruct (decide (b = a)) as [->|Hne]; [by rewrite lookup_insert_eq; intros [= <-]|].
    rewrite lookup_insert_ne by done. apply H1.
  - intros uid b Hb. destruct (H2 uid b Hb) as (q & Hq & Hqu). destruct (decide (b = a)) as [->|Hne].
    + exists p'. rewrite lookup_insert_eq. split; [done|]. congruence.
    + exists q. by rewrite lookup_insert_ne.
  - intros b Hb. destruct (H3 b Hb) as (q & Hq & Hqt & Hqr). destruct (decide (b = a)) as [->|Hne].
    + exists p'. rewrite lookup_insert_eq. split; [done|]. split; [congruence|by apply Hr].
    + exists q. by rewrite lookup_insert_ne.
  - done.
Qed.

(** The connectors, the socket and the tasks are not part of it. *)
Lemma ok_same c c' : calls c' = calls c -> m_pending c' ⊆ m_pending c -> retryList c' = retryList c -> client_ok c -> client_ok c'.
Proof.
  intros Ec Ep Er [H1 H2 H3 H4]. split; rewrite ?Ec, ?Er; try done.
  intros uid a Ha. by apply (H2 uid), (lookup_weaken (m_pending c') (m_pending c)).
Qed.

Lemma collect_ok now uids : NoDup uids -> forall c, client_ok c ->
  (forall a p, a ∈ retryList c -> calls c !! a = Some p -> uniqueId p ∉ uids) ->
  client_ok (collect now uids c) /\ calls_step (calls c) (calls (collect now uids c)).
Proof.
  induction 1 as [|uid uids Hnin Hnd IH]; intros c Hc Hr; cbn [collect]; [split; [done|apply calls_step_refl]|].
  assert (Hr' : forall a p, a ∈ retryList c -> calls c !! a = Some p -> uniqueId p ∉ uids) by (intros a p Ha Hp; specialize (Hr a p Ha Hp); set_solver).
  destruct (m_pending c !! uid) as [a|] eqn:Hua; cbn [mbind option_bind]; [|by apply IH].
  destruct (ok_pending c Hc uid a Hua) as (p & Hp & Hpu). rewrite Hp. cbn [mbind option_bind].
  assert (Hna : a ∉ retryList c) by (intros Ha; apply (Hr a p Ha Hp); set_solver).
  unfold inspect. destruct (finished p) eqn:Hfin; [|destruct (isTx p && (nextRetry p <=? now) && (retryCount p <? maxRetry p)) eqn:Hretry;
    [|destruct (expireAt p <=? now)]].
  - assert (Hid : <[a := p]> (calls c) = calls c) by (by apply insert_id). rewrite Hid.
    apply (IH (with_pending (with_calls c (calls c)) (delete uid (m_pending c)))); [|done].
    apply (ok_same c); try done. apply delete_subseteq.
  - apply andb_true_iff in Hretry as [[Htx _]%andb_true_iff Hlt%Z.ltb_lt].
    destruct (IH (with_retry c (retryList c ++ [a]))) as [Hok Hstep]; [| |done].
    + destruct Hc as [H1 H2 H3 H4]. split; cbn [calls m_pending retryList with_retry]; [done|done| |].
      * intros b [Hb|Hb]%elem_of_app; [by apply H3|]. apply list_elem_of_singleton in Hb as ->. by exists p.
      * apply NoDup_app. split; [done|]. split; [set_solver|apply NoDup_singleton].
    + cbn [calls retryList with_retry]. intros b q [Hb|Hb]%elem_of_app Hq; [by apply (Hr' b)|].
      apply list_elem_of_singleton in Hb as ->. rewrite Hp in Hq. injection Hq as <-. by rewrite Hpu.
  - pose proof (finish_step p false (response p) Hfin) as Hs.
    assert (Hok : client_ok (with_pending (with_calls c (<[a := set_finished p false (response p)]> (calls c))) (delete uid (m_pending c)))).
    { apply (ok_same (with_calls c (<[a := set_finished p false (response p)]> (calls c)))); try done; [apply delete_subseteq|].
      apply (ok_update c a p); try done. by apply (ok_calls c Hc a p). }
    destruct (IH _ Hok) as [Hok' Hstep'].
    + cbn [calls retryList with_calls with_pending]. intros b q Hb Hq. rewrite lookup_insert_ne in Hq by set_solver. by apply (Hr' b).
    + split; [done|]. eapply calls_step_trans; [by eapply calls_step_insert|exact Hstep'].
  - by apply IH.
Qed.

Lemma retry_one_ok now a c : client_ok c -> a ∉ retryList c ->
  (forall p, calls c !! a = Some p -> retryCount p < maxRetry p) ->
  client_ok (retry_one now a c) /\ calls_step (calls c) (calls (retry_one now a c)).
Proof.
  intros Hc Hna Hlt. unfold retry_one. destruct (calls c !! a) as [p|] eqn:Hp; [|split; [done|apply calls_step_refl]].
  destruct (finished p) eqn:Hfin; [split; [done|apply calls_step_refl]|].
  set (p' := set_retry p _ _). assert (Hs : call_step p p') by (unfold call_step, p', set_retry; cbn; split_and!; done || congruence || lia).
  assert (Hok : client_ok (with_calls c (<[a := p']> (calls c)))).
  { apply (ok_update c a p); try done. destruct (ok_calls c Hc a p Hp) as [Hl _]. specialize (Hlt p eq_refl). unfold call_ok, p', set_retry. cbn. lia. }
  pose proof (calls_step_insert (calls c) a p p' Hp Hs) as Hstep.
  cbn [connectors with_calls]. destruct (connectors c !! Z.to_nat (connId p')) as [ctx|]; [|done].
  split; [by apply (ok_same (with_calls c (<[a := p']> (calls c))))|done].
Qed.

Lemma send_turn_same i c : calls (send_turn i c) = calls c /\ m_pending (send_turn i c) = m_pending c /\ retryList (send_turn i c) = retryList c.
Proof.
  unfold send_turn. destruct (connectors c !! i) as [ctx|]; [|done]. destruct (next_message ctx) as [[m ctx']|]; [|done].
  by destruct (String.eqb m EmptyString).
Qed.

Lemma finish_call_ok uid type message c : client_ok c ->
  client_ok (finish_call uid type message c) /\ calls_step (calls c) (calls (finish_call uid type message c)).
Proof.
  intros Hc. unfold finish_call. destruct (m_pending c !! uid) as [a|]; [|split; [done|apply calls_step_refl]].
  destruct (calls c !! a) as [p|] eqn:Hp; [|split; [done|apply calls_step_refl]].
  destruct (finished p) eqn:Hf; [split; [done|apply calls_step_refl]|].
  pose proof (finish_step p (type =? CallResult) message Hf) as Hs. split; [|by eapply calls_step_insert].
  apply (ok_update c a p); try done; [by apply (ok_calls c Hc a p)|].
  intros Hr. destruct (ok_retry c Hc a Hr) as (q & Hq & _ & Hlt). rewrite Hp in Hq. injection Hq as <-. exact Hlt.
Qed.

Lemma client_step_ok info vr c c' : client_ok c -> client_step info vr c c' -> client_ok c' /\ calls_step (calls c) (calls c').
Proof.
  intros Hc Hs. destruct Hs as [addr uid text conn tx timeout now1 now2 c c' Hnew Hnu Hcall|type doc message c c' Hd
    |now uids c Hr Hnd|now c|i c|b c|text conn c c' Hrep|action h c|c].
  - unfold sendCall in Hcall. destruct (m_isConnected c); [|done]. cbn [negb] in Hcall.
    destruct (connectors c !! Z.to_nat conn) as [ctx|]; [|done]. injection Hcall as <-. cbn [calls with_connectors with_pending with_calls].
    split; [|intros a p Hp; exists p; rewrite lookup_insert_ne by (intros ->; congruence); split; [done|apply call_step_refl]].
    destruct Hc as [H1 H2 H3 H4]. split; cbn [calls m_pending retryList with_connectors with_pending with_calls].
    + intros a p. destruct (decide (a = addr)) as [->|Hne]; [rewrite lookup_insert_eq; intros [= <-]; unfold call_ok; cbn; lia|].
      rewrite lookup_insert_ne by done. apply H1.
    + intros u a. destruct (decide (u = uid)) as [->|Hne].
      * rewrite lookup_insert_eq. intros [= <-]. eexists. by rewrite lookup_insert_eq.
      * rewrite lookup_insert_ne by done. intros Ha. destruct (H2 u a Ha) as (p & Hp & Hu). exists p.
        by rewrite lookup_insert_ne by (intros ->; congruence).
    + intros a Ha. destruct (H3 a Ha) as (p & Hp & Hx). exists p. by rewrite lookup_insert_ne by (intros ->; congruence).
    + done.
  - unfold dispatch in Hd. destruct (element doc 1) as [| |u]; try done. cbn [mbind outcome_bind] in Hd.
    destruct (GetString u) as [| |uid]; try done. cbn [mbind outcome_bind] in Hd.
    destruct ((type =? CallResult) || (type =? CallError)); [injection Hd as <-; by apply finish_call_ok|].
    destruct (type =? Call); [|injection Hd as <-; split; [done|apply calls_step_refl]].
    unfold dispatch_call in Hd. destruct (element doc 2) as [| |x]; try done. cbn [mbind outcome_bind] in Hd.
    destruct (GetString x) as [| |action]; try done. cbn [mbind outcome_bind] in Hd.
    destruct (callHandlers c !! action); [|injection Hd as <-; split; [done|apply calls_step_refl]].
    destruct (element doc 3) as [| |y]; try done. cbn [mbind outcome_bind] in Hd. injection Hd as <-.
    destruct (vr action y); (split; [|apply calls_step_refl]); [by apply (ok_same c)|done].
  - apply collect_ok; [done..|]. rewrite Hr. intros a p Ha. by apply elem_of_nil in Ha.
  - unfold retry_next. destruct (retryList c) as [|a rest] eqn:Hr; [split; [done|apply calls_step_refl]|].
    pose proof (ok_nodup c Hc) as Hnd. rewrite Hr in Hnd. apply NoDup_cons in Hnd as [Hna Hnd].
    apply (retry_one_ok now a (with_retry c rest)); [|done|].
    + destruct Hc as [H1 H2 H3 H4]. split; cbn [calls m_pending retryList with_retry]; try done. intros b Hb. apply H3. rewrite Hr. set_solver.
    + intros p Hp. destruct (ok_retry c Hc a) as (q & Hq & _ & Hlt); [rewrite Hr; set_solver|]. cbn [calls with_retry] in Hp.
      rewrite Hp in Hq. by injection Hq as ->.
  - destruct (send_turn_same i c) as (E1 & E2 & E3). rewrite E1. split; [|apply calls_step_refl]. apply (ok_same c); [done|by rewrite E2|done|done].
  - split; [by apply (ok_same c)|apply calls_step_refl].
  - unfold send_reply in Hrep. destruct (m_isConnected c); [|done]. cbn [negb] in Hrep. destruct (connectors c !! Z.to_nat conn) as [ctx|]; [|done].
    injection Hrep as <-. split; [by apply (ok_same c)|apply calls_step_refl].
  - split; [by apply (ok_same c)|apply calls_step_refl].
  - split; [apply (ok_same c); [done|apply map_empty_subseteq|done|done]|apply calls_step_refl].
Qed.

Lemma reachable_client_ok info vr c : reachable_client info vr c -> client_ok c.
Proof.
  induction 1 as [c (Hc & Hp & Hr)|c c' _ IH Hs]; [|by eapply client_step_ok].
  split; rewrite ?Hc, ?Hp, ?Hr; [by intros a p Ha|by intros uid a Ha|intros a Ha; by apply elem_of_nil in Ha|constructor].
Qed.

(** ** A pass of the retry thread *)

Definition pending_ok (c : client) : Prop :=
  forall uid a, m_pending c !! uid = Some a -> exists p, calls c !! a = Some p /\ uniqueId p = uid.

Lemma inspect_same now p p' : inspect now p = Erase p' -> uniqueId p' = uniqueId p.
Proof.
  unfold inspect. destruct (finished p); [by intros [= <-]|]. destruct (_ && _); [done|].
  destruct (expireAt p <=? now); [by intros [= <-]|done].
Qed.

Lemma erase_pending c u b q q' : pending_ok c -> m_pending c !! u = Some b -> calls c !! b = Some q -> uniqueId q' = uniqueId q ->
  pending_ok (with_pending (with_calls c (<[b := q']> (calls c))) (delete u (m_pending c))).
Proof.
  intros Hc Hu Hq Hqq uid a. cbn [calls m_pending with_pending with_calls]. intros [Hne Ha]%lookup_delete_Some.
  destruct (Hc uid a Ha) as (p & Hp & Hpu). destruct (decide (a = b)) as [->|Hab].
  - exists q'. rewrite lookup_insert_eq. split; [done|congruence].
  - exists p. by rewrite lookup_insert_ne.
Qed.

(** The other ids of the map leave a call alone. *)
Lemma collect_other now uids : forall c uid a p, pending_ok c -> m_pending c !! uid = Some a -> calls c !! a = Some p -> uid ∉ uids ->
  calls (collect now uids c) !! a = Some p /\ m_pending (collect now uids c) !! uid = Some a.
Proof.
  induction uids as [|u uids IH]; intros c uid a p Hc Hu Hp Hn; cbn [collect]; [done|].
  apply not_elem_of_cons in Hn as [Hne Hn].
  destruct (m_pending c !! u) as [b|] eqn:Hb; cbn [mbind option_bind]; [|by apply IH].
  destruct (Hc u b Hb) as (q & Hq & Hqu). rewrite Hq. cbn [mbind option_bind].
  assert (Hab : a <> b). { intros ->. destruct (Hc uid b Hu) as (q' & Hq' & Hqu'). congruence. }
  destruct (inspect now q) as [| |q'] eqn:Hi; [by apply IH|by apply (IH (with_retry c (retryList c ++ [b])))|].
  apply IH; [eapply erase_pending; [done..|by eapply inspect_same]| |cbn; by rewrite lookup_insert_ne|done].
  cbn. by rewrite lookup_delete_ne.
Qed.

(** An id that is not pending stays so, with its call. *)
Lemma collect_gone now uids : forall c uid a p, pending_ok c -> m_pending c !! uid = None -> calls c !! a = Some p -> uniqueId p = uid ->
  calls (collect now uids c) !! a = Some p /\ m_pending (collect now uids c) !! uid = None.
Proof.
  induction uids as [|u uids IH]; intros c uid a p Hc Hu Hp Hpu; cbn [collect]; [done|].
  destruct (m_pending c !! u) as [b|] eqn:Hb; cbn [mbind option_bind]; [|by apply IH].
  destruct (Hc u b Hb) as (q & Hq & Hqu). rewrite Hq. cbn [mbind option_bind].
  assert (Hab : a <> b) by (intros ->; congruence).
  destruct (inspect now q) as [| |q'] eqn:Hi; [by apply IH|by apply (IH (with_retry c (retryList c ++ [b])))|].
  apply IH; [eapply erase_pending; [done..|by eapply inspect_same]| |cbn; by rewrite lookup_insert_ne|done].
  cbn. apply lookup_delete_None. by right.
Qed.

Lemma collect_inspects now uids : NoDup uids -> forall c uid a p, pending_ok c -> uid ∈ uids -> m_pending c !! uid = Some a -> calls c !! a = Some p ->
  match inspect now p with
  | Erase p' => calls (collect now uids c) !! a = Some p' /\ m_pending (collect now uids c) !! uid = None
  | _ => calls (collect now uids c) !! a = Some p /\ m_pending (collect now uids c) !! uid = Some a
  end.
Proof.
  induction 1 as [|u uids Hnin Hnd IH]; intros c uid a p Hc Hin Hu Hp; [by apply elem_of_nil in Hin|]. cbn [collect].
  destruct (decide (uid = u)) as [<-|Hne].
  - rewrite Hu. cbn [mbind option_bind]. rewrite Hp. cbn [mbind option_bind]. destruct (Hc uid a Hu) as (p0 & Hp0 & Hpu).
    rewrite Hp in Hp0. injection Hp0 as <-. destruct (inspect now p) as [| |p'] eqn:Hi.
    + by apply collect_other.
    + by apply (collect_other now uids (with_retry c (retryList c ++ [a]))).
    + pose proof (inspect_same now p p' Hi) as Hs. apply collect_gone; [by eapply erase_pending| | |congruence].
      * cbn. apply lookup_delete_eq.
      * cbn. apply lookup_insert_eq.
  - apply elem_of_cons in Hin as [?|Hin]; [done|].
    destruct (m_pending c !! u) as [b|] eqn:Hb; cbn [mbind option_bind]; [|by apply IH].
    destruct (Hc u b Hb) as (q & Hq & Hqu). rewrite Hq. cbn [mbind option_bind].
    assert (Hab : a <> b). { intros ->. destruct (Hc uid b Hu) as (q' & Hq' & Hqu'). congruence. }
    destruct (inspect now q) as [| |q'] eqn:Hi; [by apply IH|by apply (IH (with_retry c (retryList c ++ [b])))|].
    apply IH; [eapply erase_pending; [done..|by eapply inspect_same]|done| |cbn; by rewrite lookup_insert_ne].
    cbn. by rewrite lookup_delete_ne.
Qed.

(** ** The send thread *)

Definition not_empty (m : string) : bool := negb (String.eqb m EmptyString).

Lemma send_turns i n : forall c ctx, connectors c !! i = Some ctx -> (length (txQueue ctx) + length (nonTxQueue ctx) = n)%nat ->
  sent (Nat.iter n (send_turn i) c) = (sent c ++ List.filter not_empty (txQueue ctx ++ nonTxQueue ctx))%list /\
  connectors (Nat.iter n (send_turn i) c) !! i = Some (Connector [] [] (ctx_running ctx)).
Proof.
  induction n as [|n IH]; intros c [tq nq run] Hc Hn; cbn [txQueue nonTxQueue ctx_running] in *.
  - destruct tq, nq; try (simpl in Hn; lia). cbn. by rewrite app_nil_r.
  - rewrite Nat.iter_succ_r.
    assert (Hstep : exists m tq' nq', tq ++ nq = (m :: tq' ++ nq')%list /\ (length tq' + length nq' = n)%nat /\
      send_turn i c = let c' := with_connectors c (<[i := Connector tq' nq' run]> (connectors c)) in
        if String.eqb m EmptyString then c' else with_sent c' (sent c ++ [m])).
    { unfold send_turn. rewrite Hc. destruct tq as [|m tq]; [destruct nq as [|m nq]; [simpl in Hn; lia|]|].
      - exists m, [], nq. simpl in Hn. split; [done|]. split; [simpl; lia|done].
      - exists m, tq, nq. simpl in Hn. split; [done|]. split; [lia|done]. }
    destruct Hstep as (m & tq' & nq' & Hq & Hl & ->). cbv zeta. rewrite Hq. simpl List.filter. unfold not_empty at 1.
    assert (Hlt : (i < length (connectors c))%nat) by by eapply lookup_lt_Some.
    destruct (String.eqb m EmptyString); cbn [negb].
    + destruct (IH (with_connectors c (<[i := Connector tq' nq' run]> (connectors c))) (Connector tq' nq' run)) as [E1 E2]; [|done|].
      * cbn. by apply list_lookup_insert_eq.
      * by rewrite E1, E2.
    + destruct (IH (with_sent (with_connectors c (<[i := Connector tq' nq' run]> (connectors c))) (sent c ++ [m])) (Connector tq' nq' run)) as [E1 E2]; [|done|].
      * cbn. by apply list_lookup_insert_eq.
      * rewrite E1, E2. cbn [sent with_sent txQueue nonTxQueue]. by rewrite <- app_assoc.
Qed.

(** ** Properties *)

(** The elements of a message after its type. *)
Definition elements_of (type : Z) : list (value -> bool) :=
  if type =? Call then [IsString; IsString; IsObject]
  else if type =? CallResult then [IsString; IsObject]
  else [IsString; IsString; IsString; IsObject].

(** A message as the protocol has it: an array of the type and the elements of
    that type. *)
Definition ocpp_message (type : Z) (doc : value) : Prop :=
  Call <= type <= CallError /\
  exists l, doc = Arr (Number (NInt type) :: l) /\ Forall2 (fun v test => test v = true) l (elements_of type).

Lemma check_elements_spec l tests : forall i, length (drop i l) = length tests ->
  exists b, check_elements (Arr l) i tests = Returns b /\ (b = true <-> Forall2 (fun v (test : value -> bool) => test v = true) (drop i l) tests).
Proof.
  induction tests as [|test tests IH]; intros i Hl; cbn [check_elements].
  - exists true. split; [done|]. split; [|done]. intros _. by destruct (drop i l).
  - rewrite length_drop in Hl. cbn [length] in Hl. destruct (lookup_lt_is_Some_2 l i) as [v Hv]; [lia|].
    cbn [element]. rewrite Hv. cbn [mbind outcome_bind]. rewrite (drop_S _ v i Hv). destruct (test v) eqn:Ht.
    + destruct (IH (S i)) as (b & -> & Hb); [rewrite length_drop; lia|]. exists b. split; [done|]. rewrite Hb.
      split; [by constructor|by intros [_ ?]%Forall2_cons].
    + exists false. split; [done|]. split; [done|]. intros [? _]%Forall2_cons. congruence.
Qed.

Lemma check_message_spec asserts first l tests : exists b,
  check_message asserts (Arr (first :: l)) (Z.of_nat (S (length tests))) tests = Returns b /\
  (b = true <-> Forall2 (fun v test => test v = true) l tests).
Proof.
  unfold check_message. cbn [Size length mbind outcome_bind].
  destruct (Z.eqb_spec (Z.of_nat (S (length l))) (Z.of_nat (S (length tests)))) as [He|Hne]; cbn [negb].
  - apply (check_elements_spec (first :: l) tests 1). change (drop 1 (first :: l)) with l. lia.
  - exists false. split; [done|]. split; [done|]. intros Hf%Forall2_length. lia.
Qed.

(** The checks of a type of the protocol. *)
Lemma check_by_type asserts doc type : Call <= type <= CallError ->
  (if type =? Call then check_message asserts doc 4 [IsString; IsString; IsObject]
   else if type =? CallResult then check_message asserts doc 3 [IsString; IsObject]
   else check_message asserts doc 5 [IsString; IsString; IsString; IsObject]) =
  check_message asserts doc (Z.of_nat (S (length (elements_of type)))) (elements_of type).
Proof. intros _. unfold elements_of. by destruct (type =? Call), (type =? CallResult). Qed.

(** What the function does before the checks: it refuses, or has read a type
    of the protocol. *)
Lemma validate_head parse asserts message type0 doc document : parse message = Some doc ->
  (exists type, validateOCPPMessage parse asserts message type0 document = Returns (false, type) /\ forall t, ~ ocpp_message t doc) \/
  (exists type l, doc = Arr (Number (NInt type) :: l) /\ Call <= type <= CallError /\
     validateOCPPMessage parse asserts message type0 document =
       (ok ← check_message asserts document (Z.of_nat (S (length (elements_of type)))) (elements_of type); Returns (ok, type))).
Proof.
  intros Hp. unfold validateOCPPMessage. rewrite Hp.
  destruct (IsArray doc) eqn:Ha; cbn [negb].
  2: { left. exists type0. split; [done|]. by intros t (_ & l & -> & _). }
  destruct doc as [| | | |l|]; try done. cbn [Size mbind outcome_bind].
  destruct (Z.ltb_spec (Z.of_nat (length l)) 3) as [Hl|Hl].
  { left. exists type0. split; [done|]. intros t (_ & l' & [= ->] & Hf). apply Forall2_length in Hf. unfold elements_of in Hf. cbn [length] in Hl.
    destruct (t =? Call), (t =? CallResult); simpl in Hf; lia. }
  destruct l as [|first l]; [simpl in Hl; lia|]. change (element (Arr (first :: l)) 0) with (Returns first). cbn [mbind outcome_bind].
  destruct (IsInt first) eqn:Hi; cbn [negb].
  2: { left. exists type0. split; [done|]. intros t (Ht & l' & [= -> _] & _). cbn [IsInt] in Hi. unfold Call, CallError in Ht.
    apply andb_false_iff in Hi as [?%Z.leb_gt|?%Z.leb_gt]; unfold INT32_MIN, INT32_MAX in *; lia. }
  destruct first as [| |[t|]| | |]; try done. unfold GetInt. rewrite Hi. cbn [mbind outcome_bind].
  destruct ((t <? Call) || (CallError <? t)) eqn:Hr.
  { left. exists t. split; [done|]. intros t' (Ht & l' & [= -> _] & _). lia. }
  right. exists t, l. assert (Ht : Call <= t <= CallError) by lia. split; [done|]. split; [done|]. by rewrite check_by_type.
Qed.

(** A message is dropped, or an assertion fails. *)
Lemma message_ignored parse asserts vr type0 message (c : client) :
  (parseMessage parse asserts vr type0 message c = Returns c \/
   (asserts = true /\ parseMessage parse asserts vr type0 message c = Undefined)) /\
  forall doc type, parse message = Some doc -> ocpp_message type doc ->
    parseMessage parse asserts vr type0 message c = if asserts then Undefined else Returns c.
Proof.
  assert (Hnull : forall n tests, check_message asserts Null (Z.of_nat (S n)) tests = if asserts then Undefined else Returns false).
  { intros n tests. unfold check_message. cbn [Size]. destruct asserts; [done|]. cbn [mbind outcome_bind].
    by destruct (Z.eqb_spec 0 (Z.of_nat (S n))); [lia|]. }
  unfold parseMessage. destruct (parse message) as [doc|] eqn:Hp.
  2: { split; [|done]. left. unfold validateOCPPMessage. by rewrite Hp. }
  destruct (validate_head parse asserts message type0 doc Null Hp) as [(t & -> & Hno)|(t & l & -> & Ht & ->)].
  - split; [by left|]. intros doc' t' [= <-] Hm. by destruct (Hno t').
  - rewrite Hnull. split; [|by intros doc' t' _ _; destruct asserts]. destruct asserts; [by right|by left].
Qed.

(** C26: no message of the server is ever acted on: the message is parsed into a
    document of [validateOCPPMessage], which then looks at the null document
    of [parseMessage], so whatever the message is, it is dropped, or the
    program is ended by an assertion of the JSON library; the latter for every
    message of the protocol when assertions are compiled in. *)
Theorem client_hears_nothing parse asserts vr type0 message (c : client) :
  (parseMessage parse asserts vr type0 message c = Returns c \/
   (asserts = true /\ parseMessage parse asserts vr type0 message c = Undefined)) /\
  forall doc type, parse message = Some doc -> ocpp_message type doc ->
    parseMessage parse asserts vr type0 message c = if asserts then Undefined else Returns c.
Proof. apply message_ignored. Qed.

Definition demo_call_result : value := Arr [Number (NInt 3); Str "17"; Obj []].

Lemma demo_message : ocpp_message 3 demo_call_result.
Proof. split; [by unfold Call, CallError|]. eexists. split; [reflexivity|]. by repeat constructor. Qed.

Lemma client_hears_nothing_witness (parse := fun _ : string => Some demo_call_result) :
  let c := Client [] ∅ ∅ [] true true ∅ [] [] in
  parseMessage parse true (fun _ _ => true) 5 "" c = Undefined /\ parseMessage parse false (fun _ _ => true) 5 "" c = Returns c.
Proof.
  split.
  - exact (proj2 (client_hears_nothing parse true (fun _ _ => true) 5 "" (Client [] ∅ ∅ [] true true ∅ [] [])) demo_call_result 3 eq_refl demo_message).
  - exact (proj2 (client_hears_nothing parse false (fun _ _ => true) 5 "" (Client [] ∅ ∅ [] true true ∅ [] [])) demo_call_result 3 eq_refl demo_message).
Defined.

(** with the parsed document as its argument, [validateOCPPMessage] would
    accept exactly the messages of the protocol, and name their type. *)
Theorem validate_accepts_protocol parse asserts message type0 doc : parse message = Some doc ->
  exists b type, validateOCPPMessage parse asserts message type0 doc = Returns (b, type) /\
    (b = true <-> ocpp_message type doc) /\ forall t, ocpp_message t doc -> t = type.
Proof.
  intros Hp. destruct (validate_head parse asserts message type0 doc doc Hp) as [(t & -> & Hno)|(t & l & -> & Ht & ->)].
  - exists false, t. split; [done|]. split; [|by intros t' Hm; destruct (Hno t')]. split; [done|by intros Hm; destruct (Hno t)].
  - destruct (check_message_spec asserts (Number (NInt t)) l (elements_of t)) as (b & -> & Hb). cbn [mbind outcome_bind].
    exists b, t. split; [done|]. split.
    + rewrite Hb. split; [intros Hf; split; [done|by exists l]|]. by intros (_ & l' & [= ->] & Hf).
    + by intros t' (_ & l' & [= ->] & _).
Qed.

Lemma validate_accepts_protocol_witness :
  validateOCPPMessage (fun _ => Some demo_call_result) true "" 5 demo_call_result = Returns (true, 3).
Proof.
  destruct (validate_accepts_protocol (fun _ => Some demo_call_result) true "" 5 demo_call_result eq_refl) as (b & t & Hv & Hb & Ht).
  rewrite <- (Ht 3 demo_message) in Hb, Hv. rewrite Hv. by rewrite (proj2 Hb demo_message).
Defined.


Definition demo_client : client := Client [Connector [] [] true; Connector [] [] true] ∅ ∅ [] true true ∅ [] [].
Definition demo_info : ConnectInfo := Info 10 2.
Definition demo_started : client := (sendCall demo_info 0 true "17" "[2,...]" 1 true 100 0 0 demo_client).2.


(** a pass of the retry thread ends every call that has expired, unless it
    is a transaction message that is due and may be sent again: that one stays
    pending, although its caller has gone. *)
Theorem collect_ends_expired info vr (c : client) now uids uid a p :
  reachable_client info vr c -> NoDup uids -> uid ∈ uids -> m_pending c !! uid = Some a -> calls c !! a = Some p ->
  finished p = false -> expireAt p <= now ->
  sendCall_wait p now = Some (false, None) /\
  if isTx p && (nextRetry p <=? now) && (retryCount p <? maxRetry p)
  then calls (collect now uids c) !! a = Some p /\ m_pending (collect now uids c) !! uid = Some a
  else (exists p', calls (collect now uids c) !! a = Some p' /\ finished p' = true /\ success p' = false) /\
       m_pending (collect now uids c) !! uid = None.
Proof.
  intros Hc%reachable_client_ok Hnd Hin Hu Hp Hf He. split.
  { unfold sendCall_wait. rewrite Hf. by destruct (Z.leb_spec (expireAt p) now); [|lia]. }
  pose proof (collect_inspects now uids Hnd c uid a p (ok_pending c Hc) Hin Hu Hp) as Hi.
  unfold inspect in Hi. rewrite Hf in Hi. destruct (isTx p && (nextRetry p <=? now) && (retryCount p <? maxRetry p)); [done|].
  destruct (Z.leb_spec (expireAt p) now); [|lia]. destruct Hi as [Hi Hg]. split; [|done]. eexists. split; [exact Hi|done].
Qed.

Lemma collect_ends_expired_witness :
  m_pending (collect (ms 100) ["17"%string] (sendCall demo_info 0 true "17" "[2,...]" 1 false 100 0 0 demo_client).2) !! "17"%string = None.
Proof.
  set (c := (sendCall demo_info 0 true "17" "[2,...]" 1 false 100 0 0 demo_client).2).
  assert (Hr : reachable_client demo_info (fun _ _ => true) c).
  { apply (reach_step _ _ demo_client); [apply reach_init; by split|]. by apply (step_call _ _ 0 "17" "[2,...]" 1 false 100 0 0). }
  destruct (collect_ends_expired demo_info (fun _ _ => true) c (ms 100) ["17"%string] "17"%string 0%nat
    (Pending 1 "17" false "[2,...]" 0 2 10 (ms 100) (ms 10) false false EmptyString) Hr) as [_ H];
    first [reflexivity|by apply NoDup_singleton|by apply list_elem_of_singleton|exact (proj2 H)].
Defined.

(** a response with the id of a pending call finishes that call and no
    other, and its caller gets the message; a second response changes
    nothing. *)
Theorem response_finishes_call info vr (c : client) uid a p type rest message :
  reachable_client info vr c -> m_pending c !! uid = Some a -> calls c !! a = Some p -> finished p = false ->
  type = CallResult \/ type = CallError ->
  exists p' c', dispatch vr type (Arr (Number (NInt type) :: Str uid :: rest)) message c = Returns c' /\
    calls c' = <[a := p']> (calls c) /\ m_pending c' = m_pending c /\
    (forall now, sendCall_wait p' now = Some (if type =? CallResult then (true, Some message) else (false, None))) /\
    forall type2 message2, type2 = CallResult \/ type2 = CallError ->
      dispatch vr type2 (Arr (Number (NInt type2) :: Str uid :: rest)) message2 c' = Returns c'.
Proof.
  intros _ Hu Hp Hf Ht. exists (set_finished p (type =? CallResult) message).
  assert (Hd : forall t m x, t = CallResult \/ t = CallError -> dispatch vr t (Arr (Number (NInt t) :: Str uid :: rest)) m x = Returns (finish_call uid t m x)).
  { intros t m x [-> | ->]; reflexivity. }
  assert (Hfin : finish_call uid type message c = with_calls c (<[a := set_finished p (type =? CallResult) message]> (calls c))).
  { unfold finish_call. by rewrite Hu, Hp, Hf. }
  exists (finish_call uid type message c). split; [by apply Hd|]. rewrite Hfin. split; [done|]. split; [done|]. split.
  - intros now. unfold sendCall_wait. cbn [finished set_finished success response]. by destruct (type =? CallResult).
  - intros t2 m2 Ht2. rewrite Hd by done. unfold finish_call. cbn [m_pending with_calls calls]. rewrite Hu, lookup_insert_eq. done.
Qed.

Lemma response_finishes_call_witness :
  exists c', dispatch (fun _ _ => true) 3 demo_call_result "[3,...]" demo_started = Returns c' /\
    exists p', calls c' !! 0%nat = Some p' /\ sendCall_wait p' 0 = Some (true, Some "[3,...]"%string).
Proof.
  assert (Hr : reachable_client demo_info (fun _ _ => true) demo_started).
  { apply (reach_step _ _ demo_client); [apply reach_init; by split|]. by apply (step_call _ _ 0 "17" "[2,...]" 1 true 100 0 0). }
  destruct (response_finishes_call demo_info (fun _ _ => true) demo_started "17" 0
    (Pending 1 "17" true "[2,...]" 0 2 10 (ms 100) (ms 10) false false EmptyString) 3 [Obj []] "[3,...]" Hr) as (p' & c' & Hd & Hc & _ & Hw & _);
    [reflexivity|reflexivity|reflexivity|by left|].
  exists c'. split; [exact Hd|]. exists p'. split; [rewrite Hc; reflexivity|exact (Hw 0)].
Defined.

(** as many turns of its thread as a connector has messages send them all,
    each once: the transaction messages first, then the others, each queue in
    its order; empty messages are left out. *)
Theorem send_thread_drains (c : client) i ctx : connectors c !! i = Some ctx ->
  let c' := Nat.iter (length (txQueue ctx) + length (nonTxQueue ctx)) (send_turn i) c in
  sent c' = (sent c ++ List.filter not_empty (txQueue ctx ++ nonTxQueue ctx))%list /\
  connectors c' !! i = Some (Connector [] [] (ctx_running ctx)).
Proof. intros Hc. by apply send_turns. Qed.

Lemma send_thread_drains_witness :
  sent (Nat.iter 3 (send_turn 0) (Client [Connector ["t"%string] ["a"; "b"]%string true] ∅ ∅ [] true true ∅ [] [])) = ["t"; "a"; "b"]%string.
Proof.
  destruct (send_thread_drains (Client [Connector ["t"%string] ["a"; "b"]%string true] ∅ ∅ [] true true ∅ [] []) 0
    (Connector ["t"%string] ["a"; "b"]%string true) eq_refl) as [H _]. exact H.
Defined.
