(* ===== verification/Regex.v ===== *)
(** * Regular expressions of the language's library ([std::regex])

    The URL parser of the OCPP code ([src/src/ocpp/tool/url/Url.cpp]) is
    written with regular expressions.  This file gives the part of the
    ECMAScript grammar they use the meaning the standard gives it: a matcher
    that tries the alternatives in order and the longest repetition first, goes
    back when what follows fails, and records what the groups matched.  It is
    proved to decide the words of the expression; the lemmas at the end run it
    on the texts a printer writes.  The anchors of a whole match are not written. *)

From Stdlib Require Import Ascii.
From stdpp Require Import gmap.
From S2P Require Import Prelude.

Abbreviation text := (list ascii).

Inductive regex :=
  | Eps
  | Cls (p : ascii -> bool)
  | Seq (a b : regex)
  | Alt (a b : regex)
  | Star (a : regex)
  | Upto (n : nat) (a : regex)
  | Group (i : nat) (a : regex).

Definition Chr (x : ascii) : regex := Cls (Ascii.eqb x).
Definition Plus (a : regex) : regex := Seq a (Star a).
Definition Opt (a : regex) : regex := Upto 1 a.
Fixpoint Seqs (l : list regex) : regex := match l with [] => Eps | [a] => a | a :: l' => Seq a (Seqs l') end.

(** ** The matcher

    [k] is what follows the expression. An optional round that consumes
    nothing is refused. *)

Abbreviation captures := (gmap nat text).
Definition next (A : Type) : Type := text -> captures -> option A.

Definition or_else {A} (x y : option A) : option A := match x with Some _ => x | None => y end.

Section Repeat.
Context {A : Type} (body : text -> captures -> next A -> option A).

(** At most [n] more rounds. *)
Fixpoint rounds (n : nat) (s : text) (c : captures) (k : next A) : option A :=
  match n with
  | O => k s c
  | S n' => or_else (body s c (fun s' c' => if (length s' <? length s)%nat then rounds n' s' c' k else None)) (k s c)
  end.

End Repeat.

Fixpoint step {A} (r : regex) (s : text) (c : captures) (k : next A) : option A :=
  match r with
  | Eps => k s c
  | Cls p => match s with x :: s' => if p x then k s' c else None | [] => None end
  | Seq a b => step a s c (fun s' c' => step b s' c' k)
  | Alt a b => or_else (step a s c k) (step b s c k)
  | Star a => rounds (step a) (length s) s c k
  | Upto n a => rounds (step a) n s c k
  | Group i a => step a s c (fun s' c' => k s' (<[i := take (length s - length s') s]> c'))
  end.

Definition at_end : next captures := fun s c => match s with [] => Some c | _ => None end.

(** [std::regex_match]: the whole text, with what the groups matched. *)
Definition regex_match (r : regex) (s : text) : option captures := step r s ∅ at_end.

(** [match[i].str()]: empty when the group took no part. *)
Definition group (i : nat) (c : captures) : text := default [] (c !! i).

(** ** The words of an expression *)

Inductive matches : regex -> text -> Prop :=
  | matches_eps : matches Eps []
  | matches_cls p x : p x = true -> matches (Cls p) [x]
  | matches_seq a b s t : matches a s -> matches b t -> matches (Seq a b) (s ++ t)
  | matches_left a b s : matches a s -> matches (Alt a b) s
  | matches_right a b s : matches b s -> matches (Alt a b) s
  | matches_star a l : Forall (matches a) l -> matches (Star a) (concat l)
  | matches_upto n a l : Forall (matches a) l -> (length l <= n)%nat -> matches (Upto n a) (concat l)
  | matches_group i a s : matches a s -> matches (Group i a) s.

(** ** The matcher decides the words *)

(** What follows does not look at the groups. *)
Definition plain {A} (k : next A) : Prop := forall s c c', is_Some (k s c) -> is_Some (k s c').

Lemma or_else_Some {A} (x y : option A) : is_Some (or_else x y) <-> is_Some x \/ is_Some y.
Proof. destruct x; cbn [or_else]; split; [by left|eauto|by right|intros [[? [=]]|?]; done]. Qed.

Lemma or_else_None {A} (x y : option A) : or_else x y = None <-> x = None /\ y = None.
Proof. destruct x; cbn [or_else]; naive_solver. Qed.

(** [step r] finds a word of [r] before what follows. *)
Definition decides (r : regex) : Prop := forall A s c (k : next A), plain k ->
  is_Some (step r s c k) <-> exists a b, s = a ++ b /\ matches r a /\ is_Some (k b c).

Section Rounds.
Context (r : regex) (r_decides : decides r).

Lemma rounds_plain {A} n : forall (s : text) (k : next A), plain k -> plain (fun (s' : text) c' =>
  if (length s' <? length s)%nat then rounds (step r) n s' c' k else None).
Proof.
  induction n as [|n IH]; cbn [rounds]; intros s k Hk t c c'; destruct (_ <? _)%nat; try done; [by apply Hk|].
  rewrite !or_else_Some. intros [Hs|Hs]; [left|right; by eapply Hk].
  apply r_decides in Hs as (a & b & -> & Ha & Hb); [|by apply IH]. apply r_decides; [by apply IH|].
  exists a, b. split_and!; [done|done|]. by eapply (IH (a ++ b)).
Qed.

Lemma rounds_sound {A} n : forall s c (k : next A), plain k -> is_Some (rounds (step r) n s c k) ->
  exists l b, s = concat l ++ b /\ Forall (matches r) l /\ (length l <= n)%nat /\ is_Some (k b c).
Proof.
  induction n as [|n IH]; cbn [rounds]; intros s c k Hk Hs; [by exists [], s|].
  apply or_else_Some in Hs as [Hs|Hs]; [|exists [], s; split_and!; [done|done|cbn; lia|done]].
  apply r_decides in Hs as (a & b & -> & Ha & Hb); [|by apply rounds_plain].
  destruct (_ <? _)%nat; [|by destruct Hb]. apply IH in Hb as (l & b' & -> & Hl & Hn & Hb); [|done].
  exists (a :: l), b'. cbn [concat length]. rewrite app_assoc. split_and!; [done|by constructor|lia|done].
Qed.

Lemma rounds_complete {A} l : forall n b c (k : next A), plain k -> Forall (matches r) l -> (length l <= n)%nat ->
  is_Some (k b c) -> is_Some (rounds (step r) n (concat l ++ b) c k).
Proof.
  induction l as [|x l IH]; intros n b c k Hk Hl Hn Hb.
  - destruct n; cbn [rounds concat app]; [done|]. apply or_else_Some. by right.
  - apply Forall_cons in Hl as [Hx Hl]. cbn [concat length] in *. destruct x as [|y x]; [apply IH; auto with lia|].
    destruct n as [|n]; [lia|]. cbn [rounds]. apply or_else_Some. left. apply r_decides; [by apply rounds_plain|].
    exists (y :: x), (concat l ++ b). rewrite <- app_assoc. split_and!; [done|done|].
    rewrite (proj2 (Nat.ltb_lt _ _)); [apply IH; auto with lia|]. rewrite !length_app. cbn [length]. lia.
Qed.

End Rounds.

Lemma concat_nonempty (l : list text) : exists l', concat l' = concat l /\ (forall P, Forall P l -> Forall P l') /\
  (length l' <= length (concat l))%nat.
Proof.
  induction l as [|x l (l' & Hc & Hp & Hn)]; [by exists []|]. destruct x as [|y x].
  - exists l'. split_and!; [done| |done]. intros P HP. apply Hp. by inversion HP.
  - exists ((y :: x) :: l'). cbn [concat]. rewrite Hc. split_and!; [done| |].
    + intros P HP. inversion HP; subst. constructor; [done|]. by apply Hp.
    + cbn [length app]. rewrite length_app. lia.
Qed.

Lemma decides_all r : decides r.
Proof.
  induction r as [|p|r1 IH1 r2 IH2|r1 IH1 r2 IH2|r IH|n r IH|i r IH]; unfold decides in *; intros A s c k Hk; cbn [step].
  - split; [intros Hs; exists [], s; by split_and!; [|constructor|]|]. intros (a & b & -> & Ha & Hb). by inversion Ha; subst.
  - split.
    + destruct s as [|x s]; [by intros []|]. destruct (p x) eqn:Hx; [|by intros []]. intros Hs.
      exists [x], s. by split_and!; [|constructor|].
    + intros (a & b & -> & Ha & Hb). inversion Ha as [|? x Hx| | | | | |]; subst. cbn [app]. by rewrite Hx.
  - assert (plain (fun s' c' => step r2 s' c' k)) as Hk2.
    { intros t d d'. rewrite !IH2 by done. intros (a & b & -> & Ha & Hb). exists a, b. split_and!; [done|done|by eapply Hk]. }
    rewrite IH1 by done. split.
    + intros (a & b & -> & Ha & Hb). apply IH2 in Hb as (a' & b' & -> & Ha' & Hb'); [|done].
      exists (a ++ a'), b'. rewrite app_assoc. by split_and!; [|constructor|].
    + intros (a & b & -> & Ha & Hb). inversion Ha as [| |? ? u v Hu Hv| | | | |]; subst.
      exists u, (v ++ b). rewrite <- app_assoc. split_and!; [done|done|]. apply IH2; [done|]. by exists v, b.
  - rewrite or_else_Some, IH1, IH2 by done. split.
    + intros [(a & b & -> & Ha & Hb)|(a & b & -> & Ha & Hb)]; exists a, b; split_and!; try done; by constructor.
    + intros (a & b & -> & Ha & Hb). inversion Ha; subst; [left|right]; by exists a, b.
  - split.
    + intros Hs. apply (rounds_sound r IH) in Hs as (l & b & -> & Hl & _ & Hb); [|done].
      exists (concat l), b. by split_and!; [|constructor|].
    + intros (a & b & -> & Ha & Hb). inversion Ha as [| | | | |? l Hl| |]; subst.
      destruct (concat_nonempty l) as (l' & Hc & Hp & Hn). rewrite <- Hc. apply (rounds_complete r IH); [done|by apply Hp| |done].
      rewrite length_app, Hc. lia.
  - split.
    + intros Hs. apply (rounds_sound r IH) in Hs as (l & b & -> & Hl & Hn & Hb); [|done].
      exists (concat l), b. by split_and!; [|constructor|].
    + intros (a & b & -> & Ha & Hb). inversion Ha; subst. by apply (rounds_complete r IH).
  - rewrite IH; [|intros t d d'; apply Hk]. split.
    + intros (a & b & -> & Ha & Hb). exists a, b. split_and!; [done|by constructor|by eapply Hk].
    + intros (a & b & -> & Ha & Hb). inversion Ha; subst. exists a, b. split_and!; [done|done|by eapply Hk].
Qed.

(** The whole text is a word. *)
Lemma regex_match_words r s : is_Some (regex_match r s) <-> matches r s.
Proof.
  unfold regex_match. rewrite (decides_all r captures s); [|by intros [|] c c'; cbn [at_end]]. split.
  - intros (a & [|x b] & -> & Ha & Hb); [by rewrite app_nil_r|]. by destruct Hb.
  - intros Hs. exists s, []. rewrite app_nil_r. by split_and!; [|done|eexists].
Qed.

(** ** Runs of the matcher *)

(** Nothing is found when what follows fails on every suffix. *)
Lemma step_fails {A} r : forall s c (k : next A), (forall s' c', suffix s' s -> k s' c' = None) -> step r s c k = None.
Proof.
  assert (Hr : forall (body : text -> captures -> next A -> option A),
    (forall s c k, (forall s' c', suffix s' s -> k s' c' = None) -> body s c k = None) ->
    forall n s c k, (forall s' c', suffix s' s -> k s' c' = None) -> rounds body n s c k = None).
  { intros body Hb n. induction n as [|n IH]; intros s c k Hk; cbn [rounds]; [by apply Hk|]. apply or_else_None. split; [|by apply Hk].
    apply Hb. intros s' c' Hs. destruct (_ <? _)%nat; [|done]. apply IH. intros t d Ht. apply Hk. by etrans. }
  induction r as [|p|r1 IH1 r2 IH2|r1 IH1 r2 IH2|r IH|n r IH|i r IH]; intros s c k Hk; cbn [step].
  - by apply Hk.
  - destruct s as [|x s]; [done|]. destruct (p x); [|done]. apply Hk. by exists [x].
  - apply IH1. intros s' c' Hs. apply IH2. intros t d Ht. apply Hk. by etrans.
  - apply or_else_None. auto.
  - by apply Hr.
  - by apply Hr.
  - apply IH. intros s' c' Hs. by apply Hk.
Qed.

(** [r] takes [a] off a text that goes on with [b], whatever follows. *)
Definition runs (r : regex) (a b : text) (c c' : captures) : Prop :=
  forall A (k : next A) x, k b c' = Some x -> step r (a ++ b) c k = Some x.

(** The text does not go on with a character of the class. *)
Definition stops (p : ascii -> bool) (s : text) : Prop := match s with [] => True | x :: _ => p x = false end.

Section Runs.
Implicit Types a b : text.

Lemma regex_match_runs r s c : runs r s [] ∅ c -> regex_match r s = Some c.
Proof. intros Hr. unfold regex_match. rewrite <- (app_nil_r s). by apply Hr. Qed.

Lemma runs_seq r1 r2 a1 a2 b c c1 c2 : runs r1 a1 (a2 ++ b) c c1 -> runs r2 a2 b c1 c2 -> runs (Seq r1 r2) (a1 ++ a2) b c c2.
Proof. intros H1 H2 A k x Hk. rewrite <- app_assoc. cbn [step]. apply (H1 _ _ x). by apply (H2 _ _ x). Qed.

Lemma runs_chr y b c : runs (Chr y) [y] b c c.
Proof. intros A k x Hk. cbn [step Chr app]. by rewrite Ascii.eqb_refl. Qed.

Lemma runs_class p y b c : p y = true -> runs (Cls p) [y] b c c.
Proof. intros Hy A k x Hk. cbn [step app]. by rewrite Hy. Qed.

Lemma rounds_class {A} p a b c (k : next A) x : forall n, Forall (fun y => p y = true) a -> stops p b -> (length a <= n)%nat ->
  k b c = Some x -> rounds (step (Cls p)) n (a ++ b) c k = Some x.
Proof.
  intros n Ha Hb. revert n. induction Ha as [|y a Hy _ IH]; intros n Hn Hk.
  - destruct n as [|n]; cbn [rounds app]; [done|]. destruct b as [|y b]; cbn [step stops] in *; [done|]. by rewrite Hb.
  - destruct n as [|n]; cbn [length] in Hn; [lia|]. cbn [rounds app step]. rewrite Hy.
    rewrite (proj2 (Nat.ltb_lt _ _)) by (cbn [length]; lia). by rewrite IH by (done || lia).
Qed.

Lemma runs_star p a b c : Forall (fun y => p y = true) a -> stops p b -> runs (Star (Cls p)) a b c c.
Proof. intros Ha Hb A k x Hk. apply rounds_class; [done|done| |done]. rewrite length_app. lia. Qed.

Lemma runs_plus p a b c : a <> [] -> Forall (fun y => p y = true) a -> stops p b -> runs (Plus (Cls p)) a b c c.
Proof.
  intros Hn Ha Hb. destruct Ha as [|y a Hy Ha]; [done|]. eapply (runs_seq _ _ [y] a); [by apply runs_class|by apply runs_star].
Qed.

Lemma runs_group i r a b c c' : runs r a b c c' -> runs (Group i r) a b c (<[i := a]> c').
Proof.
  intros Hr A k x Hk. cbn [step]. apply Hr. rewrite length_app. replace (_ - _)%nat with (length a) by lia.
  by rewrite take_app_length.
Qed.

Lemma runs_left r1 r2 a b c c' : runs r1 a b c c' -> runs (Alt r1 r2) a b c c'.
Proof. intros Hr A k x Hk. cbn [step]. by rewrite (Hr _ k x Hk). Qed.

Lemma runs_right r1 r2 a b c c' : (forall A (k : next A), step r1 (a ++ b) c k = None) -> runs r2 a b c c' -> runs (Alt r1 r2) a b c c'.
Proof. intros Hl Hr A k x Hk. cbn [step]. rewrite Hl. by apply Hr. Qed.

Lemma runs_some r a b c c' : a <> [] -> runs r a b c c' -> runs (Opt r) a b c c'.
Proof.
  intros Ha Hr A k x Hk. unfold Opt. cbn [step rounds]. rewrite (Hr _ _ x); [done|]. rewrite (proj2 (Nat.ltb_lt _ _)); [done|].
  rewrite length_app. destruct a; [done|]. cbn [length]. lia.
Qed.

Lemma runs_none r b c : (forall A (k : next A), step r b c k = None) -> runs (Opt r) [] b c c.
Proof. intros Hr A k x Hk. unfold Opt. cbn [step rounds app]. by rewrite Hr. Qed.

End Runs.

(** ** Words of the common expressions *)

Section Words.
Implicit Types s t : text.

Lemma matches_Eps s : matches Eps s <-> s = [].
Proof. split; [by inversion 1|intros ->; constructor]. Qed.

Lemma matches_Cls p s : matches (Cls p) s <-> exists x, s = [x] /\ p x = true.
Proof. split; [inversion 1; subst; eauto|intros (x & -> & Hx); by constructor]. Qed.

Lemma matches_Chr x s : matches (Chr x) s <-> s = [x].
Proof.
  unfold Chr. rewrite matches_Cls. split; [intros (y & -> & Hy); apply Ascii.eqb_eq in Hy; by subst|].
  intros ->. exists x. by rewrite Ascii.eqb_refl.
Qed.

Lemma matches_Seq a b s : matches (Seq a b) s <-> exists u v, s = u ++ v /\ matches a u /\ matches b v.
Proof. split; [inversion 1; subst; eauto|intros (u & v & -> & Hu & Hv); by constructor]. Qed.

Lemma words_of_class p l : Forall (matches (Cls p)) l -> length l = length (concat l) /\ Forall (fun x => p x = true) (concat l).
Proof.
  induction 1 as [|x l Hx _ (IHn & IH)]; [done|]. apply matches_Cls in Hx as (y & -> & Hy). cbn [concat app length]. split; [by rewrite IHn|by constructor].
Qed.

Lemma class_words p s : Forall (fun x => p x = true) s -> exists l, concat l = s /\ length l = length s /\ Forall (matches (Cls p)) l.
Proof.
  induction 1 as [|x s Hx _ (l & Hc & Hn & Hl)]; [by exists []|]. exists ([x] :: l). cbn [concat app length].
  rewrite Hc, Hn. split_and!; [done|done|]. by constructor; [constructor|].
Qed.

Lemma matches_Star_class p s : matches (Star (Cls p)) s <-> Forall (fun x => p x = true) s.
Proof.
  split; [inversion 1 as [| | | | |? l Hl| |]; subst; by apply words_of_class|].
  intros Hs. destruct (class_words p s Hs) as (l & <- & _ & Hl). by constructor.
Qed.

Lemma matches_Upto_class n p s : matches (Upto n (Cls p)) s <-> Forall (fun x => p x = true) s /\ (length s <= n)%nat.
Proof.
  split.
  - inversion 1 as [| | | | | |? ? l Hl Hn|]; subst. destruct (words_of_class p l Hl) as [Hc Hp]. split; [done|]. by rewrite <- Hc.
  - intros [Hs Hn]. destruct (class_words p s Hs) as (l & <- & Hl & Hw). constructor; [done|by rewrite Hl].
Qed.

Lemma matches_Plus_class p s : matches (Plus (Cls p)) s <-> Forall (fun x => p x = true) s /\ s <> [].
Proof.
  unfold Plus. rewrite matches_Seq. setoid_rewrite matches_Cls. setoid_rewrite matches_Star_class. split.
  - intros (u & v & -> & (x & -> & Hx) & Hv). split; [by constructor|done].
  - intros [Hs Hn]. destruct Hs as [|x s Hx Hs]; [done|]. exists [x], s. split_and!; eauto.
Qed.

Lemma matches_Opt r s : matches (Opt r) s <-> s = [] \/ matches r s.
Proof.
  unfold Opt. split.
  - inversion 1 as [| | | | | |? ? l Hl Hn|]; subst. destruct Hl as [|x l Hx Hl]; [by left|right].
    destruct l; cbn [length] in Hn; [|lia]. cbn [concat]. by rewrite app_nil_r.
  - intros [->|Hs]; [apply (matches_upto 1 r []); [done|cbn; lia]|].
    rewrite <- (app_nil_r s). apply (matches_upto 1 r [s]); [by constructor|done].
Qed.

(** The parts of a text between the occurrences of a character. *)
Fixpoint split_on (c : ascii) (s : text) : list text :=
  match s with
  | [] => [[]]
  | x :: s' =>
    if Ascii.eqb x c then [] :: split_on c s'
    else match split_on c s' with [] => [[x]] | p :: ps => (x :: p) :: ps end
  end.

Lemma split_on_none c s : Forall (fun x => Ascii.eqb x c = false) s -> split_on c s = [s].
Proof. induction 1 as [|x s Hx _ IH]; [done|]. cbn [split_on]. by rewrite Hx, IH. Qed.

Lemma split_on_app c s t : Forall (fun x => Ascii.eqb x c = false) s -> split_on c (s ++ c :: t) = s :: split_on c t.
Proof.
  induction 1 as [|x s Hx _ IH]; cbn [app split_on]; [by rewrite Ascii.eqb_refl|]. by rewrite Hx, IH.
Qed.

Lemma split_on_inv c s : match split_on c s with
  | [] => False
  | [p] => s = p /\ Forall (fun x => Ascii.eqb x c = false) s
  | p :: ps => exists t, s = p ++ c :: t /\ split_on c t = ps /\ Forall (fun x => Ascii.eqb x c = false) p
  end.
Proof.
  induction s as [|x s IH]; cbn [split_on]; [done|]. destruct (Ascii.eqb x c) eqn:Hx.
  - apply Ascii.eqb_eq in Hx as ->. destruct (split_on c s) as [|p ps] eqn:Hs; [done|]. by exists s.
  - destruct (split_on c s) as [|p [|q ps]]; [done| |].
    + destruct IH as [-> IH]. split; [done|by constructor].
    + destruct IH as (t & -> & Ht & Hp). exists t. split_and!; [done|done|by constructor].
Qed.

(** Words of [a] separated by a character they do not have. *)
Lemma matches_separated a c s : (forall t, matches a t -> Forall (fun x => Ascii.eqb x c = false) t) ->
  matches (Seq a (Star (Seq (Chr c) a))) s <-> Forall (matches a) (split_on c s).
Proof.
  intros Ha. rewrite matches_Seq. split.
  - intros (u & v & -> & Hu & Hv). inversion Hv as [| | | | |? l Hl| |]; subst. clear Hv. revert u Hu.
    induction Hl as [|w l Hw _ IH]; intros u Hu; cbn [concat].
    + rewrite app_nil_r, split_on_none by auto. by constructor.
    + apply matches_Seq in Hw as (d & w' & -> & Hd & Hw). apply matches_Chr in Hd as ->. cbn [app].
      rewrite split_on_app by auto. constructor; [done|]. by apply IH.
  - intros Hs. remember (split_on c s) as ps eqn:Hps. revert s Hps. induction Hs as [|p ps Hp Hs IH]; intros s Hps;
      pose proof (split_on_inv c s) as Hi; rewrite <- Hps in Hi; [done|]. destruct ps as [|q ps].
    + destruct Hi as [-> _]. exists p, []. rewrite app_nil_r. split_and!; [done|done|]. by apply (matches_star _ []).
    + destruct Hi as (t & -> & Ht & _). destruct (IH t (eq_sym Ht)) as (u & v & -> & Hu & Hv).
      inversion Hv as [| | | | |? l Hl| |]; subst. exists p, (c :: u ++ concat l). split_and!; [done|done|].
      apply (matches_star _ ((c :: u) :: l)). constructor; [|done]. apply (matches_seq _ _ [c] u); [by apply matches_Chr|done].
Qed.

End Words.
