(* ===== verification/Url.v ===== *)
(** * URLs ([src/src/ocpp/tool/url/Url.cpp])

    The parser of the addresses a charge point connects to, the check of the
    host, the printer and the percent encoding.  A URL that is parsed from its
    printed text is the one that was printed; the check of the host accepts
    what the grammar of host names and addresses says; an encoded text decodes
    to what it was.  [inet_pton], of the system, is a parameter.  Texts are
    lists of characters; [std::stoi] throws outside [int], and so does the
    parser. *)

From Stdlib Require Import Ascii String.
From stdpp Require Import gmap strings pretty.
From S2P Require Import Prelude Regex.

Abbreviation chars := list_ascii_of_string.

(** ** Characters *)

Definition between (lo hi c : ascii) : bool := (N_of_ascii lo <=? N_of_ascii c)%N && (N_of_ascii c <=? N_of_ascii hi)%N.
Definition isdigit (c : ascii) : bool := between "0" "9" c.
Definition isalpha (c : ascii) : bool := between "a" "z" c || between "A" "Z" c.
Definition isalnum (c : ascii) : bool := isalpha c || isdigit c.
Definition one_of (l : string) (c : ascii) : bool := existsb (Ascii.eqb c) (chars l).
Definition none_of (l : string) (c : ascii) : bool := negb (one_of l c).

(** The dot of an expression: no line terminator. *)
Definition dot (c : ascii) : bool := negb (Ascii.eqb c "010" || Ascii.eqb c "013").

(** ** Expressions *)

Definition scheme_char (c : ascii) : bool := isalnum c || one_of "+-." c.
Definition userinfo : regex :=
  Seqs [Group 2 (Plus (Cls (none_of ":@"))); Opt (Seq (Chr ":") (Group 3 (Star (Cls (none_of "@"))))); Chr "@"].
Definition host : regex := Alt (Seqs [Chr "["; Plus (Cls (none_of "]")); Chr "]"]) (Plus (Cls (none_of ":/?#"))).

Definition urlRegex : regex :=
  Seqs [Group 1 (Seq (Cls isalpha) (Star (Cls scheme_char))); Chr ":"; Chr "/"; Chr "/";
    Opt userinfo;
    Group 4 host;
    Opt (Seq (Chr ":") (Group 5 (Plus (Cls isdigit))));
    Group 6 (Star (Cls (none_of "?#")));
    Opt (Seq (Chr "?") (Group 7 (Star (Cls (none_of "#")))));
    Opt (Seq (Chr "#") (Group 8 (Star (Cls dot))))].

Definition number : regex := Plus (Cls isdigit).
Definition ipv4Regex : regex := Seqs [number; Chr "."; number; Chr "."; number; Chr "."; number].

Definition label_char (c : ascii) : bool := isalnum c || Ascii.eqb c "-".
Definition label : regex := Seq (Cls isalnum) (Opt (Seq (Upto 61 (Cls label_char)) (Cls isalnum))).
Definition domainRegex : regex := Seq label (Star (Seq (Chr ".") label)).

(** ** Numbers *)

Definition digit_value (c : ascii) : Z := Z.of_N (N_of_ascii c) - 48.
Definition digits_value (s : text) : Z := foldl (fun n c => 10 * n + digit_value c) 0 s.

(** Called on digits only; [None] is [std::out_of_range]. *)
Definition stoi (s : text) : option Z :=
  let n := digits_value s in if n <=? INT32_MAX then Some n else None.

Definition to_string (n : Z) : text := chars (pretty (Z.to_N n)).

(** ** Lines: [std::getline] until it fails *)

Fixpoint getlines_from (cur : text) (sep : ascii) (s : text) : list text :=
  match s with
  | [] => match cur with [] => [] | _ => [cur] end
  | x :: s' => if Ascii.eqb x sep then cur :: getlines_from [] sep s' else getlines_from (cur ++ [x]) sep s'
  end.
Definition getlines : ascii -> text -> list text := getlines_from [].

(** The text before the first occurrence of a character and the text after it. *)
Fixpoint split_first (c : ascii) (s : text) : option (text * text) :=
  match s with
  | [] => None
  | x :: s' => if Ascii.eqb x c then Some ([], s') else '(a, b) ← split_first c s'; Some (x :: a, b)
  end.

(** ** The class *)

Record Url := MkUrl {
  m_valid : bool;
  m_protocol : text;
  m_username : text;
  m_password : text;
  m_host : text;
  m_port : Z;
  m_path : text;
  m_query : text;
  m_fragment : text;
  m_queryParams : gmap text text }.

(** [Url() = default] *)
Definition empty_url : Url := MkUrl false [] [] [] [] 0 [] [] [] ∅.

Definition with_valid (b : bool) (u : Url) : Url :=
  MkUrl b (m_protocol u) (m_username u) (m_password u) (m_host u) (m_port u) (m_path u) (m_query u) (m_fragment u) (m_queryParams u).
Definition with_authority (protocol username password host : text) (u : Url) : Url :=
  MkUrl (m_valid u) protocol username password host (m_port u) (m_path u) (m_query u) (m_fragment u) (m_queryParams u).

Definition s_defaultPorts : list (text * Z) :=
  [(chars "http", 80); (chars "https", 443); (chars "ftp", 21); (chars "ftps", 990); (chars "sftp", 22); (chars "ws", 80); (chars "wss", 443)].

Fixpoint find_port (protocol : text) (l : list (text * Z)) : option Z :=
  match l with
  | [] => None
  | (p, n) :: l' => if bool_decide (protocol = p) then Some n else find_port protocol l'
  end.
Definition default_port (protocol : text) : Z := default 0 (find_port protocol s_defaultPorts).

Definition parseQueryParams (query : text) : gmap text text :=
  foldl (fun params param =>
    match split_first "=" param with
    | Some (key, x) => <[key := x]> params
    | None => <[param := []]> params
    end) ∅ (getlines "&" query).

Section Validate.
Context (inet_pton : text -> bool).

Fixpoint check_parts (count : nat) (parts : list text) : bool :=
  match parts with
  | [] => Nat.eqb count 4
  | part :: rest =>
    if (4 <? S count)%nat then false
    else if (length part =? 0)%nat || (3 <? length part)%nat then false
    else if negb (forallb isdigit part) then false
    else let num := digits_value part in
    if (num <? 0) || (255 <? num) then false else check_parts (S count) rest
  end.
Definition validateIPv4 (ip : text) : bool := check_parts 0 (getlines "." ip).
Definition validateIPv6 (ip : text) : bool := inet_pton ip.
Definition validateDomain (domain : text) : bool := bool_decide (is_Some (regex_match domainRegex domain)).

Definition validate (u : Url) : bool :=
  let h := m_host u in
  if (length h =? 0)%nat then false
  else if (length (m_protocol u) =? 0)%nat then false
  else if bool_decide (head h = Some "["%char) && bool_decide (last h = Some "]"%char) then validateIPv6 (take (length h - 2) (drop 1 h))
  else if bool_decide (is_Some (regex_match ipv4Regex h)) then validateIPv4 h
  else validateDomain h.

(** The result [None] is the exception of [std::stoi]. *)
Definition parse (url : text) (u : Url) : option bool * Url :=
  let u := with_valid false u in
  match regex_match urlRegex url with
  | None => (Some false, u)
  | Some c =>
    let u := with_authority (group 1 c) (group 2 c) (group 3 c) (group 4 c) u in
    let port := match group 5 c with [] => Some (default_port (m_protocol u)) | t => option_map uint16 (stoi t) end in
    match port with
    | None => (None, u)
    | Some port =>
      let path := match group 6 c with [] => chars "/" | t => t end in
      let u := MkUrl false (m_protocol u) (m_username u) (m_password u) (m_host u) port path (group 7 c) (group 8 c)
        (parseQueryParams (group 7 c)) in
      let valid := validate u in
      (Some valid, with_valid valid u)
    end
  end.

End Validate.

(** ** Readers *)

Definition getPassword (u : Url) : text := m_host u.

Definition pop_slash (path : text) : text := if bool_decide (last path = Some "/"%char) then take (length path - 1) path else path.

(** What follows the last occurrence of a character. *)
Fixpoint after_last (c : ascii) (s : text) : option text :=
  match s with
  | [] => None
  | x :: s' => match after_last c s' with Some t => Some t | None => if Ascii.eqb x c then Some s' else None end
  end.

Definition extractFilenameFromPath (path : text) : text :=
  if bool_decide (path = [] \/ path = chars "/") then []
  else let trimmed := pop_slash path in default trimmed (after_last "/" trimmed).

Definition getFilename (u : Url) : text := if m_valid u then extractFilenameFromPath (m_path u) else [].

Definition unless_empty (s out : text) : text := match s with [] => [] | _ => out end.

Definition toString (u : Url) : text :=
  if negb (m_valid u) then [] else
  m_protocol u ++ chars "://"
    ++ unless_empty (m_username u) (m_username u ++ unless_empty (m_password u) (":"%char :: m_password u) ++ chars "@")
    ++ m_host u
    ++ (if negb (m_port u =? 0) && negb (m_port u =? default_port (m_protocol u)) then ":"%char :: to_string (m_port u) else [])
    ++ m_path u
    ++ unless_empty (m_query u) ("?"%char :: m_query u)
    ++ unless_empty (m_fragment u) ("#"%char :: m_fragment u).

(** ** Percent encoding *)

Definition hex_digit (n : N) : ascii := if (n <? 10)%N then ascii_of_N (48 + n) else ascii_of_N (55 + n).
Definition shouldEncode (c : ascii) : bool := negb (isalnum c) && negb (one_of "-_.~" c).

Fixpoint encode (s : text) : text :=
  match s with
  | [] => []
  | c :: s' =>
    if shouldEncode c then "%"%char :: hex_digit (N_of_ascii c / 16) :: hex_digit (N_of_ascii c mod 16) :: encode s'
    else c :: encode s'
  end.

(** ** The grammar of hosts *)

(** A label of a domain name: letters, digits and hyphens, at most 63 of them,
    no hyphen at an end. *)
Definition label_ok (s : text) : bool :=
  (0 <? length s)%nat && (length s <=? 63)%nat && forallb label_char s &&
  match head s with Some c => isalnum c | None => false end && match last s with Some c => isalnum c | None => false end.

Definition numeric (s : text) : bool := negb (length s =? 0)%nat && forallb isdigit s.

(** A part of an IPv4 address; three digits may begin with zeros. *)
Definition octet (s : text) : bool := (length s <=? 3)%nat && (digits_value s <=? 255).

Definition name_ok (h : text) : bool :=
  let parts := split_on "." h in
  if (length parts =? 4)%nat && forallb numeric parts then forallb octet parts else forallb label_ok parts.

Lemma forallb_Forall {A} (p : A -> bool) l : forallb p l = true <-> Forall (fun x => p x = true) l.
Proof. rewrite forallb_forall, Forall_forall. by setoid_rewrite <- list_elem_of_In. Qed.

Lemma class_excludes (p : ascii -> bool) c s : p c = false -> Forall (fun x => p x = true) s -> Forall (fun x => Ascii.eqb x c = false) s.
Proof. intros Hc Hs. eapply Forall_impl; [exact Hs|]. intros x Hx. destruct (Ascii.eqb_spec x c) as [->|]; [by rewrite Hx in Hc|done]. Qed.

Lemma alnum_label c : isalnum c = true -> label_char c = true.
Proof. unfold label_char. by intros ->. Qed.

Lemma matches_label s : matches label s <-> label_ok s = true.
Proof.
  unfold label. rewrite matches_Seq. setoid_rewrite matches_Opt. setoid_rewrite matches_Seq. setoid_rewrite matches_Upto_class.
  setoid_rewrite matches_Cls. unfold label_ok. rewrite !andb_true_iff, forallb_Forall. split.
  - intros (u & v & -> & (x & -> & Hx) & [->|(m & w & -> & [Hm Hn] & (y & -> & Hy))]).
    + cbn. rewrite Hx. split_and!; try done. constructor; [by apply alnum_label|done].
    + rewrite app_assoc, last_snoc, Hy. cbn [app head length]. rewrite Hx, length_app. cbn [length]. split_and!; try done.
      * apply Nat.leb_le. lia.
      * constructor; [by apply alnum_label|]. apply Forall_app. split; [done|]. constructor; [by apply alnum_label|done].
  - intros [[[[_ Hn] Hs] Hh] Hl]. destruct s as [|x s]; [done|]. cbn [head] in Hh. exists [x], s. split_and!; eauto.
    destruct s as [|y s _] using rev_ind; [by left|right]. apply Forall_cons in Hs as [_ Hs]. apply Forall_app in Hs as [Hs _].
    change (x :: s ++ [y]) with ((x :: s) ++ [y]) in Hl. rewrite last_snoc in Hl. exists s, [y]. split_and!; eauto.
    apply Nat.leb_le in Hn. cbn [length] in Hn. rewrite length_app in Hn. cbn [length] in Hn. lia.
Qed.

Lemma matches_number s : matches number s <-> numeric s = true.
Proof.
  unfold number, numeric. rewrite matches_Plus_class, andb_true_iff, forallb_Forall.
  destruct s; cbn; naive_solver.
Qed.

Lemma number_no_dot s : matches number s -> Forall (fun x => Ascii.eqb x "." = false) s.
Proof. intros Hs. apply matches_Plus_class in Hs as [Hs _]. by apply (class_excludes isdigit). Qed.

Lemma matches_part r h : matches (Seq number (Seq (Chr ".") r)) h <-> exists p t, h = p ++ "."%char :: t /\ numeric p = true /\ matches r t.
Proof.
  rewrite matches_Seq. setoid_rewrite matches_number. setoid_rewrite matches_Seq. setoid_rewrite matches_Chr. split.
  - intros (p & ? & -> & Hp & ? & t & -> & -> & Ht). by exists p, t.
  - intros (p & t & -> & Hp & Ht). exists p, ("."%char :: t). split_and!; [done|done|]. by exists ["."%char], t.
Qed.

Lemma matches_ipv4 h : matches ipv4Regex h <-> (length (split_on "." h) = 4)%nat /\ Forall (fun p => numeric p = true) (split_on "." h).
Proof.
  unfold ipv4Regex, Seqs. rewrite matches_part. setoid_rewrite matches_part. setoid_rewrite matches_part. setoid_rewrite matches_number.
  split.
  - intros (a & ? & -> & Ha & b & ? & -> & Hb & c & d & -> & Hc & Hd).
    rewrite !split_on_app, split_on_none by (by apply number_no_dot, matches_number). split; [done|by repeat constructor].
  - intros [Hl Hf]. pose proof (split_on_inv "." h) as Hi. destruct (split_on "." h) as [|a [|b ps]] eqn:Eh; [done|done|].
    destruct Hi as (t & -> & Et & _). pose proof (split_on_inv "." t) as Hi. rewrite Et in Hi. destruct ps as [|c ps]; [done|].
    destruct Hi as (t' & -> & Et' & _). pose proof (split_on_inv "." t') as Hi. rewrite Et' in Hi. destruct ps as [|d [|e ps]]; try done.
    destruct Hi as (t'' & -> & Et'' & _). pose proof (split_on_inv "." t'') as Hi. rewrite Et'' in Hi. destruct Hi as [-> _].
    repeat setoid_rewrite Forall_cons in Hf. destruct Hf as (Ha & Hb & Hc & Hd & _). eauto 15.
Qed.

Lemma getlines_parts c s : forall cur p ps, split_on c s = p :: ps -> Forall (fun t => t <> []) ((cur ++ p) :: ps) ->
  getlines_from cur c s = (cur ++ p) :: ps.
Proof.
  induction s as [|x s IH]; cbn [split_on getlines_from]; intros cur p ps Hs Hf.
  - injection Hs as <- <-. apply Forall_cons in Hf as [Hf _]. rewrite app_nil_r in *. by destruct cur.
  - destruct (Ascii.eqb x c).
    + injection Hs as <- <-. rewrite app_nil_r in *. apply Forall_cons in Hf as [_ Hf]. pose proof (split_on_inv c s) as Hi.
      destruct (split_on c s) as [|q qs]; [done|]. by rewrite (IH [] q qs).
    + pose proof (split_on_inv c s) as Hi. destruct (split_on c s) as [|q qs]; [done|]. injection Hs as <- <-.
      rewrite (IH (cur ++ [x]) q qs); rewrite <- ?app_assoc; done.
Qed.

Lemma getlines_split c s : Forall (fun t => t <> []) (split_on c s) -> getlines c s = split_on c s.
Proof.
  intros Hf. pose proof (split_on_inv c s) as Hi. destruct (split_on c s) as [|p ps] eqn:Hs; [done|].
  by apply (getlines_parts c s [] p ps).
Qed.

Lemma digits_value_bound s : Forall (fun c => isdigit c = true) s -> forall n, 0 <= n -> 0 <= foldl (fun n c => 10 * n + digit_value c) n s.
Proof.
  induction 1 as [|c s Hc _ IH]; cbn [foldl]; intros n Hn; [done|]. apply IH. unfold isdigit, between, digit_value in *.
  apply andb_true_iff in Hc as [Hc _]. apply N.leb_le in Hc. change (N_of_ascii "0") with 48%N in Hc. lia.
Qed.

Lemma check_parts_octets parts : forall count, (count + length parts = 4)%nat -> Forall (fun p => numeric p = true) parts ->
  check_parts count parts = forallb octet parts.
Proof.
  induction parts as [|p parts IH]; cbn [length check_parts forallb]; intros count Hn Hp.
  - by rewrite (proj2 (Nat.eqb_eq _ _)) by lia.
  - rewrite (proj2 (Nat.ltb_ge 4 (S count))) by lia. apply Forall_cons in Hp as [Hp Hf].
    unfold numeric in Hp. apply andb_true_iff in Hp as [Hl Hd]. rewrite Hd. apply negb_true_iff in Hl. rewrite Hl. cbn [orb negb].
    unfold octet at 1. rewrite (Nat.leb_antisym 3 (length p)). destruct (3 <? length p)%nat; [done|]. cbn [negb andb].
    apply forallb_Forall in Hd. pose proof (digits_value_bound p Hd 0 ltac:(done)) as Hv. fold (digits_value p) in Hv.
    rewrite (proj2 (Z.ltb_ge _ 0)) by done. cbn [orb]. rewrite (Z.leb_antisym 255 (digits_value p)). destruct (255 <? digits_value p); [done|].
    apply IH; [lia|done].
Qed.

Section Hosts.
Context (inet_pton : text -> bool).

Lemma validate_name h : validateDomain h = forallb label_ok (split_on "." h).
Proof.
  apply eq_bool_prop_intro. unfold validateDomain. rewrite bool_decide_spec, regex_match_words. unfold domainRegex.
  rewrite matches_separated.
  - rewrite Is_true_true, forallb_Forall. apply Forall_iff, matches_label.
  - intros t Ht. apply matches_label in Ht. unfold label_ok in Ht. rewrite !andb_true_iff, forallb_Forall in Ht.
    apply (class_excludes label_char); [done|]. naive_solver.
Qed.

Lemma validate_address h : matches ipv4Regex h -> validateIPv4 h = forallb octet (split_on "." h).
Proof.
  rewrite matches_ipv4. intros [Hn Hp]. unfold validateIPv4. rewrite getlines_split; [by apply check_parts_octets|].
  eapply Forall_impl; [exact Hp|]. by intros [|].
Qed.

Lemma validate_host h : (if bool_decide (is_Some (regex_match ipv4Regex h)) then validateIPv4 h else validateDomain h) = name_ok h.
Proof.
  unfold name_ok. destruct (bool_decide_reflect (is_Some (regex_match ipv4Regex h))) as [Hm|Hm]; rewrite regex_match_words in Hm.
  - rewrite validate_address by done. apply matches_ipv4 in Hm as [Hn Hp]. rewrite Hn, (proj2 (forallb_Forall numeric _) Hp). done.
  - rewrite validate_name. destruct (_ && _) eqn:Hb; [|done]. exfalso. apply Hm, matches_ipv4.
    apply andb_true_iff in Hb as [Hn Hp]. split; [by apply Nat.eqb_eq|by apply forallb_Forall].
Qed.

Lemma bracketed_take (inner : text) : take (length ("["%char :: inner ++ ["]"%char]) - 2) (drop 1 ("["%char :: inner ++ ["]"%char])) = inner.
Proof.
  change (drop 1 ("["%char :: inner ++ ["]"%char])) with (inner ++ ["]"%char]). cbn [length]. rewrite length_app. cbn [length]. replace (_ - 2)%nat with (length inner) by lia. by rewrite take_app_length.
Qed.

Lemma validate_bracketed u inner : m_protocol u <> [] -> m_host u = "["%char :: inner ++ ["]"%char] -> validate inet_pton u = inet_pton inner.
Proof.
  intros Hp Hh. unfold validate. rewrite Hh, bracketed_take. destruct (m_protocol u); [done|].
  change ("["%char :: inner ++ ["]"%char]) with (("["%char :: inner) ++ ["]"%char]). by rewrite last_snoc.
Qed.

Lemma validate_named u : m_protocol u <> [] -> (forall inner, m_host u <> "["%char :: inner ++ ["]"%char]) -> validate inet_pton u = name_ok (m_host u).
Proof.
  intros Hp Hh. unfold validate. destruct (m_protocol u); [done|]. rewrite validate_host. destruct (m_host u) as [|x h]; [done|]. cbn [length Nat.eqb].
  destruct (bool_decide_reflect (head (x :: h) = Some "["%char)) as [[= ->]|]; [|done].
  destruct (bool_decide_reflect (last ("["%char :: h) = Some "]"%char)) as [Hl|]; [|done]. exfalso.
  destruct h as [|y h _] using rev_ind; [done|]. change ("["%char :: h ++ [y]) with (("["%char :: h) ++ [y]) in Hl.
  rewrite last_snoc in Hl. injection Hl as ->. by eapply Hh.
Qed.

End Hosts.

(** C11: a host between brackets is valid when the system reads it as an IPv6
    address; any other is valid when it is four numbers of at most three
    digits and at most 255 between dots, or, when it is not four numbers, a
    domain name: labels between dots, of letters, digits and hyphens, at most
    63, with no hyphen at an end.  The matcher's search decides this grammar. *)
Theorem validate_is_reference inet_pton u : m_protocol u <> [] ->
  (forall inner, m_host u = "["%char :: inner ++ ["]"%char] -> validate inet_pton u = inet_pton inner) /\
  ((forall inner, m_host u <> "["%char :: inner ++ ["]"%char]) -> validate inet_pton u = name_ok (m_host u)).
Proof. intros Hp. split; [intros inner; by apply validate_bracketed|by apply validate_named]. Qed.

Definition demo_host (h : string) : Url := with_authority (chars "ws") [] [] (chars h) empty_url.

Lemma validate_is_reference_witness :
  validate (fun _ => false) (demo_host "central-system.example.org") = true /\ validate (fun _ => false) (demo_host "192.168.256.1") = false.
Proof.
  split.
  - rewrite (proj2 (validate_is_reference (fun _ => false) (demo_host "central-system.example.org") ltac:(done)) ltac:(done)). vm_compute. reflexivity.
  - rewrite (proj2 (validate_is_reference (fun _ => false) (demo_host "192.168.256.1") ltac:(done)) ltac:(done)). vm_compute. reflexivity.
Defined.

(** ** The round trip of percent encoding *)

Definition hex_value (c : ascii) : option N :=
  if isdigit c then Some (N_of_ascii c - 48)%N else if between "A" "F" c then Some (N_of_ascii c - 55)%N else None.

(** RFC 3986: a percent sign and two digits stand for a byte. *)
Fixpoint decode (s : text) : option text :=
  match s with
  | [] => Some []
  | x :: s' =>
    if Ascii.eqb x "%" then
      match s' with
      | a :: b :: t => h ← hex_value a; l ← hex_value b; r ← decode t; Some (ascii_of_N (16 * h + l) :: r)
      | _ => None
      end
    else r ← decode s'; Some (x :: r)
  end.

(** A character an encoded text may have. *)
Definition url_safe (c : ascii) : bool := isalnum c || one_of "-_.~%" c.

Definition char_encodes (c : ascii) : bool :=
  if shouldEncode c then
    let hi := hex_digit (N_of_ascii c / 16) in let lo := hex_digit (N_of_ascii c mod 16) in
    url_safe hi && url_safe lo && bool_decide (hex_value hi = Some (N_of_ascii c / 16)%N) && bool_decide (hex_value lo = Some (N_of_ascii c mod 16)%N)
      && Ascii.eqb (ascii_of_N (16 * (N_of_ascii c / 16) + N_of_ascii c mod 16)) c
  else url_safe c && negb (Ascii.eqb c "%").

Lemma every_char_encodes c : char_encodes c = true.
Proof. destruct c as [[] [] [] [] [] [] [] []]; vm_compute; reflexivity. Qed.

Lemma encode_safe s : Forall (fun c => url_safe c = true) (encode s).
Proof.
  induction s as [|c s IH]; cbn [encode]; [done|]. pose proof (every_char_encodes c) as Hc. unfold char_encodes in Hc; cbn zeta in Hc.
  destruct (shouldEncode c); rewrite !andb_true_iff in Hc; [|constructor; [apply Hc|exact IH]]. destruct Hc as [[[[Ha Hb] _] _] _].
  constructor; [reflexivity|]. constructor; [exact Ha|]. constructor; [exact Hb|exact IH].
Qed.

Lemma decode_encode s : decode (encode s) = Some s.
Proof.
  induction s as [|c s IH]; cbn [encode decode]; [done|]. pose proof (every_char_encodes c) as Hc. unfold char_encodes in Hc; cbn zeta in Hc.
  destruct (shouldEncode c); rewrite !andb_true_iff in Hc; cbn [decode].
  - destruct Hc as [[[[_ _] Ha] Hb] He]. apply bool_decide_eq_true in Ha, Hb. apply Ascii.eqb_eq in He. rewrite Ascii.eqb_refl, Ha, Hb.
    cbn [mbind option_bind]. rewrite IH. cbn [mbind option_bind]. by rewrite He.
  - destruct Hc as [_ Hc]. apply negb_true_iff in Hc. by rewrite Hc, IH.
Qed.

(** percent encoding ([Url::encode]) loses nothing: decoding as RFC 3986
    says gives the text back, for every text of bytes; and an encoded text has
    only letters, digits, the four unreserved signs and percent signs. *)
Theorem encode_round_trip s : decode (encode s) = Some s /\ Forall (fun c => url_safe c = true) (encode s).
Proof. split; [apply decode_encode|apply encode_safe]. Qed.

(** ** The round trip of the printer *)

Definition all (p : ascii -> bool) (s : text) : Prop := Forall (fun c => p c = true) s.

(** A character that ends the host. *)
Definition host_end (s : text) : Prop := stops (none_of ":/?#") s.

Definition starts_with_letter (s : text) : Prop := match s with [] => False | x :: t => isalpha x = true /\ all scheme_char t end.

(** The parts of a URL are what the printed text can hold. *)
Record printable (u : Url) : Prop := {
  p_protocol : starts_with_letter (m_protocol u);
  p_user : all (none_of ":@") (m_username u);
  p_password : all (none_of "@") (m_password u) /\ (m_username u = [] -> m_password u = []);
  p_host : (exists inner, m_host u = "["%char :: inner ++ ["]"%char] /\ inner <> [] /\ all (none_of "]") inner)
           \/ (head (m_host u) <> Some "["%char /\ m_host u <> [] /\ all (none_of ":/?#") (m_host u));
  p_port : 0 <= m_port u < 65536 /\ (m_port u = 0 -> default_port (m_protocol u) = 0);
  p_path : head (m_path u) = Some "/"%char /\ all (none_of "?#") (m_path u);
  p_query : all (none_of "#") (m_query u);
  p_fragment : all dot (m_fragment u);
  p_params : m_queryParams u = parseQueryParams (m_query u);
  (** An at sign after the host would end a name and a password that are not there. *)
  p_at : m_username u <> [] \/ all (none_of "@") (m_host u ++ m_path u ++ m_query u ++ m_fragment u) }.

Definition set_opt (i : nat) (a : text) (c : captures) : captures := match a with [] => c | _ => <[i := a]> c end.

Lemma group_same i a c : group i (<[i := a]> c) = a.
Proof. unfold group. by rewrite lookup_insert_eq. Qed.

Lemma group_other i j a c : i <> j -> group i (<[j := a]> c) = group i c.
Proof. intros Hij. unfold group. by rewrite lookup_insert_ne. Qed.

Lemma group_opt_same i a c : group i c = [] -> group i (set_opt i a c) = a.
Proof. intros Hc. destruct a; [done|]. apply group_same. Qed.

Lemma group_opt_other i j a c : i <> j -> group i (set_opt j a c) = group i c.
Proof. intros Hij. destruct a; [done|]. by apply group_other. Qed.

(** An optional part that begins with a character of its own. *)
Lemma runs_opt_part x i r a b c : (a <> [] -> runs r a b c c) -> stops (Ascii.eqb x) b ->
  runs (Opt (Seq (Chr x) (Group i r))) (unless_empty a (x :: a)) b c (set_opt i a c).
Proof.
  intros Hr Hb. destruct a as [|y a]; cbn [unless_empty set_opt].
  - apply runs_none. intros A k. destruct b as [|z b]; cbn [step Chr stops] in *; [done|]. by rewrite Hb.
  - apply runs_some; [done|]. eapply (runs_seq _ _ [x]); [apply runs_chr|]. by apply runs_group, Hr.
Qed.

Lemma userinfo_fails {A} s c (k : next A) : all (none_of "@") s -> step userinfo s c k = None.
Proof.
  intros Hs. unfold userinfo, Seqs. cbn [step]. apply (step_fails (Plus (Cls (none_of ":@")))). intros s1 c1 H1.
  apply (step_fails (Opt (Seq (Chr ":") (Group 3 (Star (Cls (none_of "@"))))))). intros s2 c2 H2.
  assert (all (none_of "@") s2) as Ha.
  { destruct (transitivity H2 H1) as [p ->]. by apply Forall_app in Hs as [_ Hs]. }
  destruct Ha as [|x s' Hx _]; [done|]. unfold none_of, one_of in Hx. cbn in Hx.
  unfold Chr. cbn [step]. destruct (Ascii.eqb_spec "@" x) as [<-|]; done.
Qed.

Lemma runs_userinfo user password b c : user <> [] -> all (none_of ":@") user -> all (none_of "@") password ->
  runs userinfo (user ++ unless_empty password (":"%char :: password) ++ chars "@") b c (set_opt 3 password (<[2%nat := user]> c)).
Proof.
  intros Hn Hu Hp. unfold userinfo, Seqs. eapply runs_seq.
  - apply runs_group, runs_plus; [done|done|]. destruct password; by cbn.
  - eapply runs_seq; [|apply runs_chr]. apply runs_opt_part; [|done]. intros _. by apply runs_star.
Qed.

Lemma runs_host u b c : printable u -> host_end b -> runs (Group 4 host) (m_host u) b c (<[4%nat := m_host u]> c).
Proof.
  intros Hu Hb. apply runs_group. unfold host. destruct (p_host u Hu) as [(inner & -> & Hi & Ha)|(Hh & Hn & Ha)].
  - apply runs_left. unfold Seqs. eapply (runs_seq _ _ ["["%char]); [apply runs_chr|]. eapply runs_seq; [|apply runs_chr]. by apply runs_plus.
  - apply runs_right; [|by apply runs_plus]. intros A k. destruct (m_host u) as [|x h]; [done|]. unfold Chr. cbn [Seqs step app].
    destruct (Ascii.eqb_spec "[" x) as [<-|]; [by destruct Hh|done].
Qed.

(** *** Numbers *)

Lemma pretty_char m : (m < 10)%N -> digit_value (pretty_N_char m) = Z.of_N m /\ isdigit (pretty_N_char m) = true.
Proof.
  intros Hm. assert (m = 0 \/ m = 1 \/ m = 2 \/ m = 3 \/ m = 4 \/ m = 5 \/ m = 6 \/ m = 7 \/ m = 8 \/ m = 9)%N as Hc by lia.
  by repeat destruct Hc as [->|Hc]; [..|subst].
Qed.

Lemma digits_value_go x : forall s n, (forall m, foldl (fun n c => 10 * n + digit_value c) m (chars s) = foldl (fun n c => 10 * n + digit_value c) m n) ->
  foldl (fun n c => 10 * n + digit_value c) 0 (chars (pretty_N_go x s)) = foldl (fun n c => 10 * n + digit_value c) (Z.of_N x) n.
Proof.
  induction (N.lt_wf_0 x) as [x _ IH]. intros s n Hs. destruct (decide (x = 0%N)) as [->|Hx]; [by rewrite pretty_N_go_0, Hs|].
  rewrite pretty_N_go_step by lia. assert (x / 10 < x)%N as Hlt by (apply N.div_lt; lia).
  assert (Hm : (x mod 10 < 10)%N) by (apply N.mod_lt; lia).
  rewrite (IH (x / 10)%N Hlt _ (pretty_N_char (x mod 10) :: n)) by (intros m; cbn [chars foldl]; apply Hs). cbn [foldl]. f_equal.
  rewrite (proj1 (pretty_char _ Hm)), N2Z.inj_div, N2Z.inj_mod. pose proof (Z.div_mod (Z.of_N x) 10). lia.
Qed.

Lemma digits_go x : forall s, all isdigit (chars s) -> all isdigit (chars (pretty_N_go x s)).
Proof.
  induction (N.lt_wf_0 x) as [x _ IH]. intros s Hs. destruct (decide (x = 0%N)) as [->|Hx]; [by rewrite pretty_N_go_0|].
  rewrite pretty_N_go_step by lia. apply IH; [apply N.div_lt; lia|]. cbn [chars]. constructor; [|done].
  apply pretty_char, N.mod_lt. lia.
Qed.

Lemma to_string_go n : 0 < n -> to_string n = chars (pretty_N_go (Z.to_N n) EmptyString).
Proof. intros Hn. unfold to_string, pretty, pretty_N. by rewrite decide_False by lia. Qed.

Lemma stoi_to_string n : 0 < n <= INT32_MAX -> stoi (to_string n) = Some n /\ to_string n <> [] /\ all isdigit (to_string n).
Proof.
  intros Hn. rewrite to_string_go by lia. assert (E : digits_value (chars (pretty_N_go (Z.to_N n) EmptyString)) = n).
  { unfold digits_value. rewrite (digits_value_go _ EmptyString []) by done. cbn [foldl]. lia. }
  split_and!.
  - unfold stoi. rewrite E. by rewrite (proj2 (Z.leb_le _ _)) by lia.
  - intros Hs. rewrite Hs in E. cbn in E. lia.
  - apply digits_go. constructor.
Qed.

(** *** The printed text *)

Definition port_text (u : Url) : text :=
  if negb (m_port u =? 0) && negb (m_port u =? default_port (m_protocol u)) then to_string (m_port u) else [].

(** What follows the host. *)
Definition after_host (u : Url) : text :=
  unless_empty (port_text u) (":"%char :: port_text u) ++ m_path u ++ unless_empty (m_query u) ("?"%char :: m_query u)
    ++ unless_empty (m_fragment u) ("#"%char :: m_fragment u).

Definition user_text (u : Url) : text :=
  unless_empty (m_username u) (m_username u ++ unless_empty (m_password u) (":"%char :: m_password u) ++ chars "@").

Definition captured (u : Url) : captures :=
  set_opt 8 (m_fragment u) (set_opt 7 (m_query u) (<[6%nat := m_path u]> (set_opt 5 (port_text u) (<[4%nat := m_host u]>
    (set_opt 3 (m_password u) (set_opt 2 (m_username u) (<[1%nat := m_protocol u]> ∅))))))).

Section Printed.
Context (u : Url) (u_printable : printable u).

Lemma port_digits : all isdigit (port_text u) /\ (port_text u <> [] -> stoi (port_text u) = Some (m_port u)).
Proof using u_printable.
  unfold port_text. destruct (p_port u u_printable) as [Hp _]. destruct (Z.eqb_spec (m_port u) 0) as [E|E]; cbn [negb andb]; [by split; [constructor|]|].
  destruct (_ =? _); cbn [negb]; [by split; [constructor|]|].
  destruct (stoi_to_string (m_port u)) as (Hs & _ & Hd); [unfold INT32_MAX; lia|by split].
Qed.

Lemma toString_parts : m_valid u = true ->
  toString u = m_protocol u ++ [":"%char] ++ ["/"%char] ++ ["/"%char] ++ user_text u ++ m_host u ++ after_host u.
Proof using u_printable.
  intros Hv. unfold toString, after_host, port_text. rewrite Hv. cbn [negb chars app]. do 4 f_equal. unfold user_text. do 3 f_equal.
  destruct (_ && _) eqn:Hp; [|done]. destruct (to_string (m_port u)) eqn:E; [|done]. exfalso.
  apply andb_true_iff in Hp as [Hp _]. destruct (Z.eqb_spec (m_port u) 0) as [|Hn]; [done|].
  destruct (p_port u u_printable) as [Hr _]. destruct (stoi_to_string (m_port u)) as (_ & He & _); [unfold INT32_MAX; lia|]. by rewrite E in He.
Qed.

Lemma path_stops : stops (Ascii.eqb ":") (m_path u ++ unless_empty (m_query u) ("?"%char :: m_query u)
    ++ unless_empty (m_fragment u) ("#"%char :: m_fragment u) ++ []) /\
  stops isdigit (m_path u ++ unless_empty (m_query u) ("?"%char :: m_query u) ++ unless_empty (m_fragment u) ("#"%char :: m_fragment u) ++ []).
Proof using u_printable. destruct (p_path u u_printable) as [Hp _]. destruct (m_path u) as [|x p]; [done|]. by injection Hp as ->. Qed.

Lemma runs_after_host c : runs
  (Seqs [Opt (Seq (Chr ":") (Group 5 (Plus (Cls isdigit)))); Group 6 (Star (Cls (none_of "?#")));
    Opt (Seq (Chr "?") (Group 7 (Star (Cls (none_of "#"))))); Opt (Seq (Chr "#") (Group 8 (Star (Cls dot))))])
  (after_host u) [] c
  (set_opt 8 (m_fragment u) (set_opt 7 (m_query u) (<[6%nat := m_path u]> (set_opt 5 (port_text u) c)))).
Proof using u_printable.
  unfold Seqs, after_host. destruct path_stops as [H1 H2]. destruct port_digits as [Hd _].
  eapply runs_seq; [apply runs_opt_part; [intros Hn; by apply runs_plus; [|exact Hd|rewrite <- !app_assoc]|by rewrite <- !app_assoc]|].
  eapply runs_seq; [apply runs_group, runs_star; [apply p_path|]|].
  - done.
  - destruct (m_query u), (m_fragment u); done.
  - eapply runs_seq; apply runs_opt_part; try done.
    + intros _. apply runs_star; [by apply p_query|]. by destruct (m_fragment u).
    + by destruct (m_fragment u).
    + intros _. by apply runs_star; [apply p_fragment|].
Qed.

Lemma host_ends : host_end (after_host u ++ []).
Proof using u_printable.
  unfold after_host, host_end. destruct (port_text u); cbn [unless_empty app]; [|done].
  destruct (p_path u u_printable) as [Hp _]. destruct (m_path u) as [|x p]; [done|]. by injection Hp as ->.
Qed.

Lemma no_at : m_username u = [] -> all (none_of "@") (m_host u ++ after_host u ++ []).
Proof using u_printable.
  intros Hu. destruct (p_at u u_printable) as [?|Ha]; [done|]. unfold all in *. unfold after_host. rewrite !Forall_app in Ha. rewrite !Forall_app.
  destruct Ha as (Hh & Hp & Hq & Hf). destruct port_digits as [Hd _]. split_and!; try done.
  - destruct (port_text u) as [|x p]; cbn [unless_empty]; constructor; [done|]. eapply Forall_impl; [exact Hd|]. intros c Hc.
    unfold none_of, one_of. cbn. destruct (Ascii.eqb_spec c "@") as [->|]; done.
  - destruct (m_query u); cbn [unless_empty]; constructor; done.
  - destruct (m_fragment u); cbn [unless_empty]; constructor; done.
Qed.

Lemma match_printed : m_valid u = true -> regex_match urlRegex (toString u) = Some (captured u).
Proof using u_printable.
  intros Hv. rewrite toString_parts by done. apply regex_match_runs. unfold urlRegex, captured. do 4 (eapply runs_seq; [by
    first [apply runs_chr | apply runs_group; pose proof (p_protocol u u_printable) as Hp; destruct (m_protocol u) as [|x p];
      [destruct Hp | eapply (runs_seq _ _ [x]); [by apply runs_class, Hp | by apply runs_star; [apply Hp|]]]]|]).
  eapply runs_seq; [|eapply runs_seq; [apply runs_host; [done|apply host_ends]|apply runs_after_host]].
  unfold user_text. destruct (m_username u) as [|x t] eqn:Eu; cbn [unless_empty set_opt].
  - rewrite (proj2 (p_password u u_printable) Eu). apply runs_none. intros A k. apply userinfo_fails. rewrite <- app_assoc. by apply no_at.
  - apply runs_some; [done|]. apply runs_userinfo; [done|rewrite <- Eu; by apply p_user|by apply p_password].
Qed.

End Printed.

(** The groups read back, a hint for every group of the expression. *)
Lemma captured_groups u : printable u -> let c := captured u in
  group 1 c = m_protocol u /\ group 2 c = m_username u /\ group 3 c = m_password u /\ group 4 c = m_host u /\
  group 5 c = port_text u /\ group 6 c = m_path u /\ group 7 c = m_query u /\ group 8 c = m_fragment u.
Proof.
  intros _. unfold captured. cbv zeta.
  split_and!; repeat first [rewrite group_same; reflexivity | rewrite group_other by discriminate | rewrite group_opt_other by discriminate | rewrite group_opt_same; [reflexivity|]];
    reflexivity.
Qed.

Lemma validate_fields inet_pton u v : m_host u = m_host v -> m_protocol u = m_protocol v -> validate inet_pton u = validate inet_pton v.
Proof. intros Hh Hp. unfold validate. by rewrite Hh, Hp. Qed.

Lemma parse_printed inet_pton u v : printable u -> m_valid u = true -> validate inet_pton u = true ->
  parse inet_pton (toString u) v = (Some true, u).
Proof.
  intros Hu Hv Ho. unfold parse. rewrite (match_printed u Hu Hv).
  destruct (captured_groups u Hu) as (E1 & E2 & E3 & E4 & E5 & E6 & E7 & E8). rewrite E1, E2, E3, E4, E5, E6, E7, E8.
  assert (Hp : match port_text u with [] => Some (default_port (m_protocol (with_authority (m_protocol u) (m_username u) (m_password u) (m_host u) (with_valid false v))))
    | t => option_map uint16 (stoi t) end = Some (m_port u)).
  { destruct (port_digits u Hu) as [_ Hs]. destruct (p_port u Hu) as [Hr Hz]. destruct (port_text u) as [|x p] eqn:E.
    - unfold port_text in E. destruct (Z.eqb_spec (m_port u) 0) as [E0|E0]; [change (Some (default_port (m_protocol u)) = Some (m_port u)); by rewrite E0, Hz|].
      destruct (Z.eqb_spec (m_port u) (default_port (m_protocol u))) as [->|]; [done|]. cbn [negb andb] in E.
      destruct (stoi_to_string (m_port u)) as (_ & He & _); [unfold INT32_MAX; lia|done].
    - rewrite Hs by done. cbn [option_map]. by rewrite uint_id by lia. }
  destruct (p_path u Hu) as [Hh _]. rewrite Hp, <- (p_params u Hu).
  assert (Hm : match m_path u with [] => chars "/" | t => t end = m_path u) by (by destruct (m_path u)). rewrite Hm.
  cbn [with_valid m_valid m_protocol m_username m_password m_host m_port m_path m_query m_fragment m_queryParams].
  rewrite (validate_fields inet_pton _ u), Ho by done. f_equal. destruct u. cbn in *. by subst.
Qed.

(** C6: a URL that is printed and parsed again is the same in all its parts:
    scheme, name, password, host, port, path, query with its table of
    parameters, fragment; the parser's search for the pieces, which goes back
    and forth over the text, finds the ones that were printed.  A URL without
    a name needs to be free of at signs, since the expression looks for the
    end of a name beyond the host. *)
Theorem url_round_trip inet_pton u v : printable u -> m_valid u = true -> validate inet_pton u = true ->
  parse inet_pton (toString u) v = (Some true, u).
Proof. apply parse_printed. Qed.

Definition demo_url : Url :=
  MkUrl true (chars "ws") (chars "cp1") (chars "a:b/c") (chars "192.168.18.128") 8080 (chars "/steve/websocket/CP%201") (chars "a=1&b") (chars "x@y")
    (parseQueryParams (chars "a=1&b")).

Lemma all_check p s : forallb p s = true -> all p s.
Proof. apply forallb_Forall. Qed.

Lemma demo_printable : printable demo_url.
Proof.
  split; try (apply all_check; reflexivity); try done.
  - split; [reflexivity|apply all_check; reflexivity].
  - split; [apply all_check; reflexivity|done].
  - right. split_and!; [done|done|apply all_check; reflexivity].
  - split; [reflexivity|apply all_check; reflexivity].
  - left. done.
Qed.

Lemma url_round_trip_witness : parse (fun _ => false) (chars "ws://cp1:a:b/c@192.168.18.128:8080/steve/websocket/CP%201?a=1&b#x@y") empty_url = (Some true, demo_url).
Proof. exact (url_round_trip (fun _ => false) demo_url empty_url demo_printable eq_refl eq_refl). Defined.

(** ** Where the parser goes wrong *)

(** An at sign of the path makes the host and the port a name and a password. *)
Lemma at_sign_takes_host :
  let u := (parse (fun _ => false) (chars "http://host:8080/x@y/z") empty_url).2 in
  m_valid u = true /\ m_host u = chars "y" /\ m_username u = chars "host" /\ m_password u = chars "8080/x".
Proof. vm_compute. by split_and!. Qed.

(** A port beyond 16 bits is taken modulo 65536. *)
Lemma port_is_cut :
  let u := (parse (fun _ => false) (chars "http://host:65616/") empty_url).2 in m_valid u = true /\ m_port u = 80.
Proof. vm_compute. by split_and!. Qed.

(** The reader of the password returns the host. *)
Lemma password_is_host : getPassword demo_url = m_host demo_url /\ m_host demo_url <> m_password demo_url.
Proof. split; [done|by vm_compute]. Qed.
