(* ===== verification/OcppConnect.v ===== *)
(** * Where and how the OCPP client connects
      ([OCPPClient::initConnectInfo] of [src/src/ocpp/client/OCPPClient.cpp])

    The address, the credentials and the times of the connection, read from
    the configuration document; the composition with the settings, which are
    complete, and with the URL parser, which the web socket client gives the
    address to. *)

From Stdlib Require Import Ascii String.
From stdpp Require Import strings.
From S2P Require Import Prelude Sqlite Json OcppConfig OcppSettings Regex Url.

(** ** Data ([websock_client.h], [OCPPClient.h]) *)

Record Credentials := MkCredentials {
  user : text;
  password : text;
  tls12_cipher_list : text;
  tls13_cipher_list : text;
  encoded_pem_certificates : bool;
  server_certificate_ca : text;
  client_certificate : text;
  client_certificate_private_key : text;
  client_certificate_private_key_passphrase : text;
  allow_selfsigned_certificates : bool;
  allow_expired_certificates : bool;
  accept_untrusted_certificates : bool;
  skip_server_name_check : bool;
  server_name : text }.

Definition no_credentials : Credentials := MkCredentials [] [] [] [] false [] [] [] [] false false false false [].

Record connect_info := MkInfo {
  ci_retryInterval : Z;
  ci_webSocketPingInterval : Z;
  ci_url : text;
  ci_protocol : text;
  ci_timeout : Z;
  ci_messageTimeout : Z;
  ci_transactionMessageAttempts : Z;
  ci_credentials : Credentials }.

Definition with_login (u p : text) (c : Credentials) : Credentials :=
  MkCredentials u p (tls12_cipher_list c) (tls13_cipher_list c) (encoded_pem_certificates c) (server_certificate_ca c) (client_certificate c)
    (client_certificate_private_key c) (client_certificate_private_key_passphrase c) (allow_selfsigned_certificates c) (allow_expired_certificates c)
    (accept_untrusted_certificates c) (skip_server_name_check c) (server_name c).
Definition with_ciphers (c12 c13 : text) (c : Credentials) : Credentials :=
  MkCredentials (user c) (password c) c12 c13 (encoded_pem_certificates c) (server_certificate_ca c) (client_certificate c)
    (client_certificate_private_key c) (client_certificate_private_key_passphrase c) (allow_selfsigned_certificates c) (allow_expired_certificates c)
    (accept_untrusted_certificates c) (skip_server_name_check c) (server_name c).
Definition with_ca (ca : text) (c : Credentials) : Credentials :=
  MkCredentials (user c) (password c) (tls12_cipher_list c) (tls13_cipher_list c) (encoded_pem_certificates c) ca (client_certificate c)
    (client_certificate_private_key c) (client_certificate_private_key_passphrase c) (allow_selfsigned_certificates c) (allow_expired_certificates c)
    (accept_untrusted_certificates c) (skip_server_name_check c) (server_name c).
Definition with_client (cert key pass : text) (c : Credentials) : Credentials :=
  MkCredentials (user c) (password c) (tls12_cipher_list c) (tls13_cipher_list c) (encoded_pem_certificates c) (server_certificate_ca c) cert key pass
    (allow_selfsigned_certificates c) (allow_expired_certificates c) (accept_untrusted_certificates c) (skip_server_name_check c) (server_name c).
Definition with_checks (pem selfsigned expired untrusted skip : bool) (c : Credentials) : Credentials :=
  MkCredentials (user c) (password c) (tls12_cipher_list c) (tls13_cipher_list c) pem (server_certificate_ca c) (client_certificate c)
    (client_certificate_private_key c) (client_certificate_private_key_passphrase c) selfsigned expired untrusted skip (server_name c).

(** ** The reading of the settings *)

Fixpoint hasRequired (obj : value) (keys : list string) : outcome bool :=
  match keys with
  | [] => Returns true
  | k :: keys' => has ← HasMember obj k; if (has : bool) then hasRequired obj keys' else Returns false
  end.

Definition get_text (obj : value) (k : string) : outcome text := v ← member obj k; s ← GetString v; Returns (chars s).
Definition get_uint (obj : value) (k : string) : outcome Z := v ← member obj k; GetUint v.
Definition get_int (obj : value) (k : string) : outcome Z := v ← member obj k; GetInt v.
Definition get_bool (obj : value) (k : string) : outcome bool := v ← member obj k; GetBool v.

Definition charge_point_keys : list string :=
  ["Protocol"; "ConnectionTimeout"; "ConnectionUrl"; "ChargePointIdentifier"; "SecurityProfile"; "RetryInterval"; "CallRequestTimeout"]%string.
Definition ocpp_keys : list string := ["AuthorizationKey"; "WebSocketPingInterval"; "TransactionMessageAttempts"]%string.
Definition tls_keys : list string :=
  ["Tlsv12CipherList"; "Tlsv13CipherList"; "InternalCertificateManagementEnabled"; "TlsServerCertificateCa"; "TlsClientCertificate";
   "TlsClientCertificatePrivateKey"; "TlsClientCertificatePrivateKeyPassphrase"; "TlsAllowSelfSignedCertificates"; "TlsAllowExpiredCertificates";
   "TlsAcceptNonTrustedCertificates"; "TlsSkipServerNameCheck"]%string.

(** The address of the central system, with the identifier encoded. *)
Definition connection_url (base identifier : text) : text :=
  (if negb (length base =? 0)%nat && negb (bool_decide (last base = Some "/"%char)) then base ++ ["/"%char] else base) ++ encode identifier.

Definition external_certificates (jChargePoint : value) (security_profile : Z) (c : Credentials) : outcome Credentials :=
  ca ← get_text jChargePoint "TlsServerCertificateCa";
  let c := with_ca ca c in
  c ← (if (security_profile =? 0) || (security_profile =? 3) then
         cert ← get_text jChargePoint "TlsClientCertificate";
         key ← get_text jChargePoint "TlsClientCertificatePrivateKey";
         pass ← get_text jChargePoint "TlsClientCertificatePrivateKeyPassphrase";
         Returns (with_client cert key pass c)
       else Returns c);
  selfsigned ← get_bool jChargePoint "TlsAllowSelfSignedCertificates";
  expired ← get_bool jChargePoint "TlsAllowExpiredCertificates";
  untrusted ← get_bool jChargePoint "TlsAcceptNonTrustedCertificates";
  skip ← get_bool jChargePoint "TlsSkipServerNameCheck";
  Returns (with_checks false selfsigned expired untrusted skip c).

Definition internal_certificates (jChargePoint : value) (security_profile : Z) (c : Credentials) : outcome Credentials :=
  let c := with_ca [] c in
  c ← (if security_profile =? 3 then
         pass ← get_text jChargePoint "TlsClientCertificatePrivateKeyPassphrase";
         Returns (with_client [] [] pass c)
       else Returns c);
  Returns (with_checks true true true false false c).

Definition tls_credentials (jChargePoint : value) (security_profile : Z) (c : Credentials) : outcome (option Credentials) :=
  if security_profile =? 1 then Returns (Some c) else
  has ← hasRequired jChargePoint tls_keys;
  if negb has then Returns None else
  c12 ← get_text jChargePoint "Tlsv12CipherList";
  c13 ← get_text jChargePoint "Tlsv13CipherList";
  let c := with_ciphers c12 c13 c in
  internalCertMgmt ← get_bool jChargePoint "InternalCertificateManagementEnabled";
  c ← (if (security_profile =? 0) || internalCertMgmt then external_certificates jChargePoint security_profile c
       else internal_certificates jChargePoint security_profile c);
  Returns (Some c).

(** [None]: the function returns false and leaves the information alone. *)
Definition initConnectInfo (m : manager) : outcome (option connect_info) :=
  jConfig ← getConfig "" m;
  match jConfig with
  | None => Returns None
  | Some jConfig =>
    cp ← member_if IsObject jConfig "ChargePoint";
    match cp with
    | None => Returns None
    | Some jChargePoint =>
      ocpp ← member_if IsObject jConfig "OCPP1_6";
      match ocpp with
      | None => Returns None
      | Some jOCPP1_6 =>
        has ← hasRequired jChargePoint charge_point_keys;
        if negb has then Returns None else
        has ← hasRequired jOCPP1_6 ocpp_keys;
        if negb has then Returns None else
        security_profile ← get_uint jChargePoint "SecurityProfile";
        authorization_key ← get_text jOCPP1_6 "AuthorizationKey";
        url ← get_text jChargePoint "ConnectionUrl";
        identifier ← get_text jChargePoint "ChargePointIdentifier";
        let url := connection_url url identifier in
        let credentials :=
          if negb (length authorization_key =? 0)%nat && (security_profile <=? 2)
          then with_login identifier authorization_key no_credentials else no_credentials in
        credentials ← tls_credentials jChargePoint security_profile credentials;
        match credentials with
        | None => Returns None
        | Some credentials =>
          protocol ← get_text jChargePoint "Protocol";
          timeout ← get_uint jChargePoint "ConnectionTimeout";
          messageTimeout ← get_uint jChargePoint "CallRequestTimeout";
          retryInterval ← get_int jChargePoint "RetryInterval";
          webSocketPingInterval ← get_int jOCPP1_6 "WebSocketPingInterval";
          attempts ← get_uint jOCPP1_6 "TransactionMessageAttempts";
          Returns (Some (MkInfo retryInterval webSocketPingInterval url protocol timeout messageTimeout attempts credentials))
        end
      end
    end
  end.

(** ** The information as a table of the settings *)

Definition text_of (l : list (string * value)) (k : string) : text := match find_member k l with Some (Str s) => chars s | _ => [] end.
Definition flag_of (l : list (string * value)) (k : string) : bool := match find_member k l with Some (Bool b) => b | _ => false end.
Definition num_of (l : list (string * value)) (k : string) : Z := match find_member k l with Some (Number (NInt n)) => n | _ => 0 end.
Definition fits (test : value -> bool) (l : list (string * value)) (k : string) : bool :=
  match find_member k l with Some v => test v | None => false end.

(** Security profiles: 1 has no TLS; 0 and 3 have a certificate of the client;
    a name and a password are sent below 3, when there is a password. *)
Definition credentials_of (lc lo : list (string * value)) : Credentials :=
  let profile := num_of lc "SecurityProfile" in
  let login := negb (length (text_of lo "AuthorizationKey") =? 0)%nat && (profile <=? 2) in
  let tls := negb (profile =? 1) in
  let external := (profile =? 0) || flag_of lc "InternalCertificateManagementEnabled" in
  let files := tls && external in
  let mutual := (profile =? 0) || (profile =? 3) in
  let when (b : bool) (s : text) := if b then s else [] in
  MkCredentials (when login (text_of lc "ChargePointIdentifier")) (when login (text_of lo "AuthorizationKey"))
    (when tls (text_of lc "Tlsv12CipherList")) (when tls (text_of lc "Tlsv13CipherList"))
    (tls && negb external)
    (when files (text_of lc "TlsServerCertificateCa"))
    (when (files && mutual) (text_of lc "TlsClientCertificate")) (when (files && mutual) (text_of lc "TlsClientCertificatePrivateKey"))
    (when (tls && mutual) (text_of lc "TlsClientCertificatePrivateKeyPassphrase"))
    (tls && (negb external || flag_of lc "TlsAllowSelfSignedCertificates"))
    (tls && (negb external || flag_of lc "TlsAllowExpiredCertificates"))
    (files && flag_of lc "TlsAcceptNonTrustedCertificates") (files && flag_of lc "TlsSkipServerNameCheck") [].

Definition info_of (lc lo : list (string * value)) : connect_info :=
  MkInfo (num_of lc "RetryInterval") (num_of lo "WebSocketPingInterval")
    (connection_url (text_of lc "ConnectionUrl") (text_of lc "ChargePointIdentifier")) (text_of lc "Protocol")
    (num_of lc "ConnectionTimeout") (num_of lc "CallRequestTimeout") (num_of lo "TransactionMessageAttempts") (credentials_of lc lo).

Definition numbers_fit (lc lo : list (string * value)) : bool :=
  fits IsUint lc "SecurityProfile" && fits IsUint lc "ConnectionTimeout" && fits IsUint lc "CallRequestTimeout" && fits IsInt lc "RetryInterval"
    && fits IsInt lo "WebSocketPingInterval" && fits IsUint lo "TransactionMessageAttempts".

(** ** Lemmas *)

(** A setting of the defaults is in a complete section, with its type. *)
Definition section_ok (sec : string) (l : list (string * value)) : Prop :=
  forall k d, walk DEFAULT_CONFIG_JSON [sec; k] = Some d -> exists c, find_member k l = Some c /\ same_type c d = true.

Lemma complete_section sec doc l0 : complete DEFAULT_CONFIG_JSON doc -> walk DEFAULT_CONFIG_JSON [sec] = Some (Obj l0) ->
  exists l, walk doc [sec] = Some (Obj l) /\ section_ok sec l.
Proof.
  intros Hc Hs. destruct (Hc _ _ Hs) as (c & Hw & Ht). destruct (same_type_object c l0 Ht) as [l ->]. exists l. split; [done|].
  intros k d Hd. destruct (Hc _ _ Hd) as (c & Hk & Hcd). change [sec; k] with ([sec] ++ [k]) in Hk. rewrite walk_app, Hw in Hk.
  cbn [mbind option_bind walk] in Hk. destruct (find_member k l) as [v|] eqn:E; [|done]. injection Hk as ->. by exists c.
Qed.

Section Reading.
Context (sec : string) (l : list (string * value)) (l_ok : section_ok sec l).

Lemma get_text_of k s : walk DEFAULT_CONFIG_JSON [sec; k] = Some (Str s) -> get_text (Obj l) k = Returns (text_of l k).
Proof using l_ok.
  intros Hd. destruct (l_ok k _ Hd) as (c & Hf & Ht). unfold get_text, member, text_of. rewrite Hf. by destruct c as [|[]| | | |].
Qed.

Lemma get_bool_of k b : walk DEFAULT_CONFIG_JSON [sec; k] = Some (Bool b) -> get_bool (Obj l) k = Returns (flag_of l k).
Proof using l_ok.
  intros Hd. destruct (l_ok k _ Hd) as (c & Hf & Ht). unfold get_bool, member, flag_of. rewrite Hf. by destruct c as [|[]| | | |], b.
Qed.

Lemma get_uint_of k n : walk DEFAULT_CONFIG_JSON [sec; k] = Some (Number n) ->
  get_uint (Obj l) k = if fits IsUint l k then Returns (num_of l k) else Undefined.
Proof using l_ok.
  intros Hd. destruct (l_ok k _ Hd) as (c & Hf & Ht). unfold get_uint, member, num_of, fits. rewrite Hf.
  destruct c as [|[]|[] | | |]; try done; by destruct n.
Qed.

Lemma get_int_of k n : walk DEFAULT_CONFIG_JSON [sec; k] = Some (Number n) ->
  get_int (Obj l) k = if fits IsInt l k then Returns (num_of l k) else Undefined.
Proof using l_ok.
  intros Hd. destruct (l_ok k _ Hd) as (c & Hf & Ht). unfold get_int, member, num_of, fits. rewrite Hf.
  destruct c as [|[]|[] | | |]; try done; by destruct n.
Qed.

Lemma hasRequired_all keys : Forall (fun k => is_Some (walk DEFAULT_CONFIG_JSON [sec; k])) keys -> hasRequired (Obj l) keys = Returns true.
Proof using l_ok.
  induction 1 as [|k keys [d Hd] _ IH]; [done|]. cbn [hasRequired]. destruct (l_ok k d Hd) as (c & Hf & _).
  unfold HasMember, has_member. by rewrite Hf.
Qed.

End Reading.

Ltac get_settings H := repeat first
  [ erewrite (get_text_of "ChargePoint" _ H) by reflexivity | erewrite (get_bool_of "ChargePoint" _ H) by reflexivity
  | erewrite (get_uint_of "ChargePoint" _ H) by reflexivity | erewrite (get_int_of "ChargePoint" _ H) by reflexivity
  | progress cbn [mbind outcome_bind negb] ].

Lemma required_tls lc : section_ok "ChargePoint" lc -> hasRequired (Obj lc) tls_keys = Returns true.
Proof. intros H. apply (hasRequired_all "ChargePoint" lc H). apply (bool_decide_eq_true_1 _); vm_compute; reflexivity. Qed.

(** The credentials of the code, with a login, are those of the table. *)
Lemma tls_credentials_of lc lo : section_ok "ChargePoint" lc ->
  tls_credentials (Obj lc) (num_of lc "SecurityProfile")
    (if negb (length (text_of lo "AuthorizationKey") =? 0)%nat && (num_of lc "SecurityProfile" <=? 2)
     then with_login (text_of lc "ChargePointIdentifier") (text_of lo "AuthorizationKey") no_credentials else no_credentials)
  = Returns (Some (credentials_of lc lo)).
Proof.
  intros H. unfold tls_credentials, credentials_of. set (profile := num_of lc "SecurityProfile"). set (login := _ && _).
  destruct (profile =? 1); cbn [negb andb]; [by destruct login|]. rewrite required_tls by done. get_settings H.
  unfold external_certificates, internal_certificates. destruct (flag_of lc "InternalCertificateManagementEnabled"), (profile =? 0), (profile =? 3), login;
    cbn [orb]; get_settings H; reflexivity.
Qed.

Lemma init_connect_sections m lc lo : m_cfgMutex m = false -> walk (m_currentDoc m) ["ChargePoint"%string] = Some (Obj lc) ->
  walk (m_currentDoc m) ["OCPP1_6"%string] = Some (Obj lo) -> section_ok "ChargePoint" lc -> section_ok "OCPP1_6" lo ->
  initConnectInfo m = if numbers_fit lc lo then Returns (Some (info_of lc lo)) else Undefined.
Proof.
  intros Hm Hc Ho Kc Ko. unfold initConnectInfo, getConfig, locked. rewrite Hm. cbn [walk] in Hc, Ho.
  destruct (m_currentDoc m) as [| | | | |l]; try done. cbn [IsObject negb String.eqb mbind outcome_bind].
  destruct (find_member "ChargePoint" l) as [vc|] eqn:Ec; [injection Hc as ->|done].
  destruct (find_member "OCPP1_6" l) as [vo|] eqn:Eo; [injection Ho as ->|done].
  unfold member_if, HasMember, member, has_member. rewrite Ec, Eo. cbn [mbind outcome_bind IsObject].
  rewrite (hasRequired_all "ChargePoint" lc Kc charge_point_keys) by (apply (bool_decide_eq_true_1 _); vm_compute; reflexivity).
  rewrite (hasRequired_all "OCPP1_6" lo Ko ocpp_keys) by (apply (bool_decide_eq_true_1 _); vm_compute; reflexivity).
  cbn [mbind outcome_bind negb]. unfold numbers_fit. get_settings Kc. destruct (fits IsUint lc "SecurityProfile"); [|reflexivity].
  erewrite (get_text_of "OCPP1_6" lo Ko) by reflexivity. get_settings Kc. rewrite (tls_credentials_of lc lo Kc). cbn [mbind outcome_bind].
  get_settings Kc. destruct (fits IsUint lc "ConnectionTimeout"); [|reflexivity]. get_settings Kc. destruct (fits IsUint lc "CallRequestTimeout"); [|reflexivity].
  get_settings Kc. destruct (fits IsInt lc "RetryInterval"); [|reflexivity]. cbn [mbind outcome_bind andb].
  erewrite (get_int_of "OCPP1_6" lo Ko) by reflexivity. destruct (fits IsInt lo "WebSocketPingInterval"); [|reflexivity]. cbn [mbind outcome_bind].
  erewrite (get_uint_of "OCPP1_6" lo Ko) by reflexivity. destruct (fits IsUint lo "TransactionMessageAttempts"); reflexivity.
Qed.

(** ** Properties *)

(** C34: with complete settings the client always finds its connection: the
    address, the times and the credentials are those the table above gives for
    the security profile; when one of the six numbers is negative, too large
    or not whole, which the completion of the settings lets through, the
    reading ends in an assertion. *)
Theorem connect_info_of_settings m : m_cfgMutex m = false -> complete DEFAULT_CONFIG_JSON (m_currentDoc m) ->
  exists lc lo, walk (m_currentDoc m) ["ChargePoint"%string] = Some (Obj lc) /\ walk (m_currentDoc m) ["OCPP1_6"%string] = Some (Obj lo) /\
    initConnectInfo m = if numbers_fit lc lo then Returns (Some (info_of lc lo)) else Undefined.
Proof.
  intros Hm Hc. destruct (complete_section "ChargePoint" (m_currentDoc m) _ Hc eq_refl) as (lc & Wc & Kc).
  destruct (complete_section "OCPP1_6" (m_currentDoc m) _ Hc eq_refl) as (lo & Wo & Ko). exists lc, lo. split; [done|]. split; [done|].
  exact (init_connect_sections m lc lo Hm Wc Wo Kc Ko).
Qed.

Lemma connect_info_of_settings_witness : exists info, initConnectInfo demo_manager = Returns (Some info) /\
  ci_url info = chars "ws://172.30.1.88:8080/steve/websocket/CentralSystemService/DeYeL430" /\ user (ci_credentials info) = chars "DeYeL430".
Proof.
  destruct (connect_info_of_settings demo_manager eq_refl complete_default) as (lc & lo & Hc & Ho & Hi).
  vm_compute in Hc, Ho. injection Hc as <-. injection Ho as <-. eexists. split; [exact Hi|]. split; vm_compute; reflexivity.
Defined.

(** The certificates of the settings are loaded when the charge point is said
    to manage them itself, and not when it is not, which is the default. *)
Lemma internal_flag_inverted lc lo profile : num_of lc "SecurityProfile" = profile -> profile = 2 \/ profile = 3 ->
  let c := credentials_of lc lo in
  if flag_of lc "InternalCertificateManagementEnabled" then server_certificate_ca c = text_of lc "TlsServerCertificateCa" /\ encoded_pem_certificates c = false
  else server_certificate_ca c = [] /\ encoded_pem_certificates c = true.
Proof. intros E Hp. unfold credentials_of. rewrite E. by destruct (flag_of lc _), Hp as [-> | ->]. Qed.

(** *** The address *)

(** The URL with an identifier at the end of its path. *)
Definition with_identifier (identifier : text) (u : Url) : Url :=
  MkUrl (m_valid u) (m_protocol u) (m_username u) (m_password u) (m_host u) (m_port u)
    (connection_url (m_path u) identifier) (m_query u) (m_fragment u) (m_queryParams u).

Lemma safe_path c : url_safe c = true -> none_of "?#" c = true /\ none_of "@" c = true.
Proof. destruct c as [[] [] [] [] [] [] [] []]; vm_compute; tauto. Qed.

Lemma encode_all (p : ascii -> bool) s : (forall c, url_safe c = true -> p c = true) -> all p (encode s).
Proof. intros Hp. eapply Forall_impl; [apply encode_safe|done]. Qed.

Lemma connection_all (p : ascii -> bool) s identifier : (forall c, url_safe c = true -> p c = true) -> p "/"%char = true -> all p s ->
  all p (connection_url s identifier).
Proof.
  intros Hp Hs Ha. unfold connection_url. apply Forall_app. split; [|by apply encode_all].
  destruct (_ && _); [apply Forall_app; by repeat constructor|done].
Qed.

Lemma connection_app a b identifier : b <> [] -> connection_url (a ++ b) identifier = a ++ connection_url b identifier.
Proof.
  intros Hb. unfold connection_url. rewrite last_app. destruct (last b) as [x|] eqn:E; [|by apply last_None in E].
  destruct b; [done|]. rewrite length_app. cbn [length]. rewrite Nat.add_succ_r. cbn [Nat.eqb negb andb].
  destruct (negb _); by rewrite <- !app_assoc.
Qed.

Section Address.
Context (u : Url) (u_printable : printable u) (u_plain : m_query u = [] /\ m_fragment u = []).

Lemma identifier_printable identifier : printable (with_identifier identifier u).
Proof using u_printable u_plain.
  destruct u_printable, u_plain as [Hq Hf]. split; cbn [with_identifier m_protocol m_username m_password m_host m_port m_path m_query m_fragment m_queryParams]; try done.
  - destruct p_path as [Hh Ha]. split; [|apply connection_all; [apply safe_path|done|done]].
    destruct (m_path u) as [|x p]; [done|]. injection Hh as ->. unfold connection_url. by destruct (_ && _).
  - destruct p_at as [?|Ha]; [by left|right]. unfold all in *. rewrite Hq, Hf, !Forall_app in *. destruct Ha as (? & ? & ? & ?).
    split_and!; try done. apply connection_all; [apply safe_path|done|done].
Qed.

Lemma identifier_printed identifier : m_valid u = true ->
  connection_url (toString u) identifier = toString (with_identifier identifier u).
Proof using u_printable u_plain.
  intros Hv. rewrite (toString_parts u), (toString_parts _ (identifier_printable identifier)) by done. destruct u_plain as [Hq Hf].
  unfold after_host, user_text, port_text. cbn [with_identifier m_protocol m_username m_password m_host m_port m_path m_query m_fragment].
  rewrite Hq, Hf. cbn [unless_empty]. rewrite !app_nil_r. destruct (p_path u u_printable) as [Hp _].
  rewrite !(app_assoc _ _ (m_path u)), !(app_assoc _ _ (connection_url _ _)). apply connection_app. by destruct (m_path u).
Qed.

End Address.

(** whatever the identifier of the charge point is, also with slashes,
    spaces or other bytes, the address made of the configured URL and the
    identifier is one the parser takes apart as it should: scheme, host and
    port are the configured ones, and the path ends with the identifier,
    encoded. *)
Theorem address_is_configured inet_pton u v identifier : printable u -> m_valid u = true -> validate inet_pton u = true ->
  m_query u = [] -> m_fragment u = [] ->
  parse inet_pton (connection_url (toString u) identifier) v = (Some true, with_identifier identifier u).
Proof.
  intros Hu Hv Ho Hq Hf. rewrite identifier_printed by done. apply parse_printed; [by apply identifier_printable|done|].
  by rewrite (validate_fields inet_pton _ u).
Qed.

Definition steve_url : Url :=
  MkUrl true (chars "ws") [] [] (chars "172.30.1.88") 8080 (chars "/steve/websocket/CentralSystemService") [] [] ∅.

Lemma steve_printable : printable steve_url.
Proof.
  split; try (apply all_check; reflexivity); try done.
  - split; [reflexivity|apply all_check; reflexivity].
  - split; [constructor|done].
  - right. split_and!; [done|done|apply all_check; reflexivity].
  - split; [reflexivity|apply all_check; reflexivity].
  - right. apply all_check. reflexivity.
Qed.

Lemma address_is_configured_witness :
  m_path (parse (fun _ => false) (connection_url (chars "ws://172.30.1.88:8080/steve/websocket/CentralSystemService") (chars "CP 1/a")) empty_url).2
  = chars "/steve/websocket/CentralSystemService/CP%201%2Fa".
Proof.
  change (chars "ws://172.30.1.88:8080/steve/websocket/CentralSystemService") with (toString steve_url).
  rewrite (address_is_configured (fun _ => false) steve_url empty_url (chars "CP 1/a") steve_printable eq_refl eq_refl eq_refl eq_refl). reflexivity.
Defined.
