(* ===== verification/OcppWebSocket.v ===== *)
(** * The web socket client of the OCPP code
      ([src/src/ocpp/client/websocketclient/websock_client.cpp],
       [src/src/ocpp/common/Queue.h])

    The queue of messages to send, the callbacks the web socket library makes,
    the assembly of messages that arrive in pieces, connecting and
    disconnecting.  The library's answers (a connection that starts or not, a
    write that fails, the position of a piece in its message) are arguments.
    What the client asks of the library is in its state: whether it has asked
    for a callback when the socket can be written, what it wrote, and the
    connections it scheduled. *)

From Stdlib Require Import Ascii String.
From stdpp Require Import strings.
From S2P Require Import Prelude Sqlite Regex Url OcppConnect.

(** ** The queue ([Queue.h])

    Every operation holds the mutex; [pop] waits until an item is there, the
    queue is disabled or the time is over, and what it does then is the
    function here. *)

Record Queue (A : Type) := MkQueue { m_items : list A; m_enabled : bool }.
#[global] Arguments MkQueue {A}.
#[global] Arguments m_items {A}.
#[global] Arguments m_enabled {A}.

Definition MAX_SIZE : Z := 2 ^ 64 - 1.

Section Queue.
Context {A : Type}.

Definition new_queue : Queue A := MkQueue [] true.
Definition queue_size (q : Queue A) : Z := MAX_SIZE.
Definition queue_empty (q : Queue A) : bool := match m_items q with [] => true | _ => false end.
Definition queue_count (q : Queue A) : Z := Z.of_nat (length (m_items q)).
Definition queue_full (q : Queue A) : bool := MAX_SIZE =? queue_count q.

Definition queue_push (x : A) (q : Queue A) : bool * Queue A :=
  if queue_count q <? MAX_SIZE then (true, MkQueue (m_items q ++ [x]) (m_enabled q)) else (false, q).

Definition queue_pop (q : Queue A) : option A * Queue A :=
  match m_items q with
  | x :: rest => if m_enabled q then (Some x, MkQueue rest true) else (None, q)
  | [] => (None, q)
  end.

Definition queue_clear (q : Queue A) : Queue A := MkQueue [] (m_enabled q).
Definition setEnable (b : bool) (q : Queue A) : Queue A := MkQueue (m_items q) b.

(** [while (pop(msg, 0)) delete msg;] *)
Fixpoint pop_all (fuel : nat) (q : Queue A) : Queue A :=
  match fuel with
  | O => q
  | S n => match queue_pop q with (Some _, q) => pop_all n q | (None, q) => q end
  end.

End Queue.

(** ** The client *)

(** The calls of the listener; a byte of a message that was never written is
    [None]. *)
Inductive event := wsClientConnected | wsClientFailed | wsClientDisconnected | wsClientError
  | wsClientDataReceived (data : list (option ascii)).

(** The thread object, which another thread may be joining. *)
Record Thread := MkThread { t_running : bool; t_joined : bool }.

(** [m_fragmented_frame] and its size are one list, [None] for the null
    pointer. [requested]: the library will call back when the socket can be
    written; [written]: what was given to the socket; [scheduled]: the
    connections asked for, the first one included; [closing]: the callback
    asked the library to close the connection. *)
Record ws := MkWs {
  m_context : bool;
  m_wsi : bool;
  m_listener : option nat;
  m_thread : option Thread;
  m_processEnd : bool;
  m_retry_interval_ms : Z;
  m_ping_interval_s : Z;
  m_connection_error_notified : bool;
  m_url : Url;
  m_wsprotocol : text;
  m_credentials : Credentials;
  m_retry_count : Z;
  m_connected : bool;
  m_queue : Queue text;
  m_fragmented_frame : option (list (option ascii));
  m_fragmented_frame_index : nat;
  requested : bool;
  written : list text;
  scheduled : nat;
  closing : bool;
  events : list event;
  deleted : list nat }.

(** The constructor. *)
Definition WebSocketClient : ws :=
  MkWs false false None None false 0 0 false empty_url [] no_credentials 0 false new_queue None 0 false [] 0 false [] [].

Definition on_state (context wsi connected notified processEnd : bool) (retry_count : Z) (w : ws) : ws :=
  MkWs context wsi (m_listener w) (m_thread w) processEnd (m_retry_interval_ms w) (m_ping_interval_s w) notified (m_url w) (m_wsprotocol w)
    (m_credentials w) retry_count connected (m_queue w) (m_fragmented_frame w) (m_fragmented_frame_index w) (requested w) (written w) (scheduled w)
    (closing w) (events w) (deleted w).
Definition on_thread (t : option Thread) (w : ws) : ws :=
  MkWs (m_context w) (m_wsi w) (m_listener w) t (m_processEnd w) (m_retry_interval_ms w) (m_ping_interval_s w) (m_connection_error_notified w) (m_url w)
    (m_wsprotocol w) (m_credentials w) (m_retry_count w) (m_connected w) (m_queue w) (m_fragmented_frame w) (m_fragmented_frame_index w) (requested w)
    (written w) (scheduled w) (closing w) (events w) (deleted w).
Definition on_queue (q : Queue text) (w : ws) : ws :=
  MkWs (m_context w) (m_wsi w) (m_listener w) (m_thread w) (m_processEnd w) (m_retry_interval_ms w) (m_ping_interval_s w)
    (m_connection_error_notified w) (m_url w) (m_wsprotocol w) (m_credentials w) (m_retry_count w) (m_connected w) q (m_fragmented_frame w)
    (m_fragmented_frame_index w) (requested w) (written w) (scheduled w) (closing w) (events w) (deleted w).
Definition on_frame (f : option (list (option ascii))) (index : nat) (w : ws) : ws :=
  MkWs (m_context w) (m_wsi w) (m_listener w) (m_thread w) (m_processEnd w) (m_retry_interval_ms w) (m_ping_interval_s w)
    (m_connection_error_notified w) (m_url w) (m_wsprotocol w) (m_credentials w) (m_retry_count w) (m_connected w) (m_queue w) f index (requested w)
    (written w) (scheduled w) (closing w) (events w) (deleted w).
Definition on_socket (req : bool) (out : list text) (sched : nat) (close : bool) (w : ws) : ws :=
  MkWs (m_context w) (m_wsi w) (m_listener w) (m_thread w) (m_processEnd w) (m_retry_interval_ms w) (m_ping_interval_s w)
    (m_connection_error_notified w) (m_url w) (m_wsprotocol w) (m_credentials w) (m_retry_count w) (m_connected w) (m_queue w) (m_fragmented_frame w)
    (m_fragmented_frame_index w) req out sched close (events w) (deleted w).
Definition on_listener (l : option nat) (ev : list event) (del : list nat) (w : ws) : ws :=
  MkWs (m_context w) (m_wsi w) l (m_thread w) (m_processEnd w) (m_retry_interval_ms w) (m_ping_interval_s w)
    (m_connection_error_notified w) (m_url w) (m_wsprotocol w) (m_credentials w) (m_retry_count w) (m_connected w) (m_queue w) (m_fragmented_frame w)
    (m_fragmented_frame_index w) (requested w) (written w) (scheduled w) (closing w) ev del.
Definition on_setup (retry ping : Z) (u : Url) (p : text) (c : Credentials) (w : ws) : ws :=
  MkWs (m_context w) (m_wsi w) (m_listener w) (m_thread w) (m_processEnd w) retry ping
    (m_connection_error_notified w) u p c (m_retry_count w) (m_connected w) (m_queue w) (m_fragmented_frame w)
    (m_fragmented_frame_index w) (requested w) (written w) (scheduled w) (closing w) (events w) (deleted w).

Definition with_connection (connected : bool) (w : ws) : ws :=
  on_state (m_context w) (m_wsi w) connected (m_connection_error_notified w) (m_processEnd w) (m_retry_count w) w.
Definition notify (e : event) (w : ws) : ws := on_listener (m_listener w) (events w ++ [e]) (deleted w) w.
Definition callback_on_writable (w : ws) : ws := on_socket true (written w) (scheduled w) (closing w) w.
Definition schedule_connect (w : ws) : ws := on_socket (requested w) (written w) (S (scheduled w)) (closing w) w.

(** ** Messages in pieces *)

Definition releaseFragmentedFrame (w : ws) : ws := on_frame None 0 w.

Definition beginFragmentedFrame (frame_size : nat) (w : ws) : ws := on_frame (Some (replicate frame_size None)) 0 (releaseFragmentedFrame w).

Definition frame_size (w : ws) : nat := match m_fragmented_frame w with Some f => length f | None => 0 end.

(** [memcpy(&frame[i], data, length)], inside the allocated bytes. *)
Definition copy_to (f : list (option ascii)) (i : nat) (data : text) : outcome (list (option ascii)) :=
  if (i + length data <=? length f)%nat then Returns (take i f ++ (Some <$> data) ++ drop (i + length data) f) else Undefined.

(** An index beyond the size would wrap the length around. *)
Definition appendFragmentedDate (data : text) (w : ws) : outcome ws :=
  let index := m_fragmented_frame_index w in
  if (frame_size w <? index)%nat then Undefined else
  let copy_len := if (frame_size w <=? index + length data)%nat then (frame_size w - index)%nat else length data in
  match m_fragmented_frame w with
  | None => Returns w
  | Some f => f ← copy_to f index (take copy_len data); Returns (on_frame (Some f) (index + copy_len) w)
  end.

(** ** Callbacks *)

Definition call_listener (e : event) (w : ws) : outcome ws := match m_listener w with Some _ => Returns (notify e w) | None => Undefined end.

(** [first], [last], [remaining]: what the library says of the piece. *)
Definition receive (first last : bool) (remaining : nat) (data : text) (w : ws) : outcome ws :=
  match m_listener w with
  | None => Returns w
  | Some _ =>
    if first && last then call_listener (wsClientDataReceived (Some <$> data)) w
    else if first then appendFragmentedDate data (beginFragmentedFrame (length data + remaining) w)
    else
      w ← appendFragmentedDate data w;
      if last then
        w ← call_listener (wsClientDataReceived (default [] (m_fragmented_frame w))) w;
        Returns (releaseFragmentedFrame w)
      else Returns w
  end.

(** [answers]: whether each [lws_write] succeeds. *)
Fixpoint write_loop (fuel : nat) (answers : list bool) (w : ws) : ws :=
  match fuel with
  | O => w
  | S n =>
    match queue_pop (m_queue w) with
    | (None, _) => w
    | (Some msg, q) =>
      let w := on_queue q w in
      match answers with
      | false :: _ => on_socket (requested w) (written w) (scheduled w) true w
      | _ =>
        let w := on_socket (requested w) (written w ++ [msg]) (scheduled w) (closing w) w in
        if negb (queue_empty (m_queue w)) then callback_on_writable w else write_loop n (tail answers) w
      end
    end
  end.

Definition writeable (answers : list bool) (w : ws) : ws := write_loop (S (length (m_items (m_queue w)))) answers w.

Definition established (w : ws) : ws :=
  let w := on_state (m_context w) (m_wsi w) true false (m_processEnd w) 0 w in
  let w := match m_listener w with Some _ => notify wsClientConnected w | None => w end in
  if negb (queue_empty (m_queue w)) && m_wsi w then callback_on_writable w else w.

(** The second component: whether to connect again. *)
Definition connection_error (w : ws) : outcome (ws * bool) :=
  w ← (if negb (m_connection_error_notified w)
       then call_listener wsClientFailed (on_state (m_context w) (m_wsi w) (m_connected w) true (m_processEnd w) (m_retry_count w) w)
       else Returns w);
  Returns (w, m_context w).

Definition drop_messages (w : ws) : ws := on_queue (pop_all (S (length (m_items (m_queue w)))) (m_queue w)) w.

Definition closed (w : ws) : outcome (ws * bool) :=
  w ← call_listener wsClientDisconnected (with_connection false w);
  Returns (drop_messages w, negb (m_retry_interval_ms w =? 0)).

Inductive reason :=
  | EVENT_WAIT_CANCELLED
  | CLIENT_CONNECTION_ERROR
  | CLIENT_APPEND_HANDSHAKE_HEADER
  | CLIENT_ESTABLISHED
  | CLIENT_RECEIVE (first last : bool) (remaining : nat) (data : text)
  | CLIENT_WRITEABLE (answers : list bool)
  | CLOSED_CLIENT_HTTP
  | CLIENT_CLOSED
  | OTHER.

(** The header of a handshake goes to the library and leaves the client alone;
    it is [authorization] below. *)
Definition eventcb (r : reason) (w : ws) : outcome ws :=
  '(w, retry) ←
    match r with
    | EVENT_WAIT_CANCELLED => Returns (if negb (m_processEnd w) && negb (queue_empty (m_queue w)) then callback_on_writable w else w, false)
    | CLIENT_CONNECTION_ERROR => connection_error w
    | CLIENT_APPEND_HANDSHAKE_HEADER => Returns (w, false)
    | CLIENT_ESTABLISHED => Returns (established w, false)
    | CLIENT_RECEIVE first last remaining data => w ← receive first last remaining data w; Returns (w, false)
    | CLIENT_WRITEABLE answers => Returns (writeable answers w, false)
    | CLOSED_CLIENT_HTTP => Returns (w, negb (m_retry_interval_ms w =? 0))
    | CLIENT_CLOSED => closed w
    | OTHER => Returns (w, false)
    end;
  Returns (if (retry : bool) then schedule_connect w else w).

(** [lws_http_basic_auth_gen2_ocpp]: [None] is a code other than zero. The
    encoder writes into [room] bytes and says whether the text fits; what it
    says is not looked at, and the last byte of the buffer is set to zero.
    [snprintf] into 128 bytes cuts a long name. *)
Definition basic_auth (b64 : text -> nat -> text) (u pw : text) (len : nat) : option text :=
  let n := length u in
  let m := length pw in
  if (len <? 6 + (4 * (n + m + 1)) / 3 + 1)%nat then None
  else
    let b := take 127 (u ++ chars ":") in
    if (128 - 2 <=? length b + m)%nat then None
    else Some (take (len - 1) (chars "Basic " ++ b64 (b ++ pw) (len - 6)%nat)).

Definition authorization (b64 : text -> nat -> text) (w : ws) : option text :=
  match user (m_credentials w) with
  | [] => None
  | u => basic_auth b64 u (password (m_credentials w)) 128
  end.

(** ** The functions of the client *)

Definition registerListener (l : option nat) (w : ws) : ws :=
  on_listener l (events w) (match m_listener w with Some old => deleted w ++ [old] | None => deleted w end) w.

Definition isConnect (w : ws) : bool := m_connected w.

(** The two halves of [send]: the queue, and the request to write. *)
Definition send_push (data : text) (w : ws) : bool * ws :=
  if (length data =? 0)%nat then (false, w)
  else let '(ok, q) := queue_push data (m_queue w) in (ok, on_queue q w).
Definition send_request (w : ws) : ws := if m_connected w && m_wsi w then callback_on_writable w else w.
Definition send (data : text) (w : ws) : bool * ws :=
  let '(ok, w) := send_push data w in (ok, if (ok : bool) then send_request w else w).

Section Connect.
Context (inet_pton : text -> bool).

(** [context_ok]: whether the library makes a context. The result [None] is
    the exception of the URL parser. *)
Definition Connect (url protocol : text) (credentials : Credentials) (retry_interval ping_interval : Z) (context_ok : bool) (w : ws) : option bool * ws :=
  match m_listener w with
  | None => (Some false, w)
  | Some _ =>
    match m_thread w with
    | Some _ => (Some false, w)
    | None =>
      let '(r, u) := parse inet_pton url (m_url w) in
      let w := on_setup (m_retry_interval_ms w) (m_ping_interval_s w) u (m_wsprotocol w) (m_credentials w) w in
      match r with
      | None => (None, w)
      | Some _ =>
        if m_valid u && (bool_decide (m_protocol u = chars "ws") || bool_decide (m_protocol u = chars "wss")) then
          let w := on_setup (m_retry_interval_ms w) (m_ping_interval_s w) u (m_wsprotocol w) credentials w in
          let w := on_state context_ok (m_wsi w) (m_connected w) (m_connection_error_notified w) (m_processEnd w) (m_retry_count w) w in
          if context_ok then
            let w := on_state true (m_wsi w) false false false 0 w in
            let w := on_setup (uint32 retry_interval) (uint16 (Z.quot ping_interval 1000)) u protocol credentials w in
            (Some true, schedule_connect (on_thread (Some (MkThread true false)) w))
          else (Some false, w)
        else (Some false, w)
      end
    end
  end.

End Connect.

(** *** What the library is asked for *)

Inductive ssl_flag := LCCSCF_USE_SSL | LCCSCF_ALLOW_SELFSIGNED | LCCSCF_ALLOW_EXPIRED | LCCSCF_ALLOW_INSECURE
  | LCCSCF_SKIP_SERVER_CERT_HOSTNAME_CHECK.

Record connect_request := MkRequest { rq_address : text; rq_path : text; rq_port : Z; rq_ssl : list ssl_flag; rq_protocol : text }.

Definition flag_if (b : bool) (f : ssl_flag) : list ssl_flag := if b then [f] else [].

Definition ssl_connection (c : Credentials) : list ssl_flag :=
  [LCCSCF_USE_SSL] ++ flag_if (allow_selfsigned_certificates c) LCCSCF_ALLOW_SELFSIGNED ++ flag_if (allow_expired_certificates c) LCCSCF_ALLOW_EXPIRED
    ++ flag_if (accept_untrusted_certificates c) LCCSCF_ALLOW_INSECURE
    ++ flag_if (skip_server_name_check c) LCCSCF_SKIP_SERVER_CERT_HOSTNAME_CHECK.

Definition request_of (w : ws) : connect_request :=
  let u := m_url w in
  let secure := bool_decide (m_protocol u = chars "wss") in
  let port := if secure then 443 else 8080 in
  let port := if negb (m_port u =? 0) then m_port u else port in
  MkRequest (m_host u) (m_path u) port (if secure then ssl_connection (m_credentials w) else []) (m_wsprotocol w).

(** A certificate or a key given as its text or as the name of its file. *)
Inductive pem := InMemory (s : text) | InFile (s : text).

Record ssl_info := MkSsl {
  client_ssl_cipher_list : option text;
  client_tls_1_3_plus_cipher_list : option text;
  client_ssl_ca : option pem;
  client_ssl_cert : option pem;
  client_ssl_private_key : option pem;
  client_ssl_private_key_password : option text }.

Definition no_ssl : ssl_info := MkSsl None None None None None None.

Definition given (s : text) : option text := match s with [] => None | _ => Some s end.

Definition setupSSLInfo (c : Credentials) : ssl_info :=
  let pem_of := if encoded_pem_certificates c then InMemory else InFile in
  MkSsl (given (tls12_cipher_list c)) (given (tls13_cipher_list c))
    (option_map pem_of (given (server_certificate_ca c))) (option_map pem_of (given (client_certificate c)))
    (option_map pem_of (given (client_certificate_private_key c))) (given (client_certificate_private_key_passphrase c)).

(** What a context is made with. *)
Definition context_info (w : ws) : ssl_info :=
  if bool_decide (m_protocol (m_url w) = chars "wss") then setupSSLInfo (m_credentials w) else no_ssl.

(** [started], [wsi]: whether the library starts connecting, and whether it
    gives the handle. *)
Definition connectcb (started wsi : bool) (w : ws) : option connect_request * ws :=
  if m_processEnd w then (None, w)
  else
    let rq := request_of w in
    let w := on_state (m_context w) wsi (m_connected w) (m_connection_error_notified w) (m_processEnd w) (m_retry_count w) w in
    (Some rq, if started then w else schedule_connect w).

(** [disConnect] up to the test of the calling thread, and after it. *)
Definition disconnect_begin (clearMsgFlag : bool) (w : ws) : ws :=
  let w := on_state (m_context w) (m_wsi w) (m_connected w) (m_connection_error_notified w) true 0 w in
  if clearMsgFlag then drop_messages w else w.
Definition disconnect_end (w : ws) : ws := on_state false (m_wsi w) false (m_connection_error_notified w) (m_processEnd w) (m_retry_count w) (on_thread None w).

(** Called by the thread itself: detaching the object another thread joins is
    a race, and the object is deleted under it. *)
Definition disconnect_self (w : ws) : outcome (bool * ws) :=
  match m_thread w with
  | None => Returns (false, w)
  | Some t => let w := disconnect_begin true w in if t_joined t then Undefined else Returns (true, disconnect_end w)
  end.

(** The thread after its loop, which ends when it is told to, or when the
    library fails. *)
Definition process_exit (w : ws) : outcome ws :=
  if m_processEnd w then '(_, w) ← disconnect_self w; call_listener wsClientError w
  else Returns (on_thread (option_map (fun t => MkThread false (t_joined t)) (m_thread w)) w).

(** Called by another thread: the join lasts until the thread has ended. *)
Definition disConnect (clearMsgFlag : bool) (w : ws) : outcome (bool * ws) :=
  match m_thread w with
  | None => Returns (false, w)
  | Some t =>
    let w := disconnect_begin clearMsgFlag w in
    w ← (if t_running t then process_exit (on_thread (Some (MkThread true true)) w) else Returns w);
    Returns (true, disconnect_end w)
  end.

(** ** Lemmas on pieces *)

(** The first [n] bytes of a text, and bytes that were never written. *)
Definition fit (n : nat) (s : text) : list (option ascii) := (Some <$> take n s) ++ replicate (n - length s) None.

Lemma fit_length n s : length (fit n s) = n.
Proof. unfold fit. rewrite length_app, length_fmap, length_replicate, length_take. lia. Qed.

Lemma fit_exact s : fit (length s) s = Some <$> s.
Proof. unfold fit. rewrite firstn_all, Nat.sub_diag. cbn [replicate]. by rewrite app_nil_r. Qed.

Lemma fit_lookup n s i : fit n s !! i = if decide (i < n)%nat then Some (s !! i) else None.
Proof.
  unfold fit. destruct (decide (i < n)%nat) as [Hn|Hn].
  - destruct (decide (i < length s)%nat) as [Hs|Hs].
    + rewrite lookup_app_l by (rewrite length_fmap, length_take; lia). rewrite list_lookup_fmap, lookup_take, decide_True by lia.
      destruct (lookup_lt_is_Some_2 s i Hs) as [x ->]. done.
    + rewrite lookup_app_r by (rewrite length_fmap, length_take; lia). rewrite length_fmap, length_take.
      rewrite lookup_replicate_2 by lia. by rewrite lookup_ge_None_2 by lia.
  - apply lookup_ge_None_2. fold (fit n s). rewrite fit_length. lia.
Qed.

(** The client with the first bytes of a message in its buffer. *)
Definition holds (n : nat) (s : text) (w : ws) : ws := on_frame (Some (fit n s)) (Nat.min n (length s)) w.

Lemma copy_to_fit n s d : let i := Nat.min n (length s) in
  copy_to (fit n s) i (take (Nat.min (n - i) (length d)) d) = Returns (fit n (s ++ d)).
Proof.
  cbv zeta. unfold copy_to. rewrite fit_length, length_take. rewrite (proj2 (Nat.leb_le _ _)) by lia. f_equal.
  apply list_eq. intros j. rewrite fit_lookup. destruct (decide (j < Nat.min n (length s))%nat) as [Hj|Hj].
  - rewrite lookup_app_l by (rewrite length_take, fit_length; lia). rewrite lookup_take, fit_lookup.
    rewrite !decide_True by lia. by rewrite lookup_app_l by lia.
  - rewrite lookup_app_r by (rewrite length_take, fit_length; lia). rewrite length_take, fit_length.
    replace (Nat.min (Nat.min n (length s)) n) with (Nat.min n (length s)) by lia.
    destruct (decide (j - Nat.min n (length s) < Nat.min (n - Nat.min n (length s)) (length d))%nat) as [Hd|Hd].
    + rewrite lookup_app_l by (rewrite length_fmap, length_take; lia). rewrite list_lookup_fmap, lookup_take.
      rewrite !decide_True by lia. rewrite lookup_app_r by lia. replace (Nat.min n (length s)) with (length s) in * by lia.
      destruct (lookup_lt_is_Some_2 d (j - length s)) as [x ->]; [lia|done].
    + rewrite lookup_app_r by (rewrite length_fmap, length_take; lia). rewrite length_fmap, length_take, lookup_drop, fit_lookup.
      destruct (decide (j < n)%nat) as [Hn|Hn]; [|by rewrite decide_False by lia].
      rewrite decide_True by lia. by rewrite !lookup_ge_None_2 by (rewrite ?length_app; lia).
Qed.

Lemma append_holds n s d w : appendFragmentedDate d (holds n s w) = Returns (holds n (s ++ d) w).
Proof.
  unfold appendFragmentedDate. change (frame_size (holds n s w)) with (length (fit n s)). rewrite fit_length.
  change (m_fragmented_frame_index (holds n s w)) with (Nat.min n (length s)). change (m_fragmented_frame (holds n s w)) with (Some (fit n s)).
  cbn match. rewrite (proj2 (Nat.ltb_ge _ _)) by lia. set (copy := if (_ <=? _)%nat then _ else _).
  assert (E : copy = Nat.min (n - Nat.min n (length s)) (length d)).
  { subst copy. destruct (Nat.leb_spec n (Nat.min n (length s) + length d)); lia. }
  rewrite E, copy_to_fit. cbn [mbind outcome_bind]. unfold holds. rewrite length_app. f_equal.
  replace (Nat.min n (length s) + Nat.min (n - Nat.min n (length s)) (length d))%nat with (Nat.min n (length s + length d)) by lia. done.
Qed.

(** The pieces after the first, the last of which ends the message; what the
    library says remains is not looked at. *)
Fixpoint receive_rest (pieces : list (nat * text)) (w : ws) : outcome ws :=
  match pieces with
  | [] => Returns w
  | [(r, d)] => eventcb (CLIENT_RECEIVE false true r d) w
  | (r, d) :: rest => w ← eventcb (CLIENT_RECEIVE false false r d) w; receive_rest rest w
  end.

Lemma receive_more l n s r d w (last : bool) : m_listener w = Some l -> eventcb (CLIENT_RECEIVE false last r d) (holds n s w) =
  Returns (if last then releaseFragmentedFrame (notify (wsClientDataReceived (fit n (s ++ d))) w) else holds n (s ++ d) w).
Proof.
  intros Hl. unfold eventcb, receive. change (m_listener (holds n s w)) with (m_listener w). rewrite Hl. cbn [andb].
  rewrite append_holds. cbn [mbind outcome_bind]. destruct last; [|done]. unfold call_listener.
  change (m_listener (holds n (s ++ d) w)) with (m_listener w). by rewrite Hl.
Qed.

Lemma receive_rest_spec l n pieces w : m_listener w = Some l -> pieces <> [] -> forall s,
  receive_rest pieces (holds n s w) = Returns (releaseFragmentedFrame (notify (wsClientDataReceived (fit n (s ++ concat pieces.*2))) w)).
Proof.
  intros Hl Hne. induction pieces as [|[r d] pieces IH]; [done|]. intros s. cbn [receive_rest]. destruct pieces as [|p pieces].
  - rewrite (receive_more l) by done. csimpl. by rewrite app_nil_r.
  - rewrite (receive_more l) by done. cbn [mbind outcome_bind]. rewrite IH by done. csimpl. by rewrite <- app_assoc.
Qed.

(** C17: a message that comes in several pieces reaches the listener once, when
    its last piece is there, in the order of the pieces, and no byte is
    written outside the buffer; what it gets is the first bytes of the
    message, as many as the first piece and what the library then said
    remained.  That is the whole message when it is one frame of the web
    socket, and the message is cut after its first frame when there are more. *)
Theorem message_from_pieces l remaining first pieces w : m_listener w = Some l -> pieces <> [] ->
  (w ← eventcb (CLIENT_RECEIVE true false remaining first) w; receive_rest pieces w)
    = Returns (releaseFragmentedFrame (notify (wsClientDataReceived (fit (length first + remaining) (first ++ concat pieces.*2))) w)) /\
  (remaining = length (concat pieces.*2) -> fit (length first + remaining) (first ++ concat pieces.*2) = Some <$> (first ++ concat pieces.*2)) /\
  ((remaining < length (concat pieces.*2))%nat -> (length (fit (length first + remaining) (first ++ concat pieces.*2)) < length (first ++ concat pieces.*2))%nat).
Proof.
  intros Hl Hne. split; [|split].
  - unfold eventcb at 1, receive. rewrite Hl. cbn [andb].
    change (beginFragmentedFrame (length first + remaining) w) with (on_frame (Some (replicate (length first + remaining) None)) 0 w).
    replace (on_frame (Some (replicate (length first + remaining) None)) 0 w) with (holds (length first + remaining) [] w)
      by (unfold holds, fit; cbn [length]; by rewrite take_nil, Nat.sub_0_r, Nat.min_0_r).
    rewrite append_holds. cbn [mbind outcome_bind app]. by rewrite (receive_rest_spec l).
  - intros ->. rewrite <- length_app. apply fit_exact.
  - intros Hr. rewrite fit_length, length_app. lia.
Qed.

Lemma message_from_pieces_witness :
  (w ← eventcb (CLIENT_RECEIVE true false 2 (chars "[3,")) (registerListener (Some 1%nat) WebSocketClient); receive_rest [(0%nat, chars "1]")] w)
  = Returns (releaseFragmentedFrame (notify (wsClientDataReceived (Some <$> chars "[3,1]")) (registerListener (Some 1%nat) WebSocketClient))).
Proof.
  rewrite (proj1 (message_from_pieces 1 2 (chars "[3,") [(0%nat, chars "1]")] (registerListener (Some 1%nat) WebSocketClient) eq_refl ltac:(done))).
  reflexivity.
Defined.

(** ** The client and the threads that send

    [accepted]: the messages [send] returned true for, in order; [lost]: how
    many of them were given up; [senders]: the threads between the two halves
    of [send].  The library calls back one callback at a time: the one for
    writing when it was asked for, and a connection is tried when there is
    none.  A connection that closes forgets the request to write. *)

Record sys := Sys { sock : ws; accepted : list text; lost : nat; senders : nat }.

Definition forget_request (w : ws) : ws := on_socket false (written w) (scheduled w) false w.
Definition queued (w : ws) : list text := m_items (m_queue w).

(** Callbacks that leave the queue and the connection alone. *)
Definition quiet (r : reason) : Prop :=
  match r with CLIENT_ESTABLISHED | CLIENT_WRITEABLE _ | CLIENT_CLOSED => False | _ => True end.

Inductive sys_step : sys -> sys -> Prop :=
  | step_push s data w : send_push data (sock s) = (true, w) -> sys_step s (Sys w (accepted s ++ [data]) (lost s) (S (senders s)))
  | step_refused s data w : send_push data (sock s) = (false, w) -> sys_step s (Sys w (accepted s) (lost s) (senders s))
  | step_request s n : senders s = S n -> sys_step s (Sys (send_request (sock s)) (accepted s) (lost s) n)
  | step_quiet s r w : quiet r -> eventcb r (sock s) = Returns w -> sys_step s (Sys w (accepted s) (lost s) (senders s))
  | step_established s w : eventcb CLIENT_ESTABLISHED (sock s) = Returns w -> sys_step s (Sys w (accepted s) (lost s) (senders s))
  | step_written s answers w : requested (sock s) = true -> closing (sock s) = false -> Forall (fun b => b = true) answers ->
      eventcb (CLIENT_WRITEABLE answers) (on_socket false (written (sock s)) (scheduled (sock s)) false (sock s)) = Returns w ->
      sys_step s (Sys w (accepted s) (lost s) (senders s))
  | step_write_fails s answers w : requested (sock s) = true -> closing (sock s) = false -> queued (sock s) <> [] ->
      eventcb (CLIENT_WRITEABLE (false :: answers)) (on_socket false (written (sock s)) (scheduled (sock s)) false (sock s)) = Returns w ->
      sys_step s (Sys w (accepted s) (S (lost s)) (senders s))
  | step_closed s w : eventcb CLIENT_CLOSED (forget_request (sock s)) = Returns w ->
      sys_step s (Sys w (accepted s) (lost s + length (queued (sock s))) (senders s))
  | step_connect s started wsi : m_connected (sock s) = false ->
      sys_step s (Sys (connectcb started wsi (sock s)).2 (accepted s) (lost s) (senders s))
  | step_start s inet url p c retry ping ok :
      sys_step s (Sys (Connect inet url p c retry ping ok (sock s)).2 (accepted s) (lost s) (senders s))
  | step_stop s clear b w : disConnect clear (sock s) = Returns (b, w) ->
      sys_step s (Sys (if b then forget_request w else w) (accepted s) (lost s + (length (queued (sock s)) - length (queued w))) (senders s))
  | step_listener s l : sys_step s (Sys (registerListener l (sock s)) (accepted s) (lost s) (senders s)).

Definition sys_initial (s : sys) : Prop := s = Sys WebSocketClient [] 0 0.

Definition reachable_sys : sys -> Prop := reachable sys_step sys_initial.

(** What was written and what waits are the accepted messages in order, all of
    them but the lost ones; a connected client with messages has asked to
    write, or a thread is about to ask. *)
Record sys_ok (s : sys) : Prop := {
  ok_order : sublist (written (sock s) ++ queued (sock s)) (accepted s);
  ok_count : length (accepted s) = (length (written (sock s)) + length (queued (sock s)) + lost s)%nat;
  ok_enabled : m_enabled (m_queue (sock s)) = true;
  ok_awake : m_connected (sock s) = true -> m_wsi (sock s) = true -> closing (sock s) = false -> queued (sock s) <> [] ->
             requested (sock s) = true \/ (senders s > 0)%nat }.

(** ** Lemmas on the steps *)

Lemma sublist_full {A} (l l' : list A) : sublist l l' -> length l = length l' -> l = l'.
Proof.
  induction 1 as [|x l l' H IH|x l l' H _]; cbn [length]; intros Hn; [done| |].
  - injection Hn as Hn. by rewrite IH.
  - apply sublist_length in H. lia.
Qed.

Lemma pop_all_spec {A} n (q : Queue A) : m_enabled q = true -> (length (m_items q) < n)%nat -> pop_all n q = MkQueue [] true.
Proof.
  destruct q as [l e]. cbn [m_enabled m_items]. intros ->. revert n. induction l as [|x l IH]; intros [|n] Hn; cbn [length] in Hn; try lia.
  - done.
  - cbn [pop_all queue_pop m_items m_enabled]. apply IH. lia.
Qed.

Lemma drop_messages_spec w : m_enabled (m_queue w) = true -> drop_messages w = on_queue (MkQueue [] true) w.
Proof. intros He. unfold drop_messages. by rewrite pop_all_spec by (done || lia). Qed.

Lemma queue_pop_spec w : m_enabled (m_queue w) = true ->
  queue_pop (m_queue w) = match queued w with x :: rest => (Some x, MkQueue rest true) | [] => (None, m_queue w) end.
Proof. intros He. unfold queue_pop, queued. by rewrite He. Qed.

(** A callback for writing sends the first message and asks again while there
    are more. *)
Lemma writeable_spec answers w : m_enabled (m_queue w) = true -> requested w = false -> closing w = false ->
  writeable answers w =
    match queued w with
    | [] => w
    | x :: rest =>
      if (match answers with false :: _ => true | _ => false end)
      then on_socket false (written w) (scheduled w) true (on_queue (MkQueue rest true) w)
      else on_socket (match rest with [] => false | _ => true end) (written w ++ [x]) (scheduled w) false (on_queue (MkQueue rest true) w)
    end.
Proof.
  intros He Hr Hc. unfold writeable. fold (queued w). cbn [write_loop]. rewrite queue_pop_spec by done.
  destruct (queued w) as [|x rest]; [done|]. destruct answers as [|[] answers]; cbn [on_queue on_socket m_queue requested written scheduled closing]; rewrite ?Hr, ?Hc; [..|done];
    (destruct rest as [|y rest]; cbn [queue_empty m_items negb]; [by cbn [length write_loop queue_pop m_queue on_queue on_socket m_items]|done]).
Qed.

Lemma disConnect_cases clear w b w' : disConnect clear w = Returns (b, w') ->
  (b = false /\ w' = w) \/ (b = true /\ w' = disconnect_end (disconnect_begin clear w)).
Proof.
  unfold disConnect. destruct (m_thread w) as [[[] j]|]; [|intros [= <- <-]; by right|intros [= <- <-]; by left].
  intros Hd. exfalso. revert Hd. unfold process_exit, disconnect_begin. destruct clear; done.
Qed.

(** The client after a step that keeps its messages and its connection. *)
Definition same_messages (w w' : ws) : Prop :=
  written w' = written w /\ m_queue w' = m_queue w /\ m_connected w' = m_connected w /\ m_wsi w' = m_wsi w /\ closing w' = closing w /\
  (requested w = true -> requested w' = true).

Lemma same_refl w : same_messages w w.
Proof. by repeat split. Qed.

Lemma append_same data w w' : appendFragmentedDate data w = Returns w' -> same_messages w w' /\ m_listener w' = m_listener w.
Proof.
  unfold appendFragmentedDate. destruct (_ <? _)%nat; [done|]. destruct (m_fragmented_frame w) as [f|]; [|by intros [= <-]].
  unfold copy_to. destruct (_ + _ <=? _)%nat; cbn [mbind outcome_bind]; [by intros [= <-]|done].
Qed.

Lemma call_same e w w' : call_listener e w = Returns w' -> same_messages w w'.
Proof. unfold call_listener. destruct (m_listener w); [by intros [= <-]|done]. Qed.

Lemma receive_same first last r data w w' : receive first last r data w = Returns w' -> same_messages w w'.
Proof.
  unfold receive. destruct (m_listener w) eqn:Hl; [|by intros [= <-]]. destruct first, last; cbn [andb].
  - apply call_same.
  - intros Ha. exact (proj1 (append_same _ _ _ Ha)).
  - destruct (appendFragmentedDate data w) as [| |w1] eqn:Ha; cbn [mbind outcome_bind]; [done|done|]. cbn [mbind outcome_bind].
    destruct (append_same _ _ _ Ha) as [Hs _]. destruct (call_listener _ w1) as [| |w2] eqn:Hc; cbn [mbind outcome_bind]; [done|done|]. intros [= <-].
    apply call_same in Hc. unfold same_messages in *. cbn. naive_solver congruence.
  - destruct (appendFragmentedDate data w) as [| |w1] eqn:Ha; cbn [mbind outcome_bind]; [done|done|]. intros [= <-]. exact (proj1 (append_same _ _ _ Ha)).
Qed.

Lemma quiet_same r w w' : quiet r -> eventcb r w = Returns w' -> same_messages w w'.
Proof.
  unfold eventcb. destruct r as [ | | | |first last n data| | | | ]; try done; intros _.
  - intros [= <-]. by destruct (negb (m_processEnd w) && _).
  - unfold connection_error. destruct (negb (m_connection_error_notified w)); [|intros [= <-]; by destruct (m_context w)].
    destruct (call_listener _ _) as [| |w1] eqn:Hc; cbn [mbind outcome_bind]; [done|done|]. intros [= <-]. apply call_same in Hc. by destruct (m_context w1).
  - by intros [= <-].
  - destruct (receive _ _ _ _ _) as [| |w1] eqn:Hr; cbn [mbind outcome_bind]; [done|done|]. intros [= <-]. by apply receive_same in Hr.
  - intros [= <-]. by destruct (negb (m_retry_interval_ms w =? 0)).
  - by intros [= <-].
Qed.

Lemma ok_same_messages s w : sys_ok s -> same_messages (sock s) w -> sys_ok (Sys w (accepted s) (lost s) (senders s)).
Proof.
  intros [Ho Hc He Ha] (H1 & H2 & H3 & H4 & H5 & H6). unfold queued in *. split; cbn [sock accepted lost senders]; unfold queued; rewrite ?H1, ?H2; try done.
  rewrite H3, H4, H5. intros Hcon Hw Hcl Hq. destruct (Ha Hcon Hw Hcl Hq) as [Hr|]; [left; auto|by right].
Qed.

(** A client that gives up its messages is not connected any more. *)
Lemma ok_given_up s w n : sys_ok s -> written w = written (sock s) -> m_queue w = MkQueue [] true ->
  n = (lost s + length (queued (sock s)))%nat -> sys_ok (Sys w (accepted s) n (senders s)).
Proof.
  intros [Ho Hc He Ha] Hw Hq ->. unfold queued in *. split; cbn [sock accepted lost senders]; unfold queued; rewrite ?Hw, ?Hq; cbn [m_items m_enabled]; try done.
  - rewrite app_nil_r. etrans; [|exact Ho]. by apply sublist_inserts_r.
  - rewrite Hc. cbn [length]. lia.
Qed.

Lemma listener_same l w : same_messages w (registerListener l w).
Proof. by repeat split. Qed.

Lemma send_push_ok s data w : sys_ok s -> send_push data (sock s) = (true, w) ->
  sys_ok (Sys w (accepted s ++ [data]) (lost s) (S (senders s))).
Proof.
  intros [Ho Hc He Ha]. unfold send_push, queue_push. destruct (_ =? 0)%nat; [done|]. destruct (_ <? _); [|done]. intros [= <-].
  split; cbn [sock accepted lost senders]; unfold queued in *; cbn [on_queue m_queue m_items written m_enabled].
  - rewrite app_assoc. by apply sublist_app.
  - rewrite !length_app, Hc. cbn [length]. lia.
  - done.
  - intros _ _ _ _. right. lia.
Qed.

Lemma written_ok s answers w : sys_ok s -> closing (sock s) = false ->
  w = writeable answers (on_socket false (written (sock s)) (scheduled (sock s)) false (sock s)) ->
  forall n, n = (if (match answers with false :: _ => true | _ => false end) then match queued (sock s) with [] => lost s | _ => S (lost s) end else lost s) ->
  sys_ok (Sys w (accepted s) n (senders s)).
Proof.
  intros [Ho Hc He Ha] Hcl -> n Hn. rewrite writeable_spec by done. unfold queued in *. cbn [on_socket m_queue written scheduled].
  destruct (m_items (m_queue (sock s))) as [|x rest] eqn:Hq.
  - split; cbn [sock accepted lost senders]; unfold queued; cbn [on_socket m_queue written]; rewrite ?Hq; try done. subst n. by destruct answers as [|[]].
  - destruct (match answers with false :: _ => true | _ => false end); subst n;
      split; cbn [sock accepted lost senders]; unfold queued; cbn [on_socket on_queue m_queue m_items m_enabled written closing requested m_connected m_wsi]; try done.
    + etrans; [|exact Ho]. apply sublist_app; [done|]. by apply sublist_cons.
    + cbn [length] in Hc. lia.
    + by rewrite <- app_assoc.
    + rewrite length_app. cbn [length] in *. lia.
    + intros _ _ _ Hr. left. by destruct rest.
Qed.

Lemma ok_disconnected s w : sys_ok s -> written w = written (sock s) -> m_queue w = m_queue (sock s) -> m_connected w = false ->
  sys_ok (Sys w (accepted s) (lost s) (senders s)).
Proof.
  intros [Ho Hc He Ha] H1 H2 H3. unfold queued in *. split; cbn [sock accepted lost senders]; unfold queued; rewrite ?H1, ?H2, ?H3; done.
Qed.

Lemma start_keeps_ok s inet url p c retry ping ok : sys_ok s ->
  sys_ok (Sys (Connect inet url p c retry ping ok (sock s)).2 (accepted s) (lost s) (senders s)).
Proof.
  intros Hs. unfold Connect. destruct (m_listener (sock s)); [|by apply ok_same_messages; [|apply same_refl]].
  destruct (m_thread (sock s)); [by apply ok_same_messages; [|apply same_refl]|].
  destruct (parse inet url (m_url (sock s))) as [[r|] u]; [|by apply ok_same_messages; [|by repeat split]].
  destruct (_ && _); [|by apply ok_same_messages; [|by repeat split]].
  destruct ok; [by apply ok_disconnected|by apply ok_same_messages; [|by repeat split]].
Qed.

Lemma established_ok s w : sys_ok s -> eventcb CLIENT_ESTABLISHED (sock s) = Returns w -> sys_ok (Sys w (accepted s) (lost s) (senders s)).
Proof.
  intros [Ho Hc He Ha] [= <-]. unfold established. set (w := match m_listener _ with Some _ => _ | None => _ end).
  assert (Hw : written w = written (sock s) /\ m_queue w = m_queue (sock s) /\ m_wsi w = m_wsi (sock s)) by (subst w; by destruct (m_listener _)).
  clearbody w. destruct Hw as (H1 & H2 & H3). unfold queued in *. rewrite <- H1, <- H2 in *. destruct (negb (queue_empty (m_queue w)) && m_wsi w) eqn:Hq;
    split; cbn [sock accepted lost senders]; unfold queued; cbn [callback_on_writable on_socket written m_queue requested]; try done; [by left|].
  intros _ Hwsi _ Hne. exfalso. rewrite Hwsi, andb_true_r in Hq. unfold queue_empty in Hq. by destruct (m_items (m_queue w)).
Qed.

Lemma closed_ok s w : sys_ok s -> eventcb CLIENT_CLOSED (forget_request (sock s)) = Returns w ->
  sys_ok (Sys w (accepted s) (lost s + length (queued (sock s))) (senders s)).
Proof.
  intros Hs. unfold eventcb, closed, call_listener. destruct (m_listener _); [|done]. cbn [mbind outcome_bind]. intros [= <-].
  rewrite drop_messages_spec by apply Hs. apply (ok_given_up s); [done| | |done]; by destruct (negb _).
Qed.

Lemma stop_keeps_ok s clear b w : sys_ok s -> disConnect clear (sock s) = Returns (b, w) ->
  sys_ok (Sys (if b then forget_request w else w) (accepted s) (lost s + (length (queued (sock s)) - length (queued w))) (senders s)).
Proof.
  intros Hs [[-> ->]|[-> ->]]%disConnect_cases; [rewrite Nat.sub_diag, Nat.add_0_r; by apply ok_same_messages; [|apply same_refl]|].
  unfold disconnect_begin. destruct clear.
  - rewrite drop_messages_spec by apply Hs. apply (ok_given_up s); [done|done|done|]. cbn [queued disconnect_end on_state on_thread on_queue m_queue m_items length]. lia.
  - cbn [queued disconnect_end on_state on_thread m_queue]. rewrite Nat.sub_diag, Nat.add_0_r. by apply (ok_disconnected s).
Qed.

Lemma sys_step_ok s s' : sys_ok s -> sys_step s s' -> sys_ok s'.
Proof.
  intros Hs Hst. destruct Hst as [s data w Hp|s data w Hp|s n Hn|s r w Hq He|s w He|s answers w Hr Hc Hf He|s answers w Hr Hc Hq He|s w He|s st wsi Hc|s|s clear b w Hd|s l].
  - by apply send_push_ok.
  - apply ok_same_messages; [done|]. revert Hp. unfold send_push, queue_push. destruct (_ =? 0)%nat; [intros [= <-]; apply same_refl|].
    destruct (_ <? _); [done|intros [= <-]; by repeat split].
  - destruct Hs as [Ho Hc He Ha]. unfold send_request. destruct (m_connected (sock s) && m_wsi (sock s)) eqn:Hb; split; cbn [sock accepted lost senders]; try done.
    + intros _ _ _ _. by left.
    + intros H1 H2. by rewrite H1, H2 in Hb.
  - apply ok_same_messages; [done|]. by eapply quiet_same.
  - by apply established_ok.
  - injection He as <-. eapply written_ok; [done|done|done|]. destruct Hf as [|b answers -> _]; done.
  - injection He as <-. eapply written_ok; [done|done|done|]. by destruct (queued (sock s)).
  - by apply closed_ok.
  - unfold connectcb. destruct (m_processEnd (sock s)); [by apply ok_same_messages; [|apply same_refl]|]. apply ok_disconnected; [done|..]; by destruct st.
  - by apply start_keeps_ok.
  - by eapply stop_keeps_ok.
  - apply ok_same_messages; [done|]. apply listener_same.
Qed.

Lemma reachable_sys_ok s : reachable_sys s -> sys_ok s.
Proof.
  induction 1 as [s ->|s s' _ IH Hst]; [|by eapply sys_step_ok]. split; cbn; try done. 
Qed.

(** ** Properties *)

(** C8: whatever the order of the threads that send, the callbacks, failed
    writes, closed connections and restarts, what went to the socket and what
    waits in the queue are accepted messages in the order of acceptance; the
    ones missing are counted, by failed writes, closed connections and
    clearing, so that without these nothing is lost; and a connected client
    with messages is never asleep: it has asked to write, or a thread is about
    to ask. *)
Theorem messages_in_order s : reachable_sys s ->
  sublist (written (sock s) ++ queued (sock s)) (accepted s) /\
  length (accepted s) = (length (written (sock s)) + length (queued (sock s)) + lost s)%nat /\
  (lost s = 0%nat -> accepted s = written (sock s) ++ queued (sock s)) /\
  (m_connected (sock s) = true -> m_wsi (sock s) = true -> closing (sock s) = false -> queued (sock s) <> [] ->
     requested (sock s) = true \/ (senders s > 0)%nat).
Proof.
  intros Hr. destruct (reachable_sys_ok s Hr) as [Ho Hc He Ha]. split_and!; [done|done| |done].
  intros Hl. symmetry. apply sublist_full; [done|]. rewrite length_app. lia.
Qed.

(** A client that is connected, and one that sends two messages to it. *)
Definition demo_up : ws := established (connectcb true true (registerListener (Some 1%nat) WebSocketClient)).2.
Definition demo_sys : sys := Sys (send (chars "b") (send (chars "a") demo_up).2).2 [chars "a"; chars "b"] 0 0.

Lemma demo_sys_reachable : reachable_sys demo_sys.
Proof.
  assert (H0 : reachable_sys (Sys WebSocketClient [] 0 0)) by by constructor.
  assert (H1 : reachable_sys (Sys (registerListener (Some 1%nat) WebSocketClient) [] 0 0)) by (eapply reach_step; [exact H0|by apply step_listener]).
  assert (H2 : reachable_sys (Sys (connectcb true true (registerListener (Some 1%nat) WebSocketClient)).2 [] 0 0))
    by (eapply reach_step; [exact H1|by apply (step_connect (Sys _ _ _ _))]).
  assert (H3 : reachable_sys (Sys demo_up [] 0 0)) by (eapply reach_step; [exact H2|by apply (step_established (Sys _ _ _ _))]).
  assert (Hsend : forall w acc x w', reachable_sys (Sys w acc 0 0) -> send_push x w = (true, w') -> reachable_sys (Sys (send_request w') (acc ++ [x]) 0 0)).
  { intros w acc x w' Hw Hp. eapply (reach_step _ _ (Sys w' (acc ++ [x]) 0 1)); [|by apply (step_request (Sys _ _ _ 1))].
    eapply reach_step; [exact Hw|]. by apply (step_push (Sys _ _ _ _)). }
  apply (Hsend (send (chars "a") demo_up).2 [chars "a"] (chars "b") _); [|reflexivity]. by eapply (Hsend demo_up [] (chars "a") _).
Qed.

Lemma messages_in_order_witness : accepted demo_sys = written (sock demo_sys) ++ queued (sock demo_sys).
Proof. exact (proj1 (proj2 (proj2 (messages_in_order demo_sys demo_sys_reachable))) eq_refl). Defined.

(** [n] callbacks for writing, each of them asked for. *)
Fixpoint write_all (n : nat) (w : ws) : option ws :=
  match n with
  | O => Some w
  | S n' => if requested w then write_all n' (writeable [] (on_socket false (written w) (scheduled w) false w)) else None
  end.

Lemma write_all_spec n : forall w, length (queued w) = n -> m_enabled (m_queue w) = true -> closing w = false -> (queued w <> [] -> requested w = true) ->
  exists w', write_all n w = Some w' /\ queued w' = [] /\ written w' = written w ++ queued w.
Proof.
  induction n as [|n IH]; intros w Hn He Hc Hr.
  - exists w. destruct (queued w); [|done]. by rewrite app_nil_r.
  - destruct (queued w) as [|x rest] eqn:Hq; [done|]. cbn [write_all]. rewrite Hr, writeable_spec by done.
    change (queued (on_socket false (written w) (scheduled w) false w)) with (queued w). rewrite Hq. cbn [length] in Hn.
    edestruct (IH (on_socket (match rest with [] => false | _ => true end) (written w ++ [x]) (scheduled w) false (on_queue (MkQueue rest true) w)))
      as (w' & Hw & Hq' & Hs); [cbn; lia|done|done|by destruct rest|].
    exists w'. split_and!; [done|done|]. rewrite Hs. cbn. by rewrite <- app_assoc.
Qed.

(** C27: a connected client empties its queue: when no thread is between the
    halves of [send], as many callbacks as there are messages, each of which
    the client has asked for, write all of them in order. *)
Theorem queue_drains s : reachable_sys s -> m_connected (sock s) = true -> m_wsi (sock s) = true -> closing (sock s) = false -> senders s = 0%nat ->
  exists w, write_all (length (queued (sock s))) (sock s) = Some w /\ queued w = [] /\ written w = written (sock s) ++ queued (sock s).
Proof.
  intros Hr H1 H2 H3 H4. destruct (reachable_sys_ok s Hr) as [_ _ He Ha]. apply write_all_spec; [done|done|done|].
  intros Hne. destruct (Ha H1 H2 H3 Hne); [done|lia].
Qed.

Lemma queue_drains_witness : exists w, write_all 2 (sock demo_sys) = Some w /\ queued w = [] /\ written w = [chars "a"; chars "b"].
Proof. exact (queue_drains demo_sys demo_sys_reachable eq_refl eq_refl eq_refl eq_refl). Defined.

(** C39: [disConnect] from another thread never returns from a running
    connection: the connection's own thread sees the end it was told of,
    disconnects as well, and detaches and deletes the thread object the caller
    joins.  It returns only when there is no thread, and then does nothing, or
    when the library's failure had ended the thread before, and then the
    client is disconnected. *)
Theorem disconnect_outcome clear w :
  match m_thread w with
  | None => disConnect clear w = Returns (false, w)
  | Some t =>
    if t_running t then disConnect clear w = Undefined
    else exists w', disConnect clear w = Returns (true, w') /\ m_thread w' = None /\ m_context w' = false /\ m_connected w' = false /\
         (clear = true -> m_enabled (m_queue w) = true -> queued w' = [])
  end.
Proof.
  unfold disConnect. destruct (m_thread w) as [[[] j]|]; cbn [t_running]; [|eexists; split; [reflexivity|]|done].
  - unfold process_exit, disconnect_begin. by destruct clear.
  - unfold disconnect_begin. destruct clear; split_and!; try done. intros _ He. by rewrite drop_messages_spec.
Qed.



(** With a profile of certificates and the default settings the library is
    given no certificate at all. *)
Lemma internal_loads_nothing lc lo profile : num_of lc "SecurityProfile" = profile -> profile = 2 \/ profile = 3 ->
  flag_of lc "InternalCertificateManagementEnabled" = false ->
  let i := setupSSLInfo (credentials_of lc lo) in client_ssl_ca i = None /\ client_ssl_cert i = None /\ client_ssl_private_key i = None.
Proof. intros E Hp Hf. unfold setupSSLInfo, credentials_of. rewrite E, Hf. by destruct Hp as [-> | ->]. Qed.

Definition demo_running : ws :=
  (Connect (fun _ => false) (toString steve_url) (chars "ocpp1.6") no_credentials 2000 30 true (registerListener (Some 1%nat) WebSocketClient)).2.

Lemma disconnect_outcome_witness : disConnect true demo_running = Undefined.
Proof. exact (disconnect_outcome true demo_running). Defined.

(** *** Basic authentication *)

(** The characters base64 makes of [n] bytes, with the null at the end. *)
Definition base64_room (n : nat) : nat := (4 * ((n + 2) / 3) + 1)%nat.

(** the header of a handshake carries the name and the password when they
    have at most 90 characters together, and is left out when they have more;
    the text fits its buffer up to 89, and with exactly 90 it passes the test
    of the length and does not fit. *)
Theorem basic_auth_room b64 u pw :
  (basic_auth b64 u pw 128 <> None <-> (length u + length pw <= 90)%nat) /\
  ((length u + length pw <= 89)%nat -> (base64_room (length u + length pw + 1) <= 128 - 6)%nat) /\
  ((length u + length pw = 90)%nat -> (128 - 6 < base64_room (length u + length pw + 1))%nat).
Proof.
  unfold base64_room. split_and!.
  - unfold basic_auth. destruct (Nat.ltb_spec 128 (6 + 4 * (length u + length pw + 1) / 3 + 1)) as [Hl|Hl].
    + split; [done|]. intros Hn. exfalso. assert (4 * (length u + length pw + 1) / 3 <= 4 * 91 / 3)%nat by (apply Nat.Div0.div_le_mono; lia).
      change (4 * 91 / 3)%nat with 121%nat in *. lia.
    + assert (length u + length pw <= 90)%nat as Hn.
      { destruct (decide (length u + length pw <= 90)%nat) as [|Hn]; [done|]. exfalso.
        assert (4 * 92 / 3 <= 4 * (length u + length pw + 1) / 3)%nat by (apply Nat.Div0.div_le_mono; lia). change (4 * 92 / 3)%nat with 122%nat in *. lia. }
      rewrite length_take, length_app. cbn [length]. change (length (chars ":")) with 1%nat.
      rewrite (proj2 (Nat.leb_gt _ _)) by lia. done.
  - intros Hn. assert ((length u + length pw + 1 + 2) / 3 <= 92 / 3)%nat by (apply Nat.Div0.div_le_mono; lia). change (92 / 3)%nat with 30%nat in *. lia.
  - intros ->. vm_compute. lia.
Qed.

Lemma basic_auth_room_witness : (128 - 6 < base64_room 91)%nat.
Proof. exact (proj2 (proj2 (basic_auth_room (fun s _ => s) (replicate 50 "a"%char) (replicate 40 "b"%char))) eq_refl). Defined.
