(* ===== verification/OcppSession.v ===== *)
(** * The OCPP client on its web socket
      ([src/src/ocpp/client/OCPPClient.cpp] with [websocketclient/websock_client.cpp])

    [OcppClient] and [OcppWebSocket] in one system.  A send thread takes a
    message of its connector and gives it to the web socket; the callbacks of
    the web socket are heard by the client, which hands the events of the
    connection on to the charge point and parses the messages.  The steps are
    the critical sections of the two components. *)

From Stdlib Require Import Ascii String.
From S2P Require Import Prelude Sqlite Json Regex Url OcppConnect OcppClient OcppWebSocket.

(** ** Operations *)

(** The listener of the client is the charge point. *)
Inductive notice := onConnected | onFailed | onDisconnected | onError.

(** The first listener stays. *)
Definition setOCPPClientListener (listener m_listener : option nat) : option nat :=
  match listener, m_listener with Some l, None => Some l | _, _ => m_listener end.

Definition isConnected (c : client) : bool := m_isConnected c.

Definition doConnect (inet_pton : text -> bool) (url protocol : text) (credentials : Credentials) (retry_interval ping_interval : Z)
    (context_ok : bool) (c : client) (w : ws) : option bool * ws :=
  if m_isConnected c then (Some true, w) else Connect inet_pton url protocol credentials retry_interval ping_interval context_ok w.

(** Its result is not looked at by the send thread. *)
Definition doSend (msg : string) (w : ws) : bool * ws := send (chars msg) w.

(** A byte of a message that was never written is [fill]. *)
Definition message_of (fill : ascii) (data : list (option ascii)) : string := string_of_list_ascii (default fill <$> data).

(** ** The system *)

(** [hands]: what a send thread has taken and not given on yet; [taken] and
    [pushed]: the messages taken and given to the web socket, with their
    connector; [refused]: how many it did not accept; [heard]: the events. *)
Record session := Session {
  oc : client;
  net : sys;
  hands : gmap nat string;
  taken : list (nat * string);
  pushed : list (nat * string);
  refused : nat;
  listener : option nat;
  told : list notice;
  heard : list event
}.

Section Session.
Context (info : ConnectInfo) (vr : string -> value -> bool) (parse : string -> option value) (asserts : bool).

(** One event of the web socket. *)
Definition tell (l : option nat) (n : notice) (t : list notice) : list notice := match l with Some _ => t ++ [n] | None => t end.

Definition hear (fill : ascii) (type0 : Z) (e : event) (s : session) : outcome session :=
  let with_client c t := Session c (net s) (hands s) (taken s) (pushed s) (refused s) (listener s) t (heard s ++ [e]) in
  match e with
  | OcppWebSocket.wsClientConnected => Returns (with_client (OcppClient.wsClientConnected (oc s)) (tell (listener s) onConnected (told s)))
  | OcppWebSocket.wsClientFailed => Returns (with_client (OcppClient.wsClientFailed (oc s)) (tell (listener s) onFailed (told s)))
  | OcppWebSocket.wsClientDisconnected => Returns (with_client (OcppClient.wsClientDisconnected (oc s)) (tell (listener s) onDisconnected (told s)))
  | OcppWebSocket.wsClientError => Returns (with_client (OcppClient.wsClientError (oc s)) (tell (listener s) onError (told s)))
  | wsClientDataReceived data =>
    c ← parseMessage parse asserts vr type0 (message_of fill data) (oc s);
    Returns (with_client c (told s))
  end.

Fixpoint hear_all (fill : ascii) (type0 : Z) (l : list event) (s : session) : outcome session :=
  match l with [] => Returns s | e :: l' => s ← hear fill type0 e s; hear_all fill type0 l' s end.

Definition with_oc (c : client) (s : session) : session :=
  Session c (net s) (hands s) (taken s) (pushed s) (refused s) (listener s) (told s) (heard s).
Definition with_net (n : sys) (s : session) : session :=
  Session (oc s) n (hands s) (taken s) (pushed s) (refused s) (listener s) (told s) (heard s).

(** A send thread with empty hands takes the next message of its connector. *)
Definition take_message (i : nat) (s : session) : option session :=
  match hands s !! i, connectors (oc s) !! i with
  | None, Some ctx =>
    '(m, _) ← next_message ctx;
    let s := with_oc (send_turn i (oc s)) s in
    Some (if String.eqb m EmptyString then s
          else Session (oc s) (net s) (<[i := m]> (hands s)) (taken s ++ [(i, m)]) (pushed s) (refused s) (listener s) (told s) (heard s))
  | _, _ => None
  end.

(** The first half of [doSend]; the second is a step of the web socket. *)
Definition push_message (i : nat) (s : session) : option session :=
  m ← hands s !! i;
  let n := net s in
  let '(ok, w) := send_push (chars m) (sock n) in
  Some (if (ok : bool)
        then Session (oc s) (Sys w (accepted n ++ [chars m]) (lost n) (S (senders n))) (delete i (hands s)) (taken s) (pushed s ++ [(i, m)])
               (refused s) (listener s) (told s) (heard s)
        else Session (oc s) (Sys w (accepted n) (lost n) (senders n)) (delete i (hands s)) (taken s) (pushed s)
               (S (refused s)) (listener s) (told s) (heard s)).

(** The steps of the client that do not touch the web socket. *)
Inductive own_step (c c' : client) : Prop :=
  | own_call addr uid text conn tx timeout now1 now2 : calls c !! addr = None -> m_pending c !! uid = None ->
      sendCall info addr true uid text conn tx timeout now1 now2 c = (true, c') -> own_step c c'
  | own_collect now uids : retryList c = [] -> NoDup uids -> c' = collect now uids c -> own_step c c'
  | own_retry now : c' = retry_next now c -> own_step c c'
  | own_reply text conn : send_reply true text conn c = Returns (true, c') -> own_step c c'
  | own_handler action h : c' = registerCallHandler action h c -> own_step c c'
  | own_stop : c' = OcppClient.stop c -> own_step c c'.

(** A step of the web socket other than a push, and the events it makes. *)
Inductive session_step (s : session) : session -> Prop :=
  | session_own c : own_step (oc s) c -> session_step s (with_oc c s)
  | session_take i s' : take_message i s = Some s' -> session_step s s'
  | session_push i s' : push_message i s = Some s' -> session_step s s'
  | session_net n fill type0 s' : sys_step (net s) n -> accepted n = accepted (net s) ->
      hear_all fill type0 (drop (length (events (sock (net s)))) (events (sock n))) (with_net n s) = Returns s' -> session_step s s'
  | session_connect inet url p cr retry ping ok : let n := net s in
      session_step s (with_net (Sys (doConnect inet url p cr retry ping ok (oc s) (sock n)).2 (accepted n) (lost n) (senders n)) s)
  | session_listener l : session_step s (Session (oc s) (net s) (hands s) (taken s) (pushed s) (refused s)
      (setOCPPClientListener (Some l) (listener s)) (told s) (heard s)).

(** The constructor of the client has registered it at the web socket. *)
Definition session_initial (s : session) : Prop :=
  exists c, calls c = ∅ /\ m_pending c = ∅ /\ retryList c = [] /\ tasks c = [] /\ m_isConnected c = false /\
  s = Session c (Sys (registerListener (Some 0%nat) WebSocketClient) [] 0 0) ∅ [] [] 0 None [] [].

Definition reachable_session : session -> Prop := reachable session_step session_initial.

Lemma own_client_step c c' : own_step c c' -> client_step info vr c c'.
Proof.
  intros [addr uid text conn tx timeout now1 now2 H1 H2 H3|now uids H1 H2 ->|now ->|text conn H1|action h ->| ->].
  - by eapply step_call.
  - by apply step_collect.
  - apply OcppClient.step_retry.
  - by eapply OcppClient.step_reply.
  - apply OcppClient.step_handler.
  - apply OcppClient.step_stop.
Qed.

(** ** The web socket in it *)

Lemma push_is_step data n ok w : send_push data (sock n) = (ok, w) ->
  sys_step n (if ok then Sys w (accepted n ++ [data]) (lost n) (S (senders n)) else Sys w (accepted n) (lost n) (senders n)).
Proof. intros Hp. destruct ok; [by apply step_push|by eapply step_refused]. Qed.

Lemma connect_is_step inet url p cr retry ping ok c n :
  let n' := Sys (doConnect inet url p cr retry ping ok c (sock n)).2 (accepted n) (lost n) (senders n) in n' = n \/ sys_step n n'.
Proof. unfold doConnect. destruct (m_isConnected c); [left; by destruct n|right; apply step_start]. Qed.

Lemma hear_net fill type0 e s s' : hear fill type0 e s = Returns s' ->
  net s' = net s /\ hands s' = hands s /\ taken s' = taken s /\ pushed s' = pushed s /\ refused s' = refused s /\ listener s' = listener s /\
  heard s' = heard s ++ [e] /\ calls (oc s') = calls (oc s) /\ tasks (oc s') = tasks (oc s).
Proof.
  destruct e as [| | | |data]; cbn [hear]; try by intros [= <-].
  destruct (message_ignored parse asserts vr type0 (message_of fill data) (oc s)) as [[->|[_ ->]] _]; cbn [mbind outcome_bind]; [by intros [= <-]|done].
Qed.

Lemma hear_all_net fill type0 l : forall s s', hear_all fill type0 l s = Returns s' ->
  net s' = net s /\ hands s' = hands s /\ taken s' = taken s /\ pushed s' = pushed s /\ refused s' = refused s /\ listener s' = listener s /\
  heard s' = heard s ++ l /\ calls (oc s') = calls (oc s) /\ tasks (oc s') = tasks (oc s).
Proof.
  induction l as [|e l IH]; intros s s'; cbn [hear_all]; [intros [= <-]; by rewrite app_nil_r|].
  destruct (hear fill type0 e s) as [| |s1] eqn:He; cbn [mbind outcome_bind]; [done|done|]. intros Hl.
  destruct (hear_net _ _ _ _ _ He) as (E1 & E2 & E3 & E4 & E5 & E6 & E7 & E8 & E9). destruct (IH _ _ Hl) as (F1 & F2 & F3 & F4 & F5 & F6 & F7 & F8 & F9).
  rewrite F1, F2, F3, F4, F5, F6, F7, F8, F9, E1, E2, E3, E4, E5, E6, E7, E8, E9. by rewrite <- app_assoc.
Qed.

(** *** Messages *)

Definition of_connector (i : nat) (l : list (nat * string)) : list (nat * string) := filter (fun x => x.1 = i) l.
Definition in_hand (i : nat) (s : session) : list (nat * string) := match hands s !! i with Some m => [(i, m)] | None => [] end.

Record messages_ok (s : session) : Prop := {
  ok_sys : reachable_sys (net s);
  ok_accepted : accepted (net s) = (fun x => chars x.2) <$> pushed s;
  ok_taken i : sublist (of_connector i (pushed s) ++ in_hand i s) (of_connector i (taken s));
  ok_number : length (taken s) = (length (pushed s) + size (hands s) + refused s)%nat;
  ok_all i : refused s = 0%nat -> of_connector i (taken s) = of_connector i (pushed s) ++ in_hand i s
}.

Lemma of_connector_app i l l' : of_connector i (l ++ l') = of_connector i l ++ of_connector i l'.
Proof. apply filter_app. Qed.

Lemma of_connector_one i j m : of_connector i [(j, m)] = if bool_decide (j = i) then [(j, m)] else [].
Proof. unfold of_connector. cbn. destruct (decide (j = i)); [by rewrite bool_decide_eq_true_2|by rewrite bool_decide_eq_false_2]. Qed.

Lemma messages_same s s' : messages_ok s -> reachable_sys (net s') -> accepted (net s') = accepted (net s) -> hands s' = hands s ->
  taken s' = taken s -> pushed s' = pushed s -> refused s' = refused s -> messages_ok s'.
Proof.
  intros [H1 H2 H3 H4 H5] Hr Ha Eh Et Ep Er. split; [done|by rewrite Ha, Ep| |by rewrite Et, Ep, Eh, Er|].
  - intros i. specialize (H3 i). unfold in_hand in *. by rewrite Et, Ep, Eh.
  - intros i. specialize (H5 i). unfold in_hand in *. by rewrite Er, Et, Ep, Eh.
Qed.

Lemma take_message_ok i s s' : messages_ok s -> take_message i s = Some s' -> messages_ok s'.
Proof.
  intros Hok. unfold take_message. destruct (hands s !! i) as [|] eqn:Hh; [done|]. destruct (connectors (oc s) !! i) as [ctx|]; [|done].
  destruct (next_message ctx) as [[m ctx']|]; cbn [mbind option_bind]; [|done]. intros [= <-].
  destruct (String.eqb m EmptyString); [by apply (messages_same s); try apply Hok|]. destruct Hok as [H1 H2 H3 H4 H5].
  split; cbn [net accepted hands taken pushed refused]; [done|done| | |].
  - intros j. specialize (H3 j). rewrite of_connector_app, of_connector_one. unfold in_hand in *. cbn [hands] in *. destruct (bool_decide_reflect (i = j)) as [->|Hne].
    + rewrite Hh, app_nil_r in H3. rewrite lookup_insert_eq. by apply sublist_app.
    + rewrite lookup_insert_ne, app_nil_r by done. done.
  - rewrite length_app, map_size_insert, Hh, H4. cbn [length]. lia.
  - intros j Hr. specialize (H5 j Hr). rewrite of_connector_app, of_connector_one, H5. unfold in_hand. cbn [hands]. destruct (bool_decide_reflect (i = j)) as [->|Hne].
    + by rewrite Hh, lookup_insert_eq, app_nil_r.
    + by rewrite lookup_insert_ne, app_nil_r.
Qed.

Lemma push_message_ok i s s' : messages_ok s -> push_message i s = Some s' -> messages_ok s'.
Proof.
  intros [H1 H2 H3 H4 H5]. unfold push_message. destruct (hands s !! i) as [m|] eqn:Hh; cbn [mbind option_bind]; [|done].
  destruct (send_push (chars m) (sock (net s))) as [ok w] eqn:Hp. pose proof (push_is_step _ _ _ _ Hp) as Hst.
  assert (Hsz : size (delete i (hands s)) = pred (size (hands s)) /\ (0 < size (hands s))%nat).
  { rewrite map_size_delete, Hh. split; [done|]. assert (size (hands s) <> 0%nat); [|lia]. rewrite map_size_non_empty_iff. intros E. by rewrite E in Hh. }
  destruct Hsz as [Hsz Hpos].
  destruct ok; intros [= <-]; (split; cbn [net accepted hands taken pushed refused]; [by eapply reach_step| | | |]).
  - by rewrite H2, fmap_app.
  - intros j. specialize (H3 j). rewrite of_connector_app, of_connector_one. unfold in_hand in *. cbn [hands] in *. destruct (bool_decide_reflect (i = j)) as [->|Hne].
    + rewrite Hh in H3. by rewrite lookup_delete_eq, app_nil_r.
    + by rewrite lookup_delete_ne, app_nil_r.
  - rewrite length_app, Hsz, H4. cbn [length]. lia.
  - intros j Hr. specialize (H5 j Hr). rewrite of_connector_app, of_connector_one, H5. unfold in_hand. cbn [hands]. destruct (bool_decide_reflect (i = j)) as [->|Hne].
    + by rewrite Hh, lookup_delete_eq, app_nil_r.
    + by rewrite lookup_delete_ne, app_nil_r.
  - done.
  - intros j. specialize (H3 j). unfold in_hand in *. cbn [hands] in *. destruct (decide (i = j)) as [->|Hne].
    + rewrite lookup_delete_eq, app_nil_r. etrans; [|exact H3]. by apply sublist_inserts_r.
    + by rewrite lookup_delete_ne.
  - rewrite Hsz, H4. lia.
  - done.
Qed.

Lemma session_step_messages s s' : messages_ok s -> session_step s s' -> messages_ok s'.
Proof.
  intros Hok [c Hc|i s2 Hs|i s2 Hs|n fill type0 s2 Hst Ha Hh|inet url p cr retry ping ok|l].
  - by apply (messages_same s); try apply Hok.
  - by eapply take_message_ok.
  - by eapply push_message_ok.
  - destruct (hear_all_net _ _ _ _ _ Hh) as (E1 & E2 & E3 & E4 & E5 & _). apply (messages_same s); try done; rewrite E1; [|done].
    eapply reach_step; [apply Hok|done].
  - apply (messages_same s); try done. destruct (connect_is_step inet url p cr retry ping ok (oc s) (net s)) as [E|Hst]; subst n; cbn [net with_net].
    + rewrite E. apply Hok.
    + eapply reach_step; [apply Hok|done].
  - by apply (messages_same s); try apply Hok.
Qed.

Lemma reachable_messages s : reachable_session s -> messages_ok s.
Proof.
  induction 1 as [s (c & _ & _ & _ & _ & _ & ->)|s s' _ IH Hst]; [|by eapply session_step_messages]. split; cbn; [|done|done|done|done].
  eapply (reach_step _ _ (Sys WebSocketClient [] 0 0)); [by constructor|]. apply (step_listener (Sys WebSocketClient [] 0 0)).
Qed.

Lemma of_connector_sublist i l l' : sublist l l' -> sublist (of_connector i l) (of_connector i l').
Proof.
  unfold of_connector. induction 1 as [|x l l' _ IH|x l l' _ IH]; [done| |]; rewrite ?filter_cons; destruct (decide (x.1 = i)).
  - by apply sublist_skip.
  - done.
  - by apply sublist_cons.
  - done.
Qed.

(** A part of a list that was made by a function is made from a part. *)
Lemma sublist_fmap_inv {A B} (f : A -> B) (l : list B) : forall k, sublist l (f <$> k) -> exists k', l = f <$> k' /\ sublist k' k.
Proof.
  intros k. revert l. induction k as [|x k IH]; intros l Hs.
  - apply sublist_nil_r in Hs as ->. by exists [].
  - rewrite fmap_cons in Hs. apply sublist_cons_r in Hs as [Hs|(l' & -> & Hs)]; destruct (IH _ Hs) as (k' & -> & Hk).
    + exists k'. split; [done|]. by apply sublist_cons.
    + exists (x :: k'). split; [done|]. by apply sublist_skip.
Qed.

(** *** Events *)

Definition grows (w w' : ws) : Prop := events w `prefix_of` events w'.

Lemma grows_refl w : grows w w.
Proof. by unfold grows. Qed.

Lemma grows_same w w' : events w' = events w -> grows w w'.
Proof. unfold grows. by intros ->. Qed.

Lemma call_grows e w w' : call_listener e w = Returns w' -> grows w w'.
Proof. unfold call_listener. destruct (m_listener w); [intros [= <-]; by eexists|done]. Qed.

Lemma append_grows data w w' : appendFragmentedDate data w = Returns w' -> events w' = events w.
Proof.
  unfold appendFragmentedDate. destruct (_ <? _)%nat; [done|]. destruct (m_fragmented_frame w) as [f|]; [|by intros [= <-]].
  unfold copy_to. destruct (_ + _ <=? _)%nat; cbn [mbind outcome_bind]; [by intros [= <-]|done].
Qed.

Lemma receive_grows first last r data w w' : receive first last r data w = Returns w' -> grows w w'.
Proof.
  unfold receive. destruct (m_listener w); [|intros [= <-]; apply grows_refl]. destruct first, last; cbn [andb].
  - apply call_grows.
  - intros Ha. apply append_grows in Ha. unfold grows. by rewrite Ha.
  - destruct (appendFragmentedDate data w) as [| |w1] eqn:Ha; cbn [mbind outcome_bind]; [done|done|]. apply append_grows in Ha.
    destruct (call_listener _ w1) as [| |w2] eqn:Hc; cbn [mbind outcome_bind]; [done|done|]. intros [= <-]. apply call_grows in Hc. unfold grows in *. by rewrite <- Ha.
  - destruct (appendFragmentedDate data w) as [| |w1] eqn:Ha; cbn [mbind outcome_bind]; [done|done|]. intros [= <-]. apply append_grows in Ha. unfold grows. by rewrite Ha.
Qed.

Lemma write_loop_events fuel : forall answers w, events (write_loop fuel answers w) = events w.
Proof.
  induction fuel as [|n IH]; intros answers w; cbn [write_loop]; [done|]. destruct (queue_pop (m_queue w)) as [[msg|] q]; [|done].
  destruct answers as [|[] answers]; [| |done]; (destruct (negb _); [done|by rewrite IH]).
Qed.

Lemma eventcb_grows r w w' : eventcb r w = Returns w' -> grows w w'.
Proof.
  unfold eventcb.
  assert (Hs : forall (b : bool) w1, grows w w1 -> grows w (if b then schedule_connect w1 else w1)) by (intros [] w1 Hg; exact Hg).
  destruct r as [ | | | |first last n data|answers| | | ].
  - intros [= <-]. unfold grows. by destruct (negb (m_processEnd w) && _).
  - unfold connection_error. destruct (negb (m_connection_error_notified w)); [|intros [= <-]; apply (Hs (m_context w)), grows_refl].
    destruct (call_listener _ _) as [| |w1] eqn:Hc; cbn [mbind outcome_bind]; [done|done|]. intros [= <-]. apply (Hs (m_context w1)). exact (call_grows _ _ _ Hc).
  - intros [= <-]. apply grows_refl.
  - intros [= <-]. unfold established. cbn [m_listener on_state]. destruct (m_listener w); destruct (negb _ && _); unfold grows; cbn; first [done|by eexists].
  - destruct (receive _ _ _ _ _) as [| |w1] eqn:Hr; cbn [mbind outcome_bind]; [done|done|]. intros [= <-]. by apply receive_grows in Hr.
  - intros [= <-]. unfold grows, writeable. by rewrite write_loop_events.
  - intros [= <-]. apply (Hs (negb (m_retry_interval_ms w =? 0))), grows_refl.
  - unfold closed. destruct (call_listener _ _) as [| |w1] eqn:Hc; cbn [mbind outcome_bind]; [done|done|]. intros [= <-].
    apply (Hs (negb (m_retry_interval_ms w1 =? 0))). exact (call_grows _ _ _ Hc).
  - intros [= <-]. apply grows_refl.
Qed.

Lemma connect_events inet url p cr retry ping ok w : events (Connect inet url p cr retry ping ok w).2 = events w.
Proof.
  unfold Connect. destruct (m_listener w); [|done]. destruct (m_thread w); [done|]. destruct (Url.parse _ _ _) as [[|] u]; [|done].
  destruct (_ && _); [|done]. by destruct ok.
Qed.

Lemma sys_step_grows n n' : sys_step n n' -> grows (sock n) (sock n').
Proof.
  intros [s data w Hp|s data w Hp|s k Hk|s r w _ He|s w He|s answers w _ _ _ He|s answers w _ _ _ He|s w He|s st wsi _|s inet url p c retry ping ok|s clear b w Hd|s l];
    cbn [sock].
  - revert Hp. unfold send_push. destruct (_ =? _)%nat; [done|]. destruct (queue_push data (m_queue (sock s))) as [ok q]. intros [= -> <-]. by apply grows_same.
  - revert Hp. unfold send_push. destruct (_ =? _)%nat; [intros [= <-]; apply grows_refl|]. destruct (queue_push data (m_queue (sock s))) as [ok q]. intros [= -> <-]. by apply grows_same.
  - unfold send_request. destruct (_ && _); by apply grows_same.
  - by apply eventcb_grows in He.
  - by apply eventcb_grows in He.
  - by apply eventcb_grows in He.
  - by apply eventcb_grows in He.
  - by apply eventcb_grows in He.
  - unfold connectcb. destruct (m_processEnd (sock s)); [by apply grows_same|]. destruct st; by apply grows_same.
  - apply grows_same. by rewrite connect_events.
  - apply grows_same. destruct (disConnect_cases _ _ _ _ Hd) as [[-> ->]|[-> ->]]; [done|]. unfold disconnect_begin. destruct clear; done.
  - by apply grows_same.
Qed.

(** The connection as the events say it. *)
Fixpoint last_connection (b : bool) (l : list event) : bool :=
  match l with
  | [] => b
  | OcppWebSocket.wsClientConnected :: l' => last_connection true l'
  | wsClientDataReceived _ :: l' => last_connection b l'
  | _ :: l' => last_connection false l'
  end.

Lemma last_connection_app l l' : forall b, last_connection b (l ++ l') = last_connection (last_connection b l) l'.
Proof. induction l as [|e l IH]; intros b; [done|]. destruct e; cbn; apply IH. Qed.

Lemma hear_connected fill type0 e s s' : hear fill type0 e s = Returns s' -> m_isConnected (oc s') = last_connection (m_isConnected (oc s)) [e].
Proof.
  destruct e as [| | | |data]; cbn [hear]; try by intros [= <-].
  destruct (message_ignored parse asserts vr type0 (message_of fill data) (oc s)) as [[->|[_ ->]] _]; cbn [mbind outcome_bind]; [by intros [= <-]|done].
Qed.

Lemma hear_all_connected fill type0 l : forall s s', hear_all fill type0 l s = Returns s' -> m_isConnected (oc s') = last_connection (m_isConnected (oc s)) l.
Proof.
  induction l as [|e l IH]; intros s s'; cbn [hear_all]; [by intros [= <-]|].
  destruct (hear fill type0 e s) as [| |s1] eqn:He; cbn [mbind outcome_bind]; [done|done|]. intros Hl. apply IH in Hl. apply hear_connected in He.
  rewrite Hl, He. by destruct e.
Qed.

(** *** Calls *)

Definition no_success (c : client) : Prop := forall a p, calls c !! a = Some p -> success p = false.

Lemma no_success_insert c a p : no_success c -> success p = false -> forall b q, <[a := p]> (calls c) !! b = Some q -> success q = false.
Proof. intros Hc Hp b q Hq. apply lookup_insert_Some in Hq as [[_ <-]|[_ Hq]]; [done|by eapply Hc]. Qed.

(** What the steps of the client keep. *)
Definition keeps (c c' : client) : Prop := m_isConnected c' = m_isConnected c /\ tasks c' = tasks c /\ (no_success c -> no_success c').

Lemma keeps_same c c' : m_isConnected c' = m_isConnected c -> tasks c' = tasks c -> calls c' = calls c -> keeps c c'.
Proof. intros H1 H2 H3. unfold keeps, no_success. by rewrite H1, H2, H3. Qed.

Lemma keeps_trans c1 c2 c3 : keeps c1 c2 -> keeps c2 c3 -> keeps c1 c3.
Proof. intros (A1 & A2 & A3) (B1 & B2 & B3). split; [congruence|]. split; [congruence|tauto]. Qed.

Lemma collect_keeps now uids : forall c, keeps c (collect now uids c).
Proof.
  induction uids as [|uid uids IH]; intros c; cbn [collect]; [by apply keeps_same|].
  destruct (m_pending c !! uid) as [a|]; cbn [mbind option_bind]; [|apply IH]. destruct (calls c !! a) as [p|] eqn:Hp; cbn [mbind option_bind]; [|apply IH].
  unfold inspect. destruct (finished p); [|destruct (isTx p && (nextRetry p <=? now) && (retryCount p <? maxRetry p)); [|destruct (expireAt p <=? now)]].
  - eapply keeps_trans; [|apply IH]. split; [done|]. split; [done|]. intros Hn b q. cbn [calls with_calls with_pending].
    apply no_success_insert; [done|exact (Hn a p Hp)].
  - eapply keeps_trans; [|apply IH]. by apply keeps_same.
  - eapply keeps_trans; [|apply IH]. split; [done|]. split; [done|]. intros Hn b q. cbn [calls with_calls with_pending].
    by apply no_success_insert.
  - apply IH.
Qed.

Lemma retry_keeps now c : keeps c (retry_next now c).
Proof.
  unfold retry_next. destruct (retryList c) as [|a rest]; [by apply keeps_same|]. unfold retry_one. cbn [calls with_retry].
  destruct (calls c !! a) as [p|] eqn:Hp; [|by apply keeps_same]. destruct (finished p); [by apply keeps_same|].
  destruct (connectors _ !! _); (split; [done|]; split; [done|]); intros Hn b q; cbn [calls with_calls with_connectors];
    (apply no_success_insert; [done|exact (Hn a p Hp)]).
Qed.

Lemma own_keeps c c' : own_step c c' -> keeps c c'.
Proof.
  intros [addr uid text conn tx timeout now1 now2 _ _ H|now uids _ _ ->|now ->|text conn H|action h ->| ->].
  - revert H. unfold sendCall. destruct (negb (m_isConnected c)); [done|]. cbn [negb]. destruct (connectors c !! Z.to_nat conn); [|done]. intros [= <-].
    split; [done|]. split; [done|]. intros Hn b q. cbn [calls with_calls with_connectors with_pending]. by apply no_success_insert.
  - apply collect_keeps.
  - apply retry_keeps.
  - revert H. unfold send_reply. destruct (negb (m_isConnected c)); [done|]. cbn [negb]. destruct (connectors c !! Z.to_nat conn); [|done]. intros [= <-].
    by apply keeps_same.
  - by apply keeps_same.
  - by apply keeps_same.
Qed.

Lemma turn_keeps i c : keeps c (send_turn i c).
Proof.
  unfold send_turn. destruct (connectors c !! i); [|by apply keeps_same]. destruct (next_message _) as [[m ctx]|]; [|by apply keeps_same].
  destruct (String.eqb m EmptyString); by apply keeps_same.
Qed.

Record session_ok (s : session) : Prop := {
  ok_heard : heard s = events (sock (net s));
  ok_connected : m_isConnected (oc s) = last_connection false (heard s);
  ok_no_success : no_success (oc s);
  ok_no_tasks : tasks (oc s) = []
}.

Lemma session_keeps s s' : session_ok s -> heard s' = heard s -> events (sock (net s')) = events (sock (net s)) -> keeps (oc s) (oc s') -> session_ok s'.
Proof. intros [H1 H2 H3 H4] Eh Ee (K1 & K2 & K3). split; [by rewrite Eh, Ee|by rewrite Eh, K1|by apply K3|by rewrite K2]. Qed.

Lemma push_events data w ok w' : send_push data w = (ok, w') -> events w' = events w.
Proof. unfold send_push. destruct (_ =? _)%nat; [by intros [= <- <-]|]. destruct (queue_push data (m_queue w)). by intros [= <- <-]. Qed.

Lemma session_step_ok s s' : session_ok s -> session_step s s' -> session_ok s'.
Proof.
  intros Hok [c Hc|i s2 Hs|i s2 Hs|n fill type0 s2 Hst _ Hh|inet url p cr retry ping ok|l].
  - apply (session_keeps s); try done. by apply own_keeps.
  - revert Hs. unfold take_message. destruct (hands s !! i); [done|]. destruct (connectors (oc s) !! i); [|done].
    destruct (next_message _) as [[m ctx]|]; cbn [mbind option_bind]; [|done]. intros [= <-].
    destruct (String.eqb m EmptyString); (apply (session_keeps s); [done|done|done|apply turn_keeps]).
  - revert Hs. unfold push_message. destruct (hands s !! i); cbn [mbind option_bind]; [|done].
    destruct (send_push _ _) as [ok w] eqn:Hp. apply push_events in Hp. destruct ok; intros [= <-]; (apply (session_keeps s); [done|done|exact Hp|by apply keeps_same]).
  - destruct (hear_all_net _ _ _ _ _ Hh) as (E1 & _ & _ & _ & _ & _ & E7 & E8 & E9). pose proof (hear_all_connected _ _ _ _ _ Hh) as Ec.
    destruct Hok as [H1 H2 H3 H4]. destruct (sys_step_grows _ _ Hst) as [new Hnew]. rewrite Hnew, drop_app_length in *.
    cbn [net oc with_net heard] in *. split.
    + by rewrite E7, E1, Hnew, H1.
    + by rewrite Ec, E7, last_connection_app, H2.
    + unfold no_success. by rewrite E8.
    + by rewrite E9.
  - apply (session_keeps s); [done|done| |by apply keeps_same]. subst n. cbn [net with_net sock]. unfold doConnect.
    destruct (m_isConnected (oc s)); [done|apply connect_events].
  - apply (session_keeps s); try done.
Qed.

Lemma reachable_session_ok s : reachable_session s -> session_ok s.
Proof.
  induction 1 as [s (c & Hc & _ & _ & Ht & Hn & ->)|s s' _ IH Hst]; [|by eapply session_step_ok].
  split; cbn; [done|done| |done]. intros a p. by rewrite Hc, lookup_empty.
Qed.

(** ** Properties *)

(** C21: what is on the wire and what waits in the web socket are messages
    the send threads took, for each connector in the order they were taken;
    each message taken is there, in a thread's hands, refused by the queue, or
    lost with a connection, a failed write or a clearing, so that without
    these every connector's messages are all there. *)
Theorem session_messages_in_order s : reachable_session s ->
  exists wire, (fun x => chars x.2) <$> wire = written (sock (net s)) ++ queued (sock (net s)) /\
  (forall i, sublist (of_connector i wire) (of_connector i (taken s))) /\
  length (taken s) = (length wire + size (hands s) + refused s + lost (net s))%nat /\
  (lost (net s) = 0%nat -> refused s = 0%nat -> forall i, of_connector i (taken s) = of_connector i wire ++ in_hand i s).
Proof.
  intros Hr. destruct (reachable_messages s Hr) as [Hs Ha Ht Hn Hall]. destruct (reachable_sys_ok _ Hs) as [Ho Hc _ _]. rewrite Ha in Ho, Hc.
  destruct (sublist_fmap_inv _ _ _ Ho) as (wire & Hw & Hsub). rewrite length_fmap in Hc.
  assert (Hlen : length wire = (length (written (sock (net s))) + length (queued (sock (net s))))%nat).
  { apply (f_equal length) in Hw. rewrite length_app, length_fmap in Hw. done. }
  exists wire. split_and!; [done| |lia|].
  - intros i. etrans; [by apply of_connector_sublist|]. etrans; [|apply (Ht i)]. by apply sublist_inserts_r.
  - intros Hl Href i. rewrite (Hall i Href). do 2 f_equal. symmetry. apply sublist_full; [done|lia].
Qed.

(** C33: no call ever succeeds and no handler ever runs, whatever the server
    sends and whatever the threads do: a call that ends, ends without a
    response.  Whether the client is connected is what the last event of its
    connection said. *)
Theorem no_call_succeeds s : reachable_session s ->
  (forall a p now r, calls (oc s) !! a = Some p -> sendCall_wait p now = Some r -> r = (false, None)) /\
  tasks (oc s) = [] /\ isConnected (oc s) = last_connection false (events (sock (net s))).
Proof.
  intros Hr. destruct (reachable_session_ok s Hr) as [Hh Hc Hn Ht]. split_and!; [|done|unfold isConnected; by rewrite Hc, Hh].
  intros a p now r Hp. unfold sendCall_wait. rewrite (Hn _ _ Hp). destruct (finished p); [by intros [= <-]|]. destruct (_ <=? _); [by intros [= <-]|done].
Qed.

End Session.

(** ** A small session

    A client with two connectors, whose calls the server does not answer. *)

Definition demo_info : ConnectInfo := Info 10 3.
Definition demo_vr (action : string) (payload : value) : bool := true.
Definition demo_parse (message : string) : option value := None.
Abbreviation demo_reachable := (reachable_session demo_info demo_vr demo_parse false).

Definition demo_client : client := Client [Connector ["a"%string] ["b"%string] true; Connector [] ["c"%string] true] ∅ ∅ [] false true ∅ [] [].
Definition demo_start : session := Session demo_client (Sys (registerListener (Some 0%nat) WebSocketClient) [] 0 0) ∅ [] [] 0 None [] [].

Lemma demo_start_reachable : demo_reachable demo_start.
Proof. constructor. exists demo_client. split_and!; reflexivity. Qed.

(** The threads take and push in this order. *)
Inductive move := Take (i : nat) | Push (i : nat).
Definition do_move (m : move) (s : session) : option session := match m with Take i => take_message i s | Push i => push_message i s end.
Fixpoint do_moves (l : list move) (s : session) : session := match l with [] => s | m :: l' => do_moves l' (default s (do_move m s)) end.

Lemma moves_reachable l : forall s, demo_reachable s -> demo_reachable (do_moves l s).
Proof.
  induction l as [|m l IH]; intros s Hs; [done|]. cbn [do_moves]. apply IH. destruct (do_move m s) as [s'|] eqn:Hm; [|done].
  eapply reach_step; [exact Hs|]. destruct m; [by eapply session_take|by eapply session_push].
Qed.

Definition demo_session : session := do_moves [Take 0; Take 1; Push 1; Push 0; Take 0] demo_start.

Lemma session_messages_in_order_witness : exists wire, (fun x => chars x.2) <$> wire = [chars "c"; chars "a"] /\
  of_connector 0 wire ++ [(0%nat, "b"%string)] = [(0%nat, "a"%string); (0%nat, "b"%string)].
Proof.
  destruct (session_messages_in_order demo_info demo_vr demo_parse false demo_session (moves_reachable _ _ demo_start_reachable)) as (wire & Hw & _ & _ & Hall).
  exists wire. split; [exact Hw|]. symmetry. exact (Hall eq_refl eq_refl 0%nat).
Defined.

(** The connection is made, a call is sent, and its time is over. *)
Definition demo_events (n : sys) (s : session) : session :=
  match hear_all demo_vr demo_parse false "000" 0 (drop (length (events (sock (net s)))) (events (sock n))) (with_net n s) with Returns s' => s' | _ => s end.

Definition demo_trying : session := demo_events (Sys (connectcb true true (sock (net demo_start))).2 [] 0 0) demo_start.
Definition demo_connected : session :=
  demo_events (Sys (match eventcb CLIENT_ESTABLISHED (sock (net demo_trying)) with Returns w => w | _ => sock (net demo_trying) end) [] 0 0) demo_trying.
Definition demo_called : session := with_oc (OcppClient.sendCall demo_info 7 true "u" "m" 0 false 1 0 0 (oc demo_connected)).2 demo_connected.
Definition demo_expired : session := with_oc (collect (ms 1) ["u"%string] (oc demo_called)) demo_called.

Lemma demo_expired_reachable : demo_reachable demo_expired.
Proof.
  assert (H1 : demo_reachable demo_trying).
  { eapply reach_step; [exact demo_start_reachable|]. eapply (session_net _ _ _ _ _ _ "000"%char 0); [by apply (step_connect (net demo_start) true true)|reflexivity|reflexivity]. }
  assert (H2 : demo_reachable demo_connected).
  { eapply reach_step; [exact H1|]. eapply (session_net _ _ _ _ _ _ "000"%char 0); [by apply (step_established (net demo_trying))|reflexivity|reflexivity]. }
  assert (H3 : demo_reachable demo_called).
  { eapply reach_step; [exact H2|]. apply session_own. by apply (own_call _ _ _ 7%nat "u" "m" 0 false 1 0 0). }
  eapply reach_step; [exact H3|]. apply session_own. apply (own_collect _ _ _ (ms 1) ["u"%string]); [done|apply NoDup_singleton|done].
Qed.

Lemma demo_call_ended : exists p, calls (oc demo_expired) !! 7%nat = Some p /\ sendCall_wait p (ms 1) = Some (success p, if success p then Some (response p) else None).
Proof. eexists. split; [vm_compute; reflexivity|]. vm_compute. reflexivity. Qed.

Lemma no_call_succeeds_witness : exists p, calls (oc demo_expired) !! 7%nat = Some p /\ sendCall_wait p (ms 1) = Some (false, None) /\ isConnected (oc demo_expired) = true.
Proof.
  destruct demo_call_ended as (p & Hp & Hw). pose proof (no_call_succeeds demo_info demo_vr demo_parse false demo_expired demo_expired_reachable) as (H1 & _ & H3).
  exists p. split; [exact Hp|]. split; [|exact H3]. rewrite Hw. f_equal. exact (H1 _ _ _ _ Hp Hw).
Defined.
