(* ===== verification/OcppValidator.v ===== *)
(** * The validation of messages by schemas
      ([src/src/ocpp/tool/jsonValidator/JsonValidator.cpp])

    The schema of an action is read from its file for every message.  The
    parser and the validator are the JSON library's; what the file system
    answers is a function of the path. *)

From Stdlib Require Import Ascii String.
From stdpp Require Import strings.
From S2P Require Import Prelude Json.

(** What [ftell] says at the end of an opened file, and what [fread] gives of
    it; [None] when the file cannot be opened. *)
Record file_answer := FileAnswer { f_length : Z; f_read : string }.

Section Validator.
Context (file : string -> option file_answer) (parse : string -> option value).
(** [accepts schema document]. *)
Context (accepts : value -> value -> bool).

(** A document that is null stands for a failure. *)
Definition loadSchemaFromFile (path : string) : value :=
  match file path with
  | None => Null
  | Some f =>
    if f_length f <=? 0 then Null
    else if negb (Z.of_nat (String.length (f_read f)) =? f_length f) then Null
    else match parse (c_string (f_read f)) with None => Null | Some doc => doc end
  end.

Definition validateJson (dir action : string) (doc : value) (typeSuffix : string) : bool :=
  let schemaPath := (dir ++ "/" ++ action ++ typeSuffix)%string in
  let schemaDoc := loadSchemaFromFile schemaPath in
  if bool_decide (GetType schemaDoc = kNullType) then false else accepts schemaDoc doc.

Definition validateRequest (dir action : string) (reqMsg : value) : bool := validateJson dir action reqMsg ".json".
Definition validateResponse (dir action : string) (rspMsg : value) : bool := validateJson dir action rspMsg "Response.json".

(** A schema that can be used: a file of the action, read to its end, with a
    document that is not null. *)
Definition schema_at (path : string) (schema : value) : Prop :=
  exists f, file path = Some f /\ (0 < f_length f /\ f_length f = Z.of_nat (String.length (f_read f))) /\ parse (c_string (f_read f)) = Some schema /\ GetType schema <> kNullType.

(** a message is valid exactly when the file of its action, the one for
    requests or the one for responses, was read to its end and holds a schema
    that accepts it: every failure of the file, of the reading or of the
    parser makes the message invalid. *)
Theorem valid_by_schema dir action typeSuffix doc :
  validateJson dir action doc typeSuffix = true <->
  exists schema, schema_at (dir ++ "/" ++ action ++ typeSuffix)%string schema /\ accepts schema doc = true.
Proof.
  unfold validateJson, loadSchemaFromFile, schema_at. destruct (file _) as [f|]; [|split; [done|naive_solver]].
  destruct (Z.leb_spec (f_length f) 0); [split; [done|intros (s & (g & [= <-] & Hl & _) & _); lia]|].
  destruct (Z.eqb_spec (Z.of_nat (String.length (f_read f))) (f_length f)) as [E|E]; cbn [negb]; [|split; [done|intros (s & (g & [= <-] & [_ Hl] & _) & _); by destruct E]].
  destruct (parse _) as [schema|] eqn:Hp; [|split; [done|intros (s & (g & [= <-] & _ & Hs & _) & _); by rewrite Hs in Hp]].
  destruct (bool_decide_reflect (GetType schema = kNullType)) as [Hn|Hn].
  - split; [done|]. intros (s & (g & [= <-] & _ & Hs & Hn') & _). rewrite Hs in Hp. by injection Hp as ->.
  - split; [intros Ha; exists schema; split; [by exists f|done]|]. intros (s & (g & [= <-] & _ & Hs & _) & Ha). rewrite Hs in Hp. by injection Hp as ->.
Qed.

End Validator.
