(* ===== verification/Program.v ===== *)
(** * The program entry and its small servers
      ([src/src/main.cpp], [web_socket_client_test] of
       [ocpp/client/websocketclient/websock_client.cpp], [tcp/ccu.c],
       [database/sqlite_base.c], [database/dao/sql_trace.c])

    What [main] runs, on top of the web socket client; the TCP server, which
    registers callbacks at the network library; the second way to open the
    database, and its trace. *)

From Stdlib Require Import Ascii String.
From stdpp Require Import strings.
From S2P Require Import Prelude Sqlite Regex Url OcppConnect OcppWebSocket Database.

(** ** [main] *)

(** A run ends with a code, by an exception, or never. *)
Inductive ending := Exits (code : Z) | Terminates | Runs.

Definition test_url : text := chars "ws://192.168.18.128:8080/steve/websocket/CentralSystemService/ChargeBox1".
Definition test_credentials : Credentials := with_login (chars "ChargeBox1") (chars "1234") no_credentials.

(** The listener is on the stack; after a connection that was started the
    function only sleeps. *)
Definition web_socket_client_test (inet_pton : text -> bool) (context_ok : bool) : ending * ws :=
  let client := registerListener (Some 1%nat) WebSocketClient in
  let '(success, client) := Connect inet_pton test_url (chars "ocpp1.6") test_credentials 5000 5000 context_ok client in
  (match success with None => Terminates | Some false => Exits (-1) | Some true => Runs end, client).

(** The code of the test is not looked at. *)
Definition main (inet_pton : text -> bool) (context_ok : bool) : ending * ws :=
  let '(e, client) := web_socket_client_test inet_pton context_ok in
  (match e with Exits _ => Exits 0 | _ => e end, client).

(** The program asks the library for the steve server on port 8080, without
    TLS, with the name and the password of the test, and runs for ever; when
    the library makes no context it exits with 0. *)
Theorem main_outcome inet_pton started wsi b64 :
  (main inet_pton false).1 = Exits 0 /\ (main inet_pton true).1 = Runs /\
  let w := (main inet_pton true).2 in
  (connectcb started wsi w).1 = Some (MkRequest (chars "192.168.18.128") (chars "/steve/websocket/CentralSystemService/ChargeBox1") 8080 [] (chars "ocpp1.6")) /\
  authorization b64 w = Some (take 127 (chars "Basic " ++ b64 (chars "ChargeBox1:1234") 122%nat)).
Proof. cbv zeta. split_and!; vm_compute; reflexivity. Qed.

(** ** The TCP server ([ccu.c]) *)

Record connection := MkConnection { close_callback : bool; read_callback : bool; being_read : bool }.
Inductive tcp_line := TcpCreateFailed | TcpAccepted (fd : Z) | TcpReceived (fd : Z) (data : text) | TcpClosed (fd : Z).
Record tcp_server := TcpServer { connections : gmap Z connection; tcp_log : list tcp_line }.

Definition log_tcp (l : tcp_line) (s : tcp_server) : tcp_server := TcpServer (connections s) (tcp_log s ++ [l]).
Definition add_connection (fd : Z) (c : connection) (s : tcp_server) : tcp_server := TcpServer (<[fd := c]> (connections s)) (tcp_log s).

Definition tcp_on_close (fd : Z) (s : tcp_server) : tcp_server := log_tcp (TcpClosed fd) s.
(** [%.*s]: at most [readbytes] bytes, up to a null. *)
Definition until_null (data : text) : text := chars (c_string (string_of_list_ascii data)).
Definition tcp_on_recv (fd : Z) (buf : text) (readbytes : nat) (s : tcp_server) : tcp_server := log_tcp (TcpReceived fd (until_null (take readbytes buf))) s.
Definition tcp_on_accept (fd : Z) (s : tcp_server) : tcp_server := add_connection fd (MkConnection true true true) (log_tcp (TcpAccepted fd) s).

(** What the library does with an event: the callbacks that are registered;
    a closed connection is freed. *)
Inductive tcp_event := TcpAccept (fd : Z) | TcpData (fd : Z) (buf : text) | TcpClose (fd : Z).
Definition tcp_handle (e : tcp_event) (s : tcp_server) : tcp_server :=
  match e with
  | TcpAccept fd => tcp_on_accept fd s
  | TcpData fd buf =>
    match connections s !! fd with
    | Some c => if read_callback c && being_read c then tcp_on_recv fd buf (length buf) s else s
    | None => s
    end
  | TcpClose fd =>
    match connections s !! fd with
    | Some c => let s := if close_callback c then tcp_on_close fd s else s in TcpServer (delete fd (connections s)) (tcp_log s)
    | None => s
    end
  end.

(** The loop that makes the listening socket: the failures before it. *)
Fixpoint create_tcp_server (fuel : nat) (answers : nat -> bool) (i : nat) : option nat :=
  match fuel with
  | O => None
  | S fuel' => if answers i then Some i else create_tcp_server fuel' answers (S i)
  end.

Definition ccu_server_start_internal (fuel : nat) (answers : nat -> bool) (events : list tcp_event) : option tcp_server :=
  failures ← create_tcp_server fuel answers 0;
  Some (foldl (fun s e => tcp_handle e s) (TcpServer ∅ (replicate failures TcpCreateFailed)) events).

Lemma create_finds answers k : forall d i fuel, answers k = true -> (forall j, (i <= j < k)%nat -> answers j = false) -> (k = i + d)%nat -> (d < fuel)%nat ->
  create_tcp_server fuel answers i = Some k.
Proof.
  induction d as [|d IH]; intros i [|fuel] Hk Hb Hd Hf; try lia; cbn [create_tcp_server].
  - assert (k = i) as -> by lia. by rewrite Hk.
  - rewrite Hb by lia. apply IH; [done|intros j Hj; apply Hb; lia|lia|lia].
Qed.

Lemma create_never answers : (forall i, answers i = false) -> forall fuel i, create_tcp_server fuel answers i = None.
Proof. intros Ha fuel. induction fuel as [|fuel IH]; intros i; cbn [create_tcp_server]; [done|]. by rewrite Ha. Qed.

(** The lines of a session: a connection is heard from its acceptance to its
    end. *)
Fixpoint tcp_lines (open : gset Z) (events : list tcp_event) : list tcp_line :=
  match events with
  | [] => []
  | TcpAccept fd :: l => TcpAccepted fd :: tcp_lines ({[fd]} ∪ open) l
  | TcpData fd buf :: l => if bool_decide (fd ∈ open) then TcpReceived fd (until_null buf) :: tcp_lines open l else tcp_lines open l
  | TcpClose fd :: l => if bool_decide (fd ∈ open) then TcpClosed fd :: tcp_lines (open ∖ {[fd]}) l else tcp_lines open l
  end.

Definition all_heard (s : tcp_server) : Prop := map_Forall (fun _ c => c = MkConnection true true true) (connections s).

Lemma handle_all events : forall s, all_heard s ->
  tcp_log (foldl (fun s e => tcp_handle e s) s events) = tcp_log s ++ tcp_lines (dom (connections s)) events.
Proof.
  induction events as [|e events IH]; intros s Hs; cbn [foldl tcp_lines]; [by rewrite app_nil_r|]. destruct e as [fd|fd buf|fd]; cbn [tcp_handle].
  - rewrite IH by (by apply map_Forall_insert_2). cbn. by rewrite dom_insert_L, <- app_assoc.
  - destruct (connections s !! fd) as [c|] eqn:Hc.
    + rewrite (map_Forall_lookup_1 _ _ _ _ Hs Hc). cbn [read_callback being_read andb]. rewrite IH by done. cbn. rewrite firstn_all.
      rewrite bool_decide_eq_true_2 by (by eapply elem_of_dom_2). by rewrite <- app_assoc.
    + rewrite IH by done. rewrite bool_decide_eq_false_2; [done|]. by apply not_elem_of_dom.
  - destruct (connections s !! fd) as [c|] eqn:Hc.
    + rewrite (map_Forall_lookup_1 _ _ _ _ Hs Hc). cbn [close_callback]. rewrite IH by (by apply map_Forall_delete). cbn.
      rewrite bool_decide_eq_true_2 by (by eapply elem_of_dom_2). by rewrite dom_delete_L, <- app_assoc.
    + rewrite IH by done. rewrite bool_decide_eq_false_2; [done|]. by apply not_elem_of_dom.
Qed.

(** The server tries until the library makes its socket, one line for each
    failure, and then reports every connection from its acceptance to its end;
    while the library fails it does not return. *)
Theorem tcp_server_session answers k events fuel : answers k = true -> (forall j, (j < k)%nat -> answers j = false) -> (k < fuel)%nat ->
  (exists s, ccu_server_start_internal fuel answers events = Some s /\ tcp_log s = replicate k TcpCreateFailed ++ tcp_lines ∅ events) /\
  forall fuel', ccu_server_start_internal fuel' (fun _ => false) events = None.
Proof.
  intros Hk Hb Hf. unfold ccu_server_start_internal. rewrite (create_finds answers k k 0 fuel); [|done|intros; apply Hb; lia|lia|done].
  cbn [mbind option_bind]. split; [eexists; split; [done|]|].
  - rewrite handle_all by apply map_Forall_empty. cbn. by rewrite dom_empty_L.
  - intros fuel'. by rewrite create_never.
Qed.

Lemma tcp_server_session_witness : exists s, ccu_server_start_internal 3 (fun i => (1 <? i)%nat) [TcpAccept 5; TcpData 5 (chars "ab"); TcpClose 5] = Some s /\
  tcp_log s = [TcpCreateFailed; TcpCreateFailed; TcpAccepted 5; TcpReceived 5 (chars "ab"); TcpClosed 5].
Proof.
  exact (proj1 (tcp_server_session (fun i => (1 <? i)%nat) 2 [TcpAccept 5; TcpData 5 (chars "ab"); TcpClose 5] 3 eq_refl
    ltac:(intros j Hj; apply Nat.ltb_ge; lia) ltac:(lia))).
Defined.

(** ** The second way to the database *)

(** [open_ok] and [busy_ok] are the answers of SQLite; the result, the path
    and how many connections are left open. *)
Definition new_dataserver (open_ok busy_ok : bool) : outcome (bool * string * nat) :=
  path ← ub (dsn_to_string DSN_MAIN);
  if negb open_ok then Returns (false, path, 1%nat) else Returns (true, path, 1%nat).

(** The time of a statement in the trace, from nanoseconds in 64 bits. *)
Definition trace_elapse (elapse : Z) : Z := int32 (Z.quot elapse 1000000).

(** The connection is made for the main database, and never closed nor kept;
    whether the timeout could be set is not looked at. *)
Theorem new_dataserver_leaks open_ok busy_ok : new_dataserver open_ok busy_ok = Returns (open_ok, "../../db/main.db"%string, 1%nat).
Proof. by destruct open_ok. Qed.

(** The trace shows the milliseconds of a statement that takes less than 24
    days. *)
Theorem trace_elapse_exact n : 0 <= n < 2147483648 * 1000000 -> trace_elapse n = n / 1000000.
Proof.
  intros Hn. unfold trace_elapse. rewrite Z.quot_div_nonneg by lia. apply sint32_id. unfold in_int32, INT32_MIN, INT32_MAX.
  assert (0 <= n / 1000000) by (apply Z.div_pos; lia). assert (n / 1000000 < 2147483648) by (apply Z.div_lt_upper_bound; lia). lia.
Qed.

Lemma trace_elapse_exact_witness : trace_elapse 2500000 = 2.
Proof. rewrite (trace_elapse_exact 2500000); [reflexivity|lia]. Defined.
